(** * Linear sync engine: a shallow embedding and its properties

    The development embeds the bidirectional sync between file-based todos
    and Linear issues ([sync/linear.ts], with the API client
    [sync/linear-api.ts] and the types of [types/linear.ts]; the first two
    are found in [src/targets/cursor.ts]) and proves the properties the
    specification states about it.

    Conventions of the embedding:
    - JavaScript strings are [string]s of ASCII characters; [toLowerCase],
      [trim] and the regular expression classes act on ASCII.
    - ISO-8601 timestamps stay strings, as in the source.  [JsDate.parse]
      gives the instant (milliseconds since the epoch) of a timestamp in the
      UTC form that [toISOString] writes and the service sends; it answers
      [None], an Invalid Date whose comparisons are all false, for every
      other string.  What [new Date] makes of other forms (a date without a
      time, an offset, a local time) is not modelled: statements that
      compare timestamps take them to be of the covered form.
    - Numbers are integers ([Z]).  The source computes in doubles, which
      agree with the integers up to [Js.MAX_SAFE_INTEGER]; statements about
      the numbering of records stay within that range.
    - A lookup [map[key]] in a mapping table finds the table's own keys.
      The members every object inherits ([Js.inherited]) are not keys of
      the model: statements over arbitrary keys exclude them.
    - The file system is a finite map from paths to files; the remote
      service is a record holding its issues in listing order.  An issue is
      fetched by its identifier as the service writes it
      ([Api.canonical]).
    - One run reads one clock value; a file written during the run carries
      a modification time [write_lag] later than that reading.
    - Asynchronous functions become functions of the world; a thrown error
      is the [Err] result, and the effects performed before it persist. *)

From Stdlib Require Import ZArith Ascii String List Lia Sorted.
From stdpp Require Import gmap strings list fin_maps.

Local Open Scope Z_scope.

(** ** JavaScript string primitives *)

Module Js.

Definition is_upper (c : ascii) : bool :=
  let n := nat_of_ascii c in (65 <=? n)%nat && (n <=? 90)%nat.

Definition lower_ascii (c : ascii) : ascii :=
  if is_upper c then ascii_of_nat (nat_of_ascii c + 32) else c.

(** [String.prototype.toLowerCase] *)
Fixpoint toLowerCase (s : string) : string :=
  match s with
  | EmptyString => EmptyString
  | String c r => String (lower_ascii c) (toLowerCase r)
  end.

(** [s.split(sep)] for a one-character separator: never the empty list. *)
Fixpoint split (sep : ascii) (s : string) : list string :=
  match s with
  | EmptyString => [EmptyString]
  | String c r =>
      if Ascii.eqb c sep then EmptyString :: split sep r
      else match split sep r with
           | [] => [String c EmptyString]
           | h :: t => String c h :: t
           end
  end.

(** [parts.join(sep)] *)
Fixpoint join (sep : string) (l : list string) : string :=
  match l with
  | [] => EmptyString
  | [x] => x
  | x :: r => x +:+ sep +:+ join sep r
  end.

(** The white space of [\s] and of [trim], restricted to ASCII. *)
Definition is_space (c : ascii) : bool :=
  let n := nat_of_ascii c in
  ((9 <=? n)%nat && (n <=? 13)%nat) || (n =? 32)%nat.

(** Line terminators: what [.] does not match. *)
Definition is_newline (c : ascii) : bool :=
  let n := nat_of_ascii c in (n =? 10)%nat || (n =? 13)%nat.

Fixpoint trimStart (s : string) : string :=
  match s with
  | EmptyString => EmptyString
  | String c r => if is_space c then trimStart r else s
  end.

Fixpoint trimEnd (s : string) : string :=
  match s with
  | EmptyString => EmptyString
  | String c r =>
      match trimEnd r with
      | EmptyString => if is_space c then EmptyString else String c EmptyString
      | r' => String c r'
      end
  end.

Definition trim (s : string) : string := trimEnd (trimStart s).

Fixpoint takeWhile (p : ascii -> bool) (s : string) : string :=
  match s with
  | EmptyString => EmptyString
  | String c r => if p c then String c (takeWhile p r) else EmptyString
  end.

Fixpoint dropWhile (p : ascii -> bool) (s : string) : string :=
  match s with
  | EmptyString => EmptyString
  | String c r => if p c then dropWhile p r else s
  end.

(** [s.slice(0, n)] *)
Definition take (n : nat) (s : string) : string := substring 0 n s.

Fixpoint rev_onto (s acc : string) : string :=
  match s with
  | EmptyString => acc
  | String c r => rev_onto r (String c acc)
  end.

(** The string read backwards. *)
Definition rev (s : string) : string := rev_onto s EmptyString.

Fixpoint drop (n : nat) (s : string) : string :=
  match n, s with
  | O, _ => s
  | S k, EmptyString => EmptyString
  | S k, String _ r => drop k r
  end.

(** [s.startsWith(prefix)] *)
Fixpoint startsWith (s prefix : string) {struct prefix} : bool :=
  match prefix with
  | EmptyString => true
  | String a p =>
      match s with
      | EmptyString => false
      | String b r => Ascii.eqb a b && startsWith r p
      end
  end.

(** [s.endsWith(suffix)] *)
Definition endsWith (s suffix : string) : bool :=
  startsWith (rev s) (rev suffix).

(** [s.slice(0, s.length - n)] *)
Definition dropEnd (n : nat) (s : string) : string := rev (drop n (rev s)).

Definition is_digit (c : ascii) : bool :=
  let n := nat_of_ascii c in (48 <=? n)%nat && (n <=? 57)%nat.

Definition digit_val (c : ascii) : Z := Z.of_nat (nat_of_ascii c) - 48.

Fixpoint digits_val (acc : Z) (s : string) : Z :=
  match s with
  | EmptyString => acc
  | String c r => digits_val (10 * acc + digit_val c) r
  end.

(** [parseInt(s, 10)]: leading white space, an optional sign, then the
    longest run of digits; [None] is NaN. *)
Definition parseInt (s : string) : option Z :=
  let s1 := trimStart s in
  let '(neg, s2) :=
    match s1 with
    | String "-" r => (true, r)
    | String "+" r => (false, r)
    | _ => (false, s1)
    end in
  match takeWhile is_digit s2 with
  | EmptyString => None
  | ds => Some (if neg : bool then - digits_val 0 ds else digits_val 0 ds)
  end.

Definition digit_char (d : Z) : ascii := ascii_of_nat (Z.to_nat d + 48).

Fixpoint decimal_aux (fuel : nat) (n : Z) (acc : string) : string :=
  match fuel with
  | O => acc
  | S f =>
      let acc' := String (digit_char (n mod 10)) acc in
      if n / 10 =? 0 then acc' else decimal_aux f (n / 10) acc'
  end.

(** [String(n)] for an integer [n]. *)
Definition decimal (n : Z) : string :=
  if n <? 0 then String "-" (decimal_aux (Z.to_nat (- n) + 1) (- n) EmptyString)
  else decimal_aux (Z.to_nat n + 1) n EmptyString.

Fixpoint repeat_char (c : ascii) (n : nat) : string :=
  match n with
  | O => EmptyString
  | S k => String c (repeat_char c k)
  end.

(** [s.padStart(width, "0")] *)
Definition padStart0 (width : nat) (s : string) : string :=
  repeat_char "0" (width - String.length s) +:+ s.

(** [Number.MAX_SAFE_INTEGER]: up to it, the doubles of the source are the
    integers, [parseInt] of a digit string is exact and [String(n)] is the
    decimal numeral. *)
Definition MAX_SAFE_INTEGER : Z := 2 ^ 53 - 1.

(** The names of the members an object literal inherits from
    [Object.prototype]: [obj[key]] is defined for them although [key] is no
    key of [obj]. *)
Definition inherited_names : list string :=
  [ "constructor"; "hasOwnProperty"; "isPrototypeOf"; "propertyIsEnumerable";
    "toLocaleString"; "toString"; "valueOf"; "__proto__";
    "__defineGetter__"; "__defineSetter__"; "__lookupGetter__";
    "__lookupSetter__" ].

Definition inherited (key : string) : bool :=
  existsb (String.eqb key) inherited_names.

End Js.

(** ** Types of [types/linear.ts] *)

Record StatusMap := mkStatusMap {
  sm_pending : string;
  sm_ready : string;
  sm_in_progress : string;
  sm_complete : string;
  sm_cancelled : string
}.

Record PriorityMap := mkPriorityMap {
  pm_p1 : Z;
  pm_p2 : Z;
  pm_p3 : Z
}.

Record LinearConfig := mkLinearConfig {
  teamId : string;
  teamKey : string;
  projectId : option string;
  apiKey : string;
  statusMap : StatusMap;
  priorityMap : PriorityMap
}.

Record LinearState := mkLinearState {
  state_id : string;
  state_name : string;
  state_type : string
}.

Record LinearUser := mkLinearUser {
  user_name : string;
  user_displayName : string
}.

Record LinearComment := mkLinearComment {
  comment_id : string;
  comment_body : string;
  comment_createdAt : string;
  comment_updatedAt : string;
  comment_user : option LinearUser
}.

Record LinearIssue := mkLinearIssue {
  issue_uuid : string;                       (* id *)
  issue_identifier : string;                 (* e.g. "ENG-142" *)
  issue_title : string;
  issue_description : option string;
  issue_state : string * string;             (* state { id name } *)
  issue_priority : Z;                        (* 0=None, 1=Urgent, 2=High, 3=Normal, 4=Low *)
  issue_parent : option (string * string);
  issue_comments : option (list LinearComment);
  issue_updatedAt : string;
  issue_createdAt : string;
  issue_labels : option (list string)        (* the label names *)
}.

Definition issue_stateId (i : LinearIssue) : string := fst (issue_state i).
Definition issue_stateName (i : LinearIssue) : string := snd (issue_state i).

Record TodoFrontmatter := mkTodoFrontmatter {
  fm_status : string;
  fm_priority : string;
  fm_issue_id : string;
  fm_tags : list string;
  fm_dependencies : list string;
  fm_linear_id : option string;
  fm_linear_synced_at : option string
}.

Record TodoFile := mkTodoFile {
  todo_path : string;
  todo_frontmatter : TodoFrontmatter;
  todo_body : string
}.

Inductive Winner := WFile | WLinear.

Record ConflictEntry := mkConflictEntry {
  ce_file : string;
  ce_linearId : string;
  ce_field : string;
  ce_fileValue : string;
  ce_linearValue : string;
  ce_winner : Winner;
  ce_reason : string
}.

Record SyncResult := mkSyncResult {
  pushed_created : Z;
  pushed_updated : Z;
  pulled_updated : Z;
  pulled_comments : Z;
  pulled_created : Z;
  conflicts : list ConflictEntry;
  skipped : Z;
  errors : list string
}.

Definition DEFAULT_STATUS_MAP : StatusMap :=
  {| sm_pending := "Triage";
     sm_ready := "Todo";
     sm_in_progress := "In Progress";
     sm_complete := "Done";
     sm_cancelled := "Cancelled" |}.

Definition DEFAULT_PRIORITY_MAP : PriorityMap :=
  {| pm_p1 := 1; pm_p2 := 2; pm_p3 := 3 |}.

(** ** Mapping helpers *)

Module Mapping.

(** [Object.entries(map)] of a [StatusMap], in the order of its fields. *)
Definition status_entries (m : StatusMap) : list (string * string) :=
  [ ("pending", sm_pending m);
    ("ready", sm_ready m);
    ("in_progress", sm_in_progress m);
    ("complete", sm_complete m);
    ("cancelled", sm_cancelled m) ].

(** [(map as Record<string, string>)[status]] for a [status] that is not
    [Js.inherited]: the table's own keys, [None] for [undefined]. *)
Definition status_get (m : StatusMap) (status : string) : option string :=
  snd <$> find (fun e => String.eqb (fst e) status) (status_entries m).

Definition priority_entries (m : PriorityMap) : list (string * Z) :=
  [ ("p1", pm_p1 m); ("p2", pm_p2 m); ("p3", pm_p3 m) ].

(** [map[priority]] for a [priority] that is not [Js.inherited]. *)
Definition priority_get (m : PriorityMap) (priority : string) : option Z :=
  snd <$> find (fun e => String.eqb (fst e) priority) (priority_entries m).

(** The closed local enumerations. *)
Definition statuses : list string :=
  ["pending"; "ready"; "in_progress"; "complete"; "cancelled"].

Definition priorities : list string := ["p1"; "p2"; "p3"].

(** Case-insensitive equality of two names, as the source compares them. *)
Definition same_name (a b : string) : bool :=
  String.eqb (Js.toLowerCase a) (Js.toLowerCase b).

Definition fileStatusToLinearState
    (status : string) (states : list LinearState) (config : LinearConfig)
    : option LinearState :=
  let map := statusMap config in
  match status_get map status with
  | None => None
  | Some targetName =>
      if String.eqb targetName "" then None
      else find (fun s => same_name (state_name s) targetName) states
  end.

Definition linearStateToFileStatus
    (stateName : string) (config : LinearConfig) : option string :=
  let map := statusMap config in
  fst <$> find (fun e => same_name (snd e) stateName) (status_entries map).

Definition filePriorityToLinear (priority : string) (config : LinearConfig) : Z :=
  let map := priorityMap config in
  default 3 (priority_get map priority).

Definition linearPriorityToFile (priority : Z) (_config : LinearConfig) : string :=
  if priority <=? 1 then "p1"
  else if priority =? 2 then "p2"
  else "p3".

(** The status map names are usable for a round trip: none is empty and no
    two of them agree up to case. *)
Definition distinct_names (m : StatusMap) : Prop :=
  Forall (fun e => snd e <> "") (status_entries m) /\
  NoDup (map (fun e => Js.toLowerCase (snd e)) (status_entries m)).

(** The priority map agrees with the fixed thresholds of
    [linearPriorityToFile]. *)
Definition aligned_priorities (m : PriorityMap) : Prop :=
  pm_p1 m <= 1 /\ pm_p2 m = 2 /\ 3 <= pm_p3 m.

End Mapping.

Definition defaultConfig : LinearConfig :=
  {| teamId := "team-1"; teamKey := "ENG"; projectId := None; apiKey := "key";
     statusMap := DEFAULT_STATUS_MAP; priorityMap := DEFAULT_PRIORITY_MAP |}.

(** ** Node's [path] module (POSIX flavour) *)

Module Path.

Definition slash : ascii := "/"%char.

Definition is_slash (c : ascii) : bool := Ascii.eqb c slash.
Definition not_slash (c : ascii) : bool := negb (Ascii.eqb c slash).

(** No character of [s] is [c]. *)
Fixpoint lacks (c : ascii) (s : string) : bool :=
  match s with
  | EmptyString => true
  | String x r => negb (Ascii.eqb x c) && lacks c r
  end.

(** A segment that normalisation keeps as it is. *)
Definition plain (seg : string) : bool :=
  negb (String.eqb seg "") && negb (String.eqb seg ".") && negb (String.eqb seg "..").

(** The last segment of a path, trailing slashes ignored. *)
Definition last_segment (p : string) : string :=
  Js.rev (Js.takeWhile not_slash (Js.dropWhile is_slash (Js.rev p))).

(** [path.dirname(p)]: the scan runs from the end of the path down to index
    1, first over the trailing slashes, then over the last segment, and stops
    at the slash before it. *)
Definition dirname (p : string) : string :=
  match p with
  | EmptyString => "."
  | String c0 rest =>
      let hasRoot := is_slash c0 in
      let r1 := Js.dropWhile is_slash (Js.rev rest) in
      match Js.dropWhile not_slash r1 with
      | EmptyString => if hasRoot then "/" else "."
      | String _ r3 =>
          match r3 with
          | EmptyString => if hasRoot then "//" else String c0 EmptyString
          | _ => String c0 (Js.rev r3)
          end
      end
  end.

(** The slashes a path ends with. *)
Definition trailing_slashes (p : string) : string :=
  Js.rev (Js.takeWhile is_slash (Js.rev p)).

(** [path.basename(p, ext)]: the scan runs backwards over the last segment
    and matches it against [ext]; when the segment ends before [ext] is
    matched through, the result runs to the end of the path, trailing
    slashes included. *)
Definition basename_ext (p ext : string) : string :=
  if negb (String.eqb ext "") && (String.length ext <=? String.length p)%nat then
    if String.eqb ext p then ""
    else
      let seg := last_segment p in
      if Js.endsWith seg ext && negb (String.eqb seg ext)
      then Js.dropEnd (String.length ext) seg
      else if Js.endsWith ext seg && negb (String.eqb seg ext)
      then seg +:+ trailing_slashes p
      else seg
  else last_segment p.

(** [path.basename(p)] *)
Definition basename (p : string) : string := last_segment p.

(** The segment stack of [normalizeString]: [stack] holds the segments kept
    so far, innermost first. *)
Fixpoint normalizeSegments (allowAboveRoot : bool) (stack segs : list string)
    : list string :=
  match segs with
  | [] => rev stack
  | seg :: rest =>
      if String.eqb seg "" || String.eqb seg "." then
        normalizeSegments allowAboveRoot stack rest
      else if String.eqb seg ".." then
        match stack with
        | top :: below =>
            if String.eqb top ".."
            then normalizeSegments allowAboveRoot (".." :: stack) rest
            else normalizeSegments allowAboveRoot below rest
        | [] =>
            if allowAboveRoot
            then normalizeSegments allowAboveRoot [".."] rest
            else normalizeSegments allowAboveRoot [] rest
        end
      else normalizeSegments allowAboveRoot (seg :: stack) rest
  end.

Definition normalizeString (p : string) (allowAboveRoot : bool) : string :=
  Js.join "/" (normalizeSegments allowAboveRoot [] (Js.split slash p)).

(** [path.normalize(p)] *)
Definition normalize (p : string) : string :=
  match p with
  | EmptyString => "."
  | String c0 _ =>
      let isAbsolute := is_slash c0 in
      let trailingSeparator := Js.endsWith p "/" in
      let q := normalizeString p (negb isAbsolute) in
      if String.eqb q "" then
        if isAbsolute then "/" else if trailingSeparator then "./" else "."
      else
        let q' := if trailingSeparator then q +:+ "/" else q in
        if isAbsolute then "/" +:+ q' else q'
  end.

(** [path.join(a, b)] *)
Definition join (a b : string) : string :=
  match String.eqb a "", String.eqb b "" with
  | true, true => "."
  | true, false => normalize b
  | false, true => normalize a
  | false, false => normalize (a +:+ "/" +:+ b)
  end.

(** A normalised directory path, absolute or relative: plain segments
    separated by single slashes, without a trailing slash. *)
Definition clean (dir : string) : bool :=
  match dir with
  | String "/" rest => forallb plain (Js.split slash rest)
  | _ => forallb plain (Js.split slash dir)
  end.

End Path.

(** ** JavaScript dates

    A [Date] is its time value, [None] for an Invalid Date.  The parser
    covers the UTC date-time form of ISO 8601 that [toISOString] writes and
    the Linear API returns, with or without milliseconds; where it answers
    [Some t], [t] is the time value of [new Date(s)].  Other strings, among
    them forms that [new Date] accepts (a date alone, an offset, the hour
    24), come out as [None]. *)

Module JsDate.

Definition Date := option Z.

(** Days from 1970-01-01 to the given civil date (proleptic Gregorian). *)
Definition days_from_civil (y m d : Z) : Z :=
  let y' := if m <=? 2 then y - 1 else y in
  let era := y' / 400 in
  let yoe := y' - era * 400 in
  let mp := (m + 9) mod 12 in
  let doy := (153 * mp + 2) / 5 + d - 1 in
  let doe := yoe * 365 + yoe / 4 - yoe / 100 + doy in
  era * 146097 + doe - 719468.

(** The civil date of a day number: (year, month, day). *)
Definition civil_from_days (z : Z) : Z * Z * Z :=
  let z' := z + 719468 in
  let era := z' / 146097 in
  let doe := z' - era * 146097 in
  let yoe := (doe - doe / 1460 + doe / 36524 - doe / 146096) / 365 in
  let doy := doe - (365 * yoe + yoe / 4 - yoe / 100) in
  let mp := (5 * doy + 2) / 153 in
  let d := doy - (153 * mp + 2) / 5 + 1 in
  let m := if mp <? 10 then mp + 3 else mp - 9 in
  let y := yoe + era * 400 in
  (if m <=? 2 then y + 1 else y, m, d).

Definition is_leap (y : Z) : bool :=
  ((y mod 4 =? 0) && negb (y mod 100 =? 0)) || (y mod 400 =? 0).

Definition days_in_month (y m : Z) : Z :=
  if m =? 2 then (if is_leap y then 29 else 28)
  else if (m =? 4) || (m =? 6) || (m =? 9) || (m =? 11) then 30
  else 31.

Fixpoint all_digits (s : string) : bool :=
  match s with
  | EmptyString => true
  | String c r => Js.is_digit c && all_digits r
  end.

(** The decimal field of [len] digits starting at [start]. *)
Definition field (s : string) (start len : nat) : option Z :=
  let f := substring start len s in
  if (String.length f =? len)%nat && all_digits f
  then Some (Js.digits_val 0 f) else None.

Definition char_is (s : string) (i : nat) (c : ascii) : bool :=
  match String.get i s with
  | Some c' => Ascii.eqb c' c
  | None => false
  end.

(** [new Date(s).getTime()] *)
Definition parse (s : string) : Date :=
  y ← field s 0 4;
  mo ← field s 5 2;
  d ← field s 8 2;
  h ← field s 11 2;
  mi ← field s 14 2;
  se ← field s 17 2;
  ms ← (if (String.length s =? 20)%nat && char_is s 19 "Z" then Some 0
        else if (String.length s =? 24)%nat && char_is s 19 "." && char_is s 23 "Z"
             then field s 20 3
             else None);
  if char_is s 4 "-" && char_is s 7 "-" && char_is s 10 "T"
     && char_is s 13 ":" && char_is s 16 ":"
     && (1 <=? mo) && (mo <=? 12) && (1 <=? d) && (d <=? days_in_month y mo)
     && (h <=? 23) && (mi <=? 59) && (se <=? 59)
  then Some ((((days_from_civil y mo d * 24 + h) * 60 + mi) * 60 + se) * 1000 + ms)
  else None.

(** [a > b] on dates: false as soon as one side is invalid. *)
Definition gt (a b : Date) : bool :=
  match a, b with
  | Some x, Some y => y <? x
  | _, _ => false
  end.

(** [a <= b] on dates. *)
Definition le (a b : Date) : bool :=
  match a, b with
  | Some x, Some y => x <=? y
  | _, _ => false
  end.

Definition pad (width : nat) (n : Z) : string := Js.padStart0 width (Js.decimal n).

(** [new Date(t).toISOString()], for the years 0000 to 9999. *)
Definition toISOString (t : Z) : string :=
  let days := t / 86400000 in
  let rem := t mod 86400000 in
  let '(y, m, d) := civil_from_days days in
  pad 4 y +:+ "-" +:+ pad 2 m +:+ "-" +:+ pad 2 d +:+ "T"
  +:+ pad 2 (rem / 3600000) +:+ ":" +:+ pad 2 ((rem / 60000) mod 60) +:+ ":"
  +:+ pad 2 ((rem / 1000) mod 60) +:+ "." +:+ pad 3 (rem mod 1000) +:+ "Z".

(** [iso.split("T")[0]]: the calendar date of a timestamp string. *)
Definition date_part (iso : string) : string :=
  hd EmptyString (Js.split "T" iso).

End JsDate.

(** ** Results, and the state-and-error monad of the asynchronous code *)

Inductive Res (A : Type) : Type :=
| Ok (a : A)
| Err (msg : string).

Arguments Ok {A} a.
Arguments Err {A} msg.

Global Instance res_fmap : FMap Res :=
  fun A B f r => match r with Ok a => Ok (f a) | Err e => Err e end.

(** A computation over a state [S]: it returns a value or throws, and in
    both cases leaves the state it reached. *)
Definition SE (S A : Type) : Type := S -> Res A * S.

Definition se_ret {S A} (a : A) : SE S A := fun s => (Ok a, s).

Definition se_bind {S A B} (m : SE S A) (k : A -> SE S B) : SE S B :=
  fun s =>
    match m s with
    | (Ok a, s') => k a s'
    | (Err e, s') => (Err e, s')
    end.

Definition throw {S A} (msg : string) : SE S A := fun s => (Err msg, s).

(** [try { body } catch (err) { handler(err.message) }] *)
Definition try_catch {S A} (body : SE S A) (handler : string -> SE S A) : SE S A :=
  fun s =>
    match body s with
    | (Ok a, s') => (Ok a, s')
    | (Err e, s') => handler e s'
    end.

Definition gets {S A} (f : S -> A) : SE S A := fun s => (Ok (f s), s).
Definition modify {S} (f : S -> S) : SE S unit := fun s => (Ok tt, f s).

Declare Scope se_scope.
Delimit Scope se_scope with se.
Notation "x <- m ;; k" := (se_bind m (fun x => k))
  (at level 100, m at next level, right associativity) : se_scope.
Notation "m ;; k" := (se_bind m (fun _ => k))
  (at level 100, right associativity) : se_scope.

(** ** The file store *)

Module Store.

(** Modelled from the spec: the metadata codec ([utils/frontmatter], not part
    of the sources at hand) reads a file into a key-value map and a body text
    and writes them back without loss, for strings and string arrays.  A
    file's text is therefore kept as that pair. *)
Inductive Value :=
| VStr (s : string)
| VArr (l : list string).

Record File := mkFile {
  file_data : gmap string Value;
  file_body : string;
  file_mtime : Z
}.

(** [String(v)] *)
Definition String_of (v : Value) : string :=
  match v with
  | VStr s => s
  | VArr l => Js.join "," l
  end.

(** JavaScript truthiness of a metadata value ([undefined] is [None]). *)
Definition truthy (v : option Value) : bool :=
  match v with
  | Some (VStr s) => negb (String.eqb s "")
  | Some (VArr _) => true
  | None => false
  end.

(** Truthiness of an optional string. *)
Definition set (s : option string) : bool :=
  match s with
  | Some s => negb (String.eqb s "")
  | None => false
  end.

(** [Array.isArray(v) ? v.map(String) : []] *)
Definition strings_of (v : option Value) : list string :=
  match v with
  | Some (VArr l) => l
  | _ => []
  end.

(** [v ? String(v) : undefined] *)
Definition string_opt (v : option Value) : option string :=
  if truthy v then String_of <$> v else None.

End Store.

Import Store.

(** ** The remote service *)

(** Modelled from the spec: the issue tracker behind [linear-api.ts] is an
    external service.  It holds the issues of the configured team in listing
    order, the workflow states of the team, and the number of the next issue
    it creates. *)
Record Remote := mkRemote {
  remote_issues : list LinearIssue;
  remote_states : list LinearState;
  remote_teamKey : string;
  remote_next : Z
}.

(** The world of one run: the files, the service, the reading of the
    clock, and the time a write takes to reach the disk (not negative on a
    real machine). *)
Record World := mkWorld {
  fs : gmap string File;
  remote : Remote;
  clock : Z;
  write_lag : Z
}.

Definition W (A : Type) : Type := SE World A.

Definition set_fs (f : gmap string File -> gmap string File) (w : World) : World :=
  {| fs := f (fs w); remote := remote w; clock := clock w;
     write_lag := write_lag w |}.

Definition set_remote (f : Remote -> Remote) (w : World) : World :=
  {| fs := fs w; remote := f (remote w); clock := clock w;
     write_lag := write_lag w |}.

Local Open Scope se_scope.

(** ** File-system primitives ([utils/files] and Node's [fs])

    Modelled from the spec: the helpers of [utils/files] are not part of the
    sources at hand; they are the existence check, the recursive directory
    walk, and reading and writing a text, here over a finite map from paths
    to files.  Directories are implicit. *)

Module Fs.

(** The text of a file, already split by the codec. *)
Definition Text : Type := gmap string Value * string.

Definition parseFrontmatter (raw : Text) : gmap string Value * string := raw.

Definition formatFrontmatter (data : gmap string Value) (body : string) : Text :=
  (data, body).

Definition enoent (op path : string) : string :=
  "ENOENT: no such file or directory, " +:+ op +:+ " '" +:+ path +:+ "'".

Definition readText (path : string) : W Text :=
  fun w =>
    match fs w !! path with
    | Some f => (Ok (file_data f, file_body f), w)
    | None => (Err (enoent "open" path), w)
    end.

(** The modification time of a file written now: the write lands
    [write_lag] after the reading of the clock, so after every stamp taken
    before it. *)
Definition landing (w : World) : Z := clock w + write_lag w.

Definition writeText (path : string) (content : Text) : W unit :=
  fun w =>
    (Ok tt,
     set_fs (insert path {| file_data := fst content;
                            file_body := snd content;
                            file_mtime := landing w |}) w).

(** [fs.rename]: the file moves with its modification time and replaces
    whatever was at the new path. *)
Definition rename (oldPath newPath : string) : W unit :=
  fun w =>
    match fs w !! oldPath with
    | Some f => (Ok tt, set_fs (fun m => <[newPath := f]> (delete oldPath m)) w)
    | None => (Err (enoent "rename" oldPath), w)
    end.

(** [(await fs.stat(path)).mtime] *)
Definition getFileMtime (path : string) : W Z :=
  fun w =>
    match fs w !! path with
    | Some f => (Ok (file_mtime f), w)
    | None => (Err (enoent "stat" path), w)
    end.

Definition under (dir path : string) : bool :=
  Js.startsWith path (dir +:+ "/").

(** [walkFiles(dir)]: every file below [dir]; a directory that does not
    exist has none. *)
Definition walkFiles (dir : string) : W (list string) :=
  gets (fun w => filter (fun p => Is_true (under dir p)) (map fst (map_to_list (fs w)))).

(** [new Date().toISOString()] *)
Definition now_iso : W string :=
  gets (fun w => JsDate.toISOString (clock w)).

End Fs.

(** ** The API client ([linear-api.ts]) over the remote service *)

Module Api.

Record CreateInput := mkCreateInput {
  ci_teamId : string;
  ci_title : string;
  ci_description : option string;
  ci_priority : option Z;
  ci_stateId : option string;
  ci_parentId : option string;
  ci_projectId : option string
}.

Record UpdateInput := mkUpdateInput {
  ui_title : option string;
  ui_priority : option Z;
  ui_stateId : option string
}.

(** [Object.keys(input).length > 0] *)
Definition nonempty_input (i : UpdateInput) : bool :=
  match ui_title i, ui_priority i, ui_stateId i with
  | None, None, None => false
  | _, _, _ => true
  end.

(** An identifier as the service writes it: a team key without hyphen, a
    hyphen, and the decimal numeral of a safe integer. *)
Definition canonical (identifier : string) : bool :=
  match Js.split "-" identifier with
  | [key; number] =>
      match Js.parseInt number with
      | Some n => String.eqb number (Js.decimal n) && (n <=? Js.MAX_SAFE_INTEGER)
      | None => false
      end
  | _ => false
  end.

Definition find_issue (identifier : string) (r : Remote) : option LinearIssue :=
  find (fun i => String.eqb (issue_identifier i) identifier) (remote_issues r).

(** The client splits the identifier at the hyphens and asks for the issue
    with the first part as team key and [parseInt] of the second as number.
    For a [canonical] identifier that is the issue carrying the identifier,
    which is what the model looks up; the client throws when there is none.
    An identifier in another spelling (a padded number, text after the
    number) is looked up as it is written, where the client would ask for
    the number it parses. *)
Definition getIssueByIdentifier (identifier : string) : W LinearIssue :=
  fun w =>
    match find_issue identifier (remote w) with
    | Some i => (Ok i, w)
    | None => (Err ("Linear issue " +:+ identifier +:+ " not found"), w)
    end.

(** The query asks for the first 100 issues. *)
Definition listIssues : W (list LinearIssue) :=
  gets (fun w => firstn 100 (remote_issues (remote w))).

Definition listStates (_teamId : string) : W (list LinearState) :=
  gets (fun w => remote_states (remote w)).

Definition state_by_id (sid : string) (r : Remote) : option LinearState :=
  find (fun s => String.eqb (state_id s) sid) (remote_states r).

(** The state a mutation sets: the named one, the current one when the input
    names none, nothing when the named one does not exist. *)
Definition resolve_state (sid : option string) (current : option (string * string))
    (r : Remote) : option (string * string) :=
  match sid with
  | Some s => (fun st => (state_id st, state_name st)) <$> state_by_id s r
  | None => current
  end.

Definition createIssue (input : CreateInput) : W LinearIssue :=
  fun w =>
    let r := remote w in
    let initial := (fun st => (state_id st, state_name st)) <$> head (remote_states r) in
    match resolve_state (ci_stateId input) initial r with
    | None => (Err "Linear issueCreate mutation returned success: false", w)
    | Some st =>
        let now := JsDate.toISOString (clock w) in
        let issue :=
          {| issue_uuid := "uuid-" +:+ Js.decimal (remote_next r);
             issue_identifier := remote_teamKey r +:+ "-" +:+ Js.decimal (remote_next r);
             issue_title := ci_title input;
             issue_description := ci_description input;
             issue_state := st;
             issue_priority := default 0 (ci_priority input);
             issue_parent := None;
             issue_comments := Some [];
             issue_updatedAt := now;
             issue_createdAt := now;
             issue_labels := Some [] |} in
        (Ok issue,
         set_remote (fun r => {| remote_issues := remote_issues r ++ [issue];
                                 remote_states := remote_states r;
                                 remote_teamKey := remote_teamKey r;
                                 remote_next := remote_next r + 1 |}) w)
    end.

Definition apply_update (input : UpdateInput) (st : string * string) (now : string)
    (i : LinearIssue) : LinearIssue :=
  {| issue_uuid := issue_uuid i;
     issue_identifier := issue_identifier i;
     issue_title := default (issue_title i) (ui_title input);
     issue_description := issue_description i;
     issue_state := st;
     issue_priority := default (issue_priority i) (ui_priority input);
     issue_parent := issue_parent i;
     issue_comments := issue_comments i;
     issue_updatedAt := now;
     issue_createdAt := issue_createdAt i;
     issue_labels := issue_labels i |}.

Definition updateIssue (issueId : string) (input : UpdateInput) : W LinearIssue :=
  fun w =>
    let r := remote w in
    let failed := "Linear issueUpdate mutation returned success: false for " +:+ issueId in
    match find (fun i => String.eqb (issue_uuid i) issueId) (remote_issues r) with
    | None => (Err failed, w)
    | Some old =>
        match resolve_state (ui_stateId input) (Some (issue_state old)) r with
        | None => (Err failed, w)
        | Some st =>
            let new := apply_update input st (JsDate.toISOString (clock w)) old in
            (Ok new,
             set_remote (fun r =>
               {| remote_issues :=
                    map (fun i => if String.eqb (issue_uuid i) issueId then new else i)
                        (remote_issues r);
                  remote_states := remote_states r;
                  remote_teamKey := remote_teamKey r;
                  remote_next := remote_next r |}) w)
        end
    end.

End Api.

(** ** The sync engine ([sync/linear.ts]) *)

Module Engine.

Import Mapping Fs.

(** *** File parsing *)

Definition frontmatter_of (data : gmap string Value) : TodoFrontmatter :=
  {| fm_status := default "" (String_of <$> data !! "status");
     fm_priority := default "" (String_of <$> data !! "priority");
     fm_issue_id := default "" (String_of <$> data !! "issue_id");
     fm_tags := strings_of (data !! "tags");
     fm_dependencies := strings_of (data !! "dependencies");
     fm_linear_id := string_opt (data !! "linear_id");
     fm_linear_synced_at := string_opt (data !! "linear_synced_at") |}.

(** A file counts as a todo when status, priority and issue_id are all
    truthy. *)
Definition is_todo (data : gmap string Value) : bool :=
  truthy (data !! "status") && truthy (data !! "priority")
  && truthy (data !! "issue_id").

Fixpoint loadEach (paths : list string) : W (list TodoFile) :=
  match paths with
  | [] => se_ret []
  | filePath :: rest =>
      raw <- readText filePath ;;
      let '(data, body) := parseFrontmatter raw in
      todos <- loadEach rest ;;
      se_ret (if is_todo data
              then {| todo_path := filePath;
                      todo_frontmatter := frontmatter_of data;
                      todo_body := body |} :: todos
              else todos)
  end.

Definition loadTodoFiles (todosDir : string) : W (list TodoFile) :=
  files <- walkFiles todosDir ;;
  loadEach (List.filter (fun f => Js.endsWith f ".md") files).

(** *** Titles *)

(** The capture of [/^#\s+(.+)/] tried right after a [#] at the start of a
    line: [\s+] takes the white space run, [(.+)] the rest of the line; when
    the run reaches the end of the text the pattern backtracks into it and
    the capture is white space. *)
Fixpoint has_inner_blank (run : string) (first : bool) : bool :=
  match run with
  | EmptyString => false
  | String c r =>
      (negb first && negb (Js.is_newline c)) || has_inner_blank r false
  end.

Definition title_after_hash (s : string) : option string :=
  let run := Js.takeWhile Js.is_space s in
  let rest := Js.dropWhile Js.is_space s in
  match run, rest with
  | EmptyString, _ => None
  | _, String _ _ => Some (Js.takeWhile (fun c => negb (Js.is_newline c)) rest)
  | _, EmptyString => if has_inner_blank run true then Some " " else None
  end.

(** The leftmost match over the line starts of the body. *)
Fixpoint title_scan (s : string) (lineStart : bool) : option string :=
  match s with
  | EmptyString => None
  | String c r =>
      let here :=
        if lineStart && Ascii.eqb c "#" then title_after_hash r else None in
      match here with
      | Some t => Some t
      | None => title_scan r (Js.is_newline c)
      end
  end.

Definition extractTitle (body : string) : string :=
  match title_scan body true with
  | Some t => Js.trim t
  | None => "Untitled"
  end.

(** *** File mutation helpers *)

Definition renameTodoFile (oldPath newStatus newPriority : string) : string :=
  let dir := Path.dirname oldPath in
  let basename := Path.basename_ext oldPath ".md" in
  let parts := Js.split "-" basename in
  if (length parts <? 4)%nat then oldPath
  else
    let issueId := hd EmptyString parts in
    let description := Js.join "-" (skipn 3 parts) in
    Path.join dir
      (issueId +:+ "-" +:+ newStatus +:+ "-" +:+ newPriority +:+ "-"
       +:+ description +:+ ".md").

(** The naming contract: the path of the todo [issueId]-[status]-[priority]-
    [slug].md in the directory [dir]. *)
Definition todoName (dir issueId status priority slug : string) : string :=
  dir +:+ "/" +:+ issueId +:+ "-" +:+ status +:+ "-" +:+ priority +:+ "-"
  +:+ slug +:+ ".md".

(** A filename token: free of hyphens and of slashes. *)
Definition token (s : string) : bool :=
  Path.lacks "-" s && Path.lacks "/" s.

(** [updates.linear_synced_at ?? now] *)
Definition stamp (updates : gmap string Value) (now : string) : Value :=
  default (VStr now) (updates !! "linear_synced_at").

(** [{ ...data, ...updates }], with the sync stamp when the updates touch a
    tracking field. *)
Definition merge_updates (data updates : gmap string Value) (now : string)
    : gmap string Value :=
  let merged := updates ∪ data in
  if bool_decide (is_Some (updates !! "linear_id"))
     || bool_decide (is_Some (updates !! "linear_synced_at"))
  then <["linear_synced_at" := stamp updates now]> merged
  else merged.

Definition updateTodoFrontmatter (filePath : string) (updates : gmap string Value)
    : W unit :=
  raw <- readText filePath ;;
  let '(data, body) := parseFrontmatter raw in
  now <- now_iso ;;
  writeText filePath (formatFrontmatter (merge_updates data updates now) body).

(** *** Push operations *)

Definition pushCreate (todo : TodoFile) (config : LinearConfig)
    (states : list LinearState) (parentLinearId : option string)
    (skipFileWrite : bool) : W string :=
  let title := extractTitle (todo_body todo) in
  let state := fileStatusToLinearState (fm_status (todo_frontmatter todo)) states config in
  let priority := filePriorityToLinear (fm_priority (todo_frontmatter todo)) config in
  issue <- Api.createIssue
             {| Api.ci_teamId := teamId config;
                Api.ci_title := title;
                Api.ci_description := Some (Js.trim (todo_body todo));
                Api.ci_priority := Some priority;
                Api.ci_stateId := state_id <$> state;
                Api.ci_parentId := parentLinearId;
                Api.ci_projectId := projectId config |} ;;
  (if skipFileWrite then se_ret tt
   else
     now <- now_iso ;;
     updateTodoFrontmatter (todo_path todo)
       (<["linear_id" := VStr (issue_identifier issue)]>
          {["linear_synced_at" := VStr now]})) ;;
  se_ret (issue_identifier issue).

(** The fields of the update: only those that differ from the issue. *)
Definition pushInput (todo : TodoFile) (config : LinearConfig)
    (states : list LinearState) (issue : LinearIssue) : Api.UpdateInput :=
  let state := fileStatusToLinearState (fm_status (todo_frontmatter todo)) states config in
  let priority := filePriorityToLinear (fm_priority (todo_frontmatter todo)) config in
  let title := extractTitle (todo_body todo) in
  {| Api.ui_stateId :=
       match state with
       | Some s => if String.eqb (state_id s) (issue_stateId issue)
                   then None else Some (state_id s)
       | None => None
       end;
     Api.ui_priority :=
       if priority =? issue_priority issue then None else Some priority;
     Api.ui_title :=
       if String.eqb title (issue_title issue) then None else Some title |}.

Definition pushUpdate (todo : TodoFile) (config : LinearConfig)
    (states : list LinearState) : W unit :=
  match fm_linear_id (todo_frontmatter todo) with
  | Some linearId =>
      if String.eqb linearId "" then se_ret tt
      else
        issue <- Api.getIssueByIdentifier linearId ;;
        let input := pushInput todo config states issue in
        (if Api.nonempty_input input
         then (_ <- Api.updateIssue (issue_uuid issue) input ;; se_ret tt)
         else se_ret tt) ;;
        now <- now_iso ;;
        updateTodoFrontmatter (todo_path todo) {["linear_synced_at" := VStr now]}
  | None => se_ret tt
  end.

(** *** Pull operations *)

(** [String(data.key)]; a missing key gives the text "undefined". *)
Definition String_of_field (v : option Value) : string :=
  match v with
  | Some v => String_of v
  | None => "undefined"
  end.

Record PullResult := mkPullResult {
  changed : bool;
  newPath : option string
}.

Definition pullStateFromIssue (issue : LinearIssue) (todoPath : string)
    (config : LinearConfig) : W PullResult :=
  raw <- readText todoPath ;;
  let '(data, body) := parseFrontmatter raw in
  let newStatus := linearStateToFileStatus (issue_stateName issue) config in
  let newPriority := linearPriorityToFile (issue_priority issue) config in
  let currentStatus := String_of_field (data !! "status") in
  let currentPriority := String_of_field (data !! "priority") in
  if bool_decide (newStatus = Some currentStatus) && String.eqb newPriority currentPriority
  then
    now <- now_iso ;;
    writeText todoPath
      (formatFrontmatter (<["linear_synced_at" := VStr now]> data) body) ;;
    se_ret {| changed := false; newPath := None |}
  else
    let statusUpdate :=
      match newStatus with
      | Some s => if negb (String.eqb s "") && negb (String.eqb s currentStatus)
                  then Some s else None
      | None => None
      end in
    let priorityUpdate :=
      if String.eqb newPriority currentPriority then None else Some newPriority in
    let needsRename :=
      bool_decide (is_Some statusUpdate) || bool_decide (is_Some priorityUpdate) in
    now <- now_iso ;;
    let updates : gmap string Value :=
      <["linear_synced_at" := VStr now]>
        (from_option (fun s => <["status" := VStr s]>) id statusUpdate
           (from_option (fun p => <["priority" := VStr p]>) id priorityUpdate ∅)) in
    writeText todoPath (formatFrontmatter (updates ∪ data) body) ;;
    if needsRename then
      let finalStatus := default currentStatus statusUpdate in
      let finalPriority := default currentPriority priorityUpdate in
      let moved := renameTodoFile todoPath finalStatus finalPriority in
      (if String.eqb moved todoPath then se_ret tt else rename todoPath moved) ;;
      se_ret {| changed := true; newPath := Some moved |}
    else se_ret {| changed := true; newPath := None |}.

Definition pullState (linearId todoPath : string) (config : LinearConfig)
    : W PullResult :=
  issue <- Api.getIssueByIdentifier linearId ;;
  pullStateFromIssue issue todoPath config.

(** The comments created strictly after [since]. *)
Definition newCommentsSince (issue : LinearIssue) (since : string)
    : list LinearComment :=
  let comments := default [] (issue_comments issue) in
  let sinceDate := JsDate.parse since in
  List.filter (fun c => JsDate.gt (JsDate.parse (comment_createdAt c)) sinceDate)
              comments.

(** The Work Log entry of one comment. *)
Definition commentEntry (comment : LinearComment) : string :=
  let date := JsDate.date_part (comment_createdAt comment) in
  let author :=
    match comment_user comment with
    | Some u => user_displayName u
    | None => "Linear User"
    end in
  String "010" "### " +:+ date +:+ " - Linear Comment" +:+ String "010" (String "010" "")
  +:+ "**By:** " +:+ author +:+ String "010" (String "010" "")
  +:+ comment_body comment +:+ String "010" (String "010" "---") +:+ String "010" "".

Definition appendTextOf (newComments : list LinearComment) : string :=
  fold_left (fun acc c => acc +:+ commentEntry c) newComments EmptyString.

Definition pullCommentsFromIssue (issue : LinearIssue) (todoPath since : string)
    : W Z :=
  let newComments := newCommentsSince issue since in
  if (length newComments =? 0)%nat then se_ret 0
  else
    raw <- readText todoPath ;;
    let '(data, body) := parseFrontmatter raw in
    let appendText := appendTextOf newComments in
    let updatedBody := Js.trimEnd body +:+ String "010" "" +:+ appendText in
    now <- now_iso ;;
    writeText todoPath
      (formatFrontmatter (<["linear_synced_at" := VStr now]> data) updatedBody) ;;
    se_ret (Z.of_nat (length newComments)).

Definition pullComments (linearId todoPath since : string) : W Z :=
  issue <- Api.getIssueByIdentifier linearId ;;
  pullCommentsFromIssue issue todoPath since.

(** *** Import of new issues *)

Definition is_slug_char (c : ascii) : bool :=
  let n := nat_of_ascii c in
  ((97 <=? n)%nat && (n <=? 122)%nat) || Js.is_digit c.

(** [replace(/[^a-z0-9]+/g, "-")] *)
Fixpoint slug_collapse (s : string) (inRun : bool) : string :=
  match s with
  | EmptyString => EmptyString
  | String c r =>
      if is_slug_char c then String c (slug_collapse r false)
      else if inRun then slug_collapse r true
      else String "-" (slug_collapse r true)
  end.

Definition strip_leading_dash (s : string) : string :=
  match s with
  | String "-" r => r
  | _ => s
  end.

Definition strip_trailing_dash (s : string) : string :=
  if Js.endsWith s "-" then Js.dropEnd 1 s else s.

(** [replace(/^-|-$/g, "")] *)
Definition strip_dashes (s : string) : string :=
  strip_trailing_dash (strip_leading_dash s).

Definition slugify (title : string) : string :=
  Js.take 50 (strip_dashes (slug_collapse (Js.toLowerCase title) false)).

(** The largest [parseInt(issue_id, 10)] of the todos, starting from
    [start]; exact while the numbers stay within [Js.MAX_SAFE_INTEGER]. *)
Definition maxIssueIdOf (start : Z) (todos : list TodoFile) : Z :=
  fold_left
    (fun maxId todo =>
       match Js.parseInt (fm_issue_id (todo_frontmatter todo)) with
       | Some num => if maxId <? num then num else maxId
       | None => maxId
       end)
    todos start.

Definition nl : string := String "010" EmptyString.

Definition importBody (issue : LinearIssue) (today by_ : string) : string :=
  "# " +:+ issue_title issue +:+ nl +:+ nl
  +:+ "## Problem Statement" +:+ nl +:+ nl
  +:+ default "Imported from Linear." (issue_description issue) +:+ nl +:+ nl
  +:+ "## Work Log" +:+ nl +:+ nl
  +:+ "### " +:+ today +:+ " - Imported from Linear" +:+ nl +:+ nl
  +:+ "**By:** " +:+ by_ +:+ nl +:+ nl
  +:+ "**Actions:**" +:+ nl
  +:+ "- Imported " +:+ issue_identifier issue +:+ " from Linear" +:+ nl
  +:+ "- Original state: " +:+ issue_stateName issue +:+ nl
  +:+ "- Original priority: " +:+ Js.decimal (issue_priority issue) +:+ nl.

(** The metadata block of a [TodoFrontmatter]; an absent optional field
    writes no key. *)
Definition data_of (fm : TodoFrontmatter) : gmap string Value :=
  let opt key (v : option string) (m : gmap string Value) :=
    match v with Some s => <[key := VStr s]> m | None => m end in
  opt "linear_synced_at" (fm_linear_synced_at fm)
    (opt "linear_id" (fm_linear_id fm)
       (<["dependencies" := VArr (fm_dependencies fm)]>
          (<["tags" := VArr (fm_tags fm)]>
             (<["issue_id" := VStr (fm_issue_id fm)]>
                (<["priority" := VStr (fm_priority fm)]>
                   {["status" := VStr (fm_status fm)]}))))).

(** The file written for one imported issue numbered [maxId]. *)
Definition importOne (issue : LinearIssue) (config : LinearConfig)
    (todosDir : string) (maxId : Z) (by_ : string) : W TodoFile :=
  let issueId := Js.padStart0 3 (Js.decimal maxId) in
  let status := default "pending" (linearStateToFileStatus (issue_stateName issue) config) in
  let priority := linearPriorityToFile (issue_priority issue) config in
  let slug := slugify (issue_title issue) in
  let filename :=
    issueId +:+ "-" +:+ status +:+ "-" +:+ priority +:+ "-" +:+ slug +:+ ".md" in
  let filePath := Path.join todosDir filename in
  now <- now_iso ;;
  let frontmatter :=
    {| fm_status := status;
       fm_priority := priority;
       fm_issue_id := issueId;
       fm_tags := map Js.toLowerCase (default [] (issue_labels issue));
       fm_dependencies := [];
       fm_linear_id := Some (issue_identifier issue);
       fm_linear_synced_at := Some now |} in
  today <- now_iso ;;
  let body := importBody issue (JsDate.date_part today) by_ in
  writeText filePath (formatFrontmatter (data_of frontmatter) body) ;;
  se_ret {| todo_path := filePath; todo_frontmatter := frontmatter; todo_body := body |}.

Fixpoint importEach (issues : list LinearIssue) (config : LinearConfig)
    (todosDir : string) (maxId : Z) : W (list TodoFile) :=
  match issues with
  | [] => se_ret []
  | issue :: rest =>
      todo <- importOne issue config todosDir (maxId + 1)
                "compound-plugin linear sync" ;;
      created <- importEach rest config todosDir (maxId + 1) ;;
      se_ret (todo :: created)
  end.

Definition pullNewIssues (config : LinearConfig) (todosDir : string)
    (existingLinearIds : gset string) (maxExistingId : option Z)
    : W (list TodoFile) :=
  issues <- Api.listIssues ;;
  let newIssues :=
    List.filter (fun issue => negb (bool_decide (issue_identifier issue ∈ existingLinearIds)))
                issues in
  if (length newIssues =? 0)%nat then se_ret []
  else
    let maxId := default 0 maxExistingId in
    maxId <- (if maxId =? 0
              then (existing <- loadTodoFiles todosDir ;;
                    se_ret (maxIssueIdOf maxId existing))
              else se_ret maxId) ;;
    importEach newIssues config todosDir maxId.

Definition importSingleIssue (identifier : string) (config : LinearConfig)
    (todosDir : string) : W TodoFile :=
  issue <- Api.getIssueByIdentifier identifier ;;
  existing <- loadTodoFiles todosDir ;;
  let maxId := maxIssueIdOf 0 existing + 1 in
  importOne issue config todosDir maxId "compound-plugin linear import".

(** *** Bidirectional sync *)

(** What one pass carries: the world, the result under construction, and
    the identifiers seen.  Console output is not modelled. *)
Record St := mkSt {
  st_world : World;
  st_result : SyncResult;
  st_ids : gset string
}.

Definition M (A : Type) : Type := SE St A.

Definition with_world (w : World) (st : St) : St :=
  {| st_world := w; st_result := st_result st; st_ids := st_ids st |}.

Definition with_result (f : SyncResult -> SyncResult) (st : St) : St :=
  {| st_world := st_world st; st_result := f (st_result st); st_ids := st_ids st |}.

Definition with_id (linearId : string) (st : St) : St :=
  {| st_world := st_world st; st_result := st_result st;
     st_ids := {[linearId]} ∪ st_ids st |}.

(** An operation on the world, run inside a pass. *)
Definition liftW {A} (op : W A) : M A :=
  fun st => let '(r, w) := op (st_world st) in (r, with_world w st).

Definition on_result (f : SyncResult -> SyncResult) : M unit :=
  modify (with_result f).

Definition add_pushed_created (r : SyncResult) : SyncResult :=
  {| pushed_created := pushed_created r + 1; pushed_updated := pushed_updated r;
     pulled_updated := pulled_updated r; pulled_comments := pulled_comments r;
     pulled_created := pulled_created r; conflicts := conflicts r;
     skipped := skipped r; errors := errors r |}.

Definition add_pushed_updated (r : SyncResult) : SyncResult :=
  {| pushed_created := pushed_created r; pushed_updated := pushed_updated r + 1;
     pulled_updated := pulled_updated r; pulled_comments := pulled_comments r;
     pulled_created := pulled_created r; conflicts := conflicts r;
     skipped := skipped r; errors := errors r |}.

Definition add_pulled_updated (r : SyncResult) : SyncResult :=
  {| pushed_created := pushed_created r; pushed_updated := pushed_updated r;
     pulled_updated := pulled_updated r + 1; pulled_comments := pulled_comments r;
     pulled_created := pulled_created r; conflicts := conflicts r;
     skipped := skipped r; errors := errors r |}.

Definition add_pulled_comments (n : Z) (r : SyncResult) : SyncResult :=
  {| pushed_created := pushed_created r; pushed_updated := pushed_updated r;
     pulled_updated := pulled_updated r; pulled_comments := pulled_comments r + n;
     pulled_created := pulled_created r; conflicts := conflicts r;
     skipped := skipped r; errors := errors r |}.

Definition set_pulled_created (n : Z) (r : SyncResult) : SyncResult :=
  {| pushed_created := pushed_created r; pushed_updated := pushed_updated r;
     pulled_updated := pulled_updated r; pulled_comments := pulled_comments r;
     pulled_created := n; conflicts := conflicts r;
     skipped := skipped r; errors := errors r |}.

Definition add_skipped (r : SyncResult) : SyncResult :=
  {| pushed_created := pushed_created r; pushed_updated := pushed_updated r;
     pulled_updated := pulled_updated r; pulled_comments := pulled_comments r;
     pulled_created := pulled_created r; conflicts := conflicts r;
     skipped := skipped r + 1; errors := errors r |}.

Definition push_conflict (c : ConflictEntry) (r : SyncResult) : SyncResult :=
  {| pushed_created := pushed_created r; pushed_updated := pushed_updated r;
     pulled_updated := pulled_updated r; pulled_comments := pulled_comments r;
     pulled_created := pulled_created r; conflicts := conflicts r ++ [c];
     skipped := skipped r; errors := errors r |}.

Definition push_error (e : string) (r : SyncResult) : SyncResult :=
  {| pushed_created := pushed_created r; pushed_updated := pushed_updated r;
     pulled_updated := pulled_updated r; pulled_comments := pulled_comments r;
     pulled_created := pulled_created r; conflicts := conflicts r;
     skipped := skipped r; errors := errors r ++ [e] |}.

Definition add_id (linearId : string) : M unit :=
  modify (with_id linearId).

Definition emptyResult : SyncResult :=
  {| pushed_created := 0; pushed_updated := 0;
     pulled_updated := 0; pulled_comments := 0; pulled_created := 0;
     conflicts := []; skipped := 0; errors := [] |}.

(** The state a pass starts from. *)
Definition initial (w : World) : St :=
  {| st_world := w; st_result := emptyResult; st_ids := ∅ |}.

Definition conflictEntry (todo : TodoFile) (linearId fileStatus linearStatus : string)
    (winner : Winner) : ConflictEntry :=
  {| ce_file := Path.basename (todo_path todo);
     ce_linearId := linearId;
     ce_field := "status";
     ce_fileValue := fileStatus;
     ce_linearValue := linearStatus;
     ce_winner := winner;
     ce_reason :=
       (match winner with WLinear => "Linear" | WFile => "File" end)
       +:+ " was modified more recently" |}.

(** [syncedAt]: the stamp of the record, the epoch when it has none. *)
Definition syncedAtOf (fm : TodoFrontmatter) : JsDate.Date :=
  if Store.set (fm_linear_synced_at fm)
  then JsDate.parse (default "" (fm_linear_synced_at fm))
  else Some 0.

(** [linearStatus]: the remote state as a local status, the state name
    itself when no status maps to it. *)
Definition linearStatusOf (issue : LinearIssue) (config : LinearConfig) : string :=
  default (issue_stateName issue)
          (linearStateToFileStatus (issue_stateName issue) config).

(** The body of the [try] block for a record linked to [linearId]. *)
Definition syncLinked (todo : TodoFile) (linearId : string)
    (config : LinearConfig) (states : list LinearState) (dryRun : bool) : M unit :=
  let fm := todo_frontmatter todo in
  issue <- liftW (Api.getIssueByIdentifier linearId) ;;
  let syncedAt := syncedAtOf fm in
  let linearUpdated := JsDate.parse (issue_updatedAt issue) in
  fileMtime <- liftW (getFileMtime (todo_path todo)) ;;
  let linearChanged := JsDate.gt linearUpdated syncedAt in
  let fileChanged := JsDate.gt (Some fileMtime) syncedAt in
  if linearChanged && fileChanged then
    let winner := if JsDate.gt linearUpdated (Some fileMtime) then WLinear else WFile in
    let fileStatus := fm_status fm in
    let linearStatus := linearStatusOf issue config in
    (if String.eqb fileStatus linearStatus then se_ret tt
     else on_result (push_conflict
                       (conflictEntry todo linearId fileStatus linearStatus winner))) ;;
    if dryRun then se_ret tt
    else
      match winner with
      | WLinear =>
          _ <- liftW (pullStateFromIssue issue (todo_path todo) config) ;;
          on_result add_pulled_updated
      | WFile =>
          liftW (pushUpdate todo config states) ;;
          on_result add_pushed_updated
      end
  else if fileChanged && negb linearChanged then
    (if dryRun then se_ret tt else liftW (pushUpdate todo config states)) ;;
    on_result add_pushed_updated
  else if linearChanged && negb fileChanged then
    if dryRun then on_result add_pulled_updated
    else
      pullResult <- liftW (pullStateFromIssue issue (todo_path todo) config) ;;
      (if changed pullResult then on_result add_pulled_updated else se_ret tt) ;;
      if Store.set (fm_linear_synced_at fm) then
        let commentPath := default (todo_path todo) (newPath pullResult) in
        commentCount <- liftW (pullCommentsFromIssue issue commentPath
                                 (default "" (fm_linear_synced_at fm))) ;;
        on_result (add_pulled_comments commentCount)
      else se_ret tt
  else on_result add_skipped.

(** One iteration of the loop over the local files. *)
Definition syncRecord (config : LinearConfig) (states : list LinearState)
    (dryRun : bool) (todo : TodoFile) : M unit :=
  let file := Path.basename (todo_path todo) in
  if Store.set (fm_linear_id (todo_frontmatter todo)) then
    let linearId := default "" (fm_linear_id (todo_frontmatter todo)) in
    add_id linearId ;;
    try_catch (syncLinked todo linearId config states dryRun)
      (fun err => on_result (push_error ("Error syncing " +:+ file +:+ ": " +:+ err)))
  else if dryRun then on_result add_pushed_created
  else
    try_catch
      (_ <- liftW (pushCreate todo config states None false) ;;
       on_result add_pushed_created)
      (fun err => on_result (push_error
                    ("Error creating Linear issue for " +:+ file +:+ ": " +:+ err))).

Fixpoint syncEach (config : LinearConfig) (states : list LinearState)
    (dryRun : bool) (todos : list TodoFile) : M unit :=
  match todos with
  | [] => se_ret tt
  | todo :: rest =>
      syncRecord config states dryRun todo ;;
      syncEach config states dryRun rest
  end.

(** The last step of a live pass: import the remote issues not seen. *)
Definition syncNew (config : LinearConfig) (todosDir : string) (maxIssueId : Z)
    : M unit :=
  try_catch
    (ids <- gets st_ids ;;
     newTodos <- liftW (pullNewIssues config todosDir ids (Some maxIssueId)) ;;
     on_result (set_pulled_created (Z.of_nat (length newTodos))))
    (fun err => on_result (push_error ("Error pulling new issues: " +:+ err))).

Definition syncAll (todosDir : string) (config : LinearConfig) (dryRun : bool)
    : W SyncResult :=
  states <- Api.listStates (teamId config) ;;
  todos <- loadTodoFiles todosDir ;;
  let maxIssueId := maxIssueIdOf 0 todos in
  fun w =>
    let pass :=
      syncEach config states dryRun todos ;;
      (if dryRun then se_ret tt else syncNew config todosDir maxIssueId) in
    let '(r, st) := pass (initial w) in
    (match r with Ok _ => Ok (st_result st) | Err e => Err e end, st_world st).

End Engine.

(** ** Vocabulary of the specification *)

Module Spec.

Import Engine.

(** A record is linked when its metadata carries [linear_id], stamped when
    it carries [linear_synced_at]. *)
Definition linked (data : gmap string Value) : Prop := is_Some (data !! "linear_id").
Definition stamped (data : gmap string Value) : Prop :=
  is_Some (data !! "linear_synced_at").

(** The invariant of the data model: both tracking fields, or neither. *)
Definition tracked_together (data : gmap string Value) : Prop :=
  linked data <-> stamped data.

Definition all_tracked (m : gmap string File) : Prop :=
  forall p f, m !! p = Some f -> tracked_together (file_data f).

(** The file at a path, if there is one, is linked. *)
Definition linked_at (p : string) (m : gmap string File) : Prop :=
  forall f, m !! p = Some f -> linked (file_data f).

(** A change of the file store that keeps the invariant and unlinks
    nothing. *)
Definition safe (m m' : gmap string File) : Prop :=
  (all_tracked m -> all_tracked m') /\
  forall p, linked_at p m -> linked_at p m'.

(** There is a file at the path, and it carries both tracking fields. *)
Definition both_at (p : string) (m : gmap string File) : Prop :=
  exists f, m !! p = Some f /\ linked (file_data f) /\ stamped (file_data f).

(** A created record: both tracking fields in the record returned and in
    the file written. *)
Definition created_tracked (m : gmap string File) (todo : TodoFile) : Prop :=
  is_Some (fm_linear_id (todo_frontmatter todo)) /\
  is_Some (fm_linear_synced_at (todo_frontmatter todo)) /\
  both_at (todo_path todo) m.

(** The identifier a record is linked to. *)
Definition linearIdOf (todo : TodoFile) : string :=
  default "" (fm_linear_id (todo_frontmatter todo)).

(** What a pass decides for a record in a given world. *)
Inductive Action :=
| Create
| Conflict (winner : Winner) (issue : LinearIssue)
| Push
| Pull (issue : LinearIssue)
| Skip
| Failed (msg : string).

(** Modelled from the spec: the reconciliation table.  A record without a
    link is created remotely; a linked one is classified by whether the file
    and the issue changed after the stamp.  [step_dry] and [step_live] below
    relate it to the loop of [syncAll]. *)
Definition classify (todo : TodoFile) (w : World) : Action :=
  if Store.set (fm_linear_id (todo_frontmatter todo)) then
    match Api.find_issue (linearIdOf todo) (remote w) with
    | None => Failed ("Linear issue " +:+ linearIdOf todo +:+ " not found")
    | Some issue =>
        match fs w !! todo_path todo with
        | None => Failed (Fs.enoent "stat" (todo_path todo))
        | Some f =>
            let syncedAt := syncedAtOf (todo_frontmatter todo) in
            let linearUpdated := JsDate.parse (issue_updatedAt issue) in
            let linearChanged := JsDate.gt linearUpdated syncedAt in
            let fileChanged := JsDate.gt (Some (file_mtime f)) syncedAt in
            match linearChanged, fileChanged with
            | true, true =>
                Conflict (if JsDate.gt linearUpdated (Some (file_mtime f))
                          then WLinear else WFile) issue
            | false, true => Push
            | true, false => Pull issue
            | false, false => Skip
            end
        end
    end
  else Create.

(** The conflict entries a record gives rise to. *)
Definition conflictsOf (config : LinearConfig) (todo : TodoFile) (a : Action)
    : list ConflictEntry :=
  match a with
  | Conflict winner issue =>
      if String.eqb (fm_status (todo_frontmatter todo)) (linearStatusOf issue config)
      then []
      else [conflictEntry todo (linearIdOf todo) (fm_status (todo_frontmatter todo))
              (linearStatusOf issue config) winner]
  | _ => []
  end.

Definition add_conflicts (cs : list ConflictEntry) (r : SyncResult) : SyncResult :=
  fold_left (fun r c => push_conflict c r) cs r.

Definition syncError (todo : TodoFile) (msg : string) : string :=
  "Error syncing " +:+ Path.basename (todo_path todo) +:+ ": " +:+ msg.

Definition createError (todo : TodoFile) (msg : string) : string :=
  "Error creating Linear issue for " +:+ Path.basename (todo_path todo)
  +:+ ": " +:+ msg.

(** What a dry run reports for a record, by its classification. *)
Definition report (config : LinearConfig) (todo : TodoFile) (a : Action)
    (r : SyncResult) : SyncResult :=
  match a with
  | Create => add_pushed_created r
  | Conflict _ _ => add_conflicts (conflictsOf config todo a) r
  | Push => add_pushed_updated r
  | Pull _ => add_pulled_updated r
  | Skip => add_skipped r
  | Failed msg => push_error (syncError todo msg) r
  end.

(** The identifiers a record adds to those seen. *)
Definition seen (todo : TodoFile) (st : St) : St :=
  if Store.set (fm_linear_id (todo_frontmatter todo))
  then with_id (linearIdOf todo) st else st.

(** The todos a directory holds in a world. *)
Definition todosOf (todosDir : string) (w : World) : list TodoFile :=
  match fst (loadTodoFiles todosDir w) with
  | Ok todos => todos
  | Err _ => []
  end.

(** Neither the file nor the remote issue of a linked record changed since
    its stamp: with the stamp (the epoch, for a record without one) at the
    instant [t] and the issue last updated at the instant [u], both in the
    covered timestamp form, the file's modification time and [u] are at
    most [t]. *)
Definition unchanged (w : World) (todo : TodoFile) : Prop :=
  exists issue f t u,
    Store.set (fm_linear_id (todo_frontmatter todo)) = true /\
    Api.find_issue (linearIdOf todo) (remote w) = Some issue /\
    fs w !! todo_path todo = Some f /\
    syncedAtOf (todo_frontmatter todo) = Some t /\
    JsDate.parse (issue_updatedAt issue) = Some u /\
    file_mtime f <= t /\ u <= t.

(** One record of a pass, and a list of them, as state transformers. *)
Definition after (config : LinearConfig) (states : list LinearState)
    (dryRun : bool) (todo : TodoFile) (st : St) : St :=
  snd (syncRecord config states dryRun todo st).

Definition afterAll (config : LinearConfig) (states : list LinearState)
    (dryRun : bool) (todos : list TodoFile) (st : St) : St :=
  fold_left (fun s todo => after config states dryRun todo s) todos st.

(** The result of a pass that did nothing but skip [n] records. *)
Definition skippedResult (n : Z) : SyncResult :=
  {| pushed_created := 0; pushed_updated := 0;
     pulled_updated := 0; pulled_comments := 0; pulled_created := 0;
     conflicts := []; skipped := n; errors := [] |}.

(** The numeric counters of a result. *)
Definition counters (r : SyncResult) : list Z :=
  [pushed_created r; pushed_updated r; pulled_updated r; pulled_comments r;
   pulled_created r; skipped r].

(** Two states of a pass that differ at most in the errors collected and
    the identifiers seen. *)
Definition agree (st st' : St) : Prop :=
  st_world st = st_world st' /\
  counters (st_result st) = counters (st_result st') /\
  conflicts (st_result st) = conflicts (st_result st').

(** The file a write of [data] over [f] leaves. *)
Definition stampedFile (f : File) (data : gmap string Value) (w : World) : File :=
  {| file_data := data; file_body := file_body f; file_mtime := Fs.landing w |}.

End Spec.

(** ** Concrete configurations and worlds used by the examples *)

Module Examples.

Import Engine.

Definition teamStates : list LinearState :=
  [ mkLinearState "s1" "Triage" "triage";
    mkLinearState "s2" "Todo" "unstarted";
    mkLinearState "s3" "In Progress" "started";
    mkLinearState "s4" "Done" "completed";
    mkLinearState "s5" "Cancelled" "canceled" ].

(** A configuration whose first two statuses share one workflow state and
    whose priorities are shifted by one. *)
Definition sharedConfig : LinearConfig :=
  {| teamId := "team-1"; teamKey := "ENG"; projectId := None; apiKey := "key";
     statusMap := {| sm_pending := "Backlog"; sm_ready := "Backlog";
                     sm_in_progress := "In Progress"; sm_complete := "Done";
                     sm_cancelled := "Cancelled" |};
     priorityMap := {| pm_p1 := 2; pm_p2 := 3; pm_p3 := 4 |} |}.

Definition backlogStates : list LinearState :=
  mkLinearState "s0" "Backlog" "backlog" :: teamStates.

(** A configuration that leaves the state of pending records blank, and a
    workflow that has a state without a name. *)
Definition blankConfig : LinearConfig :=
  {| teamId := "team-1"; teamKey := "ENG"; projectId := None; apiKey := "key";
     statusMap := {| sm_pending := ""; sm_ready := "Todo";
                     sm_in_progress := "In Progress"; sm_complete := "Done";
                     sm_cancelled := "Cancelled" |};
     priorityMap := DEFAULT_PRIORITY_MAP |}.

Definition blankStates : list LinearState :=
  mkLinearState "s9" "" "backlog" :: teamStates.

Definition instant (iso : string) : Z := default 0 (JsDate.parse iso).

Definition comment (n createdAt text : string) : LinearComment :=
  {| comment_id := "c-" +:+ n; comment_body := text;
     comment_createdAt := createdAt; comment_updatedAt := createdAt;
     comment_user := Some {| user_name := "ada"; user_displayName := "Ada" |} |}.

Definition issue (n : string) (state : string * string) (priority : Z)
    (updatedAt : string) (comments : list LinearComment) : LinearIssue :=
  {| issue_uuid := "u-" +:+ n; issue_identifier := "ENG-" +:+ n;
     issue_title := "Fix bug"; issue_description := None;
     issue_state := state; issue_priority := priority; issue_parent := None;
     issue_comments := Some comments; issue_updatedAt := updatedAt;
     issue_createdAt := "2026-01-01T00:00:00.000Z"; issue_labels := None |}.

Definition todoData (status priority issueId : string)
    (linearId syncedAt : option string) : gmap string Value :=
  data_of {| fm_status := status; fm_priority := priority; fm_issue_id := issueId;
             fm_tags := []; fm_dependencies := [];
             fm_linear_id := linearId; fm_linear_synced_at := syncedAt |}.

Definition todoFile (status priority issueId : string)
    (linearId syncedAt : option string) (mtime : string) : File :=
  {| file_data := todoData status priority issueId linearId syncedAt;
     file_body := "# Fix bug" +:+ nl;
     file_mtime := instant mtime |}.

Definition world (files : list (string * File)) (issues : list LinearIssue) : World :=
  {| fs := list_to_map files;
     remote := {| remote_issues := issues; remote_states := teamStates;
                  remote_teamKey := "ENG"; remote_next := 100 |};
     clock := instant "2026-03-02T00:00:00.000Z";
     write_lag := 0 |}.

Definition T0 : string := "2026-03-01T09:00:00.000Z".
Definition T1 : string := "2026-03-01T10:00:00.000Z".
Definition T2 : string := "2026-03-01T11:00:00.000Z".

Definition todoPath : string := "/w/todos/007-pending-p2-fix-bug.md".

(** An issue with one comment older than [T0] and two newer ones. *)
Definition commentedIssue : LinearIssue :=
  issue "1" ("s2", "Todo") 2 T2
    [ comment "1" "2026-02-28T08:00:00.000Z" "old";
      comment "2" T1 "first";
      comment "3" T2 "second" ].

(** One linked file, last synced at [T0] and not touched since. *)
Definition commentWorld : World :=
  world [(todoPath, todoFile "pending" "p2" "007" (Some "ENG-1") (Some T0) T0)]
        [commentedIssue].

(** One linked file, stamped at [T1]; neither side changed after [T0]. *)
Definition quietWorld : World :=
  world [(todoPath, todoFile "ready" "p2" "007" (Some "ENG-1") (Some T1) T0)]
        [issue "1" ("s2", "Todo") 2 T0 []].

(** The comment world with a second remote issue that has no local file. *)
Definition busyWorld : World :=
  world [(todoPath, todoFile "pending" "p2" "007" (Some "ENG-1") (Some T0) T0)]
        [commentedIssue; issue "2" ("s1", "Triage") 3 T1 []].

(** The record a file is loaded as. *)
Definition todoOf (path : string) (f : File) : TodoFile :=
  {| todo_path := path;
     todo_frontmatter := frontmatter_of (file_data f);
     todo_body := file_body f |}.

(** Both sides changed after the stamp [T0]; the file, touched at [T2],
    is newer than the issue, updated at [T1]. *)
Definition conflictFile : File :=
  todoFile "pending" "p2" "007" (Some "ENG-1") (Some T0) T2.

Definition conflictIssue : LinearIssue := issue "1" ("s2", "Todo") 2 T1 [].

Definition conflictWorld : World :=
  world [(todoPath, conflictFile)] [conflictIssue].

(** Both sides changed; the issue is newer, in a state no status maps to. *)
Definition backlogFile : File :=
  todoFile "pending" "p2" "007" (Some "ENG-1") (Some T0) T1.

Definition backlogIssue : LinearIssue := issue "1" ("s0", "Backlog") 2 T2 [].

Definition backlogWorld : World :=
  world [(todoPath, backlogFile)] [backlogIssue].

(** The same world on a machine whose writes land [lag] milliseconds after
    the clock was read. *)
Definition lagging (lag : Z) (w : World) : World :=
  {| fs := fs w; remote := remote w; clock := clock w; write_lag := lag |}.

(** One linked file edited at [T1], after its stamp [T0]; the issue has
    not changed and agrees with the file.  Writes land a millisecond after
    the clock is read. *)
Definition editedWorld : World :=
  lagging 1
    (world [(todoPath, todoFile "ready" "p2" "007" (Some "ENG-1") (Some T0) T1)]
           [issue "1" ("s2", "Todo") 2 T0 []]).

(** One linked file, not touched since its stamp [T0]; the issue was
    updated at [T2] but still agrees with the file. *)
Definition touchedWorld : World :=
  world [(todoPath, todoFile "ready" "p2" "007" (Some "ENG-1") (Some T0) T0)]
        [issue "1" ("s2", "Todo") 2 T2 []].

(** One record that has never been pushed, and a team without workflow
    states: the service refuses to create the issue. *)
Definition statelessWorld : World :=
  {| fs := {[ "/w/todos/001-pending-p2-new-task.md"
              := todoFile "pending" "p2" "001" None None T0 ]};
     remote := {| remote_issues := []; remote_states := [];
                  remote_teamKey := "ENG"; remote_next := 100 |};
     clock := instant "2026-03-02T00:00:00.000Z";
     write_lag := 0 |}.

(** Two records linked to the same issue, both stamped at [T1]: the first
    was edited at [T2], the second not since [T0]; the issue has not
    changed since [T0]. *)
Definition twinFirst : string := "/w/todos/001-pending-p2-first.md".
Definition twinSecond : string := "/w/todos/002-ready-p2-second.md".

Definition twinWorld : World :=
  world [ (twinFirst, todoFile "pending" "p2" "001" (Some "ENG-1") (Some T1) T2);
          (twinSecond, todoFile "ready" "p2" "002" (Some "ENG-1") (Some T1) T0) ]
        [issue "1" ("s2", "Todo") 2 T0 []].

(** Five records, in the order in which the directory lists them: the
    issue of the first changed and has two new comments, the second is
    linked to an issue the service does not have, the third was edited
    after its stamp, the fourth changed on neither side, the fifth on
    both. *)
Definition mixedPath (n status : string) : string :=
  "/w/todos/00" +:+ n +:+ "-" +:+ status +:+ "-p2-task.md".

Definition mixedFiles : list (string * File) :=
  [ (mixedPath "3" "pending", todoFile "pending" "p2" "003" (Some "ENG-3") (Some T0) T0);
    (mixedPath "5" "ready", todoFile "ready" "p2" "005" (Some "ENG-404") (Some T0) T0);
    (mixedPath "1" "ready", todoFile "ready" "p2" "001" (Some "ENG-1") (Some T0) T1);
    (mixedPath "2" "ready", todoFile "ready" "p2" "002" (Some "ENG-2") (Some T1) T0);
    (mixedPath "4" "pending", todoFile "pending" "p2" "004" (Some "ENG-4") (Some T0) T2) ].

Definition mixedBatch : list TodoFile :=
  map (fun pf => todoOf (fst pf) (snd pf)) mixedFiles.

Definition mixedIssues : list LinearIssue :=
  [ issue "1" ("s2", "Todo") 2 T0 [];
    issue "2" ("s2", "Todo") 2 T0 [];
    issue "3" ("s2", "Todo") 2 T2
      [ comment "1" "2026-02-28T08:00:00.000Z" "old";
        comment "2" T1 "first";
        comment "3" T2 "second" ];
    issue "4" ("s2", "Todo") 2 T1 [] ].

Definition mixedWorld : World := world mixedFiles mixedIssues.

End Examples.

(** ** Loading one file, plans, and cancellation ([sync/linear.ts]) *)

Module Single.

Import Mapping Fs Engine.

Record PlanFrontmatter := mkPlanFrontmatter {
  plan_title : string;
  plan_type : string;
  plan_status : string;
  plan_date : string;
  plan_linear_issue : option string;
  plan_linear_synced_at : option string
}.

Inductive LoadedFile :=
| LoadedTodo (file : TodoFile)
| LoadedPlan (file : TodoFile) (planFrontmatter : PlanFrontmatter).

(** The [TodoFile] of a loaded file, whatever its kind. *)
Definition loaded_file (l : LoadedFile) : TodoFile :=
  match l with
  | LoadedTodo file => file
  | LoadedPlan file _ => file
  end.

Definition is_plan (l : LoadedFile) : bool :=
  match l with
  | LoadedTodo _ => false
  | LoadedPlan _ _ => true
  end.

(** Modelled from the spec: [pathExists] of [utils/files], the existence
    check, over the finite map of files. *)
Definition pathExists (path : string) : W bool :=
  gets (fun w => bool_decide (is_Some (fs w !! path))).

Definition planStatusToTodoStatus (planStatus : string) : string :=
  let s := Js.toLowerCase planStatus in
  if String.eqb s "draft" then "pending"
  else if String.eqb s "active" then "in_progress"
  else if String.eqb s "completed" then "complete"
  else "pending".

(** A file counts as a plan when title and status are truthy. *)
Definition is_planned (data : gmap string Value) : bool :=
  truthy (data !! "title") && truthy (data !! "status").

Definition plan_of (data : gmap string Value) (today : string) : PlanFrontmatter :=
  {| plan_title := default "" (String_of <$> data !! "title");
     plan_type := default "feat" (String_of <$> data !! "type");
     plan_status := default "" (String_of <$> data !! "status");
     plan_date := default today (String_of <$> data !! "date");
     plan_linear_issue := string_opt (data !! "linear_issue");
     plan_linear_synced_at := string_opt (data !! "linear_synced_at") |}.

(** The [TodoFile] synthesised from a plan for the Linear operations. *)
Definition plan_todo (filePath : string) (planFm : PlanFrontmatter) (body : string)
    : TodoFile :=
  {| todo_path := filePath;
     todo_frontmatter :=
       {| fm_status := planStatusToTodoStatus (plan_status planFm);
          fm_priority := "p3";
          fm_issue_id := "000";
          fm_tags := [];
          fm_dependencies := [];
          fm_linear_id := plan_linear_issue planFm;
          fm_linear_synced_at := plan_linear_synced_at planFm |};
     todo_body := body |}.

Definition loadSingleFile (filePath : string) : W (option LoadedFile) :=
  found <- pathExists filePath ;;
  if negb found then se_ret None
  else
    raw <- readText filePath ;;
    let '(data, body) := parseFrontmatter raw in
    if is_todo data then
      se_ret (Some (LoadedTodo {| todo_path := filePath;
                                  todo_frontmatter := frontmatter_of data;
                                  todo_body := body |}))
    else if is_planned data then
      now <- now_iso ;;
      let planFm := plan_of data (JsDate.date_part now) in
      se_ret (Some (LoadedPlan (plan_todo filePath planFm body) planFm))
    else se_ret None.

(** The [updates] argument of [updatePlanFrontmatter]. *)
Record PlanUpdates := mkPlanUpdates {
  pu_linear_issue : option string;
  pu_linear_synced_at : option string
}.

(** The keys an update object carries. *)
Definition plan_updates_data (updates : PlanUpdates) : gmap string Value :=
  let opt key (v : option string) (m : gmap string Value) :=
    match v with Some s => <[key := VStr s]> m | None => m end in
  opt "linear_synced_at" (pu_linear_synced_at updates)
    (opt "linear_issue" (pu_linear_issue updates) ∅).

Definition updatePlanFrontmatter (filePath : string) (updates : PlanUpdates) : W unit :=
  raw <- readText filePath ;;
  let '(data, body) := parseFrontmatter raw in
  let merged := plan_updates_data updates ∪ data in
  now <- now_iso ;;
  let merged :=
    if bool_decide (is_Some (pu_linear_issue updates))
       || bool_decide (is_Some (pu_linear_synced_at updates))
    then <["linear_synced_at" := VStr (default now (pu_linear_synced_at updates))]> merged
    else merged in
  writeText filePath (formatFrontmatter merged body).

(** Modelled from the spec: the service behind [createComment] adds the
    comment to the issue with the given id and stamps it with the current
    time; it refuses an id it does not know. *)
Definition createComment (issueId body : string) : W LinearComment :=
  fun w =>
    let r := remote w in
    match find (fun i => String.eqb (issue_uuid i) issueId) (remote_issues r) with
    | None =>
        (Err ("Linear commentCreate mutation returned success: false for issue "
              +:+ issueId), w)
    | Some old =>
        let now := JsDate.toISOString (clock w) in
        let olds := default [] (issue_comments old) in
        let c := {| comment_id := issueId +:+ "-c" +:+ Js.decimal (Z.of_nat (length olds));
                    comment_body := body;
                    comment_createdAt := now;
                    comment_updatedAt := now;
                    comment_user := None |} in
        let new :=
          {| issue_uuid := issue_uuid old;
             issue_identifier := issue_identifier old;
             issue_title := issue_title old;
             issue_description := issue_description old;
             issue_state := issue_state old;
             issue_priority := issue_priority old;
             issue_parent := issue_parent old;
             issue_comments := Some (olds ++ [c]);
             issue_updatedAt := issue_updatedAt old;
             issue_createdAt := issue_createdAt old;
             issue_labels := issue_labels old |} in
        (Ok c,
         set_remote (fun r =>
           {| remote_issues :=
                map (fun i => if String.eqb (issue_uuid i) issueId then new else i)
                    (remote_issues r);
              remote_states := remote_states r;
              remote_teamKey := remote_teamKey r;
              remote_next := remote_next r |}) w)
    end.

(** [s.type === "canceled" || s.name.toLowerCase() === "cancelled"] *)
Definition is_cancelled_state (s : LinearState) : bool :=
  String.eqb (state_type s) "canceled"
  || String.eqb (Js.toLowerCase (state_name s)) "cancelled".

Definition pushCancel (linearId : string) (states : list LinearState)
    (comment : option string) : W unit :=
  issue <- Api.getIssueByIdentifier linearId ;;
  let cancelledState := find is_cancelled_state states in
  (match cancelledState with
   | Some s =>
       _ <- Api.updateIssue (issue_uuid issue)
              {| Api.ui_title := None; Api.ui_priority := None;
                 Api.ui_stateId := Some (state_id s) |} ;;
       se_ret tt
   | None => se_ret tt
   end) ;;
  if Store.set comment
  then (_ <- createComment (issue_uuid issue) (default "" comment) ;; se_ret tt)
  else se_ret tt.

End Single.

(** ** The status dashboard ([getStatus]) *)

Module Dashboard.

Import Mapping Fs Engine.

Inductive Direction := DPush | DPull | DConflict.

Record StatusEntry := mkStatusEntry {
  entry_file : string;
  entry_linearId : option string;
  entry_fileStatus : string;
  entry_linearStatus : option string;
  entry_filePriority : string;
  entry_linearPriority : option Z;
  entry_inSync : bool;
  entry_direction : option Direction
}.

(** The entry under construction travels with the world: what the [try]
    block assigned before a throw stays assigned. *)
Record Row := mkRow {
  row_world : World;
  row_entry : StatusEntry
}.

Definition R (A : Type) : Type := SE Row A.

Definition liftR {A} (op : W A) : R A :=
  fun r => let '(a, w) := op (row_world r) in
           (a, {| row_world := w; row_entry := row_entry r |}).

Definition assign (f : StatusEntry -> StatusEntry) : R unit :=
  modify (fun r => {| row_world := row_world r; row_entry := f (row_entry r) |}).

Definition set_linearStatus (s : string) (e : StatusEntry) : StatusEntry :=
  {| entry_file := entry_file e; entry_linearId := entry_linearId e;
     entry_fileStatus := entry_fileStatus e; entry_linearStatus := Some s;
     entry_filePriority := entry_filePriority e;
     entry_linearPriority := entry_linearPriority e;
     entry_inSync := entry_inSync e; entry_direction := entry_direction e |}.

Definition set_linearPriority (n : Z) (e : StatusEntry) : StatusEntry :=
  {| entry_file := entry_file e; entry_linearId := entry_linearId e;
     entry_fileStatus := entry_fileStatus e; entry_linearStatus := entry_linearStatus e;
     entry_filePriority := entry_filePriority e;
     entry_linearPriority := Some n;
     entry_inSync := entry_inSync e; entry_direction := entry_direction e |}.

Definition set_inSync (b : bool) (e : StatusEntry) : StatusEntry :=
  {| entry_file := entry_file e; entry_linearId := entry_linearId e;
     entry_fileStatus := entry_fileStatus e; entry_linearStatus := entry_linearStatus e;
     entry_filePriority := entry_filePriority e;
     entry_linearPriority := entry_linearPriority e;
     entry_inSync := b; entry_direction := entry_direction e |}.

Definition set_direction (d : Direction) (e : StatusEntry) : StatusEntry :=
  {| entry_file := entry_file e; entry_linearId := entry_linearId e;
     entry_fileStatus := entry_fileStatus e; entry_linearStatus := entry_linearStatus e;
     entry_filePriority := entry_filePriority e;
     entry_linearPriority := entry_linearPriority e;
     entry_inSync := entry_inSync e; entry_direction := Some d |}.

(** The entry a record starts with. *)
Definition entryOf (todo : TodoFile) : StatusEntry :=
  {| entry_file := Path.basename (todo_path todo);
     entry_linearId := fm_linear_id (todo_frontmatter todo);
     entry_fileStatus := fm_status (todo_frontmatter todo);
     entry_linearStatus := None;
     entry_filePriority := fm_priority (todo_frontmatter todo);
     entry_linearPriority := None;
     entry_inSync := true;
     entry_direction := None |}.

(** The body of the [try] block for a record linked to [linearId]. *)
Definition statusLinked (todo : TodoFile) (linearId : string) (config : LinearConfig)
    : R unit :=
  let fm := todo_frontmatter todo in
  issue <- liftR (Api.getIssueByIdentifier linearId) ;;
  assign (set_linearStatus (issue_stateName issue)) ;;
  assign (set_linearPriority (issue_priority issue)) ;;
  let expectedStatus := linearStateToFileStatus (issue_stateName issue) config in
  let expectedPriority := linearPriorityToFile (issue_priority issue) config in
  if negb (bool_decide (expectedStatus = Some (fm_status fm)))
     || negb (String.eqb expectedPriority (fm_priority fm))
  then
    assign (set_inSync false) ;;
    let syncedAt := syncedAtOf fm in
    let linearUpdated := JsDate.parse (issue_updatedAt issue) in
    fileMtime <- liftR (getFileMtime (todo_path todo)) ;;
    if JsDate.gt (Some fileMtime) syncedAt && JsDate.le linearUpdated syncedAt
    then assign (set_direction DPush)
    else if JsDate.gt linearUpdated syncedAt && JsDate.le (Some fileMtime) syncedAt
    then assign (set_direction DPull)
    else assign (set_direction DConflict)
  else se_ret tt.

(** One iteration of the loop: the entry of one record. *)
Definition statusRecord (config : LinearConfig) (todo : TodoFile) : W StatusEntry :=
  fun w =>
    let body : R unit :=
      if Store.set (fm_linear_id (todo_frontmatter todo)) then
        try_catch
          (statusLinked todo (default "" (fm_linear_id (todo_frontmatter todo))) config)
          (fun _ => assign (set_inSync false) ;; assign (set_linearStatus "ERROR"))
      else
        assign (set_inSync false) ;; assign (set_direction DPush) in
    let '(r, row) := body {| row_world := w; row_entry := entryOf todo |} in
    (match r with Ok _ => Ok (row_entry row) | Err e => Err e end, row_world row).

Fixpoint statusEach (config : LinearConfig) (todos : list TodoFile)
    : W (list StatusEntry) :=
  match todos with
  | [] => se_ret []
  | todo :: rest =>
      entry <- statusRecord config todo ;;
      entries <- statusEach config rest ;;
      se_ret (entry :: entries)
  end.

Definition getStatus (todosDir : string) (config : LinearConfig)
    : W (list StatusEntry) :=
  todos <- loadTodoFiles todosDir ;;
  statusEach config todos.

(** The direction the dashboard shows for what a sync pass decides. *)
Definition shown (a : Spec.Action) : Direction :=
  match a with
  | Spec.Push => DPush
  | Spec.Pull _ => DPull
  | _ => DConflict
  end.

End Dashboard.

(** ** Config resolution ([resolveConfig]) *)

Module Config.

Import Fs Single.

(** The variables of [process.env] the engine reads. *)
Record Env := mkEnv {
  LINEAR_API_KEY : option string;
  LINEAR_TEAM_ID : option string;
  LINEAR_TEAM_KEY : option string;
  LINEAR_PROJECT_ID : option string
}.

Record LinearTeam := mkLinearTeam {
  team_id : string;
  team_name : string;
  team_key : string
}.

Definition localName : string := "compound-engineering.local.md".

(** [if (data.key) x = String(data.key)] *)
Definition overridden (data : gmap string Value) (key : string) (x : string) : string :=
  if truthy (data !! key) then default "" (String_of <$> data !! key) else x.

(** [teams] is the answer of the service to [listTeams], asked for only
    when team id or team key is still empty. *)
Definition resolveConfig (env : Env) (teams : list LinearTeam)
    (projectRoot : option string) : W LinearConfig :=
  if negb (Store.set (LINEAR_API_KEY env)) then throw "LINEAR_API_KEY not set"
  else
    let apiKey := default "" (LINEAR_API_KEY env) in
    let teamId := default "" (LINEAR_TEAM_ID env) in
    let teamKey := default "" (LINEAR_TEAM_KEY env) in
    let projectId := LINEAR_PROJECT_ID env in
    local <-
      (if Store.set projectRoot then
         let localPath := Path.join (default "" projectRoot) localName in
         found <- pathExists localPath ;;
         if found then
           raw <- readText localPath ;;
           let '(data, _) := parseFrontmatter raw in
           se_ret (overridden data "linear_team_id" teamId,
                   overridden data "linear_team_key" teamKey,
                   if truthy (data !! "linear_project_id")
                   then String_of <$> data !! "linear_project_id"
                   else projectId)
         else se_ret (teamId, teamKey, projectId)
       else se_ret (teamId, teamKey, projectId)) ;;
    let '(teamId, teamKey, projectId) := local in
    let config teamId teamKey :=
      {| teamId := teamId; teamKey := teamKey; projectId := projectId;
         apiKey := apiKey;
         statusMap := DEFAULT_STATUS_MAP; priorityMap := DEFAULT_PRIORITY_MAP |} in
    if String.eqb teamId "" || String.eqb teamKey "" then
      match teams with
      | [team] => se_ret (config (team_id team) (team_key team))
      | [] => throw "No teams found in your Linear workspace"
      | _ :: _ :: _ =>
          throw "Multiple teams found — please specify which one to use"
      end
    else se_ret (config teamId teamKey).

End Config.

(** ** The Cursor writer's paths ([targets/cursor.ts]) *)

Module Cursor.

Record CursorPaths := mkCursorPaths {
  paths_root : string;
  rulesDir : string;
  commandsDir : string;
  skillsDir : string;
  mcpPath : string
}.

Definition resolveCursorPaths (outputRoot : string) : CursorPaths :=
  let root :=
    if String.eqb (Path.basename outputRoot) ".cursor" then outputRoot
    else Path.join outputRoot ".cursor" in
  {| paths_root := root;
     rulesDir := Path.join root "rules";
     commandsDir := Path.join root "commands";
     skillsDir := Path.join root "skills";
     mcpPath := Path.join root "mcp.json" |}.

End Cursor.

(** ** The subcommands of [commands/linear.ts], after config resolution

    Console output is not modelled; a command returns what it reports. *)

Module Commands.

Import Fs Engine Single.

(** The loop of [push] over a directory: (created, updated). *)
Fixpoint pushEach (config : LinearConfig) (states : list LinearState)
    (todos : list TodoFile) (created updated : Z) : W (Z * Z) :=
  match todos with
  | [] => se_ret (created, updated)
  | todo :: rest =>
      if Store.set (fm_linear_id (todo_frontmatter todo)) then
        pushUpdate todo config states ;;
        pushEach config states rest created (updated + 1)
      else
        _ <- pushCreate todo config states None false ;;
        pushEach config states rest (created + 1) updated
  end.

Definition pushCommand (todosDir : string) (config : LinearConfig) : W (Z * Z) :=
  states <- Api.listStates (teamId config) ;;
  todos <- loadTodoFiles todosDir ;;
  pushEach config states todos 0 0.

(** What the loop of [pull] accumulates. *)
Record Pulled := mkPulled {
  pulled_files : Z;
  pulled_notes : Z;
  existingIds : gset string
}.

Fixpoint pullEach (config : LinearConfig) (todos : list TodoFile) (acc : Pulled)
    : W Pulled :=
  match todos with
  | [] => se_ret acc
  | todo :: rest =>
      let fm := todo_frontmatter todo in
      if negb (Store.set (fm_linear_id fm)) then pullEach config rest acc
      else
        let linearId := default "" (fm_linear_id fm) in
        res <- pullState linearId (todo_path todo) config ;;
        let updated := if changed res then pulled_files acc + 1 else pulled_files acc in
        count <-
          (if Store.set (fm_linear_synced_at fm) then
             let commentPath := default (todo_path todo) (newPath res) in
             pullComments linearId commentPath (default "" (fm_linear_synced_at fm))
           else se_ret 0) ;;
        pullEach config rest
          {| pulled_files := updated;
             pulled_notes := pulled_notes acc + count;
             existingIds := {[linearId]} ∪ existingIds acc |}
  end.

(** [pull]: (new, updated, comments). *)
Definition pullCommand (todosDir : string) (config : LinearConfig) : W (Z * Z * Z) :=
  todos <- loadTodoFiles todosDir ;;
  acc <- pullEach config todos
           {| pulled_files := 0; pulled_notes := 0; existingIds := ∅ |} ;;
  newTodos <- pullNewIssues config todosDir (existingIds acc) None ;;
  se_ret (Z.of_nat (length newTodos), pulled_files acc, pulled_notes acc).

Inductive Imported :=
| AlreadyExists (path : string)
| ImportedTo (path : string).

Definition importCommand (identifier todosDir : string) (config : LinearConfig)
    : W Imported :=
  existingTodos <- loadTodoFiles todosDir ;;
  match find (fun t => bool_decide (fm_linear_id (todo_frontmatter t) = Some identifier))
             existingTodos with
  | Some existing => se_ret (AlreadyExists (todo_path existing))
  | None =>
      imported <- importSingleIssue identifier config todosDir ;;
      se_ret (ImportedTo (todo_path imported))
  end.

Inductive Created :=
| AlreadyLinked (existingId : string)
| CreatedAs (identifier : string).

(** [create]: [process.exit(1)] after the message on the error console is
    the [Err] result. *)
Definition createCommand (filePath : string) (parent : option string)
    (config : LinearConfig) : W Created :=
  states <- Api.listStates (teamId config) ;;
  loaded <- loadSingleFile filePath ;;
  match loaded with
  | None => throw ("File not found or unrecognized format: " +:+ filePath)
  | Some loaded =>
      let file := loaded_file loaded in
      if Store.set (fm_linear_id (todo_frontmatter file))
      then se_ret (AlreadyLinked (default "" (fm_linear_id (todo_frontmatter file))))
      else
        parentLinearId <-
          (if Store.set parent
           then (parentIssue <- Api.getIssueByIdentifier (default "" parent) ;;
                 se_ret (Some (issue_uuid parentIssue)))
           else se_ret None) ;;
        let isPlan := is_plan loaded in
        identifier <- pushCreate file config states parentLinearId isPlan ;;
        (if isPlan then
           now <- now_iso ;;
           updatePlanFrontmatter filePath
             {| pu_linear_issue := Some identifier;
                pu_linear_synced_at := Some now |}
         else se_ret tt) ;;
        se_ret (CreatedAs identifier)
  end.

End Commands.

(** ** Shapes of the names the engine writes *)

Module Shape.

Fixpoint all_chars (p : ascii -> bool) (s : string) : bool :=
  match s with
  | EmptyString => true
  | String c r => p c && all_chars p r
  end.

Definition is_dash (c : ascii) : bool := Ascii.eqb c "-".

(** A character of a slug: a lower-case letter, a digit or a hyphen. *)
Definition slug_or_dash (c : ascii) : bool := Engine.is_slug_char c || is_dash c.

(** No two hyphens in a row. *)
Fixpoint single_dashes (s : string) : bool :=
  match s with
  | EmptyString => true
  | String a r =>
      match r with
      | String b _ => negb (is_dash a && is_dash b)
      | EmptyString => true
      end && single_dashes r
  end.

Definition starts_with_dash (s : string) : bool :=
  match s with
  | String c _ => is_dash c
  | EmptyString => false
  end.

(** No line terminator in the text. *)
Definition one_line (s : string) : bool :=
  all_chars (fun c => negb (Js.is_newline c)) s.

(** The file a record is imported into: its name, from the fields the
    import computes. *)
Definition importName (issue : LinearIssue) (config : LinearConfig) (maxId : Z)
    : string :=
  Js.padStart0 3 (Js.decimal maxId) +:+ "-"
  +:+ default "pending" (Mapping.linearStateToFileStatus (issue_stateName issue) config)
  +:+ "-" +:+ Mapping.linearPriorityToFile (issue_priority issue) config
  +:+ "-" +:+ Engine.slugify (issue_title issue) +:+ ".md".

End Shape.

(** ** More worlds for the examples *)

Module MoreExamples.

Import Engine Examples.

Definition freshPath : string := "/w/todos/001-pending-p2-new-task.md".

(** One record that has never been pushed, and no remote issue. *)
Definition freshFile : File := todoFile "pending" "p2" "001" None None T0.

Definition freshWorld : World := world [(freshPath, freshFile)] [].

(** One linked record in step with its issue but for the status: the issue
    is done. *)
Definition doneIssue : LinearIssue := issue "1" ("s4", "Done") 2 T1 [].

Definition doneWorld : World :=
  world [(todoPath, todoFile "pending" "p2" "007" (Some "ENG-1") (Some T0) T0)]
        [doneIssue].

(** A plan file. *)
Definition planPath : string := "/w/plans/2026-03-01-feat-sync-plan.md".

Definition planFile : File :=
  {| file_data := <["title" := VStr "Sync plan"]>
                    (<["type" := VStr "feat"]>
                       (<["status" := VStr "Active"]>
                          {["date" := VStr "2026-03-01"]}));
     file_body := "# Sync plan" +:+ nl;
     file_mtime := instant T0 |}.

Definition planWorld : World := world [(planPath, planFile)] [].

End MoreExamples.

(** * Properties *)

(** ** Strings *)

Section StringFacts.

Lemma append_cons (c : ascii) (a b : string) : String c a +:+ b = String c (a +:+ b).
Proof. reflexivity. Qed.

Lemma append_nil_l (a : string) : "" +:+ a = a.
Proof. reflexivity. Qed.

Lemma append_nil_r (a : string) : a +:+ "" = a.
Proof.
  induction a as [|x a IH]; [reflexivity |].
  rewrite append_cons, IH. reflexivity.
Qed.

Lemma append_assoc (a b c : string) : (a +:+ b) +:+ c = a +:+ (b +:+ c).
Proof.
  induction a as [|x a IH]; [reflexivity |].
  rewrite !append_cons, IH. reflexivity.
Qed.

Lemma rev_onto_app (s acc : string) : Js.rev_onto s acc = Js.rev s +:+ acc.
Proof.
  unfold Js.rev. revert acc.
  induction s as [|c s IH]; intros acc; simpl; [reflexivity |].
  rewrite (IH (String c acc)), (IH (String c "")), append_assoc. reflexivity.
Qed.

Lemma rev_string_cons (c : ascii) (s : string) : Js.rev (String c s) = Js.rev s +:+ String c "".
Proof. unfold Js.rev at 1. simpl. apply rev_onto_app. Qed.

Lemma rev_append (a b : string) : Js.rev (a +:+ b) = Js.rev b +:+ Js.rev a.
Proof.
  induction a as [|c a IH].
  - rewrite append_nil_l. symmetry. apply append_nil_r.
  - rewrite append_cons, !rev_string_cons, IH, append_assoc. reflexivity.
Qed.

Lemma rev_rev (s : string) : Js.rev (Js.rev s) = s.
Proof.
  induction s as [|c s IH]; [reflexivity |].
  rewrite rev_string_cons, rev_append, IH. reflexivity.
Qed.

Lemma lacks_app (c : ascii) (a b : string) :
  Path.lacks c (a +:+ b) = Path.lacks c a && Path.lacks c b.
Proof.
  induction a as [|x a IH]; [reflexivity |].
  rewrite append_cons. simpl. rewrite IH, andb_assoc. reflexivity.
Qed.

Lemma lacks_rev (c : ascii) (s : string) : Path.lacks c (Js.rev s) = Path.lacks c s.
Proof.
  induction s as [|x s IH]; [reflexivity |].
  rewrite rev_string_cons, lacks_app, IH. simpl. rewrite andb_true_r, andb_comm. reflexivity.
Qed.

Lemma split_nonempty (c : ascii) (s : string) : Js.split c s <> [].
Proof.
  destruct s as [|x s]; simpl; [discriminate |].
  destruct (Ascii.eqb x c); [discriminate |].
  destruct (Js.split c s); discriminate.
Qed.

Lemma join_cons2 (sep h h' : string) (t : list string) :
  Js.join sep (h :: h' :: t) = h +:+ sep +:+ Js.join sep (h' :: t).
Proof. reflexivity. Qed.

(** Splitting at a separator and joining again gives the string back. *)
Lemma join_split (c : ascii) (s : string) : Js.join (String c "") (Js.split c s) = s.
Proof.
  induction s as [|x s IH]; [reflexivity |].
  simpl. pose proof (split_nonempty c s) as Hne.
  destruct (Js.split c s) as [|h t] eqn:E; [congruence |].
  destruct (Ascii.eqb_spec x c) as [-> | Hxc].
  - rewrite join_cons2, IH. reflexivity.
  - destruct t as [|h' t].
    + simpl in *. subst s. reflexivity.
    + rewrite join_cons2 in *. rewrite append_cons, IH. reflexivity.
Qed.

Lemma split_lacks (c : ascii) (s : string) :
  Path.lacks c s = true -> Js.split c s = [s].
Proof.
  induction s as [|x s IH]; [reflexivity |].
  simpl. intros H. apply andb_prop in H as [Hx Hs].
  apply negb_true_iff in Hx. rewrite Hx, (IH Hs). reflexivity.
Qed.

(** A separator after a part without separators starts a new part. *)
Lemma split_app (c : ascii) (a b : string) :
  Js.split c (a +:+ String c b) = (Js.split c a ++ Js.split c b)%list.
Proof.
  induction a as [|x a IH].
  - rewrite append_nil_l. simpl. rewrite Ascii.eqb_refl. reflexivity.
  - rewrite append_cons. simpl. rewrite IH.
    destruct (Ascii.eqb x c); [reflexivity |].
    destruct (Js.split c a) as [|h t] eqn:E; [| reflexivity].
    exfalso. exact (split_nonempty c a E).
Qed.

Lemma split_token (c : ascii) (a b : string) :
  Path.lacks c a = true -> Js.split c (a +:+ String c b) = a :: Js.split c b.
Proof. intros H. rewrite split_app, (split_lacks c a H). reflexivity. Qed.

Lemma takeWhile_app_stop (p : ascii -> bool) (a : string) (c : ascii) (b : string) :
  (forall x, p x = true \/ p x = false) ->
  Js.takeWhile p a = a -> p c = false -> Js.takeWhile p (a +:+ String c b) = a.
Proof.
  intros _. induction a as [|x a IH]; intros Ha Hc.
  - rewrite append_nil_l. simpl. rewrite Hc. reflexivity.
  - rewrite append_cons. simpl in *. destruct (p x); [| discriminate].
    injection Ha as Ha. rewrite (IH Ha Hc). reflexivity.
Qed.

Lemma takeWhile_not_slash (s : string) :
  Path.lacks Path.slash s = true -> Js.takeWhile Path.not_slash s = s.
Proof.
  induction s as [|x s IH]; [reflexivity |].
  simpl. intros H. apply andb_prop in H as [Hx Hs].
  change (Path.not_slash x) with (negb (Ascii.eqb x Path.slash)).
  rewrite Hx, (IH Hs). reflexivity.
Qed.

Lemma dropWhile_not_slash (a b : string) :
  Path.lacks Path.slash a = true ->
  Js.dropWhile Path.not_slash (a +:+ String Path.slash b) = String Path.slash b.
Proof.
  induction a as [|x a IH]; intros H.
  - reflexivity.
  - rewrite append_cons. simpl in *. apply andb_prop in H as [Hx Hs].
    change (Path.not_slash x) with (negb (Ascii.eqb x Path.slash)).
    rewrite Hx. apply IH. exact Hs.
Qed.

Lemma dropWhile_slash_head (s : string) :
  s <> "" -> Path.lacks Path.slash s = true -> forall t,
  Js.dropWhile Path.is_slash (s +:+ t) = s +:+ t.
Proof.
  destruct s as [|x s]; [congruence |]. intros _ H t.
  rewrite append_cons. simpl in *. apply andb_prop in H as [Hx _].
  apply negb_true_iff in Hx. unfold Path.is_slash. rewrite Hx. reflexivity.
Qed.

Lemma rev_nonempty (s : string) : s <> "" -> Js.rev s <> "".
Proof.
  intros Hs Hr. apply Hs. rewrite <- (rev_rev s), Hr. reflexivity.
Qed.

Lemma length_append (a b : string) :
  String.length (a +:+ b) = (String.length a + String.length b)%nat.
Proof.
  induction a as [|x a IH]; [reflexivity |].
  rewrite append_cons. simpl. rewrite IH. reflexivity.
Qed.

End StringFacts.

(** ** Mapping tables *)

Section MappingFacts.

Import Mapping.

Lemma same_name_eq (a b : string) :
  same_name a b = true <-> Js.toLowerCase a = Js.toLowerCase b.
Proof. unfold same_name. apply String.eqb_eq. Qed.

Lemma same_name_sym (a b : string) : same_name a b = same_name b a.
Proof. unfold same_name. apply String.eqb_sym. Qed.

Lemma find_same_name_some (states : list LinearState) (target : string) :
  (exists s, In s states /\ same_name (state_name s) target = true) ->
  exists st, find (fun s => same_name (state_name s) target) states = Some st
             /\ same_name (state_name st) target = true.
Proof.
  induction states as [|s0 rest IH]; intros [s [Hin Hs]].
  - destruct Hin.
  - simpl. destruct (same_name (state_name s0) target) eqn:E.
    + exists s0. split; [reflexivity | exact E].
    + destruct Hin as [-> | Hin]; [congruence |].
      apply IH. exists s. split; assumption.
Qed.

Lemma status_get_member (m : StatusMap) (status : string) :
  In status statuses -> exists name, status_get m status = Some name.
Proof.
  unfold statuses. simpl.
  intros [<- | [<- | [<- | [<- | [<- | []]]]]]; eexists; reflexivity.
Qed.

(** With distinct names, the reverse lookup of the name configured for a
    status finds that status. *)
Lemma reverse_lookup_distinct (config : LinearConfig) (status name other : string) :
  distinct_names (statusMap config) ->
  In status statuses ->
  status_get (statusMap config) status = Some name ->
  same_name other name = true ->
  linearStateToFileStatus other config = Some status.
Proof.
  intros [_ Hnd] Hin Hget Hsame.
  apply same_name_eq in Hsame.
  unfold linearStateToFileStatus, status_entries in *.
  cbn [map snd] in Hnd.
  assert (Hkey : forall n : string,
             same_name n other = true <-> Js.toLowerCase n = Js.toLowerCase name).
  { intros n. rewrite same_name_eq, Hsame. reflexivity. }
  assert (Hno : forall n : string,
             Js.toLowerCase n <> Js.toLowerCase name -> same_name n other = false).
  { intros n Hne. destruct (same_name n other) eqn:E; [|reflexivity].
    apply Hkey in E. contradiction. }
  assert (Hyes : same_name name other = true) by (apply Hkey; reflexivity).
  clear Hkey.
  repeat match goal with
         | H : NoDup (_ :: _) |- _ => apply NoDup_cons in H; destruct H
         end.
  unfold statuses in Hin. simpl in Hin.
  destruct Hin as [<- | [<- | [<- | [<- | [<- | []]]]]];
    cbn in Hget; injection Hget as <-; cbn [find fst snd fmap option_fmap option_map];
    repeat first
      [ rewrite Hyes; reflexivity
      | rewrite Hno; [| intros Heq; set_solver ] ].
Qed.

End MappingFacts.

Section MappingClaims.

Import Mapping Examples.

(** C6, as stated, fails in three ways.  When two statuses are configured
    with the same workflow state, the way back returns the first of them;
    a status configured with the empty name is sent to no state, although
    the workflow has a state of that name; and a priority map that departs
    from 1, 2, 3 is not undone by the fixed thresholds of
    [linearPriorityToFile]. *)
Lemma round_trip_fails_for_shared_names :
  (In "ready" statuses /\
   (exists s, In s backlogStates /\
      same_name (state_name s) (sm_ready (statusMap sharedConfig)) = true) /\
   exists st, fileStatusToLinearState "ready" backlogStates sharedConfig = Some st /\
      linearStateToFileStatus (state_name st) sharedConfig = Some "pending") /\
  (In "pending" statuses /\
   (exists s, In s blankStates /\
      same_name (state_name s) (sm_pending (statusMap blankConfig)) = true) /\
   fileStatusToLinearState "pending" blankStates blankConfig = None) /\
  (In "p1" priorities /\
   linearPriorityToFile (filePriorityToLinear "p1" sharedConfig) sharedConfig = "p2").
Proof.
  split; [| split].
  - split; [unfold statuses; simpl; tauto |].
    split; exists (mkLinearState "s0" "Backlog" "backlog");
      split; first [left; reflexivity | reflexivity].
  - split; [unfold statuses; simpl; tauto |].
    split; [| reflexivity].
    exists (mkLinearState "s9" "" "backlog"). split; [left |]; reflexivity.
  - split; [unfold priorities; simpl; tauto | reflexivity].
Qed.

(** C6 (amended).  Statuses: for a status map whose names are non-empty and
    pairwise distinct up to case, every status of the enumeration translated
    to a workflow state of the candidate list and back is the original
    status, provided the list has a state of the configured name.
    Priorities, whatever the status map: p1 comes back exactly when the map
    sends it to an integer at most 1, p2 exactly when the map sends it to 2,
    p3 exactly when the map sends it to an integer from 3 on; so every
    priority comes back under a map aligned with these thresholds, as the
    default one is. *)
Theorem mapping_round_trip (config : LinearConfig) (states : list LinearState) :
  (forall status,
     distinct_names (statusMap config) ->
     In status statuses ->
     (exists s name, In s states /\
        status_get (statusMap config) status = Some name /\
        same_name (state_name s) name = true) ->
     exists st, fileStatusToLinearState status states config = Some st /\
        linearStateToFileStatus (state_name st) config = Some status) /\
  (linearPriorityToFile (filePriorityToLinear "p1" config) config = "p1"
   <-> pm_p1 (priorityMap config) <= 1) /\
  (linearPriorityToFile (filePriorityToLinear "p2" config) config = "p2"
   <-> pm_p2 (priorityMap config) = 2) /\
  (linearPriorityToFile (filePriorityToLinear "p3" config) config = "p3"
   <-> 3 <= pm_p3 (priorityMap config)) /\
  (aligned_priorities (priorityMap config) ->
   forall priority, In priority priorities ->
     linearPriorityToFile (filePriorityToLinear priority config) config = priority).
Proof.
  assert (H1 : linearPriorityToFile (filePriorityToLinear "p1" config) config = "p1"
               <-> pm_p1 (priorityMap config) <= 1).
  { unfold filePriorityToLinear, linearPriorityToFile. cbn.
    destruct (Z.leb_spec (pm_p1 (priorityMap config)) 1) as [Hle | Hgt].
    - split; [intros _; exact Hle | reflexivity].
    - split; [| lia].
      destruct (pm_p1 (priorityMap config) =? 2); discriminate. }
  assert (H2 : linearPriorityToFile (filePriorityToLinear "p2" config) config = "p2"
               <-> pm_p2 (priorityMap config) = 2).
  { unfold filePriorityToLinear, linearPriorityToFile. cbn.
    destruct (Z.leb_spec (pm_p2 (priorityMap config)) 1) as [Hle | Hgt].
    - split; [discriminate | lia].
    - destruct (Z.eqb_spec (pm_p2 (priorityMap config)) 2) as [Heq | Hne].
      + split; [intros _; exact Heq | reflexivity].
      + split; [discriminate | contradiction]. }
  assert (H3 : linearPriorityToFile (filePriorityToLinear "p3" config) config = "p3"
               <-> 3 <= pm_p3 (priorityMap config)).
  { unfold filePriorityToLinear, linearPriorityToFile. cbn.
    destruct (Z.leb_spec (pm_p3 (priorityMap config)) 1) as [Hle | Hgt].
    - split; [discriminate | lia].
    - destruct (Z.eqb_spec (pm_p3 (priorityMap config)) 2) as [Heq | Hne].
      + split; [discriminate | lia].
      + split; [lia | reflexivity]. }
  split; [| split; [exact H1 | split; [exact H2 | split; [exact H3 |]]]].
  - intros status Hdist Hstatus (s & name & Hin & Hget & Hsame).
    unfold fileStatusToLinearState. cbn zeta. rewrite Hget.
    assert (Hne : String.eqb name "" = false).
    { apply String.eqb_neq. destruct Hdist as [Hall _].
      unfold status_get in Hget.
      destruct (find _ (status_entries (statusMap config))) as [e|] eqn:Hfind;
        [| discriminate].
      injection Hget as <-.
      apply find_some in Hfind as [He _].
      rewrite Forall_forall in Hall. apply Hall.
      apply list_elem_of_In. exact He. }
    rewrite Hne.
    destruct (find_same_name_some states name) as (st & Hfind & Hst).
    { exists s. split; assumption. }
    exists st. split; [exact Hfind |].
    eapply reverse_lookup_distinct; eassumption.
  - intros (Ha & Hb & Hc) priority Hprio.
    unfold priorities in Hprio. simpl in Hprio.
    destruct Hprio as [<- | [<- | [<- | []]]];
      [apply H1 | apply H2 | apply H3]; assumption.
Qed.

Lemma default_names_distinct : distinct_names DEFAULT_STATUS_MAP.
Proof.
  split.
  - unfold status_entries. cbn. repeat constructor; discriminate.
  - apply (bool_decide_unpack _). vm_compute. exact I.
Qed.

(** The round trip holds for the default configuration. *)
Lemma mapping_round_trip_default :
  (exists st, fileStatusToLinearState "ready" teamStates defaultConfig = Some st /\
     linearStateToFileStatus (state_name st) defaultConfig = Some "ready") /\
  linearPriorityToFile (filePriorityToLinear "p2" defaultConfig) defaultConfig = "p2".
Proof.
  destruct (mapping_round_trip defaultConfig teamStates) as (Hs & _ & _ & _ & Hp).
  split.
  - apply Hs.
    + exact default_names_distinct.
    + unfold statuses. simpl. tauto.
    + exists (mkLinearState "s2" "Todo" "unstarted"), "Todo".
      split; [right; left; reflexivity |]. split; reflexivity.
  - apply Hp.
    + cbv. repeat split; discriminate.
    + unfold priorities. simpl. tauto.
Defined.

(** C7, as stated, fails: a local priority outside the mapping becomes the
    constant 3, also under a mapping whose normal tier p3 stands for
    another number. *)
Lemma absent_priority_becomes_three :
  ~ In "p9" priorities /\
  Js.inherited "p9" = false /\
  priority_get (priorityMap sharedConfig) "p9" = None /\
  filePriorityToLinear "p9" sharedConfig = 3 /\
  filePriorityToLinear "p3" sharedConfig = 4 /\
  linearPriorityToFile 4 sharedConfig = "p3".
Proof.
  split; [| repeat split].
  unfold priorities. simpl. intros [H | [H | [H | []]]]; discriminate.
Qed.

(** C7 (amended): both translations are total.  Remote to local always
    gives one of p1, p2, p3, and never consults the mapping: 1 gives p1,
    2 gives p2, every integer from 3 on, so every priority the mapping does
    not cover, gives the normal tier p3.  Local to remote gives the
    mapping's value for p1, p2 and p3, and the constant 3 for every other
    string that is not the name of an inherited member. *)
Theorem priority_translation_total
    (config : LinearConfig) (n : Z) (priority : string) :
  In (linearPriorityToFile n config) priorities /\
  (n = 1 -> linearPriorityToFile n config = "p1") /\
  (n = 2 -> linearPriorityToFile n config = "p2") /\
  (3 <= n -> linearPriorityToFile n config = "p3") /\
  (In priority priorities ->
     priority_get (priorityMap config) priority
     = Some (filePriorityToLinear priority config)) /\
  (~ In priority priorities -> Js.inherited priority = false ->
     filePriorityToLinear priority config = 3).
Proof.
  unfold linearPriorityToFile, priorities.
  repeat split.
  - destruct (Z.leb_spec n 1); [simpl; tauto |].
    destruct (Z.eqb_spec n 2); simpl; tauto.
  - intros ->. reflexivity.
  - intros ->. reflexivity.
  - intros H. destruct (Z.leb_spec n 1); [lia |].
    destruct (Z.eqb_spec n 2); [lia | reflexivity].
  - simpl. intros [<- | [<- | [<- | []]]]; reflexivity.
  - intros Hnot _. unfold filePriorityToLinear, priority_get, priority_entries.
    cbn [find fst].
    destruct (String.eqb_spec "p1" priority) as [<- | _]; [simpl in Hnot; tauto |].
    destruct (String.eqb_spec "p2" priority) as [<- | _]; [simpl in Hnot; tauto |].
    destruct (String.eqb_spec "p3" priority) as [<- | _]; [simpl in Hnot; tauto |].
    reflexivity.
Qed.

End MappingClaims.

(** ** Paths and renaming *)

Section PathFacts.

Import Engine.

Lemma takeWhile_until_slash (a b : string) :
  Path.lacks Path.slash a = true ->
  Js.takeWhile Path.not_slash (a +:+ String Path.slash b) = a.
Proof.
  induction a as [|x a IH]; intros H; [reflexivity |].
  rewrite append_cons. simpl in *. apply andb_prop in H as [Hx Hs].
  change (Path.not_slash x) with (negb (Ascii.eqb x Path.slash)).
  rewrite Hx, (IH Hs). reflexivity.
Qed.

Lemma rev_path (dir name : string) :
  Js.rev (dir +:+ String Path.slash name)
  = Js.rev name +:+ String Path.slash (Js.rev dir).
Proof.
  rewrite rev_append, rev_string_cons, append_assoc. reflexivity.
Qed.

Lemma last_segment_of_file (dir name : string) :
  name <> "" -> Path.lacks Path.slash name = true ->
  Path.last_segment (dir +:+ String Path.slash name) = name.
Proof.
  intros Hne Hlacks. unfold Path.last_segment.
  rewrite rev_path.
  rewrite dropWhile_slash_head;
    [| apply rev_nonempty; exact Hne | rewrite lacks_rev; exact Hlacks].
  rewrite takeWhile_until_slash by (rewrite lacks_rev; exact Hlacks).
  apply rev_rev.
Qed.

Lemma endsWith_md (base : string) : Js.endsWith (base +:+ ".md") ".md" = true.
Proof.
  unfold Js.endsWith. rewrite rev_append.
  change (Js.rev ".md") with "dm.". rewrite !append_cons, append_nil_l.
  reflexivity.
Qed.

Lemma dropEnd_md (base : string) : Js.dropEnd 3 (base +:+ ".md") = base.
Proof.
  unfold Js.dropEnd. rewrite rev_append.
  change (Js.rev ".md") with "dm.". rewrite !append_cons, append_nil_l.
  simpl. apply rev_rev.
Qed.

(** [path.basename(p, ".md")] of a markdown file in a directory. *)
Lemma basename_of_md (dir base : string) :
  base <> "" -> Path.lacks Path.slash base = true ->
  Path.basename_ext (dir +:+ String Path.slash (base +:+ ".md")) ".md" = base.
Proof.
  intros Hne Hlacks. unfold Path.basename_ext.
  assert (Hname : base +:+ ".md" <> "").
  { destruct base; [congruence | discriminate]. }
  assert (Hl : Path.lacks Path.slash (base +:+ ".md") = true).
  { rewrite lacks_app, Hlacks. reflexivity. }
  rewrite last_segment_of_file by assumption.
  assert (Hlen : (String.length ".md"
                  <=? String.length (dir +:+ String Path.slash (base +:+ ".md")))%nat = true).
  { apply Nat.leb_le. rewrite length_append. simpl. rewrite length_append. simpl. lia. }
  rewrite Hlen.
  assert (Hp : String.eqb ".md" (dir +:+ String Path.slash (base +:+ ".md")) = false).
  { apply String.eqb_neq. intros Heq.
    apply (f_equal String.length) in Heq.
    rewrite length_append in Heq. simpl in Heq. rewrite length_append in Heq. simpl in Heq.
    lia. }
  rewrite Hp.
  assert (Hs : String.eqb (base +:+ ".md") ".md" = false).
  { apply String.eqb_neq. intros Heq.
    apply (f_equal String.length) in Heq. rewrite length_append in Heq.
    destruct base; [congruence | simpl in Heq; lia]. }
  rewrite endsWith_md, Hs. cbn [negb andb String.eqb].
  apply dropEnd_md.
Qed.

(** [path.dirname] of a file in a directory other than the root. *)
Lemma dirname_of_file (dir name : string) :
  dir <> "" -> dir <> "/" ->
  name <> "" -> Path.lacks Path.slash name = true ->
  Path.dirname (dir +:+ String Path.slash name) = dir.
Proof.
  intros Hd Hroot Hne Hlacks.
  destruct dir as [|c0 dir']; [congruence |].
  rewrite append_cons. unfold Path.dirname.
  rewrite rev_path.
  rewrite dropWhile_slash_head;
    [| apply rev_nonempty; exact Hne | rewrite lacks_rev; exact Hlacks].
  rewrite dropWhile_not_slash by (rewrite lacks_rev; exact Hlacks).
  destruct (Js.rev dir') as [|x r] eqn:Hrev.
  - assert (dir' = "") as ->.
    { rewrite <- (rev_rev dir'), Hrev. reflexivity. }
    destruct (Path.is_slash c0) eqn:Hc; [| reflexivity].
    exfalso. apply Hroot. apply Ascii.eqb_eq in Hc. rewrite Hc. reflexivity.
  - rewrite <- Hrev, rev_rev. reflexivity.
Qed.

End PathFacts.

Section RenameClaims.

Import Engine.

Lemma normalizeSegments_plain (allow : bool) (stack segs : list string) :
  forallb Path.plain segs = true ->
  Path.normalizeSegments allow stack segs = (rev stack ++ segs)%list.
Proof.
  revert stack. induction segs as [|seg rest IH]; intros stack H.
  - simpl. rewrite List.app_nil_r. reflexivity.
  - simpl in H. apply andb_prop in H as [Hseg Hrest].
    unfold Path.plain in Hseg.
    apply andb_prop in Hseg as [Hseg H2]. apply andb_prop in Hseg as [H0 H1].
    apply negb_true_iff in H0, H1, H2.
    simpl. rewrite H0, H1, H2. cbn [orb].
    rewrite (IH (seg :: stack) Hrest). simpl. rewrite <- List.app_assoc. reflexivity.
Qed.

Lemma long_is_plain (s : string) : (2 < String.length s)%nat -> Path.plain s = true.
Proof.
  intros H. destruct s as [|a [|b [|c s]]]; simpl in H; try lia.
  unfold Path.plain.
  destruct (String.eqb_spec (String a (String b (String c s))) ""); [discriminate |].
  destruct (String.eqb_spec (String a (String b (String c s))) "."); [discriminate |].
  destruct (String.eqb_spec (String a (String b (String c s))) ".."); [discriminate |].
  reflexivity.
Qed.

Lemma not_trailing_slash (dir name : string) :
  name <> "" -> Path.lacks Path.slash name = true ->
  Js.endsWith (dir +:+ String Path.slash name) "/" = false.
Proof.
  intros Hne Hlacks. unfold Js.endsWith. rewrite rev_path.
  pose proof (rev_nonempty name Hne) as Hr.
  pose proof (lacks_rev Path.slash name) as Hl. rewrite Hlacks in Hl.
  destruct (Js.rev name) as [|x r]; [congruence |].
  simpl in Hl. apply andb_prop in Hl as [Hx _]. apply negb_true_iff in Hx.
  rewrite append_cons. change (Js.rev "/") with "/".
  cbn [Js.startsWith]. change "/"%char with Path.slash.
  rewrite Ascii.eqb_sym, Hx. reflexivity.
Qed.

Lemma join_split_slash (s : string) : Js.join "/" (Js.split Path.slash s) = s.
Proof. exact (join_split Path.slash s). Qed.

(** Joining a normalised directory and a plain file name only puts a slash
    between them. *)
Lemma join_clean (dir name : string) :
  Path.clean dir = true ->
  Path.plain name = true -> Path.lacks Path.slash name = true ->
  Path.join dir name = dir +:+ String Path.slash name.
Proof.
  intros Hclean Hplain Hlacks.
  assert (Hname : name <> "").
  { intros ->. discriminate. }
  assert (Hdir : dir <> "").
  { intros ->. discriminate. }
  unfold Path.join.
  apply String.eqb_neq in Hdir as Hd. apply String.eqb_neq in Hname as Hn.
  rewrite Hd, Hn.
  change (dir +:+ "/" +:+ name) with (dir +:+ String Path.slash name).
  destruct dir as [|c0 rest]; [congruence |].
  unfold Path.normalize. rewrite append_cons.
  rewrite <- append_cons, not_trailing_slash by assumption.
  unfold Path.normalizeString.
  destruct (Path.is_slash c0) eqn:Hc.
  - apply Ascii.eqb_eq in Hc. subst c0.
    change (Path.clean (String Path.slash rest))
      with (forallb Path.plain (Js.split Path.slash rest)) in Hclean.
    rewrite append_cons.
    change (Js.split Path.slash (String Path.slash (rest +:+ String Path.slash name)))
      with ("" :: Js.split Path.slash (rest +:+ String Path.slash name)).
    change (Path.normalizeSegments (negb true) []
              ("" :: Js.split Path.slash (rest +:+ String Path.slash name)))
      with (Path.normalizeSegments false []
              (Js.split Path.slash (rest +:+ String Path.slash name))).
    rewrite normalizeSegments_plain.
    + simpl rev. rewrite List.app_nil_l.
      rewrite join_split_slash.
      destruct (String.eqb_spec (rest +:+ String Path.slash name) "") as [He | _].
      * destruct rest; discriminate.
      * reflexivity.
    + rewrite split_app, forallb_app, Hclean, (split_lacks _ _ Hlacks).
      simpl. rewrite Hplain. reflexivity.
  - assert (Hcl : forallb Path.plain (Js.split Path.slash (String c0 rest)) = true).
    { revert Hclean. unfold Path.clean.
      destruct c0 as [[] [] [] [] [] [] [] []]; try (intros H; exact H).
      discriminate Hc. }
    rewrite normalizeSegments_plain.
    + simpl rev. rewrite List.app_nil_l.
      rewrite join_split_slash.
      destruct (String.eqb_spec (String c0 rest +:+ String Path.slash name) "") as [He | _].
      * discriminate.
      * reflexivity.
    + rewrite split_app, forallb_app, Hcl, (split_lacks _ _ Hlacks).
      simpl. rewrite Hplain. reflexivity.
Qed.

Lemma split_hyphen_tokens (seq st pr slug : string) :
  Path.lacks "-" seq = true -> Path.lacks "-" st = true -> Path.lacks "-" pr = true ->
  Js.split "-" (seq +:+ "-" +:+ st +:+ "-" +:+ pr +:+ "-" +:+ slug)
  = seq :: st :: pr :: Js.split "-" slug.
Proof.
  intros H1 H2 H3.
  change ("-" +:+ st +:+ "-" +:+ pr +:+ "-" +:+ slug)
    with (String "-" (st +:+ "-" +:+ pr +:+ "-" +:+ slug)).
  rewrite (split_token _ _ _ H1).
  change ("-" +:+ pr +:+ "-" +:+ slug) with (String "-" (pr +:+ "-" +:+ slug)).
  rewrite (split_token _ _ _ H2).
  change ("-" +:+ slug) with (String "-" slug).
  rewrite (split_token _ _ _ H3). reflexivity.
Qed.

Lemma join_split_hyphen (s : string) : Js.join "-" (Js.split "-" s) = s.
Proof. exact (join_split "-" s). Qed.

Lemma token_lacks (s : string) :
  token s = true -> Path.lacks "-" s = true /\ Path.lacks Path.slash s = true.
Proof. unfold token. intros H. apply andb_prop in H. exact H. Qed.

Lemma name_lacks_slash (a b c d e : string) :
  Path.lacks Path.slash a = true -> Path.lacks Path.slash b = true ->
  Path.lacks Path.slash c = true -> Path.lacks Path.slash d = true ->
  Path.lacks Path.slash e = true ->
  Path.lacks Path.slash (a +:+ "-" +:+ b +:+ "-" +:+ c +:+ "-" +:+ d +:+ e) = true.
Proof.
  intros Ha Hb Hc Hd He.
  rewrite !lacks_app, Ha, Hb, Hc, Hd, He. reflexivity.
Qed.

Lemma name_is_long (a b c d : string) :
  (2 < String.length (a +:+ "-" +:+ b +:+ "-" +:+ c +:+ "-" +:+ d))%nat.
Proof. rewrite !length_append. simpl. lia. Qed.

(** C8: a path whose basename has the shape
    [issueId]-[status]-[priority]-[slug] (the first three free of hyphens,
    the directory normalised) is renamed to the path in the same directory
    that differs in the status and priority tokens only; a path whose
    basename splits at hyphens into fewer than four parts is returned as it
    is. *)
Theorem rename_replaces_status_and_priority
    (dir issueId status priority slug newStatus newPriority oldPath : string) :
  Path.clean dir = true ->
  token issueId = true -> token status = true -> token priority = true ->
  Path.lacks "/" slug = true ->
  Path.lacks "/" newStatus = true -> Path.lacks "/" newPriority = true ->
  renameTodoFile (todoName dir issueId status priority slug) newStatus newPriority
  = todoName dir issueId newStatus newPriority slug
  /\
  ((length (Js.split "-" (Path.basename_ext oldPath ".md")) < 4)%nat ->
   renameTodoFile oldPath newStatus newPriority = oldPath).
Proof.
  intros Hclean Hid Hst Hpr Hslug Hns Hnp.
  apply token_lacks in Hid as [Hid1 Hid2].
  apply token_lacks in Hst as [Hst1 Hst2].
  apply token_lacks in Hpr as [Hpr1 Hpr2].
  split.
  - set (base := issueId +:+ "-" +:+ status +:+ "-" +:+ priority +:+ "-" +:+ slug).
    assert (Hold : todoName dir issueId status priority slug
                   = dir +:+ String Path.slash (base +:+ ".md")).
    { unfold todoName, base. rewrite !append_assoc. reflexivity. }
    assert (Hbase : base <> "").
    { intros Heq. pose proof (name_is_long issueId status priority slug) as Hl.
      fold base in Hl. rewrite Heq in Hl. simpl in Hl. lia. }
    assert (Hbl : Path.lacks Path.slash base = true).
    { unfold base. rewrite <- (append_nil_r slug), <- !append_assoc.
      rewrite !append_assoc. apply name_lacks_slash; try assumption. reflexivity. }
    assert (Hdir : dir <> "") by (intros ->; discriminate).
    assert (Hroot : dir <> "/") by (intros ->; discriminate).
    unfold renameTodoFile. rewrite Hold.
    rewrite dirname_of_file; try assumption.
    2:{ destruct base; [congruence | discriminate]. }
    2:{ rewrite lacks_app, Hbl. reflexivity. }
    rewrite basename_of_md by assumption.
    unfold base. rewrite split_hyphen_tokens by assumption.
    assert (Hlen : (length (issueId :: status :: priority :: Js.split "-" slug) <? 4)%nat
                   = false).
    { apply Nat.ltb_ge. pose proof (split_nonempty "-" slug) as Hne.
      destruct (Js.split "-" slug); [congruence | simpl; lia]. }
    rewrite Hlen. cbn [hd skipn].
    rewrite drop_0, join_split_hyphen.
    set (name := issueId +:+ "-" +:+ newStatus +:+ "-" +:+ newPriority +:+ "-"
                 +:+ slug +:+ ".md").
    rewrite join_clean; [| exact Hclean | |].
    + unfold todoName, name. reflexivity.
    + apply long_is_plain. unfold name.
      pose proof (name_is_long issueId newStatus newPriority (slug +:+ ".md")) as Hl.
      exact Hl.
    + unfold name. apply name_lacks_slash; try assumption. reflexivity.
  - intros Hshort. unfold renameTodoFile.
    apply Nat.ltb_lt in Hshort. rewrite Hshort. reflexivity.
Qed.

(** The example of the specification, and a file outside the naming
    contract. *)
Lemma rename_pending_to_ready :
  renameTodoFile "/w/todos/007-pending-p2-fix-bug.md" "ready" "p2"
  = "/w/todos/007-ready-p2-fix-bug.md"
  /\ renameTodoFile "/w/todos/notes.md" "ready" "p2" = "/w/todos/notes.md".
Proof.
  destruct (rename_replaces_status_and_priority
              "/w/todos" "007" "pending" "p2" "fix-bug" "ready" "p2"
              "/w/todos/notes.md") as [Hnew Hold]; try reflexivity.
  split; [exact Hnew |].
  apply Hold. vm_compute. lia.
Defined.

End RenameClaims.

(** ** Comment pull *)

Section CommentFacts.

Import Engine Fs.

Lemma fold_entries (l : list LinearComment) (acc : string) :
  fold_left (fun acc c => acc +:+ commentEntry c) l acc
  = acc +:+ String.concat "" (map commentEntry l).
Proof.
  revert acc. induction l as [|c l IH]; intros acc; simpl.
  - symmetry. apply append_nil_r.
  - rewrite IH, append_assoc. f_equal.
    destruct l as [|c' l]; simpl; [rewrite append_nil_r |]; reflexivity.
Qed.

(** The appended text is the entries of the new comments, one after the
    other. *)
Lemma appendTextOf_concat (l : list LinearComment) :
  appendTextOf l = String.concat "" (map commentEntry l).
Proof. unfold appendTextOf. rewrite fold_entries. reflexivity. Qed.

Lemma filter_sublist_of {A} (p : A -> bool) (l : list A) :
  sublist (List.filter p l) l.
Proof.
  induction l as [|x l IH]; simpl; [constructor |].
  destruct (p x); [apply sublist_skip | apply sublist_cons]; exact IH.
Qed.

Lemma filter_StronglySorted {A} (R : A -> A -> Prop) (p : A -> bool) (l : list A) :
  StronglySorted R l -> StronglySorted R (List.filter p l).
Proof.
  induction 1 as [|x l Hs IH Hall]; simpl; [constructor |].
  destruct (p x); [| exact IH].
  constructor; [exact IH |].
  rewrite List.Forall_forall in *. intros y Hy.
  apply List.filter_In in Hy as [Hy _]. apply Hall. exact Hy.
Qed.

Lemma filter_NoDup {A} (p : A -> bool) (l : list A) :
  List.NoDup l -> List.NoDup (List.filter p l).
Proof.
  induction 1 as [|x l Hx Hnd IH]; simpl; [constructor |].
  destruct (p x); [| exact IH].
  constructor; [| exact IH].
  intros Hin. apply List.filter_In in Hin as [Hin _]. contradiction.
Qed.

Lemma filter_none {A} (p : A -> bool) (l : list A) :
  (forall x, In x l -> p x = false) -> List.filter p l = [].
Proof.
  induction l as [|x l IH]; intros H; simpl; [reflexivity |].
  rewrite (H x (or_introl eq_refl)). apply IH.
  intros y Hy. apply H. right. exact Hy.
Qed.

(** What [pullCommentsFromIssue] does, by the number of new comments. *)
Lemma pullComments_run (issue : LinearIssue) (todoPath since : string) (w : World) :
  pullCommentsFromIssue issue todoPath since w =
  match newCommentsSince issue since with
  | [] => (Ok 0, w)
  | new =>
      match fs w !! todoPath with
      | None => (Err (enoent "open" todoPath), w)
      | Some f =>
          (Ok (Z.of_nat (length new)),
           set_fs (insert todoPath
                     {| file_data := <["linear_synced_at" := VStr (JsDate.toISOString (clock w))]>
                                       (file_data f);
                        file_body := Js.trimEnd (file_body f) +:+ nl +:+ appendTextOf new;
                        file_mtime := landing w |}) w)
      end
  end.
Proof.
  unfold pullCommentsFromIssue.
  destruct (newCommentsSince issue since) as [|c new] eqn:Hnew; [reflexivity |].
  cbn [length Nat.eqb].
  unfold se_bind, readText, parseFrontmatter, now_iso, gets, writeText,
    formatFrontmatter, se_ret.
  destruct (fs w !! todoPath) as [f|]; reflexivity.
Qed.

(** The first part of a split is the text before the first separator. *)
Lemma split_head (sep : ascii) (s : string) :
  hd EmptyString (Js.split sep s) = Js.takeWhile (fun c => negb (Ascii.eqb c sep)) s.
Proof.
  induction s as [|c r IH]; [reflexivity |].
  cbn [Js.split Js.takeWhile].
  destruct (Ascii.eqb c sep); [reflexivity |]. cbn [negb].
  destruct (Js.split sep r) as [|h t]; cbn [hd] in *.
  - rewrite <- IH. reflexivity.
  - rewrite IH. reflexivity.
Qed.

Lemma digit_is_not_T (c : ascii) : Js.is_digit c = true -> Ascii.eqb c "T" = false.
Proof.
  intros Hd. destruct (Ascii.eqb_spec c "T") as [-> | _]; [discriminate | reflexivity].
Qed.

Lemma hyphen_is_not_T (c : ascii) : Ascii.eqb c "-" = true -> Ascii.eqb c "T" = false.
Proof. intros H. apply Ascii.eqb_eq in H. subst c. reflexivity. Qed.

Lemma field_digits (s : string) (start len : nat) (v : Z) :
  JsDate.field s start len = Some v ->
  String.length (substring start len s) = len /\
  JsDate.all_digits (substring start len s) = true.
Proof.
  unfold JsDate.field. cbv zeta.
  destruct (Nat.eqb_spec (String.length (substring start len s)) len) as [Hl | _];
    [| discriminate].
  cbn [andb]. destruct (JsDate.all_digits (substring start len s)); [| discriminate].
  intros _. split; [exact Hl | reflexivity].
Qed.

(** The calendar date of a timestamp of the covered form is its first ten
    characters. *)
Lemma date_part_covered (s : string) (u : Z) :
  JsDate.parse s = Some u -> JsDate.date_part s = Js.take 10 s.
Proof.
  unfold JsDate.parse. intros H.
  destruct (JsDate.field s 0 4) as [y|] eqn:Hy; [| discriminate]. cbn in H.
  destruct (JsDate.field s 5 2) as [mo|] eqn:Hmo; [| discriminate]. cbn in H.
  destruct (JsDate.field s 8 2) as [d|] eqn:Hd; [| discriminate]. cbn in H.
  destruct (JsDate.field s 11 2) as [h|]; [| discriminate]. cbn in H.
  destruct (JsDate.field s 14 2) as [mi|]; [| discriminate]. cbn in H.
  destruct (JsDate.field s 17 2) as [se|]; [| discriminate]. cbn in H.
  destruct (if _ : bool then Some 0 else _) as [ms|]; [| discriminate]. cbn in H.
  destruct (JsDate.char_is s 4 "-") eqn:H4; [| discriminate].
  destruct (JsDate.char_is s 7 "-") eqn:H7; [| discriminate].
  destruct (JsDate.char_is s 10 "T") eqn:H10; [| discriminate].
  clear H.
  apply field_digits in Hy as [_ Hy], Hmo as [_ Hmo], Hd as [_ Hd].
  unfold JsDate.date_part. rewrite split_head. unfold Js.take.
  unfold JsDate.char_is in *.
  destruct s as [|c0 [|c1 [|c2 [|c3 [|c4 [|c5 [|c6 [|c7 [|c8 [|c9 [|c10 rest]]]]]]]]]]];
    try discriminate.
  cbn in Hy, Hmo, Hd, H4, H7, H10.
  repeat match goal with
         | H : _ && _ = true |- _ => apply andb_true_iff in H as [? ?]
         end.
  cbn [Js.takeWhile substring].
  repeat (first [ rewrite digit_is_not_T by assumption
                | rewrite hyphen_is_not_T by assumption ];
          cbn [negb]).
  rewrite H10. cbn [negb].
  destruct rest; reflexivity.
Qed.

End CommentFacts.

Section CommentClaims.

Import Engine Fs Examples.


(** C10: with [since] and the creation times of the comments in the
    covered timestamp form, when no comment of the issue was created
    strictly after [since], comment pull returns 0 and leaves the world as
    it was: nothing is read or written, and the file's sync stamp in
    particular stays. *)
Theorem comment_pull_without_news
    (issue : LinearIssue) (todoPath since : string) (w : World) (t : Z) :
  JsDate.parse since = Some t ->
  (forall c, In c (default [] (issue_comments issue)) ->
     exists u, JsDate.parse (comment_createdAt c) = Some u /\ u <= t) ->
  pullCommentsFromIssue issue todoPath since w = (Ok 0, w).
Proof.
  intros Hsince Hold. rewrite pullComments_run.
  unfold newCommentsSince. rewrite filter_none; [reflexivity |].
  intros c Hc. destruct (Hold c Hc) as (u & Hu & Hle).
  rewrite Hsince, Hu. cbn [JsDate.gt]. apply Z.ltb_ge. exact Hle.
Qed.


(** Pulling again from the newest comment on changes nothing. *)
Lemma comment_pull_without_news_example :
  pullCommentsFromIssue commentedIssue todoPath T2 commentWorld = (Ok 0, commentWorld).
Proof.
  apply (comment_pull_without_news commentedIssue todoPath T2 commentWorld (instant T2)).
  - reflexivity.
  - intros c Hc. simpl in Hc.
    destruct Hc as [<- | [<- | [<- | []]]]; eexists; split;
      first [reflexivity | vm_compute; discriminate].
Defined.

End CommentClaims.

(** ** The operations on one file, as functions of the world *)

Section OperationFacts.

Import Mapping Engine Fs Spec.

Lemma updateTodoFrontmatter_run (path : string) (updates : gmap string Value) (w : World) :
  updateTodoFrontmatter path updates w =
  match fs w !! path with
  | Some f =>
      (Ok tt,
       set_fs (insert path
                 (stampedFile f (merge_updates (file_data f) updates
                                   (JsDate.toISOString (clock w))) w)) w)
  | None => (Err (enoent "open" path), w)
  end.
Proof.
  unfold updateTodoFrontmatter, se_bind, readText, parseFrontmatter, now_iso,
    gets, writeText, formatFrontmatter.
  destruct (fs w !! path) as [f|]; reflexivity.
Qed.

Lemma pushUpdate_run (todo : TodoFile) (config : LinearConfig)
    (states : list LinearState) (linearId : string) (w : World) :
  fm_linear_id (todo_frontmatter todo) = Some linearId ->
  linearId <> "" ->
  pushUpdate todo config states w =
  match Api.find_issue linearId (remote w) with
  | None => (Err ("Linear issue " +:+ linearId +:+ " not found"), w)
  | Some issue =>
      let input := pushInput todo config states issue in
      let stamp w1 :=
        updateTodoFrontmatter (todo_path todo)
          {["linear_synced_at" := VStr (JsDate.toISOString (clock w1))]} w1 in
      if Api.nonempty_input input then
        match Api.updateIssue (issue_uuid issue) input w with
        | (Ok _, w1) => stamp w1
        | (Err e, w1) => (Err e, w1)
        end
      else stamp w
  end.
Proof.
  intros Hid Hne. unfold pushUpdate. rewrite Hid.
  apply String.eqb_neq in Hne. rewrite Hne.
  unfold se_bind at 1. unfold Api.getIssueByIdentifier.
  destruct (Api.find_issue linearId (remote w)) as [issue|]; [| reflexivity].
  cbn zeta. unfold se_bind, se_ret, now_iso, gets.
  destruct (Api.nonempty_input (pushInput todo config states issue)); [| reflexivity].
  destruct (Api.updateIssue (issue_uuid issue) (pushInput todo config states issue) w)
    as [[i|e] w1]; reflexivity.
Qed.

End OperationFacts.

Section PullFacts.

Import Mapping Engine Fs Spec.

Lemma linearStateToFileStatus_member (name : string) (config : LinearConfig) (s : string) :
  linearStateToFileStatus name config = Some s -> In s statuses.
Proof.
  unfold linearStateToFileStatus, status_entries, statuses. cbn [find snd fst].
  repeat match goal with
         | |- context [same_name ?a ?b] => destruct (same_name a b)
         end; cbn; intros H; inversion H; tauto.
Qed.

Lemma statuses_nonempty (s : string) : In s statuses -> s <> "".
Proof.
  unfold statuses. simpl.
  intros [<- | [<- | [<- | [<- | [<- | []]]]]]; discriminate.
Qed.

(** What a state pull leaves behind: the file, stamped and carrying the
    translated status and priority, at its possibly new path. *)
Lemma pullStateFromIssue_spec
    (issue : LinearIssue) (path : string) (config : LinearConfig) (w : World) (f : File) :
  fs w !! path = Some f ->
  exists (res : PullResult) (data' : gmap string Value) (w' : World),
    pullStateFromIssue issue path config w = (Ok res, w') /\
    fs w' = <[default path (newPath res) := stampedFile f data' w]> (delete path (fs w)) /\
    remote w' = remote w /\ clock w' = clock w /\
    data' !! "linear_synced_at" = Some (VStr (JsDate.toISOString (clock w))) /\
    (forall k, k <> "status" -> k <> "priority" -> k <> "linear_synced_at" ->
       data' !! k = file_data f !! k) /\
    String_of_field (data' !! "priority")
      = linearPriorityToFile (issue_priority issue) config /\
    (forall s, linearStateToFileStatus (issue_stateName issue) config = Some s ->
       String_of_field (data' !! "status") = s) /\
    (linearStateToFileStatus (issue_stateName issue) config = None ->
       data' !! "status" = file_data f !! "status") /\
    (default path (newPath res) = path \/
     default path (newPath res)
     = renameTodoFile path (String_of_field (data' !! "status"))
         (String_of_field (data' !! "priority"))).
Proof.
  intros Hf. unfold pullStateFromIssue.
  unfold se_bind at 1. unfold readText. rewrite Hf.
  unfold parseFrontmatter. cbn iota beta zeta.
  set (newStatus := linearStateToFileStatus (issue_stateName issue) config).
  set (newPriority := linearPriorityToFile (issue_priority issue) config).
  set (currentStatus := String_of_field (file_data f !! "status")).
  set (currentPriority := String_of_field (file_data f !! "priority")).
  set (now := JsDate.toISOString (clock w)).
  assert (Hnonempty : forall s, newStatus = Some s -> String.eqb s "" = false).
  { intros s Hs. apply String.eqb_neq, statuses_nonempty.
    eapply linearStateToFileStatus_member. exact Hs. }
  destruct (bool_decide (newStatus = Some currentStatus)
            && String.eqb newPriority currentPriority) eqn:Hsame.
  - (* nothing to change: the stamp only *)
    apply andb_prop in Hsame as [Hst Hpr].
    apply bool_decide_eq_true in Hst. apply String.eqb_eq in Hpr.
    exists {| changed := false; newPath := None |},
           (<["linear_synced_at" := VStr now]> (file_data f)),
           (set_fs (insert path (stampedFile f (<["linear_synced_at" := VStr now]> (file_data f)) w)) w).
    split; [reflexivity |].
    split; [cbn; rewrite insert_delete_eq; reflexivity |].
    split; [reflexivity |]. split; [reflexivity |].
    split; [apply lookup_insert_eq |].
    split; [intros k _ _ Hk; rewrite lookup_insert_ne by congruence; reflexivity |].
    split; [rewrite lookup_insert_ne by discriminate; symmetry; exact Hpr |].
    split; [| split].
    + intros s Hs. rewrite lookup_insert_ne by discriminate.
      rewrite Hst in Hs. injection Hs as <-. reflexivity.
    + intros _. rewrite lookup_insert_ne by discriminate. reflexivity.
    + left. reflexivity.
  - (* status or priority differ *)
    set (statusUpdate :=
           match newStatus with
           | Some s => if negb (String.eqb s "") && negb (String.eqb s currentStatus)
                       then Some s else None
           | None => None
           end).
    set (priorityUpdate :=
           if String.eqb newPriority currentPriority then None else Some newPriority).
    set (updates :=
           <["linear_synced_at" := VStr now]>
             (from_option (fun s => <["status" := VStr s]>) id statusUpdate
                (from_option (fun p => <["priority" := VStr p]>) id priorityUpdate
                   (∅ : gmap string Value)))).
    set (data' := updates ∪ file_data f).
    set (needsRename :=
           bool_decide (is_Some statusUpdate) || bool_decide (is_Some priorityUpdate)).
    set (moved := renameTodoFile path (default currentStatus statusUpdate)
                    (default currentPriority priorityUpdate)).
    assert (Hstamp : data' !! "linear_synced_at" = Some (VStr now)).
    { unfold data'. apply lookup_union_Some_l. apply lookup_insert_eq. }
    assert (Hother : forall k, k <> "status" -> k <> "priority" ->
                       k <> "linear_synced_at" -> data' !! k = file_data f !! k).
    { intros k H1 H2 H3. unfold data'. apply lookup_union_r.
      unfold updates. rewrite lookup_insert_ne by congruence.
      destruct statusUpdate, priorityUpdate; cbn;
        rewrite ?lookup_insert_ne by congruence; apply lookup_empty. }
    assert (Hprio : String_of_field (data' !! "priority") = newPriority).
    { unfold data', updates, priorityUpdate.
      destruct (String.eqb_spec newPriority currentPriority) as [Heq | Hneq].
      - rewrite lookup_union_r; [symmetry; exact Heq |].
        rewrite lookup_insert_ne by discriminate.
        destruct statusUpdate; cbn;
          rewrite ?lookup_insert_ne by discriminate; apply lookup_empty.
      - rewrite (lookup_union_Some_l _ _ _ (VStr newPriority)); [reflexivity |].
        rewrite lookup_insert_ne by discriminate.
        destruct statusUpdate; cbn;
          rewrite ?lookup_insert_ne by discriminate; apply lookup_insert_eq. }
    assert (Hstatus : forall s, newStatus = Some s ->
                        String_of_field (data' !! "status") = s).
    { intros s Hs. unfold data', updates, statusUpdate. rewrite Hs.
      rewrite (Hnonempty s Hs). cbn [negb andb].
      destruct (String.eqb_spec s currentStatus) as [Heq | Hneq]; cbn [negb].
      - rewrite lookup_union_r; [symmetry; exact Heq |].
        rewrite lookup_insert_ne by discriminate. cbn.
        destruct priorityUpdate; cbn;
          rewrite ?lookup_insert_ne by discriminate; apply lookup_empty.
      - rewrite (lookup_union_Some_l _ _ _ (VStr s)); [reflexivity |].
        rewrite lookup_insert_ne by discriminate. cbn. apply lookup_insert_eq. }
    assert (Hkeep : newStatus = None -> data' !! "status" = file_data f !! "status").
    { intros Hs. unfold data', updates, statusUpdate. rewrite Hs.
      apply lookup_union_r. rewrite lookup_insert_ne by discriminate. cbn.
      destruct priorityUpdate; cbn;
        rewrite ?lookup_insert_ne by discriminate; apply lookup_empty. }
    assert (Hfinal : moved = renameTodoFile path (String_of_field (data' !! "status"))
                                  (String_of_field (data' !! "priority"))).
    { unfold moved. f_equal.
      - unfold statusUpdate. destruct newStatus as [s|] eqn:Hs.
        + rewrite (Hstatus s eq_refl), (Hnonempty s eq_refl). cbn [negb andb].
          destruct (String.eqb_spec s currentStatus) as [Heq | Hneq];
            [symmetry; exact Heq | reflexivity].
        + rewrite (Hkeep eq_refl). reflexivity.
      - rewrite Hprio. unfold priorityUpdate.
        destruct (String.eqb_spec newPriority currentPriority) as [Heq | Hneq];
          [symmetry; exact Heq | reflexivity]. }
    unfold se_bind, now_iso, gets, writeText, formatFrontmatter, se_ret.
    cbn [fst snd]. fold now. fold updates. fold data'.
    destruct needsRename eqn:Hren.
    + destruct (String.eqb_spec moved path) as [Heq | Hneq].
      * exists {| changed := true; newPath := Some moved |}, data'.
        eexists. split; [reflexivity |].
        split; [cbn; rewrite Heq, insert_delete_eq; reflexivity |].
        repeat split; try assumption. right. exact Hfinal.
      * unfold rename. cbn [fs set_fs]. rewrite lookup_insert_eq.
        exists {| changed := true; newPath := Some moved |}, data'.
        eexists. split; [reflexivity |].
        split; [cbn; rewrite delete_insert_eq; reflexivity |].
        repeat split; try assumption. right. exact Hfinal.
    + exists {| changed := true; newPath := None |}, data'.
      eexists. split; [reflexivity |].
      split; [cbn; rewrite insert_delete_eq; reflexivity |].
      repeat split; try assumption. left. reflexivity.
Qed.

End PullFacts.

(** ** One record of a pass *)

Section StepFacts.

Import Mapping Engine Fs Spec.

Lemma with_world_same (st : St) : with_world (st_world st) st = st.
Proof. destruct st. reflexivity. Qed.

Lemma set_true (o : option string) :
  Store.set o = true -> exists s, o = Some s /\ s <> "".
Proof.
  destruct o as [s|]; [| discriminate]. simpl. intros H.
  exists s. split; [reflexivity |].
  apply negb_true_iff, String.eqb_neq in H. exact H.
Qed.

(** A linked record: the [try] block around [syncLinked]. *)
Lemma syncRecord_linked (config : LinearConfig) (states : list LinearState)
    (dryRun : bool) (todo : TodoFile) (st : St) :
  Store.set (fm_linear_id (todo_frontmatter todo)) = true ->
  syncRecord config states dryRun todo st =
  match syncLinked todo (linearIdOf todo) config states dryRun
          (with_id (linearIdOf todo) st) with
  | (Ok a, s) => (Ok a, s)
  | (Err e, s) => (Ok tt, with_result (push_error (syncError todo e)) s)
  end.
Proof.
  intros Hset. unfold syncRecord. rewrite Hset.
  unfold se_bind at 1. unfold add_id, modify, try_catch.
  fold (linearIdOf todo).
  destruct (syncLinked todo (linearIdOf todo) config states dryRun
              (with_id (linearIdOf todo) st)) as [[[]|e] s]; reflexivity.
Qed.

(** The dry run of one record: the report of its classification, and
    nothing else. *)
Lemma step_dry (config : LinearConfig) (states : list LinearState)
    (todo : TodoFile) (st : St) :
  syncRecord config states true todo st =
  (Ok tt, with_result (report config todo (classify todo (st_world st)))
            (seen todo st)).
Proof.
  unfold classify, seen.
  destruct (Store.set (fm_linear_id (todo_frontmatter todo))) eqn:Hset.
  - rewrite syncRecord_linked by exact Hset.
    unfold syncLinked, se_bind, liftW, Api.getIssueByIdentifier, getFileMtime,
      on_result, modify, se_ret.
    cbn [st_world with_id].
    destruct (Api.find_issue (linearIdOf todo) (remote (st_world st))) as [issue|];
      [| destruct st; reflexivity].
    cbn [st_world with_world].
    destruct (fs (st_world st) !! todo_path todo) as [f|];
      [| destruct st; reflexivity].
    cbn [st_world with_world with_id].
    destruct (JsDate.gt (JsDate.parse (issue_updatedAt issue))
                (syncedAtOf (todo_frontmatter todo)));
      destruct (JsDate.gt (Some (file_mtime f)) (syncedAtOf (todo_frontmatter todo)));
      cbn [andb negb]; try (destruct st; reflexivity).
    unfold report, conflictsOf, add_conflicts. cbv zeta.
    destruct (String.eqb (fm_status (todo_frontmatter todo)) (linearStatusOf issue config));
      destruct st; reflexivity.
  - unfold syncRecord. rewrite Hset. reflexivity.
Qed.

(** The live run of one record, in direct style: the operation chosen by
    the classification, its outcome counted or recorded as an error. *)
Lemma step_live (config : LinearConfig) (states : list LinearState)
    (todo : TodoFile) (st : St) :
  syncRecord config states false todo st =
  (Ok tt,
   let w := st_world st in
   let st1 := seen todo st in
   let failed e w' s := with_result (push_error (syncError todo e)) (with_world w' s) in
   match classify todo w with
   | Create =>
       match pushCreate todo config states None false w with
       | (Ok _, w') => with_result add_pushed_created (with_world w' st1)
       | (Err e, w') => with_result (push_error (createError todo e)) (with_world w' st1)
       end
   | Failed msg => with_result (push_error (syncError todo msg)) st1
   | Skip => with_result add_skipped st1
   | Push =>
       match pushUpdate todo config states w with
       | (Ok _, w') => with_result add_pushed_updated (with_world w' st1)
       | (Err e, w') => failed e w' st1
       end
   | Conflict winner issue =>
       let st2 :=
         with_result (add_conflicts (conflictsOf config todo (Conflict winner issue)))
           st1 in
       match winner with
       | WLinear =>
           match pullStateFromIssue issue (todo_path todo) config w with
           | (Ok _, w') => with_result add_pulled_updated (with_world w' st2)
           | (Err e, w') => failed e w' st2
           end
       | WFile =>
           match pushUpdate todo config states w with
           | (Ok _, w') => with_result add_pushed_updated (with_world w' st2)
           | (Err e, w') => failed e w' st2
           end
       end
   | Pull issue =>
       match pullStateFromIssue issue (todo_path todo) config w with
       | (Err e, w') => failed e w' st1
       | (Ok res, w') =>
           let st2 :=
             (if changed res then with_result add_pulled_updated else id)
               (with_world w' st1) in
           if Store.set (fm_linear_synced_at (todo_frontmatter todo)) then
             match pullCommentsFromIssue issue (default (todo_path todo) (newPath res))
                     (default "" (fm_linear_synced_at (todo_frontmatter todo))) w' with
             | (Ok n, w'') => with_result (add_pulled_comments n) (with_world w'' st2)
             | (Err e, w'') => failed e w'' st2
             end
           else st2
       end
   end).
Proof.
  unfold classify, seen. cbv zeta.
  destruct (Store.set (fm_linear_id (todo_frontmatter todo))) eqn:Hset.
  - rewrite syncRecord_linked by exact Hset.
    unfold syncLinked, se_bind, liftW, Api.getIssueByIdentifier, getFileMtime,
      on_result, modify, se_ret.
    cbn [st_world with_id].
    destruct (Api.find_issue (linearIdOf todo) (remote (st_world st))) as [issue|];
      [| destruct st; reflexivity].
    cbn [st_world with_world].
    destruct (fs (st_world st) !! todo_path todo) as [f|];
      [| destruct st; reflexivity].
    cbn [st_world with_world with_id].
    destruct (JsDate.gt (JsDate.parse (issue_updatedAt issue))
                (syncedAtOf (todo_frontmatter todo)));
      destruct (JsDate.gt (Some (file_mtime f)) (syncedAtOf (todo_frontmatter todo)));
      cbn [andb negb]; cbn [st_world with_world with_id with_result].
    + (* conflict *)
      unfold conflictsOf, add_conflicts. cbv zeta.
      destruct (String.eqb (fm_status (todo_frontmatter todo))
                  (linearStatusOf issue config));
        destruct (JsDate.gt (JsDate.parse (issue_updatedAt issue)) (Some (file_mtime f)));
        cbn [st_world with_result with_world fold_left];
        match goal with
        | |- context [pullStateFromIssue ?i ?p ?c ?w] =>
            destruct (pullStateFromIssue i p c w) as [[res|e] w']
        | |- context [pushUpdate ?t ?c ?s ?w] =>
            destruct (pushUpdate t c s w) as [[[]|e] w']
        end;
        destruct st; reflexivity.
    + (* pull *)
      destruct (pullStateFromIssue issue (todo_path todo) config (st_world st))
        as [[res|e] w']; [| destruct st; reflexivity].
      cbn [st_world with_world].
      destruct (changed res);
        destruct (Store.set (fm_linear_synced_at (todo_frontmatter todo)));
        cbn [st_world with_result with_world];
        try (destruct st; reflexivity);
        destruct (pullCommentsFromIssue issue (default (todo_path todo) (newPath res))
                    (default "" (fm_linear_synced_at (todo_frontmatter todo))) w')
          as [[n|e] w'']; destruct st; reflexivity.
    + (* push *)
      destruct (pushUpdate todo config states (st_world st)) as [[[]|e] w'];
        destruct st; reflexivity.
    + destruct st; reflexivity.
  - unfold syncRecord. rewrite Hset.
    unfold try_catch, se_bind, liftW, on_result, modify.
    destruct (pushCreate todo config states None false (st_world st)) as [[id|e] w'];
      destruct st; reflexivity.
Qed.

End StepFacts.

(** ** A whole pass *)

Section PassFacts.

Import Mapping Engine Fs Spec.

Lemma syncRecord_ok (config : LinearConfig) (states : list LinearState)
    (dryRun : bool) (todo : TodoFile) (st : St) :
  syncRecord config states dryRun todo st
  = (Ok tt, after config states dryRun todo st).
Proof.
  unfold after. destruct dryRun.
  - rewrite step_dry. reflexivity.
  - rewrite step_live. reflexivity.
Qed.

(** The loop over the files never throws. *)
Lemma syncEach_ok (config : LinearConfig) (states : list LinearState)
    (dryRun : bool) (todos : list TodoFile) (st : St) :
  syncEach config states dryRun todos st
  = (Ok tt, afterAll config states dryRun todos st).
Proof.
  revert st. induction todos as [|todo rest IH]; intros st; [reflexivity |].
  simpl. unfold se_bind. rewrite syncRecord_ok. apply IH.
Qed.

Lemma loadEach_pure (paths : list string) (w : World) :
  (forall p, In p paths -> is_Some (fs w !! p)) ->
  exists todos, loadEach paths w = (Ok todos, w).
Proof.
  induction paths as [|p rest IH]; intros Hall; [eexists; reflexivity |].
  destruct (Hall p (or_introl eq_refl)) as [f Hf].
  destruct IH as [todos Hrest].
  { intros q Hq. apply Hall. right. exact Hq. }
  simpl. unfold se_bind at 1. unfold readText. rewrite Hf.
  unfold parseFrontmatter. cbn iota beta.
  unfold se_bind. rewrite Hrest. eexists. reflexivity.
Qed.

(** Loading the todos reads the directory and changes nothing. *)
Lemma loadTodoFiles_pure (todosDir : string) (w : World) :
  loadTodoFiles todosDir w = (Ok (todosOf todosDir w), w).
Proof.
  unfold todosOf.
  assert (H : exists todos, loadTodoFiles todosDir w = (Ok todos, w)).
  { unfold loadTodoFiles, se_bind, walkFiles, gets.
    apply loadEach_pure. intros p Hp.
    apply List.filter_In in Hp as [Hp _].
    apply list_elem_of_In, list_elem_of_filter in Hp as [_ Hp].
    apply list_elem_of_fmap in Hp as [[q f] [-> Hq]].
    apply elem_of_map_to_list in Hq. exists f. exact Hq. }
  destruct H as [todos H]. rewrite H. reflexivity.
Qed.

Lemma syncNew_run (config : LinearConfig) (todosDir : string) (maxIssueId : Z) (st : St) :
  syncNew config todosDir maxIssueId st =
  (Ok tt,
   match pullNewIssues config todosDir (st_ids st) (Some maxIssueId) (st_world st) with
   | (Ok newTodos, w') =>
       with_result (set_pulled_created (Z.of_nat (length newTodos))) (with_world w' st)
   | (Err e, w') =>
       with_result (push_error ("Error pulling new issues: " +:+ e)) (with_world w' st)
   end).
Proof.
  unfold syncNew, try_catch, se_bind, gets, liftW, on_result, modify.
  destruct (pullNewIssues config todosDir (st_ids st) (Some maxIssueId) (st_world st))
    as [[l|e] w']; reflexivity.
Qed.

(** A pass in direct style: the loop over the loaded todos, then, in a live
    run, the import of the issues not seen.  It always returns a result. *)
Lemma syncAll_run (todosDir : string) (config : LinearConfig) (dryRun : bool) (w : World) :
  syncAll todosDir config dryRun w =
  let todos := todosOf todosDir w in
  let st := afterAll config (remote_states (remote w)) dryRun todos (initial w) in
  let st' :=
    if dryRun then st
    else snd (syncNew config todosDir (maxIssueIdOf 0 todos) st) in
  (Ok (st_result st'), st_world st').
Proof.
  unfold syncAll. unfold se_bind at 1. unfold Api.listStates, gets.
  unfold se_bind at 1. rewrite loadTodoFiles_pure.
  cbv zeta. unfold se_bind. rewrite syncEach_ok.
  destruct dryRun; [reflexivity |].
  rewrite syncNew_run. reflexivity.
Qed.

Lemma afterAll_app (config : LinearConfig) (states : list LinearState)
    (dryRun : bool) (before rest : list TodoFile) (st : St) :
  afterAll config states dryRun (before ++ rest) st
  = afterAll config states dryRun rest (afterAll config states dryRun before st).
Proof. unfold afterAll. apply fold_left_app. Qed.

End PassFacts.

(** ** Unchanged records *)

Section SkipClaims.

Import Mapping Engine Fs Spec Examples.

Lemma classify_unchanged (w : World) (todo : TodoFile) :
  unchanged w todo -> classify todo w = Skip.
Proof.
  intros (issue & f & t & u & Hset & Hissue & Hf & Ht & Hu & Hfile & Hremote).
  unfold classify. rewrite Hset, Hissue, Hf. cbv zeta.
  rewrite Ht, Hu. cbn [JsDate.gt].
  rewrite (proj2 (Z.ltb_ge t u) Hremote), (proj2 (Z.ltb_ge t (file_mtime f)) Hfile).
  reflexivity.
Qed.

Lemma after_unchanged (config : LinearConfig) (states : list LinearState)
    (dryRun : bool) (todo : TodoFile) (st : St) :
  unchanged (st_world st) todo ->
  after config states dryRun todo st
  = with_result add_skipped (with_id (linearIdOf todo) st).
Proof.
  intros Hun. pose proof (classify_unchanged _ _ Hun) as Hskip.
  destruct Hun as (issue & f & t & u & Hset & _).
  unfold after. destruct dryRun.
  - rewrite step_dry, Hskip. unfold seen. rewrite Hset. reflexivity.
  - rewrite step_live. cbv zeta. rewrite Hskip. unfold seen. rewrite Hset. reflexivity.
Qed.

Lemma afterAll_unchanged (config : LinearConfig) (states : list LinearState)
    (dryRun : bool) (todos : list TodoFile) (st : St) (k : Z) :
  (forall todo, In todo todos -> unchanged (st_world st) todo) ->
  st_result st = skippedResult k ->
  afterAll config states dryRun todos st
  = {| st_world := st_world st;
       st_result := skippedResult (k + Z.of_nat (length todos));
       st_ids := list_to_set (map linearIdOf todos) ∪ st_ids st |}.
Proof.
  revert st k. induction todos as [|todo rest IH]; intros st k Hall Hres.
  - destruct st as [w r ids]. simpl in *. subst r.
    f_equal; [f_equal; lia |].
    apply set_eq. intros x. rewrite elem_of_union, elem_of_empty. tauto.
  - simpl. rewrite after_unchanged by (apply Hall; left; reflexivity).
    rewrite (IH _ (k + 1)).
    + cbn [st_world st_ids with_result with_id].
      f_equal; [f_equal; rewrite Nat2Z.inj_succ; lia |].
      apply set_eq. intros x. cbn [map list_to_set].
      rewrite !elem_of_union. tauto.
    + intros t Ht. apply Hall. right. exact Ht.
    + cbn [st_result with_result with_id]. rewrite Hres. reflexivity.
Qed.

Lemma pullNewIssues_none (config : LinearConfig) (todosDir : string)
    (ids : gset string) (maxId : option Z) (w : World) :
  (forall i, In i (firstn 100 (remote_issues (remote w))) -> issue_identifier i ∈ ids) ->
  pullNewIssues config todosDir ids maxId w = (Ok [], w).
Proof.
  intros Hseen. unfold pullNewIssues, se_bind, Api.listIssues, gets.
  rewrite filter_none; [reflexivity |].
  intros i Hi. apply negb_false_iff, bool_decide_eq_true. apply Hseen. exact Hi.
Qed.

(** C2, as stated, fails twice.  The record that changed on neither side is
    counted as skipped, but its stamp is not refreshed: the file keeps the
    stamp [T1] while the clock reads a later time.  And a second run is not
    quiet after a run that wrote: on a machine whose writes land a
    millisecond after the clock is read, the record pushed by the first run
    carries a stamp older than its file, and the second run, with nothing
    changed in between, pushes it again. *)
Lemma second_sync_is_not_quiet :
  (unchanged quietWorld
     (todoOf todoPath (todoFile "ready" "p2" "007" (Some "ENG-1") (Some T1) T0)) /\
   fst (syncAll "/w/todos" defaultConfig false quietWorld) = Ok (skippedResult 1) /\
   (fs (snd (syncAll "/w/todos" defaultConfig false quietWorld)) !! todoPath)
     ≫= (fun f => file_data f !! "linear_synced_at") = Some (VStr T1) /\
   JsDate.parse T1 = Some 1772359200000 /\
   clock quietWorld = 1772409600000) /\
  (let first := syncAll "/w/todos" defaultConfig false editedWorld in
   let second := syncAll "/w/todos" defaultConfig false (snd first) in
   pushed_updated <$> fst first = Ok 1 /\
   remote (snd first) = remote editedWorld /\
   (fs (snd first) !! todoPath)
     ≫= (fun f => file_data f !! "linear_synced_at")
   = Some (VStr "2026-03-02T00:00:00.000Z") /\
   file_mtime <$> (fs (snd first) !! todoPath) = Some (clock editedWorld + 1) /\
   pushed_updated <$> fst second = Ok 1 /\
   skipped <$> fst second = Ok 0).
Proof.
  split.
  - split.
    { exists (issue "1" ("s2", "Todo") 2 T0 []),
             (todoFile "ready" "p2" "007" (Some "ENG-1") (Some T1) T0),
             (instant T1), (instant T0).
      repeat split; vm_compute; first [reflexivity | discriminate]. }
    split; [| split; [| split]]; vm_compute; reflexivity.
  - cbv zeta. repeat split; vm_compute; reflexivity.
Qed.

(** C2 (amended): a linked record that changed on neither side since its
    stamp is counted as skipped and nothing is written for it, so its stamp
    keeps its value; a pass over a directory whose records are all in that
    state, in a dry run or with every listed remote issue already linked,
    counts every record as skipped, counts nothing pushed or pulled, and
    leaves files and remote as they were. *)
Theorem unchanged_records_are_skipped
    (config : LinearConfig) (states : list LinearState) (dryRun : bool)
    (todosDir : string) :
  (forall todo st,
     unchanged (st_world st) todo ->
     syncRecord config states dryRun todo st
     = (Ok tt, with_result add_skipped (with_id (linearIdOf todo) st))) /\
  (forall w,
     (forall todo, In todo (todosOf todosDir w) -> unchanged w todo) ->
     (dryRun = true \/
      forall i, In i (firstn 100 (remote_issues (remote w))) ->
        exists todo, In todo (todosOf todosDir w) /\ linearIdOf todo = issue_identifier i) ->
     syncAll todosDir config dryRun w
     = (Ok {| pushed_created := 0; pushed_updated := 0;
              pulled_updated := 0; pulled_comments := 0; pulled_created := 0;
              conflicts := [];
              skipped := Z.of_nat (length (todosOf todosDir w));
              errors := [] |},
        w)).
Proof.
  split.
  - intros todo st Hun. rewrite syncRecord_ok, after_unchanged by exact Hun.
    reflexivity.
  - intros w Hall Hseen.
    change (syncAll todosDir config dryRun w
            = (Ok (skippedResult (Z.of_nat (length (todosOf todosDir w)))), w)).
    rewrite syncAll_run. cbv zeta.
    rewrite (afterAll_unchanged _ _ _ _ (initial w) 0); [| exact Hall | reflexivity].
    cbn [st_world initial].
    destruct dryRun.
    + destruct w. reflexivity.
    + destruct Hseen as [Hdry | Hseen]; [discriminate |].
      rewrite syncNew_run. cbn [st_world st_ids].
      rewrite pullNewIssues_none.
      * destruct w. reflexivity.
      * intros i Hi. destruct (Hseen i Hi) as (todo & Hin & Hid).
        apply elem_of_union_l, elem_of_list_to_set, list_elem_of_In.
        rewrite <- Hid. apply in_map. exact Hin.
Qed.

(** The pass over the quiet world of the example, live. *)
Lemma quiet_world_is_skipped :
  syncAll "/w/todos" defaultConfig false quietWorld = (Ok (skippedResult 1), quietWorld).
Proof.
  pose proof (unchanged_records_are_skipped defaultConfig teamStates false "/w/todos")
    as [_ Hpass].
  apply (Hpass quietWorld).
  - intros todo Hin. vm_compute in Hin. destruct Hin as [<- | []].
    exists (issue "1" ("s2", "Todo") 2 T0 []),
           (todoFile "ready" "p2" "007" (Some "ENG-1") (Some T1) T0),
           (instant T1), (instant T0).
    repeat split; vm_compute; first [reflexivity | discriminate].
  - right. intros i Hi. vm_compute in Hi. destruct Hi as [<- | []].
    eexists. split; [vm_compute; left; reflexivity | vm_compute; reflexivity].
Defined.

End SkipClaims.

(** ** Dry runs *)

Section DryRunClaims.

Import Mapping Engine Fs Spec Examples.

Lemma add_conflicts_fields (cs : list ConflictEntry) (r : SyncResult) :
  add_conflicts cs r =
  {| pushed_created := pushed_created r; pushed_updated := pushed_updated r;
     pulled_updated := pulled_updated r; pulled_comments := pulled_comments r;
     pulled_created := pulled_created r; conflicts := conflicts r ++ cs;
     skipped := skipped r; errors := errors r |}.
Proof.
  unfold add_conflicts. revert r.
  induction cs as [|c cs IH]; intros r; simpl.
  - rewrite List.app_nil_r. destruct r; reflexivity.
  - rewrite IH. unfold push_conflict. simpl. rewrite <- List.app_assoc. reflexivity.
Qed.

Lemma self_append_nil {A} (l : list A) (x : A) : l ++ [x] <> l.
Proof.
  intros H. apply (f_equal (@length A)) in H.
  rewrite length_app in H. simpl in H. lia.
Qed.

(** A dry run of the loop writes nothing and counts neither comments nor
    imports. *)
Lemma afterAll_dry (config : LinearConfig) (states : list LinearState)
    (todos : list TodoFile) (st : St) :
  st_world (afterAll config states true todos st) = st_world st /\
  pulled_comments (st_result (afterAll config states true todos st))
  = pulled_comments (st_result st) /\
  pulled_created (st_result (afterAll config states true todos st))
  = pulled_created (st_result st).
Proof.
  revert st. induction todos as [|todo rest IH]; intros st; [repeat split |].
  change (afterAll config states true (todo :: rest) st)
    with (afterAll config states true rest (after config states true todo st)).
  destruct (IH (after config states true todo st)) as (Hw & Hc & Hn).
  rewrite Hw, Hc, Hn. unfold after. rewrite step_dry. cbn [snd].
  unfold seen.
  destruct (Store.set (fm_linear_id (todo_frontmatter todo)));
    destruct (classify todo (st_world st)); unfold report;
    cbn [st_result st_world with_result with_id];
    rewrite ?add_conflicts_fields; (split; [| split]); reflexivity.
Qed.

(** What one step adds to the conflicts, the skipped count and the
    identifiers seen is decided by the classification alone, in a dry run
    and in a live one. *)
Lemma step_classified (config : LinearConfig) (states : list LinearState)
    (dryRun : bool) (todo : TodoFile) (st : St) :
  let st' := after config states dryRun todo st in
  let action := classify todo (st_world st) in
  conflicts (st_result st') = conflicts (st_result st) ++ conflictsOf config todo action /\
  skipped (st_result st')
  = skipped (st_result st) + (match action with Skip => 1 | _ => 0 end) /\
  st_ids st' = st_ids (seen todo st).
Proof.
  cbv zeta. unfold after. destruct dryRun.
  - rewrite step_dry. cbn [snd]. unfold seen.
    destruct (classify todo (st_world st)) as [| winner issue | | issue | | msg];
      unfold report; rewrite ?add_conflicts_fields;
      destruct (Store.set (fm_linear_id (todo_frontmatter todo)));
      cbn [st_result st_world st_ids with_result with_world with_id conflictsOf
           add_pushed_created add_pushed_updated add_pulled_updated add_skipped
           push_error conflicts skipped];
      rewrite ?add_conflicts_fields; cbn [conflicts skipped];
        rewrite ?List.app_nil_r; repeat split; first [reflexivity | lia].
  - rewrite step_live. cbv zeta. cbn [snd]. unfold seen.
    destruct (classify todo (st_world st)) as [| winner issue | | issue | | msg];
      rewrite ?add_conflicts_fields.
    + destruct (pushCreate todo config states None false (st_world st)) as [[i|e] w'];
        destruct (Store.set (fm_linear_id (todo_frontmatter todo)));
        cbn [st_result st_world st_ids with_result with_world with_id conflictsOf
             add_pushed_created push_error conflicts skipped];
        rewrite ?add_conflicts_fields; cbn [conflicts skipped];
        rewrite ?List.app_nil_r; repeat split; first [reflexivity | lia].
    + destruct winner;
        [ destruct (pushUpdate todo config states (st_world st)) as [[[]|e] w']
        | destruct (pullStateFromIssue issue (todo_path todo) config (st_world st))
            as [[res|e] w'] ];
        destruct (Store.set (fm_linear_id (todo_frontmatter todo)));
        cbn [st_result st_world st_ids with_result with_world with_id
             add_pushed_updated add_pulled_updated push_error conflicts skipped];
        rewrite ?add_conflicts_fields; cbn [conflicts skipped];
        repeat split; first [reflexivity | lia].
    + destruct (pushUpdate todo config states (st_world st)) as [[[]|e] w'];
        destruct (Store.set (fm_linear_id (todo_frontmatter todo)));
        cbn [st_result st_world st_ids with_result with_world with_id conflictsOf
             add_pushed_updated push_error conflicts skipped];
        rewrite ?add_conflicts_fields; cbn [conflicts skipped];
        rewrite ?List.app_nil_r; repeat split; first [reflexivity | lia].
    + destruct (pullStateFromIssue issue (todo_path todo) config (st_world st))
        as [[res|e] w'];
        [ destruct (changed res);
          destruct (Store.set (fm_linear_synced_at (todo_frontmatter todo)));
          [ destruct (pullCommentsFromIssue issue
                        (default (todo_path todo) (newPath res))
                        (default "" (fm_linear_synced_at (todo_frontmatter todo))) w')
              as [[n|e] w''] | |
            destruct (pullCommentsFromIssue issue
                        (default (todo_path todo) (newPath res))
                        (default "" (fm_linear_synced_at (todo_frontmatter todo))) w')
              as [[n|e] w''] | ]
        | ];
        destruct (Store.set (fm_linear_id (todo_frontmatter todo)));
        cbn [st_result st_world st_ids with_result with_world with_id conflictsOf id
             add_pulled_updated add_pulled_comments push_error conflicts skipped];
        rewrite ?add_conflicts_fields; cbn [conflicts skipped];
        rewrite ?List.app_nil_r; repeat split; first [reflexivity | lia].
    + destruct (Store.set (fm_linear_id (todo_frontmatter todo)));
        cbn [st_result st_world st_ids with_result with_world with_id conflictsOf
             add_skipped conflicts skipped];
        rewrite ?add_conflicts_fields; cbn [conflicts skipped];
        rewrite ?List.app_nil_r; repeat split; first [reflexivity | lia].
    + destruct (Store.set (fm_linear_id (todo_frontmatter todo)));
        cbn [st_result st_world st_ids with_result with_world with_id conflictsOf
             push_error conflicts skipped];
        rewrite ?add_conflicts_fields; cbn [conflicts skipped];
        rewrite ?List.app_nil_r; repeat split; first [reflexivity | lia].
Qed.

Lemma seen_ids (todo : TodoFile) (st st' : St) :
  st_ids st = st_ids st' -> st_ids (seen todo st) = st_ids (seen todo st').
Proof.
  intros H. unfold seen.
  destruct (Store.set (fm_linear_id (todo_frontmatter todo)));
    cbn [st_ids with_id]; rewrite ?H; reflexivity.
Qed.

(** The dry loop classifies every record in the world it started from. *)
Lemma afterAll_dry_report (config : LinearConfig) (states : list LinearState)
    (todos : list TodoFile) (st : St) :
  afterAll config states true todos st
  = fold_left (fun s todo =>
                 with_result (report config todo (classify todo (st_world st)))
                   (seen todo s))
              todos st.
Proof.
  revert st. induction todos as [|todo rest IH]; intros st; [reflexivity |].
  change (afterAll config states true (todo :: rest) st)
    with (afterAll config states true rest (after config states true todo st)).
  rewrite IH. unfold after. rewrite step_dry. cbn [snd fold_left].
  assert (Hw : st_world (with_result (report config todo (classify todo (st_world st)))
                           (seen todo st)) = st_world st).
  { unfold seen. destruct (Store.set (fm_linear_id (todo_frontmatter todo)));
      reflexivity. }
  rewrite Hw. reflexivity.
Qed.

(** When no record's classification is changed by the live steps taken
    before it, the live loop and the dry loop report the same conflicts,
    the same skipped count and the same identifiers. *)
Lemma parity_along (config : LinearConfig) (states : list LinearState)
    (w : World) (rest done : list TodoFile) (live dry : St) :
  live = afterAll config states false done (initial w) ->
  st_world dry = w ->
  conflicts (st_result live) = conflicts (st_result dry) ->
  skipped (st_result live) = skipped (st_result dry) ->
  st_ids live = st_ids dry ->
  (forall before todo later,
     rest = before ++ todo :: later ->
     classify todo (st_world (afterAll config states false (done ++ before) (initial w)))
     = classify todo w) ->
  let live' := afterAll config states false rest live in
  let dry' := afterAll config states true rest dry in
  conflicts (st_result live') = conflicts (st_result dry') /\
  skipped (st_result live') = skipped (st_result dry') /\
  st_ids live' = st_ids dry'.
Proof.
  revert done live dry.
  induction rest as [|todo later IH]; intros done live dry Hlive Hw Hc Hs Hi Hsame;
    cbv zeta; [repeat split; assumption |].
  change (afterAll config states false (todo :: later) live)
    with (afterAll config states false later (after config states false todo live)).
  change (afterAll config states true (todo :: later) dry)
    with (afterAll config states true later (after config states true todo dry)).
  assert (Hclass : classify todo (st_world live) = classify todo w).
  { rewrite Hlive. rewrite <- (Hsame [] todo later eq_refl).
    rewrite List.app_nil_r. reflexivity. }
  destruct (step_classified config states false todo live) as (Lc & Ls & Li).
  destruct (step_classified config states true todo dry) as (Dc & Ds & Di).
  rewrite Hw in Dc, Ds. rewrite Hclass in Lc, Ls.
  apply (IH (done ++ [todo])).
  - rewrite afterAll_app, <- Hlive. reflexivity.
  - unfold after. rewrite step_dry. cbn [snd]. unfold seen.
    destruct (Store.set (fm_linear_id (todo_frontmatter todo))); exact Hw.
  - rewrite Lc, Dc, Hc. reflexivity.
  - rewrite Ls, Ds, Hs. reflexivity.
  - rewrite Li, Di. apply seen_ids. exact Hi.
  - intros before todo' later' Hsplit.
    rewrite <- List.app_assoc. cbn [List.app].
    apply (Hsame (todo :: before) todo' later').
    rewrite Hsplit. reflexivity.
Qed.


Ltac close_parity :=
  cbn [st_result st_world st_ids with_result with_world with_id id
       add_pushed_created add_pushed_updated add_pulled_updated
       add_pulled_comments add_skipped push_error
       pushed_created pushed_updated pulled_updated pulled_comments
       pulled_created conflicts skipped errors];
  repeat match goal with
         | |- _ /\ _ => split
         | |- _ -> _ => intro
         end;
  try reflexivity; try lia;
  try (exfalso; eapply self_append_nil; eassumption);
  try match goal with
      | H : forall w i, Conflict _ _ <> Conflict w i |- _ =>
          exfalso; eapply H; reflexivity
      end.


(** The mixed batch is listed in the order of its definition, and none of
    its records is disturbed by the live steps before it. *)
Lemma mixed_listing : todosOf "/w/todos" mixedWorld = mixedBatch.
Proof. vm_compute. reflexivity. Qed.

Lemma mixed_undisturbed (before : list TodoFile) (record : TodoFile)
    (later : list TodoFile) :
  mixedBatch = before ++ record :: later ->
  classify record
    (st_world (afterAll defaultConfig teamStates false before (initial mixedWorld)))
  = classify record mixedWorld.
Proof.
  intros Hsplit.
  unfold mixedBatch, mixedFiles in Hsplit. cbn [map fst snd] in Hsplit.
  destruct before as [|b1 [|b2 [|b3 [|b4 [|b5 more]]]]];
    cbn [List.app] in Hsplit.
  - injection Hsplit as <- _. vm_compute. reflexivity.
  - injection Hsplit as <- <- _. vm_compute. reflexivity.
  - injection Hsplit as <- <- <- _. vm_compute. reflexivity.
  - injection Hsplit as <- <- <- <- _. vm_compute. reflexivity.
  - injection Hsplit as <- <- <- <- <- _. vm_compute. reflexivity.
  - exfalso. injection Hsplit as _ _ _ _ _ Hrest. destruct more; discriminate.
Qed.


End DryRunClaims.

(** ** Conflicts *)

Section ConflictFacts.

Import Mapping Engine Fs Spec.

Lemma find_issue_identifier (lid : string) (r : Remote) (i : LinearIssue) :
  Api.find_issue lid r = Some i -> issue_identifier i = lid.
Proof.
  unfold Api.find_issue. intros H. apply find_some in H as [_ H].
  apply String.eqb_eq in H. exact H.
Qed.

(** Replacing the elements that satisfy [Q] keeps the first element that
    satisfies [P] in place when both searches found the same element. *)
Lemma find_after_replace {A} (P Q : A -> bool) (new x : A) (l : list A) :
  find P l = Some x -> find Q l = Some x -> P new = true ->
  find P (map (fun i => if Q i then new else i) l) = Some new.
Proof.
  intros HP HQ Hnew. induction l as [|h rest IH]; [discriminate |].
  simpl in *. destruct (P h) eqn:EP.
  - injection HP as <-. destruct (Q h) eqn:EQ.
    + rewrite Hnew. reflexivity.
    + apply find_some in HQ as [_ HQ]. congruence.
  - destruct (Q h) eqn:EQ.
    + injection HQ as <-. apply find_some in HP as [_ HP]. congruence.
    + rewrite EP. apply IH; assumption.
Qed.

Lemma state_by_id_found (target : LinearState) (r : Remote) :
  In target (remote_states r) ->
  exists st0, Api.state_by_id (state_id target) r = Some st0 /\
              state_id st0 = state_id target.
Proof.
  intros Hin. unfold Api.state_by_id.
  destruct (find (fun s => String.eqb (state_id s) (state_id target)) (remote_states r))
    as [st0|] eqn:Hfind.
  - exists st0. split; [reflexivity |].
    apply find_some in Hfind as [_ H]. apply String.eqb_eq in H. exact H.
  - exfalso. apply (find_none _ _ Hfind) in Hin.
    rewrite String.eqb_refl in Hin. discriminate.
Qed.

(** An update addressed to the issue fetched by identifier changes that
    issue and nothing local. *)
Lemma updateIssue_spec (issue : LinearIssue) (input : Api.UpdateInput)
    (st : string * string) (w : World) :
  Api.find_issue (issue_identifier issue) (remote w) = Some issue ->
  find (fun i => String.eqb (issue_uuid i) (issue_uuid issue))
       (remote_issues (remote w)) = Some issue ->
  Api.resolve_state (Api.ui_stateId input) (Some (issue_state issue)) (remote w) = Some st ->
  exists w',
    Api.updateIssue (issue_uuid issue) input w
    = (Ok (Api.apply_update input st (JsDate.toISOString (clock w)) issue), w') /\
    Api.find_issue (issue_identifier issue) (remote w')
    = Some (Api.apply_update input st (JsDate.toISOString (clock w)) issue) /\
    fs w' = fs w /\ clock w' = clock w.
Proof.
  intros Hid Huuid Hst. unfold Api.updateIssue. cbv zeta.
  rewrite Huuid, Hst. eexists. split; [reflexivity |].
  split; [| split; reflexivity].
  unfold Api.find_issue. cbn [remote set_remote remote_issues].
  apply (find_after_replace _ _ _ issue); [exact Hid | exact Huuid |].
  cbn. apply String.eqb_refl.
Qed.

Lemma empty_input_no_state (i : Api.UpdateInput) :
  Api.nonempty_input i = false -> Api.ui_stateId i = None.
Proof.
  unfold Api.nonempty_input.
  destruct (Api.ui_title i), (Api.ui_priority i), (Api.ui_stateId i);
    intros H; (discriminate || reflexivity).
Qed.

(** A push of a file whose status has a workflow state moves the remote
    issue to that state. *)
Lemma pushUpdate_applies_state
    (todo : TodoFile) (config : LinearConfig) (states : list LinearState)
    (issue : LinearIssue) (target : LinearState) (f : File) (w : World) :
  Store.set (fm_linear_id (todo_frontmatter todo)) = true ->
  Api.find_issue (linearIdOf todo) (remote w) = Some issue ->
  find (fun i => String.eqb (issue_uuid i) (issue_uuid issue))
       (remote_issues (remote w)) = Some issue ->
  fs w !! todo_path todo = Some f ->
  states = remote_states (remote w) ->
  fileStatusToLinearState (fm_status (todo_frontmatter todo)) states config = Some target ->
  exists w' issue',
    pushUpdate todo config states w = (Ok tt, w') /\
    Api.find_issue (linearIdOf todo) (remote w') = Some issue' /\
    issue_stateId issue' = state_id target /\
    (exists f', fs w' !! todo_path todo = Some f' /\ file_body f' = file_body f).
Proof.
  intros Hset Hissue Huuid Hf Hstates Htarget.
  destruct (set_true _ Hset) as (lid & Hlid & Hne).
  assert (Hl : linearIdOf todo = lid) by (unfold linearIdOf; rewrite Hlid; reflexivity).
  rewrite Hl in *.
  pose proof (find_issue_identifier _ _ _ Hissue) as Hident.
  rewrite (pushUpdate_run todo config states lid w Hlid Hne), Hissue. cbv zeta.
  assert (Hin : In target (remote_states (remote w))).
  { rewrite <- Hstates. unfold fileStatusToLinearState in Htarget.
    destruct (status_get (statusMap config) (fm_status (todo_frontmatter todo)));
      [| discriminate].
    destruct (String.eqb s ""); [discriminate |].
    apply find_some in Htarget as [Hin _]. exact Hin. }
  assert (Hstamp : forall w1 issue1,
             fs w1 = fs w -> Api.find_issue lid (remote w1) = Some issue1 ->
             issue_stateId issue1 = state_id target ->
             exists w' issue',
               updateTodoFrontmatter (todo_path todo)
                 {["linear_synced_at" := VStr (JsDate.toISOString (clock w1))]} w1
               = (Ok tt, w') /\
               Api.find_issue lid (remote w') = Some issue' /\
               issue_stateId issue' = state_id target /\
               (exists f', fs w' !! todo_path todo = Some f' /\ file_body f' = file_body f)).
  { intros w1 issue1 Hfs Hfind Hstate.
    rewrite updateTodoFrontmatter_run, Hfs, Hf.
    eexists _, issue1. split; [reflexivity |].
    split; [exact Hfind |]. split; [exact Hstate |].
    eexists. split; [cbn; apply lookup_insert_eq | reflexivity]. }
  destruct (Api.nonempty_input (pushInput todo config states issue)) eqn:Hinput.
  - assert (Hres : exists st,
               Api.resolve_state (Api.ui_stateId (pushInput todo config states issue))
                 (Some (issue_state issue)) (remote w) = Some st /\
               fst st = state_id target).
    { unfold pushInput. cbn [Api.ui_stateId]. rewrite Htarget.
      destruct (String.eqb_spec (state_id target) (issue_stateId issue)) as [Heq | Hneq].
      - exists (issue_state issue). split; [reflexivity |]. symmetry. exact Heq.
      - destruct (state_by_id_found target (remote w) Hin) as (st0 & Hst0 & Hid0).
        exists (state_id st0, state_name st0). cbn [Api.resolve_state].
        rewrite Hst0. split; [reflexivity | exact Hid0]. }
    destruct Hres as (st & Hres & Hstid).
    rewrite <- Hident in Hissue.
    destruct (updateIssue_spec issue _ st w Hissue Huuid Hres)
      as (w1 & Hrun & Hfind & Hfs & _).
    rewrite Hrun. rewrite Hident in Hfind.
    apply (Hstamp w1 _ Hfs Hfind). exact Hstid.
  - apply (Hstamp w issue eq_refl Hissue).
    apply empty_input_no_state in Hinput.
    unfold pushInput in Hinput. cbn [Api.ui_stateId] in Hinput.
    rewrite Htarget in Hinput.
    destruct (String.eqb_spec (state_id target) (issue_stateId issue)) as [Heq | Hneq];
      [symmetry; exact Heq | discriminate].
Qed.

End ConflictFacts.

Section ConflictClaims.

Import Mapping Engine Fs Spec Examples.

(** C1, as stated, fails on the last clause.  Live run, the issue newer
    and in the state Backlog, which no status maps to: the conflict is
    reported for the remote side and the file keeps its status.  Dry run,
    the file newer: the conflict is reported for the file and the issue
    stays in Todo, although the file's status pending maps to Triage. *)
Lemma conflict_winner_not_always_applied :
  classify (todoOf todoPath backlogFile) backlogWorld = Conflict WLinear backlogIssue /\
  (conflicts <$> fst (syncAll "/w/todos" defaultConfig false backlogWorld)
     : Res (list ConflictEntry))
  = Ok [conflictEntry (todoOf todoPath backlogFile) "ENG-1" "pending" "Backlog" WLinear] /\
  (fs (snd (syncAll "/w/todos" defaultConfig false backlogWorld)) !! todoPath)
    ≫= (fun f => file_data f !! "status") = Some (VStr "pending") /\
  classify (todoOf todoPath conflictFile) conflictWorld = Conflict WFile conflictIssue /\
  (conflicts <$> fst (syncAll "/w/todos" defaultConfig true conflictWorld)
     : Res (list ConflictEntry))
  = Ok [conflictEntry (todoOf todoPath conflictFile) "ENG-1" "pending" "ready" WFile] /\
  remote (snd (syncAll "/w/todos" defaultConfig true conflictWorld)) = remote conflictWorld /\
  issue_state conflictIssue = ("s2", "Todo") /\
  state_name <$> fileStatusToLinearState "pending" teamStates defaultConfig = Some "Triage".
Proof.
  split; [| split; [| split; [| split; [| split; [| split; [| split]]]]]];
    vm_compute; reflexivity.
Qed.

(** C1 (amended): for a linked record whose file and issue both changed
    after the stamp, the side with the strictly later timestamp wins, and
    the file wins a tie; a conflict entry is reported exactly when the file
    status differs from the translated remote status.  In a dry run nothing
    is written.  In a live run the winner is applied where it translates:
    when the issue wins the file gets the remote priority's tier and, when
    the state name maps to a status, that status; when the file wins and the
    team has the workflow state configured for the file's status, the issue
    is moved to that state. *)
Theorem conflict_last_write_wins
    (config : LinearConfig) (states : list LinearState) (dryRun : bool)
    (todo : TodoFile) (st : St) (issue : LinearIssue) (f : File) :
  Store.set (fm_linear_id (todo_frontmatter todo)) = true ->
  Api.find_issue (linearIdOf todo) (remote (st_world st)) = Some issue ->
  fs (st_world st) !! todo_path todo = Some f ->
  JsDate.gt (Some (file_mtime f)) (syncedAtOf (todo_frontmatter todo)) = true ->
  JsDate.gt (JsDate.parse (issue_updatedAt issue))
            (syncedAtOf (todo_frontmatter todo)) = true ->
  let w := st_world st in
  let fileStatus := fm_status (todo_frontmatter todo) in
  let winner :=
    if JsDate.gt (JsDate.parse (issue_updatedAt issue)) (Some (file_mtime f))
    then WLinear else WFile in
  let st' := after config states dryRun todo st in
  classify todo w = Conflict winner issue /\
  (forall u, JsDate.parse (issue_updatedAt issue) = Some u ->
     (u <= file_mtime f -> winner = WFile) /\ (file_mtime f < u -> winner = WLinear)) /\
  conflicts (st_result st')
  = conflicts (st_result st)
    ++ (if String.eqb fileStatus (linearStatusOf issue config) then []
        else [conflictEntry todo (linearIdOf todo) fileStatus
                (linearStatusOf issue config) winner]) /\
  (dryRun = true -> st_world st' = w) /\
  (dryRun = false -> winner = WLinear ->
   remote (st_world st') = remote w /\
   pulled_updated (st_result st') = pulled_updated (st_result st) + 1 /\
   exists dest f',
     fs (st_world st') !! dest = Some f' /\
     file_body f' = file_body f /\
     String_of_field (file_data f' !! "priority")
       = linearPriorityToFile (issue_priority issue) config /\
     (forall s, linearStateToFileStatus (issue_stateName issue) config = Some s ->
        String_of_field (file_data f' !! "status") = s) /\
     (dest = todo_path todo \/
      dest = renameTodoFile (todo_path todo)
               (String_of_field (file_data f' !! "status"))
               (String_of_field (file_data f' !! "priority")))) /\
  (dryRun = false -> winner = WFile ->
   states = remote_states (remote w) ->
   find (fun i => String.eqb (issue_uuid i) (issue_uuid issue))
        (remote_issues (remote w)) = Some issue ->
   forall target,
     fileStatusToLinearState fileStatus states config = Some target ->
     pushed_updated (st_result st') = pushed_updated (st_result st) + 1 /\
     exists issue',
       Api.find_issue (linearIdOf todo) (remote (st_world st')) = Some issue' /\
       issue_stateId issue' = state_id target).
Proof.
  intros Hset Hissue Hf Hfile Hremote. cbv zeta.
  assert (Hclass : classify todo (st_world st)
                   = Conflict (if JsDate.gt (JsDate.parse (issue_updatedAt issue))
                                    (Some (file_mtime f))
                               then WLinear else WFile) issue).
  { unfold classify. rewrite Hset, Hissue, Hf. cbv zeta.
    rewrite Hfile, Hremote. reflexivity. }
  split; [exact Hclass |].
  split.
  { intros u Hu. rewrite Hu. cbn [JsDate.gt]. split; intros Hcmp.
    - destruct (Z.ltb_spec (file_mtime f) u); [lia | reflexivity].
    - destruct (Z.ltb_spec (file_mtime f) u); [reflexivity | lia]. }
  remember (if JsDate.gt (JsDate.parse (issue_updatedAt issue)) (Some (file_mtime f))
            then WLinear else WFile) as winner eqn:Hw.
  assert (Hseen : seen todo st = with_id (linearIdOf todo) st).
  { unfold seen. rewrite Hset. reflexivity. }
  assert (Hcs : conflictsOf config todo (Conflict winner issue)
                = if String.eqb (fm_status (todo_frontmatter todo))
                                (linearStatusOf issue config)
                  then []
                  else [conflictEntry todo (linearIdOf todo)
                          (fm_status (todo_frontmatter todo))
                          (linearStatusOf issue config) winner]) by reflexivity.
  unfold after. destruct dryRun.
  - (* dry run *)
    rewrite step_dry, Hclass, Hseen.
    cbn [snd st_result st_world with_result with_id]. unfold report.
    rewrite Hcs, add_conflicts_fields. cbn [conflicts].
    split; [reflexivity |]. split; [reflexivity |].
    split; intros; discriminate.
  - (* live run *)
    rewrite step_live. cbv zeta. rewrite Hclass, Hseen. cbn [snd].
    rewrite Hcs.
    destruct winner eqn:Hwinner.
    + (* the file wins *)
      split.
      { destruct (pushUpdate todo config states (st_world st)) as [[[]|e] w'];
          cbn [st_result st_world with_result with_world with_id];
          rewrite add_conflicts_fields; reflexivity. }
      split; [intros; discriminate |].
      split; [intros; discriminate |].
      intros _ _ Hstates Huuid target Htarget.
      destruct (pushUpdate_applies_state todo config states issue target f
                  (st_world st) Hset Hissue Huuid Hf Hstates Htarget)
        as (w' & issue' & Hrun & Hfind & Hstate & _).
      rewrite Hrun. cbn [st_result st_world with_result with_world with_id].
      rewrite add_conflicts_fields. split; [reflexivity |].
      exists issue'. split; assumption.
    + (* the issue wins *)
      destruct (pullStateFromIssue_spec issue (todo_path todo) config (st_world st) f Hf)
        as (res & data' & w' & Hrun & Hfs & Hrem & _ & _ & _ & Hprio & Hstatus & _ & Hdest).
      rewrite Hrun. cbn [st_result st_world with_result with_world with_id].
      rewrite add_conflicts_fields.
      split; [reflexivity |]. split; [intros; discriminate |].
      split; [| intros; discriminate].
      intros _ _. split; [exact Hrem |]. split; [reflexivity |].
      exists (default (todo_path todo) (newPath res)), (stampedFile f data' (st_world st)).
      split; [rewrite Hfs; apply lookup_insert_eq |].
      split; [reflexivity |].
      split; [exact Hprio |]. split; [exact Hstatus | exact Hdest].
Qed.

(** In the example the file is newer: the live pass moves the issue to
    Triage, the workflow state configured for the file's status pending. *)
Lemma conflict_file_wins_example :
  exists issue',
    Api.find_issue "ENG-1"
      (remote (st_world (after defaultConfig teamStates false
                           (todoOf todoPath conflictFile) (initial conflictWorld))))
    = Some issue' /\
    issue_stateId issue' = "s1".
Proof.
  destruct (conflict_last_write_wins defaultConfig teamStates false
              (todoOf todoPath conflictFile) (initial conflictWorld)
              conflictIssue conflictFile)
    as (_ & _ & _ & _ & _ & Hfile); try (vm_compute; reflexivity).
  destruct (Hfile eq_refl) with (target := mkLinearState "s1" "Triage" "triage")
    as (_ & issue' & Hfind & Hstate); try (vm_compute; reflexivity).
  exists issue'. split; [exact Hfind | exact Hstate].
Defined.

End ConflictClaims.

(** ** Isolation of failures *)

Section IsolationFacts.

Import Mapping Engine Fs Spec.

Lemma pullComments_nonneg (issue : LinearIssue) (path since : string)
    (w w' : World) (n : Z) :
  pullCommentsFromIssue issue path since w = (Ok n, w') -> 0 <= n.
Proof.
  rewrite pullComments_run.
  destruct (newCommentsSince issue since) as [|c l].
  - intros H. injection H as <- _. lia.
  - destruct (fs w !! path); intros H; [| discriminate].
    injection H as <- _. lia.
Qed.

(** The cases of one step: the classification, then the outcome of each
    operation the live run performs. *)
Ltac step_cases config states todo w :=
  destruct (classify todo w) as [| winner issue | | issue | | msg];
  [ destruct (pushCreate todo config states None false w) as [[created|e] w1]
  | destruct winner;
    [ destruct (pushUpdate todo config states w) as [[[]|e] w1]
    | destruct (pullStateFromIssue issue (todo_path todo) config w) as [[res|e] w1] ]
  | destruct (pushUpdate todo config states w) as [[[]|e] w1]
  | destruct (pullStateFromIssue issue (todo_path todo) config w) as [[res|e] w1];
    [ destruct (changed res);
      destruct (Store.set (fm_linear_synced_at (todo_frontmatter todo)));
      [ destruct (pullCommentsFromIssue issue (default (todo_path todo) (newPath res))
                    (default "" (fm_linear_synced_at (todo_frontmatter todo))) w1)
          as [[n|e] w2] eqn:Hcomments
      |
      | destruct (pullCommentsFromIssue issue (default (todo_path todo) (newPath res))
                    (default "" (fm_linear_synced_at (todo_frontmatter todo))) w1)
          as [[n|e] w2] eqn:Hcomments
      | ]
    | ]
  |
  | ].

Ltac state_fields :=
  unfold seen, report;
  destruct (Store.set (fm_linear_id (todo_frontmatter _)));
  cbn [st_result st_world st_ids with_result with_world with_id id];
  rewrite ?add_conflicts_fields;
  unfold counters;
  cbn [add_pushed_created add_pushed_updated add_pulled_updated
       add_pulled_comments add_skipped push_error counters
       pushed_created pushed_updated pulled_updated pulled_comments
       pulled_created conflicts skipped errors].

Ltac counters_grow :=
  repeat (apply List.Forall2_cons; [lia |]); apply List.Forall2_nil.

(** One record never makes the pass throw; it adds at most one error, which
    names its file, and only adds to the counters and the conflicts. *)
Lemma step_grows (config : LinearConfig) (states : list LinearState)
    (dryRun : bool) (todo : TodoFile) (st : St) :
  let st' := after config states dryRun todo st in
  (errors (st_result st') = errors (st_result st) \/
   exists msg,
     errors (st_result st') = errors (st_result st) ++ [syncError todo msg] \/
     errors (st_result st') = errors (st_result st) ++ [createError todo msg]) /\
  Forall2 Z.le (counters (st_result st)) (counters (st_result st')) /\
  (exists cs, conflicts (st_result st') = conflicts (st_result st) ++ cs).
Proof.
  cbv zeta. unfold after. destruct dryRun.
  - rewrite step_dry. cbn [snd].
    destruct (classify todo (st_world st)) as [| winner issue | | issue | | msg];
      state_fields;
      (split; [first [left; reflexivity | right; eexists; left; reflexivity] |]);
      (split; [counters_grow |]);
      first [ exists []; rewrite List.app_nil_r; reflexivity | eexists; reflexivity ].
  - rewrite step_live. cbv zeta. cbn [snd].
    step_cases config states todo (st_world st);
      state_fields;
      try (apply pullComments_nonneg in Hcomments);
      (split; [first [ left; reflexivity
                     | right; eexists; left; reflexivity
                     | right; eexists; right; reflexivity ] |]);
      (split; [counters_grow |]);
      first [ exists []; rewrite List.app_nil_r; reflexivity | eexists; reflexivity ].
Qed.

(** The effect of one record does not depend on the errors collected or
    the identifiers seen so far. *)
Lemma step_agree (config : LinearConfig) (states : list LinearState)
    (dryRun : bool) (todo : TodoFile) (st st' : St) :
  agree st st' ->
  agree (after config states dryRun todo st) (after config states dryRun todo st') /\
  exists es,
    errors (st_result (after config states dryRun todo st))
    = errors (st_result st) ++ es /\
    errors (st_result (after config states dryRun todo st'))
    = errors (st_result st') ++ es.
Proof.
  destruct st as [w r ids], st' as [w' r' ids'].
  unfold agree. cbn [st_world st_result]. intros (<- & Hc & Hcf).
  destruct r as [a1 a2 a3 a4 a5 cs a6 es1], r' as [b1 b2 b3 b4 b5 cs' b6 es2].
  unfold counters in Hc. cbn in Hc, Hcf.
  injection Hc as -> -> -> -> -> ->. subst cs'.
  unfold after. destruct dryRun.
  - rewrite !step_dry. cbn [snd st_world].
    destruct (classify todo w) as [| winner issue | | issue | | msg];
      state_fields;
      (split; [split; [| split]; reflexivity |]);
      first [ exists []; rewrite !List.app_nil_r; split; reflexivity
            | eexists; split; reflexivity ].
  - rewrite !step_live. cbv zeta. cbn [snd st_world].
    step_cases config states todo w;
      state_fields;
      (split; [split; [| split]; reflexivity |]);
      first [ exists []; rewrite !List.app_nil_r; split; reflexivity
            | eexists; split; reflexivity ].
Qed.

Lemma afterAll_agree (config : LinearConfig) (states : list LinearState)
    (dryRun : bool) (todos : list TodoFile) (st st' : St) :
  agree st st' ->
  agree (afterAll config states dryRun todos st)
        (afterAll config states dryRun todos st') /\
  exists es,
    errors (st_result (afterAll config states dryRun todos st))
    = errors (st_result st) ++ es /\
    errors (st_result (afterAll config states dryRun todos st'))
    = errors (st_result st') ++ es.
Proof.
  revert st st'. induction todos as [|todo rest IH]; intros st st' Hagree.
  - split; [exact Hagree |]. exists []. rewrite !List.app_nil_r. split; reflexivity.
  - change (afterAll config states dryRun (todo :: rest) st)
      with (afterAll config states dryRun rest (after config states dryRun todo st)).
    change (afterAll config states dryRun (todo :: rest) st')
      with (afterAll config states dryRun rest (after config states dryRun todo st')).
    destruct (step_agree config states dryRun todo st st' Hagree)
      as (Hstep & es1 & He1 & He1').
    destruct (IH _ _ Hstep) as (Hrest & es2 & He2 & He2').
    split; [exact Hrest |].
    exists (es1 ++ es2). rewrite He2, He2', He1, He1', !List.app_assoc.
    split; reflexivity.
Qed.

End IsolationFacts.

Section IsolationClaims.

Import Mapping Engine Fs Spec Examples.



End IsolationClaims.

(** ** The tracking fields *)

Section TrackingFacts.

Import Mapping Engine Fs Spec.

Lemma safe_refl (m : gmap string File) : safe m m.
Proof. split; auto. Qed.

Lemma safe_trans (m1 m2 m3 : gmap string File) :
  safe m1 m2 -> safe m2 m3 -> safe m1 m3.
Proof. intros [H1 H2] [H3 H4]. split; auto. Qed.

(** Writing linked and stamped metadata is always safe; writing metadata
    that keeps the tracking fields of the file it replaces is safe too. *)
Lemma safe_insert (m : gmap string File) (p : string) (f : File) :
  (all_tracked m -> tracked_together (file_data f)) ->
  (linked_at p m -> m !! p <> None -> linked (file_data f)) ->
  (m !! p = None -> linked (file_data f)) ->
  safe m (<[p := f]> m).
Proof.
  intros Htracked Hkeep Hnew. split.
  - intros Hall q g Hq. destruct (decide (p = q)) as [<- | Hne].
    + rewrite lookup_insert_eq in Hq. injection Hq as <-. exact (Htracked Hall).
    + rewrite lookup_insert_ne in Hq by exact Hne. eapply Hall. exact Hq.
  - intros q Hlinked g Hq. destruct (decide (p = q)) as [<- | Hne].
    + rewrite lookup_insert_eq in Hq. injection Hq as <-.
      destruct (m !! p) as [old|] eqn:Hold.
      * apply Hkeep; [exact Hlinked | discriminate].
      * apply Hnew. reflexivity.
    + rewrite lookup_insert_ne in Hq by exact Hne. apply Hlinked. exact Hq.
Qed.

Lemma safe_delete (m : gmap string File) (p : string) : safe m (delete p m).
Proof.
  split.
  - intros Hall q g Hq. apply lookup_delete_Some in Hq as [_ Hq]. eapply Hall. exact Hq.
  - intros q Hlinked g Hq. apply lookup_delete_Some in Hq as [_ Hq].
    apply Hlinked. exact Hq.
Qed.

Lemma merge_linked (data updates : gmap string Value) (now : string) :
  linked (merge_updates data updates now)
  <-> linked data \/ is_Some (updates !! "linear_id").
Proof.
  unfold linked, merge_updates.
  assert (Hu : is_Some ((updates ∪ data) !! "linear_id")
               <-> is_Some (data !! "linear_id") \/ is_Some (updates !! "linear_id")).
  { rewrite lookup_union_is_Some. tauto. }
  destruct (bool_decide (is_Some (updates !! "linear_id"))
            || bool_decide (is_Some (updates !! "linear_synced_at")));
    [rewrite lookup_insert_ne by discriminate |]; exact Hu.
Qed.

Lemma merge_stamped (data updates : gmap string Value) (now : string) :
  stamped (merge_updates data updates now)
  <-> stamped data \/ is_Some (updates !! "linear_id")
      \/ is_Some (updates !! "linear_synced_at").
Proof.
  unfold stamped, merge_updates.
  destruct (bool_decide (is_Some (updates !! "linear_id"))) eqn:H1;
    destruct (bool_decide (is_Some (updates !! "linear_synced_at"))) eqn:H2;
    cbn [orb];
    try apply bool_decide_eq_true in H1; try apply bool_decide_eq_true in H2;
    try apply bool_decide_eq_false in H1; try apply bool_decide_eq_false in H2;
    rewrite ?lookup_insert_eq, ?lookup_union_is_Some;
    split; intros H; eauto; tauto.
Qed.

Lemma update_safe (path : string) (updates : gmap string Value)
    (w w' : World) (r : Res unit) :
  updateTodoFrontmatter path updates w = (r, w') ->
  (is_Some (updates !! "linear_synced_at") ->
   is_Some (updates !! "linear_id") \/ linked_at path (fs w)) ->
  safe (fs w) (fs w').
Proof.
  rewrite updateTodoFrontmatter_run. intros Hrun Hcond.
  destruct (fs w !! path) as [f|] eqn:Hf; injection Hrun as _ <-;
    [| apply safe_refl].
  cbn [fs set_fs]. apply safe_insert; cbn [file_data stampedFile].
  - intros Hall. pose proof (Hall path f Hf) as Hd.
    unfold tracked_together in *. rewrite merge_linked, merge_stamped.
    split.
    + intros [Hl | Hu]; [left; apply Hd; exact Hl | right; left; exact Hu].
    + intros [Hs | [Hu | Hu]]; [left; apply Hd; exact Hs | right; exact Hu |].
      destruct (Hcond Hu) as [Hid | Hat]; [right; exact Hid | left].
      apply Hat. exact Hf.
  - intros Hat _. apply merge_linked. left. apply Hat. exact Hf.
  - intros Hnone. congruence.
Qed.

Lemma updateIssue_fs (issueId : string) (input : Api.UpdateInput)
    (w w' : World) (r : Res LinearIssue) :
  Api.updateIssue issueId input w = (r, w') -> fs w' = fs w.
Proof.
  unfold Api.updateIssue. cbv zeta.
  destruct (find _ (remote_issues (remote w))) as [old|];
    [| intros H; injection H as _ <-; reflexivity].
  destruct (Api.resolve_state _ _ _);
    intros H; injection H as _ <-; reflexivity.
Qed.

Lemma createIssue_fs (input : Api.CreateInput) (w w' : World) (r : Res LinearIssue) :
  Api.createIssue input w = (r, w') -> fs w' = fs w.
Proof.
  unfold Api.createIssue. cbv zeta.
  destruct (Api.resolve_state _ _ _);
    intros H; injection H as _ <-; reflexivity.
Qed.

Lemma pushUpdate_safe (todo : TodoFile) (config : LinearConfig)
    (states : list LinearState) (w w' : World) (r : Res unit) :
  pushUpdate todo config states w = (r, w') ->
  linked_at (todo_path todo) (fs w) ->
  safe (fs w) (fs w').
Proof.
  intros Hrun Hat.
  destruct (fm_linear_id (todo_frontmatter todo)) as [lid|] eqn:Hlid.
  2:{ unfold pushUpdate in Hrun. rewrite Hlid in Hrun.
      injection Hrun as _ <-. apply safe_refl. }
  destruct (String.eqb_spec lid "") as [-> | Hne].
  { unfold pushUpdate in Hrun. rewrite Hlid in Hrun.
    injection Hrun as _ <-. apply safe_refl. }
  rewrite (pushUpdate_run todo config states lid w Hlid Hne) in Hrun.
  destruct (Api.find_issue lid (remote w)) as [issue|];
    [| injection Hrun as _ <-; apply safe_refl].
  cbv zeta in Hrun.
  destruct (Api.nonempty_input (pushInput todo config states issue)).
  - destruct (Api.updateIssue (issue_uuid issue) (pushInput todo config states issue) w)
      as [[i|e] w1] eqn:Hup.
    + apply updateIssue_fs in Hup. rewrite <- Hup.
      eapply update_safe; [exact Hrun |]. intros _. right. rewrite Hup. exact Hat.
    + apply updateIssue_fs in Hup. injection Hrun as _ <-. rewrite Hup. apply safe_refl.
  - eapply update_safe; [exact Hrun |]. intros _. right. exact Hat.
Qed.

Lemma pushCreate_safe (todo : TodoFile) (config : LinearConfig)
    (states : list LinearState) (parent : option string) (skip : bool)
    (w w' : World) (r : Res string) :
  pushCreate todo config states parent skip w = (r, w') ->
  safe (fs w) (fs w').
Proof.
  unfold pushCreate. cbv zeta. unfold se_bind at 1.
  destruct (Api.createIssue _ w) as [[issue|e] w1] eqn:Hcreate;
    apply createIssue_fs in Hcreate; rewrite <- Hcreate;
    [| intros H; injection H as _ <-; apply safe_refl].
  unfold se_bind at 1. destruct skip.
  - unfold se_ret, se_bind. intros H. injection H as _ <-. apply safe_refl.
  - unfold se_bind at 1. unfold now_iso, gets.
    destruct (updateTodoFrontmatter (todo_path todo)
                (<["linear_id" := VStr (issue_identifier issue)]>
                   {["linear_synced_at" := VStr (JsDate.toISOString (clock w1))]}) w1)
      as [[[]|e] w2] eqn:Hup; unfold se_ret;
      intros H; injection H as _ <-;
      (eapply update_safe; [exact Hup |]);
      intros _; left; rewrite lookup_insert_eq; eexists; reflexivity.
Qed.

Lemma pullState_safe (issue : LinearIssue) (path : string) (config : LinearConfig)
    (w w' : World) (r : Res PullResult) :
  pullStateFromIssue issue path config w = (r, w') ->
  linked_at path (fs w) ->
  safe (fs w) (fs w') /\
  forall res, r = Ok res -> linked_at (default path (newPath res)) (fs w').
Proof.
  intros Hrun Hat.
  destruct (fs w !! path) as [f|] eqn:Hf.
  - destruct (pullStateFromIssue_spec issue path config w f Hf)
      as (res & data' & w1 & Hspec & Hfs & _ & _ & Hstamp & Hother & _).
    rewrite Hspec in Hrun. injection Hrun as <- <-.
    assert (Hlinked : linked data').
    { unfold linked. rewrite Hother by discriminate. apply Hat. exact Hf. }
    split.
    + rewrite Hfs. eapply safe_trans; [apply (safe_delete _ path) |].
      apply safe_insert; cbn [file_data stampedFile].
      * intros _. split; intros _; [| exact Hlinked].
        unfold stamped. rewrite Hstamp. eexists. reflexivity.
      * intros _ _. exact Hlinked.
      * intros _. exact Hlinked.
    + intros res' Hres. injection Hres as <-. rewrite Hfs.
      intros g Hg. rewrite lookup_insert_eq in Hg. injection Hg as <-. exact Hlinked.
  - unfold pullStateFromIssue, se_bind, readText in Hrun. rewrite Hf in Hrun.
    injection Hrun as <- <-. split; [apply safe_refl | discriminate].
Qed.

Lemma insert_stamp_tracked (data : gmap string Value) (now : string) :
  linked data -> tracked_together (<["linear_synced_at" := VStr now]> data).
Proof.
  intros Hl. unfold tracked_together, linked, stamped.
  rewrite lookup_insert_eq, lookup_insert_ne by discriminate.
  split; intros _; [eexists; reflexivity | exact Hl].
Qed.

Lemma pullComments_safe (issue : LinearIssue) (path since : string)
    (w w' : World) (r : Res Z) :
  pullCommentsFromIssue issue path since w = (r, w') ->
  linked_at path (fs w) ->
  safe (fs w) (fs w').
Proof.
  rewrite pullComments_run. intros Hrun Hat.
  destruct (newCommentsSince issue since);
    [injection Hrun as _ <-; apply safe_refl |].
  destruct (fs w !! path) as [f|] eqn:Hf; injection Hrun as _ <-;
    [| apply safe_refl].
  cbn [fs set_fs]. pose proof (Hat f Hf) as Hl.
  apply safe_insert; cbn [file_data].
  - intros _. apply insert_stamp_tracked. exact Hl.
  - intros _ _. unfold linked. rewrite lookup_insert_ne by discriminate. exact Hl.
  - congruence.
Qed.

(** The metadata of an imported record carries both tracking fields. *)
Lemma import_data_tracked (fm : TodoFrontmatter) (lid now : string) :
  fm_linear_id fm = Some lid -> fm_linear_synced_at fm = Some now ->
  data_of fm !! "linear_id" = Some (VStr lid) /\
  data_of fm !! "linear_synced_at" = Some (VStr now).
Proof.
  intros H1 H2. unfold data_of. rewrite H1, H2.
  split.
  - rewrite lookup_insert_ne by discriminate. apply lookup_insert_eq.
  - apply lookup_insert_eq.
Qed.

(** One import: the file written, with both tracking fields. *)
Lemma importOne_run (issue : LinearIssue) (config : LinearConfig)
    (todosDir : string) (maxId : Z) (by_ : string) (w : World) :
  exists todo f,
    importOne issue config todosDir maxId by_ w
    = (Ok todo, set_fs (insert (todo_path todo) f) w) /\
    fm_linear_id (todo_frontmatter todo) = Some (issue_identifier issue) /\
    fm_linear_synced_at (todo_frontmatter todo)
    = Some (JsDate.toISOString (clock w)) /\
    file_data f !! "linear_id" = Some (VStr (issue_identifier issue)) /\
    file_data f !! "linear_synced_at" = Some (VStr (JsDate.toISOString (clock w))).
Proof.
  unfold importOne. cbv zeta.
  unfold se_bind, now_iso, gets, writeText, formatFrontmatter, se_ret. cbn [fst snd].
  eexists (mkTodoFile _ _ _), (mkFile _ _ _).
  split; [cbn [todo_path]; reflexivity |].
  cbn [todo_frontmatter fm_linear_id fm_linear_synced_at file_data].
  split; [reflexivity |]. split; [reflexivity |].
  apply import_data_tracked; reflexivity.
Qed.

Lemma both_at_insert (m : gmap string File) (p q : string) (f : File) :
  linked (file_data f) -> stamped (file_data f) ->
  both_at q m \/ q = p -> both_at q (<[p := f]> m).
Proof.
  intros Hl Hs Hq. destruct (decide (p = q)) as [<- | Hne].
  - exists f. rewrite lookup_insert_eq. repeat split; assumption.
  - destruct Hq as [(g & Hg & Hb) | ->]; [| congruence].
    exists g. rewrite lookup_insert_ne by exact Hne. split; assumption.
Qed.

Lemma importEach_spec (issues : list LinearIssue) (config : LinearConfig)
    (todosDir : string) (maxId : Z) (w : World) :
  exists created w',
    importEach issues config todosDir maxId w = (Ok created, w') /\
    safe (fs w) (fs w') /\
    (forall p, both_at p (fs w) -> both_at p (fs w')) /\
    Forall (created_tracked (fs w')) created.
Proof.
  revert maxId w. induction issues as [|issue rest IH]; intros maxId w.
  - exists [], w. split; [reflexivity |]. split; [apply safe_refl |].
    split; [auto | constructor].
  - destruct (importOne_run issue config todosDir (maxId + 1)
                "compound-plugin linear sync" w)
      as (todo & f & Hone & Hid & Hsync & Hfid & Hfsync).
    destruct (IH (maxId + 1) (set_fs (insert (todo_path todo) f) w))
      as (created & w' & Hrest & Hsafe & Hkeep & Hall).
    exists (todo :: created), w'.
    assert (Hl : linked (file_data f)) by (eexists; exact Hfid).
    assert (Hs : stamped (file_data f)) by (eexists; exact Hfsync).
    split.
    { cbn [importEach]. unfold se_bind at 1. rewrite Hone.
      unfold se_bind at 1. rewrite Hrest. reflexivity. }
    split.
    { eapply safe_trans; [| exact Hsafe]. cbn [fs set_fs].
      apply safe_insert; [intros _; split; auto | auto | auto]. }
    split.
    { intros p Hp. apply Hkeep. cbn [fs set_fs].
      apply both_at_insert; auto. }
    constructor; [| exact Hall].
    split; [rewrite Hid; eexists; reflexivity |].
    split; [rewrite Hsync; eexists; reflexivity |].
    apply Hkeep. cbn [fs set_fs]. apply both_at_insert; auto.
Qed.

(** The import of the issues not seen never throws and writes only files
    with both tracking fields. *)
Lemma pullNewIssues_spec (config : LinearConfig) (todosDir : string)
    (ids : gset string) (maxId : option Z) (w : World) :
  exists created w',
    pullNewIssues config todosDir ids maxId w = (Ok created, w') /\
    safe (fs w) (fs w') /\
    Forall (created_tracked (fs w')) created.
Proof.
  unfold pullNewIssues, se_bind at 1. unfold Api.listIssues, gets.
  set (newIssues := List.filter _ _).
  destruct (length newIssues =? 0)%nat.
  { exists [], w. split; [reflexivity |]. split; [apply safe_refl | constructor]. }
  unfold se_bind at 1.
  destruct (default 0 maxId =? 0).
  - unfold se_bind at 1. rewrite loadTodoFiles_pure. unfold se_ret.
    destruct (importEach_spec newIssues config todosDir
                (maxIssueIdOf (default 0 maxId) (todosOf todosDir w)) w)
      as (created & w' & Hrun & Hsafe & _ & Hall).
    exists created, w'. split; [exact Hrun |]. split; assumption.
  - unfold se_ret.
    destruct (importEach_spec newIssues config todosDir (default 0 maxId) w)
      as (created & w' & Hrun & Hsafe & _ & Hall).
    exists created, w'. split; [exact Hrun |]. split; assumption.
Qed.

Lemma loadEach_todos (paths : list string) (w : World) (todos : list TodoFile) :
  loadEach paths w = (Ok todos, w) ->
  forall todo, In todo todos ->
    exists f, fs w !! todo_path todo = Some f /\
              todo_frontmatter todo = frontmatter_of (file_data f).
Proof.
  revert todos. induction paths as [|p rest IH]; intros todos Hrun todo Hin.
  - injection Hrun as <-. destruct Hin.
  - cbn [loadEach] in Hrun. unfold se_bind at 1 in Hrun. unfold readText in Hrun.
    destruct (fs w !! p) as [f|] eqn:Hf; [| discriminate].
    unfold parseFrontmatter in Hrun. cbn iota beta in Hrun.
    unfold se_bind in Hrun.
    destruct (loadEach rest w) as [[loaded|e] w1] eqn:Hrest; [| discriminate].
    unfold se_ret in Hrun. injection Hrun as <- ->.
    destruct (is_todo (file_data f)).
    + destruct Hin as [<- | Hin]; [exists f; split; [exact Hf | reflexivity] |].
      eapply IH; [reflexivity | exact Hin].
    + eapply IH; [reflexivity | exact Hin].
Qed.

(** A record loaded as linked comes from a file that carries [linear_id]. *)
Lemma loaded_linked (todosDir : string) (w : World) (todo : TodoFile) :
  In todo (todosOf todosDir w) ->
  Store.set (fm_linear_id (todo_frontmatter todo)) = true ->
  linked_at (todo_path todo) (fs w).
Proof.
  intros Hin Hset.
  pose proof (loadTodoFiles_pure todosDir w) as Hload.
  unfold loadTodoFiles, se_bind, walkFiles, gets in Hload.
  destruct (loadEach_todos _ _ _ Hload todo Hin) as (f & Hf & Hfm).
  intros g Hg. rewrite Hf in Hg. injection Hg as <-.
  rewrite Hfm in Hset. cbn [frontmatter_of fm_linear_id] in Hset.
  unfold linked, string_opt in *.
  destruct (file_data f !! "linear_id") as [v|]; [eexists; reflexivity |].
  discriminate.
Qed.

Lemma classify_linked (todo : TodoFile) (w : World) :
  classify todo w <> Create ->
  Store.set (fm_linear_id (todo_frontmatter todo)) = true.
Proof.
  unfold classify.
  destruct (Store.set (fm_linear_id (todo_frontmatter todo))); [reflexivity | congruence].
Qed.

(** One record of a pass keeps the invariant and unlinks nothing. *)
Lemma step_safe (config : LinearConfig) (states : list LinearState)
    (dryRun : bool) (todo : TodoFile) (st : St) :
  (Store.set (fm_linear_id (todo_frontmatter todo)) = true ->
   linked_at (todo_path todo) (fs (st_world st))) ->
  safe (fs (st_world st)) (fs (st_world (after config states dryRun todo st))).
Proof.
  intros Hsnap. unfold after. destruct dryRun.
  { rewrite step_dry. cbn [snd]. unfold seen.
    destruct (Store.set (fm_linear_id (todo_frontmatter todo))); apply safe_refl. }
  rewrite step_live. cbv zeta. cbn [snd].
  assert (Hseen : st_world (seen todo st) = st_world st).
  { unfold seen. destruct (Store.set _); reflexivity. }
  destruct (classify todo (st_world st)) as [| winner issue | | issue | | msg] eqn:Hclass;
    try (assert (Hat : linked_at (todo_path todo) (fs (st_world st)))
           by (apply Hsnap; eapply classify_linked; rewrite Hclass; discriminate)).
  - destruct (pushCreate todo config states None false (st_world st))
      as [[created|e] w1] eqn:Hop; cbn [st_world with_result with_world];
      eapply pushCreate_safe; exact Hop.
  - destruct winner.
    + destruct (pushUpdate todo config states (st_world st)) as [[[]|e] w1] eqn:Hop;
        cbn [st_world with_result with_world];
        (eapply pushUpdate_safe; [exact Hop | exact Hat]).
    + destruct (pullStateFromIssue issue (todo_path todo) config (st_world st))
        as [[res|e] w1] eqn:Hop; cbn [st_world with_result with_world];
        (eapply pullState_safe; [exact Hop | exact Hat]).
  - destruct (pushUpdate todo config states (st_world st)) as [[[]|e] w1] eqn:Hop;
      cbn [st_world with_result with_world];
      (eapply pushUpdate_safe; [exact Hop | exact Hat]).
  - destruct (pullStateFromIssue issue (todo_path todo) config (st_world st))
      as [[res|e] w1] eqn:Hop.
    2:{ cbn [st_world with_result with_world].
        eapply pullState_safe; [exact Hop | exact Hat]. }
    destruct (pullState_safe _ _ _ _ _ _ Hop Hat) as [Hsafe Hdest].
    specialize (Hdest res eq_refl).
    destruct (Store.set (fm_linear_synced_at (todo_frontmatter todo))).
    + destruct (pullCommentsFromIssue issue (default (todo_path todo) (newPath res))
                  (default "" (fm_linear_synced_at (todo_frontmatter todo))) w1)
        as [[n|e] w2] eqn:Hcom; cbn [st_world with_result with_world];
        (eapply safe_trans; [exact Hsafe |]);
        (eapply pullComments_safe; [exact Hcom | exact Hdest]).
    + destruct (changed res); cbn [st_world with_result with_world id]; exact Hsafe.
  - cbn [st_world with_result]. rewrite Hseen. apply safe_refl.
  - cbn [st_world with_result]. rewrite Hseen. apply safe_refl.
Qed.

Lemma afterAll_safe (config : LinearConfig) (states : list LinearState)
    (dryRun : bool) (todos : list TodoFile) (st : St) :
  (forall todo, In todo todos ->
     Store.set (fm_linear_id (todo_frontmatter todo)) = true ->
     linked_at (todo_path todo) (fs (st_world st))) ->
  safe (fs (st_world st)) (fs (st_world (afterAll config states dryRun todos st))).
Proof.
  revert st. induction todos as [|todo rest IH]; intros st Hsnap; [apply safe_refl |].
  change (afterAll config states dryRun (todo :: rest) st)
    with (afterAll config states dryRun rest (after config states dryRun todo st)).
  pose proof (step_safe config states dryRun todo st (Hsnap todo (or_introl eq_refl)))
    as Hstep.
  eapply safe_trans; [exact Hstep |].
  apply IH. intros t Ht Hset. apply Hstep. apply Hsnap; [right; exact Ht | exact Hset].
Qed.

(** A pass keeps the invariant of the tracking fields. *)
Lemma syncAll_tracked (todosDir : string) (config : LinearConfig) (dryRun : bool)
    (w : World) :
  all_tracked (fs w) -> all_tracked (fs (snd (syncAll todosDir config dryRun w))).
Proof.
  rewrite syncAll_run. cbv zeta. cbn [snd].
  pose proof (afterAll_safe config (remote_states (remote w)) dryRun
                (todosOf todosDir w) (initial w)
                (fun todo Hin Hset => loaded_linked todosDir w todo Hin Hset))
    as Hloop.
  cbn [st_world initial] in Hloop.
  destruct dryRun; [apply Hloop |].
  rewrite syncNew_run. cbn [snd].
  set (st := afterAll config (remote_states (remote w)) false (todosOf todosDir w)
               (initial w)) in *.
  destruct (pullNewIssues_spec config todosDir (st_ids st)
              (Some (maxIssueIdOf 0 (todosOf todosDir w))) (st_world st))
    as (created & w' & Hrun & Hsafe & _).
  rewrite Hrun. cbn [st_world with_result with_world].
  intros Hall. apply Hsafe, Hloop, Hall.
Qed.

End TrackingFacts.

Section TrackingClaims.

Import Mapping Engine Fs Spec Examples.

Lemma update_links (path : string) (updates : gmap string Value) (w w' : World)
    (v : Value) :
  updateTodoFrontmatter path updates w = (Ok tt, w') ->
  updates !! "linear_id" = Some v ->
  exists f', fs w' !! path = Some f' /\
             file_data f' !! "linear_id" = Some v /\ stamped (file_data f').
Proof.
  rewrite updateTodoFrontmatter_run. intros Hrun Hid.
  destruct (fs w !! path) as [f|]; [| discriminate].
  injection Hrun as <-. eexists. split; [cbn; apply lookup_insert_eq |].
  cbn [file_data stampedFile]. unfold merge_updates, stamped.
  assert (Hb : bool_decide (is_Some (updates !! "linear_id")) = true).
  { apply bool_decide_eq_true. rewrite Hid. eexists. reflexivity. }
  rewrite Hb. cbn [orb]. split.
  - rewrite lookup_insert_ne by discriminate. apply lookup_union_Some_l. exact Hid.
  - rewrite lookup_insert_eq. eexists. reflexivity.
Qed.

Lemma pushCreate_links (todo : TodoFile) (config : LinearConfig)
    (states : list LinearState) (parent : option string) (w w' : World)
    (identifier : string) :
  pushCreate todo config states parent false w = (Ok identifier, w') ->
  exists f', fs w' !! todo_path todo = Some f' /\
             file_data f' !! "linear_id" = Some (VStr identifier) /\
             stamped (file_data f').
Proof.
  unfold pushCreate. cbv zeta. unfold se_bind at 1.
  destruct (Api.createIssue _ w) as [[issue|e] w1]; [| discriminate].
  unfold se_bind at 1. unfold se_bind at 1. unfold now_iso, gets.
  destruct (updateTodoFrontmatter (todo_path todo)
              (<["linear_id" := VStr (issue_identifier issue)]>
                 {["linear_synced_at" := VStr (JsDate.toISOString (clock w1))]}) w1)
    as [[[]|e] w2] eqn:Hup; [| discriminate].
  unfold se_ret. intros H. injection H as <- <-.
  eapply update_links; [exact Hup | apply lookup_insert_eq].
Qed.

Lemma importSingleIssue_links (identifier : string) (config : LinearConfig)
    (todosDir : string) (w w' : World) (todo : TodoFile) :
  importSingleIssue identifier config todosDir w = (Ok todo, w') ->
  created_tracked (fs w') todo.
Proof.
  unfold importSingleIssue, se_bind at 1. unfold Api.getIssueByIdentifier.
  destruct (Api.find_issue identifier (remote w)) as [issue|]; [| discriminate].
  unfold se_bind. rewrite loadTodoFiles_pure.
  destruct (importOne_run issue config todosDir
              (maxIssueIdOf 0 (todosOf todosDir w) + 1)
              "compound-plugin linear import" w)
    as (created & f & Hrun & Hid & Hsync & Hfid & Hfsync).
  rewrite Hrun. intros H. injection H as <- <-.
  split; [rewrite Hid; eexists; reflexivity |].
  split; [rewrite Hsync; eexists; reflexivity |].
  exists f. cbn [fs set_fs]. rewrite lookup_insert_eq.
  split; [reflexivity |]. split; eexists; eassumption.
Qed.

(** C9: a write that sets [linear_id] also sets [linear_synced_at]; the
    file of a record created by push-create, and every file created by an
    import, carries both fields; the writes that only refresh the stamp
    (push-update, state pull, comment pull), applied to a linked record, keep
    the file store in the invariant and unlink nothing; and a whole pass over
    a file store in which every file carries both fields or neither leaves it
    so. *)
Theorem tracking_fields_set_together
    (todosDir : string) (config : LinearConfig) (states : list LinearState)
    (dryRun : bool) (w : World) :
  (forall path updates w' v,
     updateTodoFrontmatter path updates w = (Ok tt, w') ->
     updates !! "linear_id" = Some v ->
     exists f', fs w' !! path = Some f' /\
                file_data f' !! "linear_id" = Some v /\ stamped (file_data f')) /\
  (forall todo parent w' identifier,
     pushCreate todo config states parent false w = (Ok identifier, w') ->
     exists f', fs w' !! todo_path todo = Some f' /\
                file_data f' !! "linear_id" = Some (VStr identifier) /\
                stamped (file_data f')) /\
  (forall ids maxId, exists created w',
     pullNewIssues config todosDir ids maxId w = (Ok created, w') /\
     Forall (created_tracked (fs w')) created) /\
  (forall identifier todo w',
     importSingleIssue identifier config todosDir w = (Ok todo, w') ->
     created_tracked (fs w') todo) /\
  (forall todo issue since r w',
     linked_at (todo_path todo) (fs w) ->
     (pushUpdate todo config states w = (r, w') -> safe (fs w) (fs w')) /\
     (forall r, pullStateFromIssue issue (todo_path todo) config w = (r, w') ->
        safe (fs w) (fs w')) /\
     (forall r, pullCommentsFromIssue issue (todo_path todo) since w = (r, w') ->
        safe (fs w) (fs w'))) /\
  (all_tracked (fs w) -> all_tracked (fs (snd (syncAll todosDir config dryRun w)))).
Proof.
  split; [| split; [| split; [| split; [| split]]]].
  - intros path updates w' v. apply update_links.
  - intros todo parent w' identifier. apply pushCreate_links.
  - intros ids maxId.
    destruct (pullNewIssues_spec config todosDir ids maxId w)
      as (created & w' & Hrun & _ & Hall).
    exists created, w'. split; assumption.
  - intros identifier todo w'. apply importSingleIssue_links.
  - intros todo issue since r w' Hat. split; [| split].
    + intros Hrun. eapply pushUpdate_safe; eassumption.
    + intros r' Hrun. eapply pullState_safe; eassumption.
    + intros r' Hrun. eapply pullComments_safe; eassumption.
  - apply syncAll_tracked.
Qed.

(** The pass over the world with a record to pull and an issue to import
    leaves every file with both tracking fields. *)
Lemma busy_world_stays_tracked :
  all_tracked (fs (snd (syncAll "/w/todos" defaultConfig false busyWorld))).
Proof.
  apply (tracking_fields_set_together "/w/todos" defaultConfig teamStates false busyWorld).
  intros p f Hf.
  destruct (decide (p = todoPath)) as [-> | Hne].
  - vm_compute in Hf. injection Hf as <-.
    split; intros _; eexists; vm_compute; reflexivity.
  - unfold busyWorld, world in Hf. cbn [fs list_to_map foldr] in Hf.
    rewrite lookup_insert_ne in Hf
      by (intros Heq; apply Hne; rewrite <- Heq; reflexivity).
    rewrite lookup_empty in Hf. discriminate.
Defined.

End TrackingClaims.

(** ** Titles, slugs and issue numbers *)

Section TextFacts.

Import Engine Shape.

Lemma trimStart_dropWhile (s : string) : Js.dropWhile Js.is_space s = Js.trimStart s.
Proof.
  induction s as [|c r IH]; [reflexivity |].
  cbn [Js.dropWhile Js.trimStart]. destruct (Js.is_space c); [exact IH | reflexivity].
Qed.

Lemma trimStart_app (t u : string) :
  Js.trimStart t <> "" -> Js.trimStart (t +:+ u) = Js.trimStart t +:+ u.
Proof.
  induction t as [|c r IH]; [intros H; contradiction H; reflexivity |].
  intros H. rewrite append_cons. cbn [Js.trimStart] in *.
  destruct (Js.is_space c); [apply IH; exact H | rewrite append_cons; reflexivity].
Qed.

Lemma trimStart_head (s : string) :
  match Js.trimStart s with
  | EmptyString => True
  | String c _ => Js.is_space c = false
  end.
Proof.
  induction s as [|c r IH]; [exact I |].
  cbn [Js.trimStart]. destruct (Js.is_space c) eqn:Hc; [exact IH | exact Hc].
Qed.

Lemma trimStart_idem (s : string) : Js.trimStart (Js.trimStart s) = Js.trimStart s.
Proof.
  pose proof (trimStart_head s) as H.
  destruct (Js.trimStart s) as [|c r]; [reflexivity |].
  cbn [Js.trimStart]. rewrite H. reflexivity.
Qed.

Lemma takeWhile_space_head (c : ascii) (s : string) :
  Js.is_space c = true -> Js.takeWhile Js.is_space (String c s) <> "".
Proof. intros H. cbn [Js.takeWhile]. rewrite H. discriminate. Qed.

Lemma one_line_trimStart (s : string) : one_line s = true -> one_line (Js.trimStart s) = true.
Proof.
  unfold one_line. induction s as [|c r IH]; [reflexivity |].
  cbn [all_chars Js.trimStart]. intros H. apply andb_prop in H as [Hc Hr].
  destruct (Js.is_space c); [apply IH; exact Hr |].
  cbn [all_chars]. rewrite Hc, Hr. reflexivity.
Qed.

Lemma takeWhile_line (t u : string) (c : ascii) :
  one_line t = true -> Js.is_newline c = true ->
  Js.takeWhile (fun c => negb (Js.is_newline c)) (t +:+ String c u) = t.
Proof.
  unfold one_line. intros Ht Hc. induction t as [|a r IH].
  - rewrite append_nil_l. cbn [Js.takeWhile]. rewrite Hc. reflexivity.
  - cbn [all_chars] in Ht. apply andb_prop in Ht as [Ha Hr].
    rewrite append_cons. cbn [Js.takeWhile]. rewrite Ha, (IH Hr). reflexivity.
Qed.

Lemma takeWhile_whole_line (t : string) :
  one_line t = true -> Js.takeWhile (fun c => negb (Js.is_newline c)) t = t.
Proof.
  unfold one_line. induction t as [|a r IH]; [reflexivity |].
  cbn [all_chars Js.takeWhile]. intros H. apply andb_prop in H as [Ha Hr].
  rewrite Ha, (IH Hr). reflexivity.
Qed.

Lemma trim_nonempty_start (t : string) : Js.trim t <> "" -> Js.trimStart t <> "".
Proof. unfold Js.trim. intros H Hs. apply H. rewrite Hs. reflexivity. Qed.

(** The heading pattern applied right after a [#] that is followed by a
    space: the capture is the rest of the first line that is not blank. *)
Lemma title_after_hash_line (t u : string) :
  one_line t = true -> Js.trim t <> "" ->
  (u = "" \/ exists c r, u = String c r /\ Js.is_newline c = true) ->
  title_after_hash (String " " (t +:+ u)) = Some (Js.trimStart t).
Proof.
  intros Hline Htrim Hu. unfold title_after_hash.
  pose proof (trim_nonempty_start t Htrim) as Hstart.
  rewrite trimStart_dropWhile.
  assert (Hdrop : Js.trimStart (String " " (t +:+ u)) = Js.trimStart t +:+ u).
  { cbn [Js.trimStart]. change (Js.is_space " ") with true. cbv iota.
    apply trimStart_app. exact Hstart. }
  rewrite Hdrop.
  destruct (Js.takeWhile Js.is_space (String " " (t +:+ u))) as [|c0 run] eqn:Hrun.
  { exfalso. revert Hrun. apply takeWhile_space_head. reflexivity. }
  destruct (Js.trimStart t) as [|a r] eqn:Hts; [contradiction Hstart; reflexivity |].
  pose proof (one_line_trimStart t Hline) as Hl. rewrite Hts in Hl.
  rewrite append_cons. cbv iota. f_equal. rewrite <- append_cons.
  destruct Hu as [-> | (c & r' & -> & Hc)].
  - rewrite append_nil_r. apply takeWhile_whole_line. exact Hl.
  - apply takeWhile_line; assumption.
Qed.

Lemma title_scan_none (s : string) (lineStart : bool) :
  Path.lacks "#" s = true -> title_scan s lineStart = None.
Proof.
  revert lineStart. induction s as [|c r IH]; intros lineStart H; [reflexivity |].
  cbn [Path.lacks] in H. apply andb_prop in H as [Hc Hr].
  cbn [title_scan]. apply negb_true_iff in Hc. rewrite Hc, andb_false_r.
  apply IH. exact Hr.
Qed.

(** *** Slugs *)

Lemma slug_char_not_dash (c : ascii) : is_slug_char c = true -> is_dash c = false.
Proof.
  unfold is_dash. intros H. apply Ascii.eqb_neq. intros ->. discriminate H.
Qed.

Lemma collapse_shape (s : string) (inRun : bool) :
  all_chars slug_or_dash (slug_collapse s inRun) = true /\
  single_dashes (slug_collapse s inRun) = true /\
  (inRun = true -> starts_with_dash (slug_collapse s inRun) = false).
Proof.
  revert inRun. induction s as [|c r IH]; intros inRun.
  - repeat split.
  - cbn [slug_collapse]. destruct (is_slug_char c) eqn:Hc.
    + destruct (IH false) as (Ha & Hs & _).
      cbn [all_chars single_dashes starts_with_dash]. unfold slug_or_dash at 1.
      rewrite Hc, Ha, Hs, (slug_char_not_dash c Hc). cbn.
      repeat split. destruct (slug_collapse r false); reflexivity.
    + destruct inRun.
      * exact (IH true).
      * destruct (IH true) as (Ha & Hs & Hd).
        cbn [all_chars single_dashes starts_with_dash].
        rewrite Ha, Hs. specialize (Hd eq_refl).
        repeat split; [| discriminate].
        destruct (slug_collapse r true) as [|b t]; [reflexivity |].
        cbn [starts_with_dash] in Hd. rewrite Hd, andb_false_r. reflexivity.
Qed.

(** The three shape properties pass to every prefix. *)
Lemma prefix_shape (pre rest : string) :
  (all_chars slug_or_dash (pre +:+ rest) = true ->
   all_chars slug_or_dash pre = true) /\
  (single_dashes (pre +:+ rest) = true -> single_dashes pre = true) /\
  (starts_with_dash (pre +:+ rest) = false -> starts_with_dash pre = false).
Proof.
  induction pre as [|c r IH].
  - repeat split.
  - rewrite append_cons. destruct IH as (IHa & IHs & _).
    cbn [all_chars single_dashes starts_with_dash].
    split; [| split].
    + intros H. apply andb_prop in H as [Hc Hr]. rewrite Hc, (IHa Hr). reflexivity.
    + intros H. apply andb_prop in H as [Hc Hr]. rewrite (IHs Hr), andb_true_r.
      destruct r as [|b t]; [reflexivity |].
      rewrite append_cons in Hc. exact Hc.
    + intros H. exact H.
Qed.

Lemma take_prefix (n : nat) (s : string) : exists rest, s = Js.take n s +:+ rest.
Proof.
  unfold Js.take. revert n. induction s as [|c r IH]; intros n.
  - exists "". destruct n; reflexivity.
  - destruct n as [|n].
    + exists (String c r). reflexivity.
    + destruct (IH n) as [rest Hrest]. exists rest.
      cbn [substring]. rewrite append_cons, <- Hrest. reflexivity.
Qed.

Lemma take_length (n : nat) (s : string) : (String.length (Js.take n s) <= n)%nat.
Proof.
  unfold Js.take. revert n. induction s as [|c r IH]; intros n.
  - destruct n; simpl; lia.
  - destruct n as [|n]; [simpl; lia |].
    cbn [substring String.length]. specialize (IH n). lia.
Qed.

Lemma dropEnd_prefix (s : string) : exists rest, s = Js.dropEnd 1 s +:+ rest.
Proof.
  unfold Js.dropEnd. destruct (Js.rev s) as [|c r] eqn:Hrev.
  - exists s. reflexivity.
  - exists (String c ""). cbn [Js.drop].
    rewrite <- (rev_rev s), Hrev, rev_string_cons. reflexivity.
Qed.

Lemma strip_shape (s : string) :
  all_chars slug_or_dash s = true -> single_dashes s = true ->
  all_chars slug_or_dash (strip_dashes s) = true /\
  single_dashes (strip_dashes s) = true /\
  starts_with_dash (strip_dashes s) = false.
Proof.
  intros Ha Hs. unfold strip_dashes.
  assert (Hlead : all_chars slug_or_dash (strip_leading_dash s) = true /\
                  single_dashes (strip_leading_dash s) = true /\
                  starts_with_dash (strip_leading_dash s) = false).
  { destruct s as [|c r]; [repeat split |].
    cbn [all_chars single_dashes] in Ha, Hs.
    apply andb_prop in Ha as [Hc Hr]. apply andb_prop in Hs as [Hp Hsr].
    destruct (is_dash c) eqn:Hd.
    - unfold is_dash in Hd. apply Ascii.eqb_eq in Hd. subst c.
      cbn [strip_leading_dash]. repeat split; try assumption.
      destruct r as [|b t]; [reflexivity |].
      cbn [starts_with_dash]. change (is_dash "-") with true in Hp.
      cbn in Hp. apply negb_true_iff in Hp. exact Hp.
    - assert (Hsame : strip_leading_dash (String c r) = String c r).
      { unfold strip_leading_dash. unfold is_dash in Hd.
        destruct c as [[] [] [] [] [] [] [] []]; try reflexivity. discriminate Hd. }
      rewrite Hsame. cbn [all_chars single_dashes starts_with_dash].
      rewrite Hc, Hr, Hsr, Hd. repeat split. destruct r; reflexivity. }
  destruct Hlead as (Ha' & Hs' & Hd').
  unfold strip_trailing_dash.
  destruct (Js.endsWith (strip_leading_dash s) "-"); [| repeat split; assumption].
  destruct (dropEnd_prefix (strip_leading_dash s)) as [rest Hrest].
  rewrite Hrest in Ha', Hs', Hd'.
  destruct (prefix_shape (Js.dropEnd 1 (strip_leading_dash s)) rest) as (P1 & P2 & P3).
  repeat split; auto.
Qed.


End TextFacts.

Section NumberFacts.

Import Engine Shape.

Lemma digit_char_ok (d : Z) :
  0 <= d <= 9 ->
  Js.digit_val (Js.digit_char d) = d /\ Js.is_digit (Js.digit_char d) = true.
Proof.
  intros H.
  assert (Hd : d = 0 \/ d = 1 \/ d = 2 \/ d = 3 \/ d = 4 \/ d = 5 \/ d = 6 \/ d = 7
               \/ d = 8 \/ d = 9) by lia.
  repeat (destruct Hd as [-> | Hd]; [split; reflexivity |]).
  subst d. split; reflexivity.
Qed.

Lemma all_chars_app (p : ascii -> bool) (a b : string) :
  all_chars p (a +:+ b) = all_chars p a && all_chars p b.
Proof.
  induction a as [|c r IH]; [reflexivity |].
  rewrite append_cons. cbn [all_chars]. rewrite IH, andb_assoc. reflexivity.
Qed.

Lemma digits_val_app (a : Z) (d1 d2 : string) :
  Js.digits_val a (d1 +:+ d2) = Js.digits_val (Js.digits_val a d1) d2.
Proof.
  revert a. induction d1 as [|c r IH]; intros a; [reflexivity |].
  rewrite append_cons. cbn [Js.digits_val]. apply IH.
Qed.

(** The digits [decimal_aux] puts in front of [acc] spell [n]. *)
Lemma decimal_aux_spec (fuel : nat) (n : Z) (acc : string) :
  0 <= n -> (Z.to_nat n < fuel)%nat ->
  exists d,
    Js.decimal_aux fuel n acc = d +:+ acc /\ d <> "" /\
    all_chars Js.is_digit d = true /\
    forall a, Js.digits_val a d = a * 10 ^ Z.of_nat (String.length d) + n.
Proof.
  revert n acc. induction fuel as [|f IH]; intros n acc Hn Hfuel; [lia |].
  cbn [Js.decimal_aux].
  assert (Hmod : 0 <= n mod 10 <= 9) by (pose proof (Z.mod_pos_bound n 10); lia).
  destruct (digit_char_ok (n mod 10) Hmod) as [Hval Hdig].
  destruct (Z.eqb_spec (n / 10) 0) as [Hsmall | Hbig].
  - exists (String (Js.digit_char (n mod 10)) "").
    split; [reflexivity |]. split; [discriminate |].
    split; [cbn [all_chars]; rewrite Hdig; reflexivity |].
    intros a. cbn [Js.digits_val String.length]. rewrite Hval.
    change (Z.of_nat 1) with 1. rewrite Z.pow_1_r.
    pose proof (Z.div_mod n 10 ltac:(lia)) as Hdm. rewrite Hsmall in Hdm.
    rewrite Z.mul_0_r, Z.add_0_l in Hdm. rewrite <- Hdm. ring.
  - assert (Hq : 0 <= n / 10) by (apply Z.div_pos; lia).
    assert (Hpos : 0 < n).
    { destruct (Z.eq_dec n 0) as [-> | Hnz]; [contradiction Hbig; reflexivity | lia]. }
    assert (Hlt : n / 10 < n) by (apply Z.div_lt; lia).
    destruct (IH (n / 10) (String (Js.digit_char (n mod 10)) acc) Hq)
      as (d & Hrun & Hne & Hall & Hsum); [lia |].
    exists (d +:+ String (Js.digit_char (n mod 10)) "").
    split; [rewrite Hrun, append_assoc; reflexivity |].
    split; [destruct d; [congruence | discriminate] |].
    split.
    + rewrite all_chars_app, Hall. cbn [all_chars]. rewrite Hdig. reflexivity.
    + intros a. rewrite digits_val_app, Hsum. cbn [Js.digits_val].
      rewrite Hval, length_append. cbn [String.length].
      rewrite Nat2Z.inj_add, Z.pow_add_r by lia.
      change (Z.of_nat 1) with 1. rewrite Z.pow_1_r.
      pose proof (Z.div_mod n 10 ltac:(lia)) as Hdm.
      rewrite Hdm at 3. ring.
Qed.

Lemma decimal_spec (n : Z) :
  0 <= n ->
  Js.decimal n <> "" /\ all_chars Js.is_digit (Js.decimal n) = true /\
  Js.digits_val 0 (Js.decimal n) = n.
Proof.
  intros Hn. unfold Js.decimal.
  destruct (Z.ltb_spec n 0); [lia |].
  destruct (decimal_aux_spec (Z.to_nat n + 1) n "" Hn) as (d & Hrun & Hne & Hall & Hsum);
    [lia |].
  rewrite Hrun, append_nil_r. repeat split; try assumption.
  rewrite Hsum. lia.
Qed.

Lemma zeros_digits (k : nat) (d : string) :
  all_chars Js.is_digit d = true ->
  all_chars Js.is_digit (Js.repeat_char "0" k +:+ d) = true /\
  Js.digits_val 0 (Js.repeat_char "0" k +:+ d) = Js.digits_val 0 d.
Proof.
  intros Hd. induction k as [|k [IHa IHv]]; [split; [exact Hd | reflexivity] |].
  cbn [Js.repeat_char]. rewrite append_cons. cbn [all_chars Js.digits_val].
  split; [rewrite IHa; reflexivity | exact IHv].
Qed.

Lemma takeWhile_all (p : ascii -> bool) (s : string) :
  all_chars p s = true -> Js.takeWhile p s = s.
Proof.
  induction s as [|c r IH]; [reflexivity |].
  cbn [all_chars Js.takeWhile]. intros H. apply andb_prop in H as [Hc Hr].
  rewrite Hc, (IH Hr). reflexivity.
Qed.

(** [parseInt] of a non-empty run of digits is its value. *)
Lemma parseInt_digits (s : string) :
  s <> "" -> all_chars Js.is_digit s = true ->
  Js.parseInt s = Some (Js.digits_val 0 s).
Proof.
  intros Hne Hall. destruct s as [|c r]; [congruence |].
  pose proof (takeWhile_all _ _ Hall) as Htake.
  cbn [all_chars] in Hall. apply andb_prop in Hall as [Hc Hr].
  unfold Js.parseInt.
  assert (Hstart : Js.trimStart (String c r) = String c r).
  { cbn [Js.trimStart].
    destruct c as [[] [] [] [] [] [] [] []]; try discriminate Hc; reflexivity. }
  rewrite Hstart.
  assert (Hsign : (match String c r with
                   | String "-" r0 => (true, r0)
                   | String "+" r0 => (false, r0)
                   | _ => (false, String c r)
                   end) = (false, String c r)).
  { destruct c as [[] [] [] [] [] [] [] []]; try discriminate Hc; reflexivity. }
  rewrite Hsign, Htake. reflexivity.
Qed.

Lemma padded_number (n : Z) :
  0 <= n ->
  Js.padStart0 3 (Js.decimal n) <> "" /\
  all_chars Js.is_digit (Js.padStart0 3 (Js.decimal n)) = true /\
  Js.parseInt (Js.padStart0 3 (Js.decimal n)) = Some n.
Proof.
  intros Hn. destruct (decimal_spec n Hn) as (Hne & Hall & Hval).
  unfold Js.padStart0.
  destruct (zeros_digits (3 - String.length (Js.decimal n)) (Js.decimal n) Hall)
    as [Hza Hzv].
  assert (Hnz : Js.repeat_char "0" (3 - String.length (Js.decimal n)) +:+ Js.decimal n
                <> "").
  { destruct (Js.repeat_char "0" (3 - String.length (Js.decimal n)));
      [rewrite append_nil_l; exact Hne | discriminate]. }
  repeat split; try assumption.
  rewrite parseInt_digits by assumption. rewrite Hzv, Hval. reflexivity.
Qed.

Lemma maxIssueIdOf_grows (start : Z) (todos : list TodoFile) :
  start <= maxIssueIdOf start todos.
Proof.
  unfold maxIssueIdOf. revert start. induction todos as [|t rest IH]; intros start.
  - simpl. lia.
  - cbn [fold_left].
    destruct (Js.parseInt (fm_issue_id (todo_frontmatter t))) as [num|].
    + destruct (Z.ltb_spec start num).
      * specialize (IH num). lia.
      * apply IH.
    + apply IH.
Qed.

Lemma maxIssueIdOf_bounds (start : Z) (todos : list TodoFile) (t : TodoFile) (k : Z) :
  In t todos -> Js.parseInt (fm_issue_id (todo_frontmatter t)) = Some k ->
  k <= maxIssueIdOf start todos.
Proof.
  revert start. induction todos as [|t0 rest IH]; intros start Hin Hk; [destruct Hin |].
  destruct Hin as [-> | Hin].
  - unfold maxIssueIdOf. cbn [fold_left]. rewrite Hk.
    destruct (Z.ltb_spec start k).
    + apply (maxIssueIdOf_grows k rest).
    + pose proof (maxIssueIdOf_grows start rest). unfold maxIssueIdOf in *. lia.
  - unfold maxIssueIdOf. cbn [fold_left].
    destruct (Js.parseInt (fm_issue_id (todo_frontmatter t0))) as [num|];
      [destruct (Z.ltb_spec start num) |]; apply (IH _ Hin Hk).
Qed.

End NumberFacts.

(** ** Loading the records of a directory *)

Section LoadFacts.

Import Mapping Engine Fs Spec.

(** The record a file at [path] is loaded as. *)
Lemma loadEach_In (paths : list string) (w : World) (todos : list TodoFile) :
  loadEach paths w = (Ok todos, w) ->
  forall todo, In todo todos <->
    exists f, In (todo_path todo) paths /\
              fs w !! todo_path todo = Some f /\
              is_todo (file_data f) = true /\
              todo_frontmatter todo = frontmatter_of (file_data f) /\
              todo_body todo = file_body f.
Proof.
  revert todos. induction paths as [|p rest IH]; intros todos Hrun todo.
  - injection Hrun as <-. split; [intros [] | intros (f & [] & _)].
  - cbn [loadEach] in Hrun. unfold se_bind at 1 in Hrun. unfold readText in Hrun.
    destruct (fs w !! p) as [f|] eqn:Hf; [| discriminate].
    unfold parseFrontmatter in Hrun. cbn iota beta in Hrun.
    unfold se_bind in Hrun.
    destruct (loadEach rest w) as [[loaded|e] w1] eqn:Hrest; [| discriminate].
    unfold se_ret in Hrun. injection Hrun as <- ->.
    specialize (IH loaded eq_refl todo).
    destruct (is_todo (file_data f)) eqn:Htodo.
    + split.
      * intros [<- | Hin].
        -- exists f. cbn. auto.
        -- apply IH in Hin as (g & Hp & Hg). exists g. split; [right |]; assumption.
      * intros (g & [Hp | Hp] & Hg & Hgt & Hfm & Hbody).
        -- left. destruct todo as [tp tf tb]. cbn in *. subst tp.
           rewrite Hf in Hg. injection Hg as <-. subst. reflexivity.
        -- right. apply IH. exists g. auto.
    + split.
      * intros Hin. apply IH in Hin as (g & Hp & Hg). exists g.
        split; [right |]; assumption.
      * intros (g & [Hp | Hp] & Hg & Hgt & Hfm & Hbody).
        -- subst p. rewrite Hf in Hg. injection Hg as <-. congruence.
        -- apply IH. exists g. auto.
Qed.

(** The records of a directory are the files below it whose name ends in
    [.md] and whose status, priority and issue_id are all truthy. *)
Lemma todosOf_In (todosDir : string) (w : World) (todo : TodoFile) :
  In todo (todosOf todosDir w) <->
  exists f, fs w !! todo_path todo = Some f /\
            under todosDir (todo_path todo) = true /\
            Js.endsWith (todo_path todo) ".md" = true /\
            is_todo (file_data f) = true /\
            todo_frontmatter todo = frontmatter_of (file_data f) /\
            todo_body todo = file_body f.
Proof.
  pose proof (loadTodoFiles_pure todosDir w) as Hload.
  unfold loadTodoFiles, se_bind, walkFiles, gets in Hload.
  rewrite (loadEach_In _ _ _ Hload todo).
  split.
  - intros (f & Hp & Hf & Hrest). exists f. split; [exact Hf |].
    apply List.filter_In in Hp as [Hp Hmd].
    apply list_elem_of_In, list_elem_of_filter in Hp as [Hunder _].
    apply Is_true_true in Hunder. auto.
  - intros (f & Hf & Hunder & Hmd & Hrest). exists f.
    split; [| split; [exact Hf | exact Hrest]].
    apply List.filter_In. split; [| exact Hmd].
    apply list_elem_of_In, list_elem_of_filter. split; [apply Is_true_true; exact Hunder |].
    apply list_elem_of_fmap. exists (todo_path todo, f). split; [reflexivity |].
    apply elem_of_map_to_list. exact Hf.
Qed.

Lemma loadEach_paths (paths : list string) (w : World) (todos : list TodoFile) :
  loadEach paths w = (Ok todos, w) -> sublist (map todo_path todos) paths.
Proof.
  revert todos. induction paths as [|p rest IH]; intros todos Hrun.
  - injection Hrun as <-. constructor.
  - cbn [loadEach] in Hrun. unfold se_bind at 1 in Hrun. unfold readText in Hrun.
    destruct (fs w !! p) as [f|] eqn:Hf; [| discriminate].
    unfold parseFrontmatter in Hrun. cbn iota beta in Hrun.
    unfold se_bind in Hrun.
    destruct (loadEach rest w) as [[loaded|e] w1] eqn:Hrest; [| discriminate].
    unfold se_ret in Hrun. injection Hrun as <- ->.
    specialize (IH loaded eq_refl).
    destruct (is_todo (file_data f)).
    + cbn [map todo_path]. apply sublist_skip. exact IH.
    + apply sublist_cons. exact IH.
Qed.

(** No two records of a directory share a path. *)
Lemma todosOf_NoDup (todosDir : string) (w : World) :
  NoDup (map todo_path (todosOf todosDir w)).
Proof.
  pose proof (loadTodoFiles_pure todosDir w) as Hload.
  unfold loadTodoFiles, se_bind, walkFiles, gets in Hload.
  apply loadEach_paths in Hload.
  refine (sublist_NoDup _ _ _ Hload).
  apply NoDup_ListNoDup, filter_NoDup, NoDup_ListNoDup.
  apply NoDup_filter, NoDup_fst_map_to_list.
Qed.

End LoadFacts.

(** ** Imported records *)

Section ImportFacts.

Import Mapping Engine Fs Spec Shape.

Lemma all_chars_impl (p q : ascii -> bool) (s : string) :
  (forall c, p c = true -> q c = true) -> all_chars p s = true -> all_chars q s = true.
Proof.
  intros Hpq. induction s as [|c r IH]; [reflexivity |].
  cbn [all_chars]. intros H. apply andb_prop in H as [Hc Hr].
  rewrite (Hpq c Hc), (IH Hr). reflexivity.
Qed.

Lemma lacks_all_chars (x : ascii) (s : string) :
  Path.lacks x s = all_chars (fun c => negb (Ascii.eqb c x)) s.
Proof. induction s as [|c r IH]; [reflexivity |]. cbn. rewrite IH. reflexivity. Qed.

Lemma digits_lack (x : ascii) (s : string) :
  Js.is_digit x = false -> all_chars Js.is_digit s = true -> Path.lacks x s = true.
Proof.
  intros Hx Hs. rewrite lacks_all_chars. revert Hs. apply all_chars_impl.
  intros c Hc. apply negb_true_iff, Ascii.eqb_neq. intros ->. congruence.
Qed.

Lemma slug_lacks (x : ascii) (s : string) :
  slug_or_dash x = false -> all_chars slug_or_dash s = true -> Path.lacks x s = true.
Proof.
  intros Hx Hs. rewrite lacks_all_chars. revert Hs. apply all_chars_impl.
  intros c Hc. apply negb_true_iff, Ascii.eqb_neq. intros ->. congruence.
Qed.

Lemma slugify_shape (title : string) :
  all_chars slug_or_dash (slugify title) = true /\
  single_dashes (slugify title) = true /\
  starts_with_dash (slugify title) = false /\
  (String.length (slugify title) <= 50)%nat.
Proof.
  unfold slugify.
  destruct (collapse_shape (Js.toLowerCase title) false) as (Ha & Hs & _).
  destruct (strip_shape _ Ha Hs) as (Ha' & Hs' & Hd').
  destruct (take_prefix 50 (strip_dashes (slug_collapse (Js.toLowerCase title) false)))
    as [rest Hrest].
  rewrite Hrest in Ha', Hs', Hd'.
  destruct (prefix_shape (Js.take 50 (strip_dashes
              (slug_collapse (Js.toLowerCase title) false))) rest) as (P1 & P2 & P3).
  repeat split; auto. apply take_length.
Qed.

Lemma status_token (name : string) (config : LinearConfig) :
  token (default "pending" (linearStateToFileStatus name config)) = true.
Proof.
  destruct (linearStateToFileStatus name config) as [s|] eqn:Hs; [| reflexivity].
  apply linearStateToFileStatus_member in Hs. unfold statuses in Hs. simpl in Hs.
  destruct Hs as [<- | [<- | [<- | [<- | [<- | []]]]]]; reflexivity.
Qed.

Lemma priority_token (n : Z) (config : LinearConfig) :
  token (linearPriorityToFile n config) = true.
Proof.
  unfold linearPriorityToFile. destruct (n <=? 1); [reflexivity |].
  destruct (n =? 2); reflexivity.
Qed.

Lemma number_token (n : Z) : 0 <= n -> token (Js.padStart0 3 (Js.decimal n)) = true.
Proof.
  intros Hn. destruct (padded_number n Hn) as (_ & Hall & _).
  unfold token.
  rewrite (digits_lack "-" _ eq_refl Hall), (digits_lack "/" _ eq_refl Hall).
  reflexivity.
Qed.

(** Renaming a path of the four-token shape. *)
Lemma rename_tokens (dir issueId status priority slug newStatus newPriority : string) :
  Path.clean dir = true ->
  token issueId = true -> token status = true -> token priority = true ->
  Path.lacks "/" slug = true ->
  Path.lacks "/" newStatus = true -> Path.lacks "/" newPriority = true ->
  renameTodoFile (todoName dir issueId status priority slug) newStatus newPriority
  = todoName dir issueId newStatus newPriority slug /\
  Path.dirname (todoName dir issueId status priority slug) = dir /\
  Path.join dir (issueId +:+ "-" +:+ status +:+ "-" +:+ priority +:+ "-"
                 +:+ slug +:+ ".md")
  = todoName dir issueId status priority slug.
Proof.
  intros Hclean Hid Hst Hpr Hslug Hns Hnp.
  apply token_lacks in Hid as [Hid1 Hid2].
  apply token_lacks in Hst as [Hst1 Hst2].
  apply token_lacks in Hpr as [Hpr1 Hpr2].
  set (base := issueId +:+ "-" +:+ status +:+ "-" +:+ priority +:+ "-" +:+ slug).
  assert (Hold : todoName dir issueId status priority slug
                 = dir +:+ String Path.slash (base +:+ ".md")).
  { unfold todoName, base. rewrite !append_assoc. reflexivity. }
  assert (Hbase : base <> "").
  { intros Heq. pose proof (name_is_long issueId status priority slug) as Hl.
    fold base in Hl. rewrite Heq in Hl. simpl in Hl. lia. }
  assert (Hbl : Path.lacks Path.slash base = true).
  { unfold base. rewrite <- (append_nil_r slug), <- !append_assoc.
    rewrite !append_assoc. apply name_lacks_slash; try assumption. reflexivity. }
  assert (Hdir : dir <> "") by (intros ->; discriminate).
  assert (Hroot : dir <> "/") by (intros ->; discriminate).
  assert (Hdirname : Path.dirname (dir +:+ String Path.slash (base +:+ ".md")) = dir).
  { apply dirname_of_file; try assumption.
    - destruct base; [congruence | discriminate].
    - rewrite lacks_app, Hbl. reflexivity. }
  assert (Hjoin : forall s p,
             Path.lacks "/" s = true -> Path.lacks "/" p = true ->
             Path.join dir (issueId +:+ "-" +:+ s +:+ "-" +:+ p +:+ "-" +:+ slug +:+ ".md")
             = todoName dir issueId s p slug).
  { intros s p Hs Hp. rewrite join_clean; [| exact Hclean | |].
    - unfold todoName. reflexivity.
    - apply long_is_plain.
      exact (name_is_long issueId s p (slug +:+ ".md")).
    - apply name_lacks_slash; try assumption. reflexivity. }
  split; [| split].
  - unfold renameTodoFile. rewrite Hold, Hdirname.
    rewrite basename_of_md by assumption.
    unfold base. rewrite split_hyphen_tokens by assumption.
    assert (Hlen : (length (issueId :: status :: priority :: Js.split "-" slug) <? 4)%nat
                   = false).
    { apply Nat.ltb_ge. pose proof (split_nonempty "-" slug) as Hne.
      destruct (Js.split "-" slug); [congruence | simpl; lia]. }
    rewrite Hlen. cbn [hd skipn].
    rewrite drop_0, join_split_hyphen.
    apply Hjoin; assumption.
  - rewrite Hold. exact Hdirname.
  - apply Hjoin; assumption.
Qed.

(** What [importOne] returns and writes. *)
Lemma importOne_fields (issue : LinearIssue) (config : LinearConfig)
    (todosDir : string) (maxId : Z) (by_ : string) (w : World) :
  exists todo,
    importOne issue config todosDir maxId by_ w
    = (Ok todo,
       set_fs (insert (todo_path todo)
                 {| file_data := data_of (todo_frontmatter todo);
                    file_body := todo_body todo;
                    file_mtime := landing w |}) w) /\
    todo_path todo = Path.join todosDir (importName issue config maxId) /\
    todo_body todo = importBody issue (JsDate.date_part (JsDate.toISOString (clock w))) by_ /\
    todo_frontmatter todo =
    {| fm_status := default "pending" (linearStateToFileStatus (issue_stateName issue) config);
       fm_priority := linearPriorityToFile (issue_priority issue) config;
       fm_issue_id := Js.padStart0 3 (Js.decimal maxId);
       fm_tags := map Js.toLowerCase (default [] (issue_labels issue));
       fm_dependencies := [];
       fm_linear_id := Some (issue_identifier issue);
       fm_linear_synced_at := Some (JsDate.toISOString (clock w)) |}.
Proof.
  unfold importOne. cbv zeta.
  unfold se_bind, now_iso, gets, writeText, formatFrontmatter, se_ret. cbn [fst snd].
  eexists (mkTodoFile _ _ _).
  split; [cbn [todo_path todo_frontmatter todo_body]; reflexivity |].
  cbn [todo_path todo_frontmatter todo_body].
  split; [reflexivity |].
  split; reflexivity.
Qed.

Lemma importSingleIssue_run (identifier : string) (config : LinearConfig)
    (todosDir : string) (w : World) :
  importSingleIssue identifier config todosDir w =
  match Api.find_issue identifier (remote w) with
  | None => (Err ("Linear issue " +:+ identifier +:+ " not found"), w)
  | Some issue =>
      importOne issue config todosDir (maxIssueIdOf 0 (todosOf todosDir w) + 1)
        "compound-plugin linear import" w
  end.
Proof.
  unfold importSingleIssue, se_bind at 1. unfold Api.getIssueByIdentifier.
  destruct (Api.find_issue identifier (remote w)) as [issue|]; [| reflexivity].
  unfold se_bind. rewrite loadTodoFiles_pure. reflexivity.
Qed.

Lemma importName_shape (issue : LinearIssue) (config : LinearConfig) (maxId : Z)
    (dir : string) :
  Path.clean dir = true -> 0 <= maxId ->
  Path.join dir (importName issue config maxId)
  = todoName dir (Js.padStart0 3 (Js.decimal maxId))
      (default "pending" (linearStateToFileStatus (issue_stateName issue) config))
      (linearPriorityToFile (issue_priority issue) config)
      (slugify (issue_title issue)).
Proof.
  intros Hclean Hmax.
  destruct (slugify_shape (issue_title issue)) as (Hslug & _).
  pose proof (status_token (issue_stateName issue) config) as Hst.
  pose proof (priority_token (issue_priority issue) config) as Hpr.
  destruct (rename_tokens dir _ _ _ (slugify (issue_title issue)) "" ""
              Hclean (number_token maxId Hmax) Hst Hpr) as (_ & _ & Hjoin);
    try reflexivity.
  { apply slug_lacks; [reflexivity | exact Hslug]. }
  exact Hjoin.
Qed.

Lemma append_nonempty_r (a : string) (c : ascii) (b : string) : a +:+ String c b <> "".
Proof. destruct a; discriminate. Qed.

Lemma toISOString_nonempty (t : Z) : JsDate.toISOString t <> "".
Proof.
  unfold JsDate.toISOString.
  destruct (JsDate.civil_from_days (t / 86400000)) as [[y m] d].
  apply append_nonempty_r.
Qed.

(** Reading back what [data_of] writes. *)
Lemma frontmatter_round_trip (fm : TodoFrontmatter) :
  fm_linear_id fm <> Some "" -> fm_linear_synced_at fm <> Some "" ->
  frontmatter_of (data_of fm) = fm.
Proof.
  intros Hid Hsync. destruct fm as [st pr id tags deps lid sync].
  cbn [fm_linear_id fm_linear_synced_at] in Hid, Hsync.
  unfold frontmatter_of, data_of. cbn [fm_status fm_priority fm_issue_id fm_tags
    fm_dependencies fm_linear_id fm_linear_synced_at].
  assert (Hopt : forall s : option string, s <> Some "" ->
            string_opt (VStr <$> s) = s).
  { intros [s|] Hs; [| reflexivity]. unfold string_opt. cbn.
    destruct (String.eqb_spec s ""); [congruence | reflexivity]. }
  destruct lid as [lid|], sync as [sync|];
    repeat (rewrite ?lookup_insert_eq; rewrite ?lookup_insert_ne by discriminate);
    rewrite ?lookup_singleton_eq, ?lookup_singleton_ne by discriminate;
    rewrite ?lookup_empty; cbn [fmap option_fmap option_map default strings_of];
    unfold string_opt; cbn [truthy];
    repeat match goal with
           | |- context [String.eqb ?s ""] =>
               destruct (String.eqb_spec s ""); [congruence |]
           end;
    reflexivity.
Qed.

End ImportFacts.

(** ** Properties of titles and slugs *)

Section TitleFacts.

Import Engine Shape.

Lemma dropWhile_all (p : ascii -> bool) (ws x : string) :
  all_chars p ws = true -> Js.dropWhile p (ws +:+ x) = Js.dropWhile p x.
Proof.
  induction ws as [|c r IH]; [reflexivity |].
  cbn [all_chars]. intros H. apply andb_prop in H as [Hc Hr].
  rewrite append_cons. cbn [Js.dropWhile]. rewrite Hc. apply IH. exact Hr.
Qed.

(** The heading pattern skips white space, line breaks included, up to the
    first line that is not blank. *)
Lemma title_after_hash_skip (ws : string) (c : ascii) (line u : string) :
  all_chars Js.is_space ws = true ->
  Js.is_space c = false -> one_line (String c line) = true ->
  (u = "" \/ exists c' r, u = String c' r /\ Js.is_newline c' = true) ->
  title_after_hash (String " " (ws +:+ String c line +:+ u)) = Some (String c line).
Proof.
  intros Hws Hc Hline Hu. unfold title_after_hash.
  assert (Hdrop : Js.dropWhile Js.is_space (String " " (ws +:+ String c line +:+ u))
                  = String c line +:+ u).
  { cbn [Js.dropWhile]. change (Js.is_space " ") with true. cbv iota.
    rewrite dropWhile_all by exact Hws.
    rewrite append_cons. cbn [Js.dropWhile]. rewrite Hc. reflexivity. }
  rewrite Hdrop.
  destruct (Js.takeWhile Js.is_space (String " " (ws +:+ String c line +:+ u)))
    as [|c0 run] eqn:Hrun.
  { exfalso. revert Hrun. apply takeWhile_space_head. reflexivity. }
  rewrite append_cons. cbv iota. f_equal. rewrite <- append_cons.
  destruct Hu as [-> | (c' & r' & -> & Hc')].
  - rewrite append_nil_r. apply takeWhile_whole_line. exact Hline.
  - apply takeWhile_line; assumption.
Qed.

Lemma trimEnd_head (c : ascii) (r : string) :
  Js.is_space c = false -> Js.trimEnd (String c r) <> "".
Proof.
  intros Hc. cbn [Js.trimEnd]. destruct (Js.trimEnd r); [rewrite Hc |]; discriminate.
Qed.

Lemma blank_is_space (t : string) : Js.trim t = "" -> all_chars Js.is_space t = true.
Proof.
  unfold Js.trim. intros Hblank.
  assert (Hstart : Js.trimStart t = "").
  { pose proof (trimStart_head t) as Hh.
    destruct (Js.trimStart t) as [|c r]; [reflexivity |].
    exfalso. exact (trimEnd_head c r Hh Hblank). }
  clear Hblank. induction t as [|c r IH]; [reflexivity |].
  cbn [Js.trimStart] in Hstart. cbn [all_chars].
  destruct (Js.is_space c); [apply IH; exact Hstart | discriminate].
Qed.

Lemma scan_heading (r t : string) :
  title_after_hash r = Some t -> extractTitle (String "#" r) = Js.trim t.
Proof.
  intros H. unfold extractTitle. cbn [title_scan].
  change (true && Ascii.eqb "#" "#") with true. cbv iota. rewrite H. reflexivity.
Qed.

Lemma trim_trimStart (t : string) : Js.trim (Js.trimStart t) = Js.trim t.
Proof. unfold Js.trim. rewrite trimStart_idem. reflexivity. Qed.

End TitleFacts.

Section TitleProperties.

Import Engine Shape Examples.

(** X1.  The title of a body that opens with a level-one heading is the
    heading's text, trimmed, whether or not anything follows the heading
    line; a body without any [#] has the title Untitled. *)
Theorem heading_is_the_title (t rest body : string) :
  (one_line t = true -> Js.trim t <> "" ->
   extractTitle ("# " +:+ t) = Js.trim t /\
   extractTitle ("# " +:+ t +:+ nl +:+ rest) = Js.trim t) /\
  (Path.lacks "#" body = true -> extractTitle body = "Untitled").
Proof.
  split.
  - intros Hline Htrim. split.
    + rewrite <- (append_nil_r t) at 1.
      change ("# " +:+ t +:+ "") with (String "#" (String " " (t +:+ ""))).
      rewrite (scan_heading _ (Js.trimStart t)); [apply trim_trimStart |].
      apply title_after_hash_line; auto.
    + change ("# " +:+ t +:+ nl +:+ rest)
        with (String "#" (String " " (t +:+ String "010" rest))).
      rewrite (scan_heading _ (Js.trimStart t)); [apply trim_trimStart |].
      apply title_after_hash_line; auto.
      right. exists "010"%char, rest. split; reflexivity.
  - intros Hlacks. unfold extractTitle.
    rewrite title_scan_none by exact Hlacks. reflexivity.
Qed.

(** The heading of the running example. *)
Lemma heading_of_fix_bug :
  extractTitle ("# " +:+ "  Fix bug " +:+ nl +:+ "More text") = "Fix bug" /\
  extractTitle "No heading here" = "Untitled".
Proof.
  destruct (heading_is_the_title "  Fix bug " "More text" "No heading here")
    as [Hhead Hnone].
  split.
  - apply Hhead; [reflexivity | discriminate].
  - apply Hnone. reflexivity.
Defined.

(** X2.  The body written for an imported issue gives back the issue's
    title, trimmed, when that title is one line and not blank; when the
    title is blank the next heading of the body is taken for the title. *)
Theorem imported_title_reads_back (issue : LinearIssue) (today by_ : string) :
  one_line (issue_title issue) = true ->
  (Js.trim (issue_title issue) <> "" ->
   extractTitle (importBody issue today by_) = Js.trim (issue_title issue)) /\
  (Js.trim (issue_title issue) = "" ->
   extractTitle (importBody issue today by_) = "## Problem Statement").
Proof.
  intros Hline. unfold importBody.
  set (tail := default "Imported from Linear." (issue_description issue) +:+ _).
  split.
  - intros Htrim.
    change ("# " +:+ issue_title issue +:+ nl +:+ nl +:+ "## Problem Statement"
            +:+ nl +:+ nl +:+ tail)
      with (String "#" (String " " (issue_title issue
              +:+ String "010" (nl +:+ "## Problem Statement" +:+ nl +:+ nl +:+ tail)))).
    rewrite (scan_heading _ (Js.trimStart (issue_title issue)));
      [apply trim_trimStart |].
    apply title_after_hash_line; auto.
    right. eexists _, _. split; reflexivity.
  - intros Hblank. apply blank_is_space in Hblank.
    assert (Hshape :
      "# " +:+ issue_title issue +:+ nl +:+ nl +:+ "## Problem Statement"
        +:+ nl +:+ nl +:+ tail
      = String "#" (String " " ((issue_title issue +:+ nl +:+ nl)
          +:+ String "#" "# Problem Statement" +:+ String "010" (nl +:+ tail)))).
    { rewrite !append_assoc. reflexivity. }
    rewrite Hshape.
    rewrite (scan_heading _ "## Problem Statement"); [reflexivity |].
    apply title_after_hash_skip; try reflexivity.
    + rewrite all_chars_app, Hblank. reflexivity.
    + right. eexists _, _. split; reflexivity.
Qed.

(** An issue titled Fix bug. *)
Lemma imported_title_examples :
  extractTitle (importBody (issue "1" ("s2", "Todo") 2 T0 []) "2026-03-02" "sync")
  = "Fix bug".
Proof.
  apply (imported_title_reads_back (issue "1" ("s2", "Todo") 2 T0 [])
           "2026-03-02" "sync"); [reflexivity | discriminate].
Defined.

(** X3.  A slug holds lower-case letters, digits and single hyphens only,
    does not start with a hyphen, is at most 50 characters long, and so has
    no slash and no dot. *)
Theorem slug_is_a_safe_name (title : string) :
  let slug := slugify title in
  all_chars slug_or_dash slug = true /\
  single_dashes slug = true /\
  starts_with_dash slug = false /\
  (String.length slug <= 50)%nat /\
  Path.lacks "/" slug = true /\ Path.lacks "." slug = true.
Proof.
  cbv zeta. destruct (slugify_shape title) as (Ha & Hs & Hd & Hl).
  repeat split; try assumption; apply slug_lacks; try reflexivity; exact Ha.
Qed.

End TitleProperties.

Section ImportResults.

Import Mapping Engine Fs Spec Shape.

Lemma startsWith_app (a b : string) : Js.startsWith (a +:+ b) a = true.
Proof.
  induction a as [|c r IH]; [reflexivity |].
  rewrite append_cons. cbn [Js.startsWith]. rewrite Ascii.eqb_refl. exact IH.
Qed.

Lemma under_todoName (dir issueId status priority slug : string) :
  under dir (todoName dir issueId status priority slug) = true /\
  Js.endsWith (todoName dir issueId status priority slug) ".md" = true.
Proof.
  unfold under, todoName. split.
  - rewrite <- append_assoc. apply startsWith_app.
  - rewrite <- !append_assoc. apply endsWith_md.
Qed.

Lemma is_todo_data_of (fm : TodoFrontmatter) :
  is_todo (data_of fm)
  = negb (String.eqb (fm_status fm) "") && negb (String.eqb (fm_priority fm) "")
    && negb (String.eqb (fm_issue_id fm) "").
Proof.
  destruct fm as [st pr id tags deps lid sync].
  unfold is_todo, data_of. cbn [fm_status fm_priority fm_issue_id fm_tags
    fm_dependencies fm_linear_id fm_linear_synced_at].
  destruct lid as [lid|], sync as [sync|];
    repeat (rewrite ?lookup_insert_eq; rewrite ?lookup_insert_ne by discriminate);
    rewrite ?lookup_singleton_eq, ?lookup_singleton_ne by discriminate;
    reflexivity.
Qed.

Lemma token_nonempty (s : string) :
  In s statuses \/ In s priorities -> String.eqb s "" = false.
Proof.
  unfold statuses, priorities. simpl.
  intros [H | H];
    repeat (destruct H as [<- | H]; [reflexivity |]); destruct H.
Qed.

Lemma status_nonempty (name : string) (config : LinearConfig) :
  String.eqb (default "pending" (linearStateToFileStatus name config)) "" = false.
Proof.
  destruct (linearStateToFileStatus name config) as [s|] eqn:Hs; [| reflexivity].
  apply token_nonempty. left. eapply linearStateToFileStatus_member. exact Hs.
Qed.

Lemma priority_nonempty (n : Z) (config : LinearConfig) :
  String.eqb (linearPriorityToFile n config) "" = false.
Proof.
  unfold linearPriorityToFile. destruct (n <=? 1); [reflexivity |].
  destruct (n =? 2); reflexivity.
Qed.

(** What a successful single import returns and leaves behind. *)
Lemma importSingleIssue_result (identifier : string) (config : LinearConfig)
    (todosDir : string) (w w' : World) (todo : TodoFile) :
  importSingleIssue identifier config todosDir w = (Ok todo, w') ->
  let maxId := maxIssueIdOf 0 (todosOf todosDir w) + 1 in
  exists issue,
    Api.find_issue identifier (remote w) = Some issue /\
    w' = set_fs (insert (todo_path todo)
                   {| file_data := data_of (todo_frontmatter todo);
                      file_body := todo_body todo;
                      file_mtime := landing w |}) w /\
    todo_path todo = Path.join todosDir (importName issue config maxId) /\
    todo_body todo
    = importBody issue (JsDate.date_part (JsDate.toISOString (clock w)))
        "compound-plugin linear import" /\
    todo_frontmatter todo =
    {| fm_status := default "pending" (linearStateToFileStatus (issue_stateName issue) config);
       fm_priority := linearPriorityToFile (issue_priority issue) config;
       fm_issue_id := Js.padStart0 3 (Js.decimal maxId);
       fm_tags := map Js.toLowerCase (default [] (issue_labels issue));
       fm_dependencies := [];
       fm_linear_id := Some identifier;
       fm_linear_synced_at := Some (JsDate.toISOString (clock w)) |}.
Proof.
  intros Hrun maxId. rewrite importSingleIssue_run in Hrun.
  destruct (Api.find_issue identifier (remote w)) as [issue|] eqn:Hfind;
    [| discriminate].
  destruct (importOne_fields issue config todosDir maxId
              "compound-plugin linear import" w)
    as (created & Hone & Hpath & Hbody & Hfm).
  fold maxId in Hrun. rewrite Hone in Hrun. injection Hrun as <- <-.
  exists issue. split; [reflexivity |]. split; [reflexivity |].
  split; [exact Hpath |]. split; [exact Hbody |].
  rewrite Hfm. apply find_issue_identifier in Hfind. rewrite Hfind. reflexivity.
Qed.

(** A record written by an import is a record of the directory. *)
Lemma imported_is_loaded (todosDir : string) (w : World) (todo : TodoFile)
    (issueId status priority slug : string) :
  todo_path todo = todoName todosDir issueId status priority slug ->
  String.eqb (fm_status (todo_frontmatter todo)) "" = false ->
  String.eqb (fm_priority (todo_frontmatter todo)) "" = false ->
  String.eqb (fm_issue_id (todo_frontmatter todo)) "" = false ->
  fm_linear_id (todo_frontmatter todo) <> Some "" ->
  fm_linear_synced_at (todo_frontmatter todo) <> Some "" ->
  In todo
     (todosOf todosDir
        (set_fs (insert (todo_path todo)
                   {| file_data := data_of (todo_frontmatter todo);
                      file_body := todo_body todo;
                      file_mtime := landing w |}) w)).
Proof.
  intros Hpath Hst Hpr Hid Hlid Hsync. apply todosOf_In.
  eexists. split; [cbn [fs set_fs]; apply lookup_insert_eq |].
  cbn [file_data file_body].
  destruct (under_todoName todosDir issueId status priority slug) as [Hunder Hmd].
  rewrite Hpath. split; [exact Hunder |]. split; [exact Hmd |].
  split; [rewrite is_todo_data_of, Hst, Hpr, Hid; reflexivity |].
  split; [| reflexivity].
  symmetry. apply frontmatter_round_trip; assumption.
Qed.

End ImportResults.

Section ImportProperties.

Import Mapping Engine Fs Spec Shape Examples Commands.

(** X4.  In a normalised directory, a single import writes its file
    directly into the directory under the four-token name made of the
    record's own issue id, status and priority and the slug of the title;
    renaming that file replaces the status and priority tokens only. *)
Theorem import_writes_a_renameable_file
    (identifier : string) (config : LinearConfig) (todosDir : string)
    (w w' : World) (todo : TodoFile) :
  Path.clean todosDir = true ->
  importSingleIssue identifier config todosDir w = (Ok todo, w') ->
  let fm := todo_frontmatter todo in
  exists issue,
    Api.find_issue identifier (remote w) = Some issue /\
    todo_path todo
    = todoName todosDir (fm_issue_id fm) (fm_status fm) (fm_priority fm)
        (slugify (issue_title issue)) /\
    Path.dirname (todo_path todo) = todosDir /\
    forall newStatus newPriority,
      Path.lacks "/" newStatus = true -> Path.lacks "/" newPriority = true ->
      renameTodoFile (todo_path todo) newStatus newPriority
      = todoName todosDir (fm_issue_id fm) newStatus newPriority
          (slugify (issue_title issue)).
Proof.
  intros Hclean Hrun fm.
  destruct (importSingleIssue_result _ _ _ _ _ _ Hrun)
    as (issue & Hfind & _ & Hpath & _ & Hfm).
  pose proof (maxIssueIdOf_grows 0 (todosOf todosDir w)) as Hmax.
  exists issue. split; [exact Hfind |].
  rewrite importName_shape in Hpath by (auto; lia).
  unfold fm. rewrite Hfm. cbn [fm_issue_id fm_status fm_priority].
  destruct (slugify_shape (issue_title issue)) as (Hslug & _).
  assert (Hsl : Path.lacks "/" (slugify (issue_title issue)) = true)
    by (apply slug_lacks; [reflexivity | exact Hslug]).
  split; [exact Hpath |]. rewrite Hpath.
  split.
  - eapply (rename_tokens todosDir _ _ _ _ "" ""); auto;
      [apply number_token; lia | apply status_token | apply priority_token].
  - intros newStatus newPriority Hs Hp.
    eapply rename_tokens; auto;
      [apply number_token; lia | apply status_token | apply priority_token].
Qed.

(** The second issue of the busy world, imported into [/w/todos]. *)
Lemma import_names_the_file :
  exists todo w',
    importSingleIssue "ENG-2" defaultConfig "/w/todos" busyWorld = (Ok todo, w') /\
    todo_path todo = "/w/todos/008-pending-p3-fix-bug.md" /\
    renameTodoFile (todo_path todo) "ready" "p1" = "/w/todos/008-ready-p1-fix-bug.md".
Proof.
  destruct (importSingleIssue "ENG-2" defaultConfig "/w/todos" busyWorld)
    as [[todo|e] w'] eqn:Hrun; [| vm_compute in Hrun; discriminate].
  exists todo, w'. split; [reflexivity |].
  destruct (import_writes_a_renameable_file "ENG-2" defaultConfig "/w/todos"
              busyWorld w' todo eq_refl Hrun) as (issue & Hfind & Hpath & _ & Hren).
  vm_compute in Hfind. injection Hfind as <-.
  assert (Hfm : todo_frontmatter todo
                = todo_frontmatter (default todo
                    (match fst (importSingleIssue "ENG-2" defaultConfig "/w/todos" busyWorld)
                     with Ok t => Some t | Err _ => None end))).
  { rewrite Hrun. reflexivity. }
  split.
  - rewrite Hpath, Hfm. vm_compute. reflexivity.
  - rewrite (Hren "ready" "p1" eq_refl eq_refl), Hfm. vm_compute. reflexivity.
Defined.

(** X5.  What a single import writes is read back unchanged: for a
    non-empty identifier and a normalised directory, the record the import
    returns is one of the records the next load of the directory returns,
    and the file it wrote holds that record's metadata and body. *)
Theorem import_is_read_back
    (identifier : string) (config : LinearConfig) (todosDir : string)
    (w w' : World) (todo : TodoFile) :
  Path.clean todosDir = true -> identifier <> "" ->
  importSingleIssue identifier config todosDir w = (Ok todo, w') ->
  In todo (todosOf todosDir w') /\
  fs w' !! todo_path todo
  = Some {| file_data := data_of (todo_frontmatter todo);
            file_body := todo_body todo;
            file_mtime := landing w |} /\
  frontmatter_of (data_of (todo_frontmatter todo)) = todo_frontmatter todo /\
  remote w' = remote w.
Proof.
  intros Hclean Hid Hrun.
  destruct (importSingleIssue_result _ _ _ _ _ _ Hrun)
    as (issue & Hfind & Hw & Hpath & _ & Hfm).
  pose proof (maxIssueIdOf_grows 0 (todosOf todosDir w)) as Hmax.
  rewrite importName_shape in Hpath by (auto; lia).
  assert (Hlid : fm_linear_id (todo_frontmatter todo) <> Some "")
    by (rewrite Hfm; cbn; congruence).
  assert (Hsync : fm_linear_synced_at (todo_frontmatter todo) <> Some "").
  { rewrite Hfm. cbn. intros Heq. injection Heq as Heq.
    exact (toISOString_nonempty _ Heq). }
  split; [| split; [| split]].
  - rewrite Hw. eapply imported_is_loaded; try eassumption.
    + rewrite Hfm. apply status_nonempty.
    + rewrite Hfm. apply priority_nonempty.
    + rewrite Hfm. cbn [fm_issue_id].
      destruct (padded_number (maxIssueIdOf 0 (todosOf todosDir w) + 1)) as (Hne & _);
        [lia |].
      apply String.eqb_neq. exact Hne.
  - rewrite Hw. cbn [fs set_fs]. apply lookup_insert_eq.
  - apply frontmatter_round_trip; assumption.
  - rewrite Hw. reflexivity.
Qed.

(** The import of the example is found by the next load. *)
Lemma import_is_read_back_example :
  exists todo w',
    importSingleIssue "ENG-2" defaultConfig "/w/todos" busyWorld = (Ok todo, w') /\
    In todo (todosOf "/w/todos" w').
Proof.
  destruct (importSingleIssue "ENG-2" defaultConfig "/w/todos" busyWorld)
    as [[todo|e] w'] eqn:Hrun; [| vm_compute in Hrun; discriminate].
  exists todo, w'. split; [reflexivity |].
  apply (import_is_read_back "ENG-2" defaultConfig "/w/todos" busyWorld w' todo);
    [reflexivity | discriminate | exact Hrun].
Defined.

(** X6.  While the largest number among the records of the directory is
    below [Js.MAX_SAFE_INTEGER] (the range in which the source's numbers
    are exact integers), the number a single import gives its record is
    one more than that largest number: it is read back by [parseInt] as
    that number, it is still in the exact range, and no record of the
    directory has it or a larger one. *)
Theorem import_number_is_fresh
    (identifier : string) (config : LinearConfig) (todosDir : string)
    (w w' : World) (todo : TodoFile) :
  maxIssueIdOf 0 (todosOf todosDir w) < Js.MAX_SAFE_INTEGER ->
  importSingleIssue identifier config todosDir w = (Ok todo, w') ->
  let number := maxIssueIdOf 0 (todosOf todosDir w) + 1 in
  Js.parseInt (fm_issue_id (todo_frontmatter todo)) = Some number /\
  1 <= number <= Js.MAX_SAFE_INTEGER /\
  forall old k,
    In old (todosOf todosDir w) ->
    Js.parseInt (fm_issue_id (todo_frontmatter old)) = Some k ->
    k < number.
Proof.
  intros Hsafe Hrun number.
  destruct (importSingleIssue_result _ _ _ _ _ _ Hrun)
    as (issue & _ & _ & _ & _ & Hfm).
  pose proof (maxIssueIdOf_grows 0 (todosOf todosDir w)) as Hmax.
  rewrite Hfm. cbn [fm_issue_id]. fold number.
  destruct (padded_number number) as (_ & _ & Hparse); [unfold number; lia |].
  split; [exact Hparse |]. split; [unfold number; lia |].
  intros old k Hin Hk.
  pose proof (maxIssueIdOf_bounds 0 _ old k Hin Hk). unfold number. lia.
Qed.

(** In the busy world the only record is number 7; the import is number 8. *)
Lemma import_number_example :
  exists todo w',
    importSingleIssue "ENG-2" defaultConfig "/w/todos" busyWorld = (Ok todo, w') /\
    Js.parseInt (fm_issue_id (todo_frontmatter todo)) = Some 8.
Proof.
  destruct (importSingleIssue "ENG-2" defaultConfig "/w/todos" busyWorld)
    as [[todo|e] w'] eqn:Hrun; [| vm_compute in Hrun; discriminate].
  exists todo, w'. split; [reflexivity |].
  destruct (import_number_is_fresh "ENG-2" defaultConfig "/w/todos" busyWorld w' todo)
    as (Hparse & _); [vm_compute; reflexivity | exact Hrun |].
  rewrite Hparse. vm_compute. reflexivity.
Defined.

End ImportProperties.

Section BatchImportFacts.

Import Mapping Engine Fs Spec Shape.

(** The numbering of a batch import that starts after [maxId]. *)
Lemma importEach_fields (issues : list LinearIssue) (config : LinearConfig)
    (todosDir : string) (maxId : Z) (w : World) :
  exists created w',
    importEach issues config todosDir maxId w = (Ok created, w') /\
    remote w' = remote w /\ clock w' = clock w /\
    map (fun t => fm_linear_id (todo_frontmatter t)) created
    = map (fun i => Some (issue_identifier i)) issues /\
    map (fun t => fm_issue_id (todo_frontmatter t)) created
    = map (fun k => Js.padStart0 3 (Js.decimal (maxId + Z.of_nat k)))
          (seq 1 (length issues)).
Proof.
  revert maxId w. induction issues as [|issue rest IH]; intros maxId w.
  - exists [], w. repeat split; reflexivity.
  - destruct (importOne_fields issue config todosDir (maxId + 1)
                "compound-plugin linear sync" w)
      as (todo & Hone & _ & _ & Hfm).
    destruct (IH (maxId + 1)
                (set_fs (insert (todo_path todo)
                           {| file_data := data_of (todo_frontmatter todo);
                              file_body := todo_body todo;
                              file_mtime := landing w |}) w))
      as (created & w' & Hrest & Hremote & Hclock & Hids & Hnums).
    exists (todo :: created), w'.
    split.
    { cbn [importEach]. unfold se_bind at 1. rewrite Hone.
      unfold se_bind at 1. rewrite Hrest. reflexivity. }
    split; [rewrite Hremote; reflexivity |].
    split; [rewrite Hclock; reflexivity |].
    split.
    { cbn [map]. rewrite Hids, Hfm. reflexivity. }
    cbn [map length seq]. rewrite Hnums, Hfm. cbn [fm_issue_id].
    rewrite <- (seq_shift (length rest) 1), map_map.
    apply (f_equal2 cons); [do 2 f_equal; lia |].
    apply map_ext. intros k. do 2 f_equal. lia.
Qed.

Lemma pullNewIssues_run (config : LinearConfig) (todosDir : string)
    (ids : gset string) (maxId : option Z) (w : World) :
  pullNewIssues config todosDir ids maxId w =
  let new := List.filter (fun i => negb (bool_decide (issue_identifier i ∈ ids)))
                         (firstn 100 (remote_issues (remote w))) in
  match new with
  | [] => (Ok [], w)
  | _ =>
      importEach new config todosDir
        (if default 0 maxId =? 0 then maxIssueIdOf 0 (todosOf todosDir w)
         else default 0 maxId) w
  end.
Proof.
  unfold pullNewIssues, se_bind at 1. unfold Api.listIssues, gets. cbv zeta.
  set (new := List.filter _ _).
  destruct new as [|i rest]; [reflexivity |].
  cbn [length Nat.eqb].
  unfold se_bind at 1.
  destruct (Z.eqb_spec (default 0 maxId) 0) as [H0 | Hn].
  - unfold se_bind at 1. rewrite loadTodoFiles_pure. unfold se_ret.
    rewrite H0. reflexivity.
  - reflexivity.
Qed.

Lemma createIssue_remote (input : Api.CreateInput) (w w1 : World) (issue : LinearIssue) :
  Api.createIssue input w = (Ok issue, w1) ->
  remote_issues (remote w1) = remote_issues (remote w) ++ [issue].
Proof.
  unfold Api.createIssue.
  destruct (Api.resolve_state _ _ (remote w)) as [st|]; [| discriminate].
  intros H. injection H as <- <-. reflexivity.
Qed.

Lemma update_remote (path : string) (updates : gmap string Value)
    (w w' : World) (r : Res unit) :
  updateTodoFrontmatter path updates w = (r, w') -> remote w' = remote w.
Proof.
  rewrite updateTodoFrontmatter_run.
  destruct (fs w !! path); intros H; injection H as <- <-; reflexivity.
Qed.

Lemma pushCreate_remote (todo : TodoFile) (config : LinearConfig)
    (states : list LinearState) (parent : option string) (skip : bool)
    (w w1 : World) (identifier : string) :
  pushCreate todo config states parent skip w = (Ok identifier, w1) ->
  exists issue,
    issue_identifier issue = identifier /\
    remote_issues (remote w1) = remote_issues (remote w) ++ [issue].
Proof.
  unfold pushCreate. cbv zeta. unfold se_bind at 1.
  destruct (Api.createIssue _ w) as [[issue|e] w0] eqn:Hcreate; [| discriminate].
  apply createIssue_remote in Hcreate.
  unfold se_bind at 1.
  destruct skip.
  - unfold se_ret. intros H. injection H as <- <-.
    exists issue. split; [reflexivity | exact Hcreate].
  - unfold se_bind at 1. unfold now_iso, gets.
    destruct (updateTodoFrontmatter (todo_path todo)
                (<["linear_id" := VStr (issue_identifier issue)]>
                   {["linear_synced_at" := VStr (JsDate.toISOString (clock w0))]}) w0)
      as [[[]|e] w2] eqn:Hup; [| discriminate].
    unfold se_ret. intros H. injection H as <- <-.
    exists issue. split; [reflexivity |].
    apply update_remote in Hup. rewrite Hup. exact Hcreate.
Qed.

Lemma firstn_last_in {A} (l : list A) (x : A) (n : nat) :
  (length l < n)%nat -> In x (firstn n (l ++ [x])).
Proof.
  intros H. rewrite firstn_all2 by (rewrite length_app; simpl; lia).
  apply in_or_app. right. left. reflexivity.
Qed.

Lemma import_reloaded (identifier : string) (config : LinearConfig)
    (todosDir : string) (w w' : World) (todo : TodoFile) :
  Path.clean todosDir = true -> identifier <> "" ->
  importSingleIssue identifier config todosDir w = (Ok todo, w') ->
  In todo (todosOf todosDir w') /\
  fm_linear_id (todo_frontmatter todo) = Some identifier /\
  fs w' = <[todo_path todo :=
              {| file_data := data_of (todo_frontmatter todo);
                 file_body := todo_body todo;
                 file_mtime := landing w |}]> (fs w).
Proof.
  intros Hclean Hid Hrun.
  destruct (importSingleIssue_result _ _ _ _ _ _ Hrun)
    as (issue & Hfind & Hw & Hpath & _ & Hfm).
  pose proof (maxIssueIdOf_grows 0 (todosOf todosDir w)) as Hmax.
  rewrite importName_shape in Hpath by (auto; lia).
  assert (Hlid : fm_linear_id (todo_frontmatter todo) <> Some "")
    by (rewrite Hfm; cbn; congruence).
  assert (Hsync : fm_linear_synced_at (todo_frontmatter todo) <> Some "").
  { rewrite Hfm. cbn. intros Heq. injection Heq as Heq.
    exact (toISOString_nonempty _ Heq). }
  split; [| split; [rewrite Hfm; reflexivity | rewrite Hw; reflexivity]].
  rewrite Hw. eapply imported_is_loaded; try eassumption.
  - rewrite Hfm. apply status_nonempty.
  - rewrite Hfm. apply priority_nonempty.
  - rewrite Hfm. cbn [fm_issue_id].
    destruct (padded_number (maxIssueIdOf 0 (todosOf todosDir w) + 1)) as (Hne & _);
      [lia |].
    apply String.eqb_neq. exact Hne.
Qed.

Lemma new_issue_batch (config : LinearConfig) (todosDir : string)
    (ids : gset string) (maxId : option Z) (w : World) :
  exists created w',
    pullNewIssues config todosDir ids maxId w = (Ok created, w') /\
    map (fun t => fm_linear_id (todo_frontmatter t)) created
    = map (fun i => Some (issue_identifier i))
          (List.filter (fun i => negb (bool_decide (issue_identifier i ∈ ids)))
                       (firstn 100 (remote_issues (remote w)))).
Proof.
  rewrite pullNewIssues_run. cbv zeta.
  destruct (List.filter _ _) as [|i rest] eqn:Hn.
  - exists [], w. split; reflexivity.
  - destruct (importEach_fields (i :: rest) config todosDir
                (if default 0 maxId =? 0 then maxIssueIdOf 0 (todosOf todosDir w)
                 else default 0 maxId) w)
      as (created & w' & Hrun & _ & _ & Hids & _).
    exists created, w'. split; assumption.
Qed.

Lemma find_first {A} (P : A -> bool) (l : list A) (x : A) :
  In x l -> P x = true -> exists y, find P l = Some y.
Proof.
  intros Hin HP. destruct (find P l) as [y|] eqn:Hfind; [eexists; reflexivity |].
  pose proof (find_none P l Hfind x Hin). congruence.
Qed.

(** The number token of a path of the four-token shape is read back from
    the path. *)
Lemma todoName_number (dir issueId status priority slug : string) :
  token issueId = true -> token status = true -> token priority = true ->
  Path.lacks "/" slug = true ->
  hd "" (Js.split "-" (Path.basename_ext (todoName dir issueId status priority slug) ".md"))
  = issueId.
Proof.
  intros Hid Hst Hpr Hslug.
  apply token_lacks in Hid as [Hid1 Hid2].
  apply token_lacks in Hst as [Hst1 Hst2].
  apply token_lacks in Hpr as [Hpr1 Hpr2].
  set (base := issueId +:+ "-" +:+ status +:+ "-" +:+ priority +:+ "-" +:+ slug).
  assert (Hold : todoName dir issueId status priority slug
                 = dir +:+ String Path.slash (base +:+ ".md")).
  { unfold todoName, base. rewrite !append_assoc. reflexivity. }
  assert (Hbase : base <> "").
  { intros Heq. pose proof (name_is_long issueId status priority slug) as Hl.
    fold base in Hl. rewrite Heq in Hl. simpl in Hl. lia. }
  assert (Hbl : Path.lacks Path.slash base = true).
  { unfold base. rewrite <- (append_nil_r slug), <- !append_assoc.
    rewrite !append_assoc. apply name_lacks_slash; try assumption. reflexivity. }
  rewrite Hold, basename_of_md by assumption.
  unfold base. rewrite split_hyphen_tokens by assumption. reflexivity.
Qed.

Lemma fold_insert_other {A} (key : A -> string) (val : A -> File) (l : list A)
    (files : gmap string File) (k : string) :
  ~ In k (map key l) ->
  fold_left (fun m x => <[key x := val x]> m) l files !! k = files !! k.
Proof.
  revert files. induction l as [|x r IH]; intros files Hk; [reflexivity |].
  cbn [fold_left]. rewrite IH by (intros Hin; apply Hk; right; exact Hin).
  apply lookup_insert_ne. intros Heq. apply Hk. left. exact Heq.
Qed.

(** Files written one after the other under distinct names are all there. *)
Lemma fold_insert_lookup {A} (key : A -> string) (val : A -> File) (l : list A)
    (files : gmap string File) (t : A) :
  List.NoDup (map key l) -> In t l ->
  fold_left (fun m x => <[key x := val x]> m) l files !! key t = Some (val t).
Proof.
  revert files. induction l as [|x r IH]; intros files Hnd Hin; [destruct Hin |].
  cbn [map] in Hnd. apply NoDup_cons_iff in Hnd as [Hx Hnd].
  cbn [fold_left]. destruct Hin as [<- | Hin].
  - rewrite fold_insert_other by exact Hx. apply lookup_insert_eq.
  - apply IH; assumption.
Qed.

Lemma padded_numbers_NoDup (base : Z) (first n : nat) :
  0 <= base ->
  List.NoDup (map (fun k => Js.padStart0 3 (Js.decimal (base + Z.of_nat k)))
                  (seq first n)).
Proof.
  intros Hbase.
  apply (NoDup_map_inv Js.parseInt). rewrite map_map.
  rewrite (map_ext_in _ (fun k => Some (base + Z.of_nat k))).
  - apply Finite.Injective_map_NoDup; [| apply List.seq_NoDup].
    intros a b Hab. injection Hab as Hab. lia.
  - intros k _. destruct (padded_number (base + Z.of_nat k)) as (_ & _ & Hp); [lia |].
    exact Hp.
Qed.

(** What a batch import that starts after [maxId] writes. *)
Lemma importEach_files (issues : list LinearIssue) (config : LinearConfig)
    (todosDir : string) (maxId : Z) (w : World) :
  Path.clean todosDir = true -> 0 <= maxId ->
  exists created w',
    importEach issues config todosDir maxId w = (Ok created, w') /\
    landing w' = landing w /\
    fs w' = fold_left (fun files t =>
                         <[todo_path t :=
                             {| file_data := data_of (todo_frontmatter t);
                                file_body := todo_body t;
                                file_mtime := landing w |}]> files)
                      created (fs w) /\
    map (fun t => hd "" (Js.split "-" (Path.basename_ext (todo_path t) ".md"))) created
    = map (fun t => fm_issue_id (todo_frontmatter t)) created /\
    map (fun t => Path.dirname (todo_path t)) created = map (fun _ => todosDir) issues.
Proof.
  intros Hclean. revert maxId w. induction issues as [|issue rest IH]; intros maxId w Hmax.
  - exists [], w. repeat split; reflexivity.
  - destruct (importOne_fields issue config todosDir (maxId + 1)
                "compound-plugin linear sync" w)
      as (todo & Hone & Hpath & _ & Hfm).
    rewrite importName_shape in Hpath by (auto; lia).
    destruct (IH (maxId + 1)
                (set_fs (insert (todo_path todo)
                           {| file_data := data_of (todo_frontmatter todo);
                              file_body := todo_body todo;
                              file_mtime := landing w |}) w))
      as (created & w' & Hrest & Hland & Hfs & Hnum & Hdir); [lia |].
    exists (todo :: created), w'.
    split.
    { cbn [importEach]. unfold se_bind at 1. rewrite Hone.
      unfold se_bind at 1. rewrite Hrest. reflexivity. }
    split; [rewrite Hland; reflexivity |].
    split; [rewrite Hfs; reflexivity |].
    destruct (slugify_shape (issue_title issue)) as (Hslug & _).
    assert (Hsl : Path.lacks "/" (slugify (issue_title issue)) = true)
      by (apply slug_lacks; [reflexivity | exact Hslug]).
    split.
    + cbn [map]. rewrite Hnum. f_equal.
      rewrite Hpath, Hfm. cbn [fm_issue_id].
      apply todoName_number;
        [apply number_token; lia | apply status_token | apply priority_token | exact Hsl].
    + cbn [map]. rewrite Hdir. f_equal. rewrite Hpath.
      eapply (rename_tokens todosDir _ _ _ _ "" ""); auto;
        [apply number_token; lia | apply status_token | apply priority_token].
Qed.

Lemma canonical_nonempty (identifier : string) :
  Api.canonical identifier = true -> identifier <> "".
Proof. intros H ->. vm_compute in H. discriminate. Qed.

End BatchImportFacts.

Section BatchImportProperties.

Import Mapping Engine Fs Spec Shape Examples Commands.

(** X7.  For an identifier in the canonical form the issues carry (a team
    key, a hyphen and the decimal number without leading zeros, as
    [Api.canonical] decides) and a normalised directory, the import command
    does nothing the second time: after it has imported the issue, running
    it again for the same identifier finds the file it wrote and leaves the
    world as it is. *)
Theorem import_command_is_idempotent
    (identifier todosDir : string) (config : LinearConfig)
    (w w' : World) (path : string) :
  Path.clean todosDir = true -> Api.canonical identifier = true ->
  importCommand identifier todosDir config w = (Ok (ImportedTo path), w') ->
  importCommand identifier todosDir config w' = (Ok (AlreadyExists path), w').
Proof.
  intros Hclean Hcanon. pose proof (canonical_nonempty _ Hcanon) as Hid.
  unfold importCommand, se_bind at 1.
  rewrite loadTodoFiles_pure.
  destruct (find _ (todosOf todosDir w)) as [old|] eqn:Hnone; [discriminate |].
  unfold se_bind at 1.
  destruct (importSingleIssue identifier config todosDir w) as [[todo|e] w1] eqn:Hrun;
    [| discriminate].
  unfold se_ret. intros H. injection H as <- <-.
  destruct (import_reloaded _ _ _ _ _ _ Hclean Hid Hrun) as (Hin & Hlid & Hfs).
  unfold se_bind at 1. rewrite loadTodoFiles_pure.
  destruct (find_first
              (fun t => bool_decide (fm_linear_id (todo_frontmatter t) = Some identifier))
              _ todo Hin) as [existing Hfound].
  { apply bool_decide_eq_true. exact Hlid. }
  rewrite Hfound. unfold se_ret.
  apply find_some in Hfound as [Hex Hmatch].
  destruct (decide (todo_path existing = todo_path todo)) as [Heq | Hne];
    [rewrite Heq; reflexivity | exfalso].
  apply todosOf_In in Hex as (f & Hf & Hrest).
  rewrite Hfs, lookup_insert_ne in Hf by congruence.
  assert (Hold : In existing (todosOf todosDir w)).
  { apply todosOf_In. exists f. split; assumption. }
  pose proof (find_none _ _ Hnone existing Hold) as Hno. cbv beta in Hno.
  congruence.
Qed.

(** Importing the second issue of the busy world twice. *)
Lemma import_command_twice :
  exists w',
    importCommand "ENG-2" "/w/todos" defaultConfig busyWorld
    = (Ok (ImportedTo "/w/todos/008-pending-p3-fix-bug.md"), w') /\
    importCommand "ENG-2" "/w/todos" defaultConfig w'
    = (Ok (AlreadyExists "/w/todos/008-pending-p3-fix-bug.md"), w').
Proof.
  exists (snd (importCommand "ENG-2" "/w/todos" defaultConfig busyWorld)).
  assert (Hfirst : importCommand "ENG-2" "/w/todos" defaultConfig busyWorld
                   = (Ok (ImportedTo "/w/todos/008-pending-p3-fix-bug.md"),
                      snd (importCommand "ENG-2" "/w/todos" defaultConfig busyWorld))).
  { vm_compute. reflexivity. }
  split; [exact Hfirst |].
  apply (import_command_is_idempotent "ENG-2" "/w/todos" defaultConfig busyWorld);
    [reflexivity | reflexivity | exact Hfirst].
Defined.

(** X8.  Into a normalised directory, and while the numbers stay between
    zero and [Js.MAX_SAFE_INTEGER], a batch import writes one file for each
    of the first hundred listed issues whose identifier is not among the
    known ones: the records are created in listing order and numbered
    consecutively after the largest number given or found, each is written
    directly into the directory under a name of its own that starts with
    its number, and afterwards each file holds its record's metadata and
    body; the files are written one after the other and nothing else
    changes, nothing remote changes, and nothing at all changes when no
    issue is new. *)
Theorem new_issues_are_imported_once
    (config : LinearConfig) (todosDir : string) (ids : gset string)
    (maxId : option Z) (w : World) :
  let new := List.filter (fun i => negb (bool_decide (issue_identifier i ∈ ids)))
                         (firstn 100 (remote_issues (remote w))) in
  let base := if default 0 maxId =? 0 then maxIssueIdOf 0 (todosOf todosDir w)
              else default 0 maxId in
  let written (t : TodoFile) :=
    {| file_data := data_of (todo_frontmatter t);
       file_body := todo_body t;
       file_mtime := landing w |} in
  Path.clean todosDir = true ->
  0 <= base -> base + Z.of_nat (length new) <= Js.MAX_SAFE_INTEGER ->
  exists created w',
    pullNewIssues config todosDir ids maxId w = (Ok created, w') /\
    remote w' = remote w /\
    map (fun t => fm_linear_id (todo_frontmatter t)) created
    = map (fun i => Some (issue_identifier i)) new /\
    map (fun t => fm_issue_id (todo_frontmatter t)) created
    = map (fun k => Js.padStart0 3 (Js.decimal (base + Z.of_nat k)))
          (seq 1 (length new)) /\
    (forall t, In t created -> fm_linear_id (todo_frontmatter t) <> None /\
       forall lid, fm_linear_id (todo_frontmatter t) = Some lid -> lid ∉ ids) /\
    fs w' = fold_left (fun files t => <[todo_path t := written t]> files) created (fs w) /\
    List.NoDup (map todo_path created) /\
    (forall t, In t created ->
       fs w' !! todo_path t = Some (written t) /\
       Path.dirname (todo_path t) = todosDir /\
       hd "" (Js.split "-" (Path.basename_ext (todo_path t) ".md"))
       = fm_issue_id (todo_frontmatter t)) /\
    (new = [] -> w' = w).
Proof.
  intros new base written Hclean Hbase Hsafe.
  rewrite pullNewIssues_run. cbv zeta. fold new. fold base.
  assert (Hnew : forall t created,
            map (fun t => fm_linear_id (todo_frontmatter t)) created
            = map (fun i => Some (issue_identifier i)) new ->
            In t created ->
            fm_linear_id (todo_frontmatter t) <> None /\
            forall lid, fm_linear_id (todo_frontmatter t) = Some lid -> lid ∉ ids).
  { intros t created Hmap Hin.
    apply (in_map (fun t => fm_linear_id (todo_frontmatter t))) in Hin.
    rewrite Hmap in Hin. apply in_map_iff in Hin as (i & Hi & Hin).
    rewrite <- Hi. split; [discriminate |].
    intros lid Hlid. injection Hlid as <-.
    apply List.filter_In in Hin as [_ Hout].
    apply negb_true_iff, bool_decide_eq_false in Hout. exact Hout. }
  clear Hsafe.
  destruct new as [|i rest] eqn:Hn.
  - exists [], w. repeat split; try reflexivity; try (destruct H); constructor.
  - destruct (importEach_fields (i :: rest) config todosDir base w)
      as (created & w' & Hrun & Hremote & _ & Hids & Hnums).
    destruct (importEach_files (i :: rest) config todosDir base w Hclean Hbase)
      as (created' & w'' & Hrun' & _ & Hfs & Hnum & Hdir).
    rewrite Hrun in Hrun'. injection Hrun' as <- <-.
    assert (Hnd : List.NoDup (map todo_path created)).
    { apply (NoDup_map_inv
               (fun p => hd "" (Js.split "-" (Path.basename_ext p ".md")))).
      rewrite map_map, Hnum, Hnums. apply padded_numbers_NoDup. exact Hbase. }
    exists created, w'. split; [exact Hrun |]. split; [exact Hremote |].
    split; [exact Hids |]. split; [exact Hnums |].
    split; [intros t Ht; eapply Hnew; eassumption |].
    split; [exact Hfs |]. split; [exact Hnd |].
    split; [| discriminate].
    intros t Ht. split; [| split].
    + rewrite Hfs.
      apply (fold_insert_lookup todo_path written created (fs w) t Hnd Ht).
    + assert (Hall : Forall (fun d => d = todosDir)
                        (map (fun t => Path.dirname (todo_path t)) created)).
      { rewrite Hdir. apply List.Forall_forall. intros d Hd.
        apply in_map_iff in Hd as (_ & <- & _). reflexivity. }
      rewrite List.Forall_forall in Hall. apply Hall.
      apply in_map_iff. exists t. split; [reflexivity | exact Ht].
    + assert (Hall : Forall (fun t => hd "" (Js.split "-"
                                   (Path.basename_ext (todo_path t) ".md"))
                                 = fm_issue_id (todo_frontmatter t)) created).
      { clear -Hnum. induction created as [|c r IH]; [constructor |].
        cbn [map] in Hnum. injection Hnum as Hc Hr.
        constructor; [exact Hc | exact (IH Hr)]. }
      rewrite List.Forall_forall in Hall. apply Hall. exact Ht.
Qed.

(** The busy world knows no identifier at the start: both of its issues are
    imported, as numbers 8 and 9 after the record 7 of the directory. *)
Lemma new_issues_example :
  exists created w',
    pullNewIssues defaultConfig "/w/todos" ∅ None busyWorld = (Ok created, w') /\
    map todo_path created
    = ["/w/todos/008-ready-p2-fix-bug.md"; "/w/todos/009-pending-p3-fix-bug.md"] /\
    forall t, In t created ->
      fs w' !! todo_path t
      = Some {| file_data := data_of (todo_frontmatter t);
                file_body := todo_body t;
                file_mtime := landing busyWorld |}.
Proof.
  destruct (new_issues_are_imported_once defaultConfig "/w/todos" ∅ None busyWorld)
    as (created & w' & Hrun & _ & _ & _ & _ & _ & _ & Hfiles & _);
    [reflexivity | vm_compute; discriminate | vm_compute; discriminate |].
  exists created, w'. split; [exact Hrun |].
  split; [| intros t Ht; exact (proj1 (Hfiles t Ht))].
  assert (Hc : created
               = default [] (match fst (pullNewIssues defaultConfig "/w/todos" ∅ None
                                          busyWorld)
                             with Ok l => Some l | Err _ => None end)).
  { rewrite Hrun. reflexivity. }
  rewrite Hc. vm_compute. reflexivity.
Defined.

(** X9.  A live pass imports back the issue it has just created: pushing
    an unlinked record creates a remote issue whose identifier is not added
    to the identifiers seen, so the import that ends the pass, which lists
    that issue, writes a second record linked to it. *)
Theorem created_issue_is_imported_back
    (config : LinearConfig) (states : list LinearState) (todosDir : string)
    (maxId : option Z) (todo : TodoFile) (st : St) (identifier : string) (w1 : World) :
  Store.set (fm_linear_id (todo_frontmatter todo)) = false ->
  pushCreate todo config states None false (st_world st) = (Ok identifier, w1) ->
  identifier ∉ st_ids st ->
  (length (remote_issues (remote (st_world st))) < 100)%nat ->
  let st1 := after config states false todo st in
  st_world st1 = w1 /\
  st_ids st1 = st_ids st /\
  pushed_created (st_result st1) = pushed_created (st_result st) + 1 /\
  exists created w2 copy,
    pullNewIssues config todosDir (st_ids st1) maxId w1 = (Ok created, w2) /\
    In copy created /\
    fm_linear_id (todo_frontmatter copy) = Some identifier.
Proof.
  intros Hunlinked Hpush Hfresh Hfew st1.
  assert (Hstep : st1 = with_result add_pushed_created (with_world w1 st)).
  { unfold st1, after. rewrite step_live. cbv zeta. cbn [snd].
    unfold classify, seen. rewrite Hunlinked, Hpush. reflexivity. }
  rewrite Hstep. cbn [st_world st_ids st_result with_result with_world
                      add_pushed_created pushed_created].
  split; [reflexivity |]. split; [reflexivity |]. split; [reflexivity |].
  destruct (pushCreate_remote _ _ _ _ _ _ _ _ Hpush) as (issue & Hident & Hissues).
  destruct (new_issue_batch config todosDir (st_ids st) maxId w1)
    as (created & w2 & Hrun & Hids).
  exists created, w2.
  assert (Hin : In (Some identifier)
                   (map (fun t => fm_linear_id (todo_frontmatter t)) created)).
  { rewrite Hids. apply in_map_iff. exists issue. split; [rewrite Hident; reflexivity |].
    apply List.filter_In. split.
    - rewrite Hissues. apply firstn_last_in. exact Hfew.
    - apply negb_true_iff, bool_decide_eq_false. rewrite Hident. exact Hfresh. }
  apply in_map_iff in Hin as (copy & Hcopy & Hin).
  exists copy. split; [exact Hrun |]. split; assumption.
Qed.

(** A record that was never pushed: the pass creates ENG-100 for it and then
    imports ENG-100 as a second record. *)
Lemma fresh_record_is_doubled :
  exists created w2 copy,
    pullNewIssues defaultConfig "/w/todos"
      (st_ids (after defaultConfig teamStates false
                 (todoOf MoreExamples.freshPath MoreExamples.freshFile)
                 (initial MoreExamples.freshWorld)))
      (Some 1)
      (snd (pushCreate (todoOf MoreExamples.freshPath MoreExamples.freshFile)
              defaultConfig teamStates None false MoreExamples.freshWorld))
    = (Ok created, w2) /\
    In copy created /\
    fm_linear_id (todo_frontmatter copy) = Some "ENG-100".
Proof.
  apply (created_issue_is_imported_back defaultConfig teamStates "/w/todos" (Some 1)
           (todoOf MoreExamples.freshPath MoreExamples.freshFile)
           (initial MoreExamples.freshWorld) "ENG-100").
  - reflexivity.
  - vm_compute. reflexivity.
  - apply not_elem_of_empty.
  - simpl. lia.
Defined.

(** The whole pass over that world reports one issue created and one record
    imported. *)
Lemma fresh_world_pass :
  (pushed_created <$> fst (syncAll "/w/todos" defaultConfig false MoreExamples.freshWorld)
     : Res Z) = Ok 1 /\
  (pulled_created <$> fst (syncAll "/w/todos" defaultConfig false MoreExamples.freshWorld)
     : Res Z) = Ok 1.
Proof. split; vm_compute; reflexivity. Qed.

End BatchImportProperties.

(** ** Pushing and pulling one record *)

Section PushPullFacts.

Import Mapping Engine Fs Spec Shape.

(** The outcome of a state pull on an existing file, in one piece. *)
Lemma pullState_run (issue : LinearIssue) (path : string) (config : LinearConfig)
    (w : World) (f : File) :
  fs w !! path = Some f ->
  let newStatus := linearStateToFileStatus (issue_stateName issue) config in
  let newPriority := linearPriorityToFile (issue_priority issue) config in
  let currentStatus := String_of_field (file_data f !! "status") in
  let currentPriority := String_of_field (file_data f !! "priority") in
  let now := JsDate.toISOString (clock w) in
  let statusUpdate :=
    match newStatus with
    | Some s => if negb (String.eqb s "") && negb (String.eqb s currentStatus)
                then Some s else None
    | None => None
    end in
  let priorityUpdate :=
    if String.eqb newPriority currentPriority then None else Some newPriority in
  let data' : gmap string Value :=
    <["linear_synced_at" := VStr now]>
      (from_option (fun s => <["status" := VStr s]>) id statusUpdate
         (from_option (fun p => <["priority" := VStr p]>) id priorityUpdate ∅))
    ∪ file_data f in
  let moved := renameTodoFile path (default currentStatus statusUpdate)
                 (default currentPriority priorityUpdate) in
  exists w',
    remote w' = remote w /\ clock w' = clock w /\
    if bool_decide (newStatus = Some currentStatus) && String.eqb newPriority currentPriority
    then
      pullStateFromIssue issue path config w
      = (Ok {| changed := false; newPath := None |}, w') /\
      fs w' = <[path := stampedFile f (<["linear_synced_at" := VStr now]> (file_data f)) w]>
                (fs w)
    else if bool_decide (is_Some statusUpdate) || bool_decide (is_Some priorityUpdate)
    then
      pullStateFromIssue issue path config w
      = (Ok {| changed := true; newPath := Some moved |}, w') /\
      fs w' = <[moved := stampedFile f data' w]> (delete path (fs w))
    else
      pullStateFromIssue issue path config w
      = (Ok {| changed := true; newPath := None |}, w') /\
      fs w' = <[path := stampedFile f data' w]> (fs w).
Proof.
  intros Hf. cbv zeta.
  set (newStatus := linearStateToFileStatus (issue_stateName issue) config).
  set (newPriority := linearPriorityToFile (issue_priority issue) config).
  set (currentStatus := String_of_field (file_data f !! "status")).
  set (currentPriority := String_of_field (file_data f !! "priority")).
  set (now := JsDate.toISOString (clock w)).
  set (statusUpdate := match newStatus with
                       | Some s => if negb (String.eqb s "") && negb (String.eqb s currentStatus)
                                   then Some s else None
                       | None => None
                       end).
  set (priorityUpdate :=
         if String.eqb newPriority currentPriority then None else Some newPriority).
  set (moved := renameTodoFile path (default currentStatus statusUpdate)
                  (default currentPriority priorityUpdate)).
  assert (Hopen : forall (k : gmap string Value * string -> W PullResult),
            (raw <- readText path ;; k raw)%se w = k (file_data f, file_body f) w).
  { intros k. unfold se_bind, readText. rewrite Hf. reflexivity. }
  unfold pullStateFromIssue. rewrite !Hopen. unfold parseFrontmatter.
  cbn iota beta zeta.
  fold newStatus newPriority currentStatus currentPriority.
  fold statusUpdate priorityUpdate. fold moved.
  destruct (bool_decide (newStatus = Some currentStatus)
            && String.eqb newPriority currentPriority).
  - eexists. split; [| split]; cycle 2.
    + split; reflexivity.
    + reflexivity.
    + reflexivity.
  - unfold se_bind, now_iso, gets, writeText, formatFrontmatter, se_ret.
    cbn [fst snd]. fold now.
    destruct (bool_decide (is_Some statusUpdate) || bool_decide (is_Some priorityUpdate)).
    + destruct (String.eqb_spec moved path) as [Heq | Hneq].
      * eexists. split; [| split]; cycle 2.
        -- split; [reflexivity |].
           cbn [fs set_fs]. rewrite Heq, insert_delete_eq. reflexivity.
        -- reflexivity.
        -- reflexivity.
      * unfold rename. cbn [fs set_fs]. rewrite lookup_insert_eq.
        eexists. split; [| split]; cycle 2.
        -- split; [reflexivity |].
           cbn [fs set_fs]. rewrite delete_insert_eq. reflexivity.
        -- reflexivity.
        -- reflexivity.
    + eexists. split; [| split]; cycle 2.
      * split; reflexivity.
      * reflexivity.
      * reflexivity.
Qed.

Lemma stamp_keeps (k : string) (now : string) (data : gmap string Value) :
  k <> "linear_synced_at" ->
  (<["linear_synced_at" := VStr now]> data) !! k = data !! k.
Proof. intros H. apply lookup_insert_ne. congruence. Qed.

(** The fields of the merged metadata after a pull that changed something. *)
Lemma pulled_data (statusUpdate priorityUpdate : option string) (now : string)
    (data : gmap string Value) :
  let data' : gmap string Value :=
    <["linear_synced_at" := VStr now]>
      (from_option (fun s => <["status" := VStr s]>) id statusUpdate
         (from_option (fun p => <["priority" := VStr p]>) id priorityUpdate ∅))
    ∪ data in
  data' !! "status" = match statusUpdate with
                      | Some s => Some (VStr s)
                      | None => data !! "status"
                      end /\
  data' !! "priority" = match priorityUpdate with
                        | Some p => Some (VStr p)
                        | None => data !! "priority"
                        end /\
  forall k, k <> "status" -> k <> "priority" -> k <> "linear_synced_at" ->
    data' !! k = data !! k.
Proof.
  cbv zeta. split; [| split].
  - destruct statusUpdate as [s|]; cbn [from_option id].
    + apply lookup_union_Some_l. rewrite lookup_insert_ne by discriminate.
      apply lookup_insert_eq.
    + apply lookup_union_r. rewrite lookup_insert_ne by discriminate.
      destruct priorityUpdate; cbn [from_option id];
        rewrite ?lookup_insert_ne by discriminate; apply lookup_empty.
  - destruct priorityUpdate as [p|]; cbn [from_option id].
    + apply lookup_union_Some_l. rewrite lookup_insert_ne by discriminate.
      destruct statusUpdate; cbn [from_option id];
        rewrite ?lookup_insert_ne by discriminate; apply lookup_insert_eq.
    + apply lookup_union_r. rewrite lookup_insert_ne by discriminate.
      destruct statusUpdate; cbn [from_option id];
        rewrite ?lookup_insert_ne by discriminate; apply lookup_empty.
  - intros k H1 H2 H3. apply lookup_union_r.
    rewrite lookup_insert_ne by congruence.
    destruct statusUpdate, priorityUpdate; cbn [from_option id];
      rewrite ?lookup_insert_ne by congruence; apply lookup_empty.
Qed.

End PushPullFacts.

Section PushPullProperties.

Import Mapping Engine Fs Spec Shape Examples.

(** X10.  A push sends only the fields that differ: after a push that
    succeeded, the update computed for the same record against the issue as
    it now stands is empty, so pushing again calls no mutation and leaves
    the remote as it is; and a push of a record that already agrees with its
    issue changes nothing remote in the first place. *)
Theorem second_push_sends_nothing
    (todo : TodoFile) (config : LinearConfig) (states : list LinearState)
    (issue : LinearIssue) (w w1 : World) :
  Store.set (fm_linear_id (todo_frontmatter todo)) = true ->
  Api.find_issue (linearIdOf todo) (remote w) = Some issue ->
  find (fun i => String.eqb (issue_uuid i) (issue_uuid issue))
       (remote_issues (remote w)) = Some issue ->
  pushUpdate todo config states w = (Ok tt, w1) ->
  (Api.nonempty_input (pushInput todo config states issue) = false ->
   remote w1 = remote w) /\
  exists issue1 w2,
    Api.find_issue (linearIdOf todo) (remote w1) = Some issue1 /\
    Api.nonempty_input (pushInput todo config states issue1) = false /\
    pushUpdate todo config states w1 = (Ok tt, w2) /\
    remote w2 = remote w1.
Proof.
  intros Hset Hissue Huuid Hrun.
  destruct (set_true _ Hset) as (lid & Hlid & Hne).
  assert (Hl : linearIdOf todo = lid) by (unfold linearIdOf; rewrite Hlid; reflexivity).
  rewrite Hl in *.
  pose proof (find_issue_identifier _ _ _ Hissue) as Hident.
  rewrite (pushUpdate_run todo config states lid w Hlid Hne), Hissue in Hrun.
  cbv zeta in Hrun.
  (* what remains once the remote holds an issue that needs no update *)
  assert (Hsettled : forall w0 issue0 w',
             Api.find_issue lid (remote w0) = Some issue0 ->
             Api.nonempty_input (pushInput todo config states issue0) = false ->
             updateTodoFrontmatter (todo_path todo)
               {["linear_synced_at" := VStr (JsDate.toISOString (clock w0))]} w0
             = (Ok tt, w') ->
             remote w' = remote w0 /\
             exists w2, pushUpdate todo config states w' = (Ok tt, w2) /\
                        remote w2 = remote w').
  { intros w0 issue0 w' Hfind Hempty Hstamp.
    pose proof (update_remote _ _ _ _ _ Hstamp) as Hremote.
    split; [exact Hremote |].
    rewrite (pushUpdate_run todo config states lid w' Hlid Hne), Hremote, Hfind.
    cbv zeta. rewrite Hempty.
    rewrite updateTodoFrontmatter_run in Hstamp.
    destruct (fs w0 !! todo_path todo) as [f|] eqn:Hf; [| discriminate].
    injection Hstamp as <-.
    rewrite updateTodoFrontmatter_run. cbn [fs set_fs]. rewrite lookup_insert_eq.
    eexists. split; reflexivity. }
  destruct (Api.nonempty_input (pushInput todo config states issue)) eqn:Hinput.
  - split; [discriminate |].
    set (input := pushInput todo config states issue) in *.
    destruct (Api.updateIssue (issue_uuid issue) input w) as [[new|e] w0] eqn:Hup;
      [| discriminate].
    assert (Hres : exists st,
               Api.resolve_state (Api.ui_stateId input) (Some (issue_state issue))
                 (remote w) = Some st).
    { unfold Api.updateIssue in Hup. cbv zeta in Hup. rewrite Huuid in Hup.
      destruct (Api.resolve_state _ _ (remote w)) as [st|]; [| discriminate].
      eexists. reflexivity. }
    destruct Hres as [st Hres].
    rewrite <- Hident in Hissue.
    destruct (updateIssue_spec issue input st w Hissue Huuid Hres)
      as (w0' & Hup' & Hfind & _ & _).
    rewrite Hup in Hup'. injection Hup' as Hn Hw. subst w0' new.
    rewrite Hident in Hfind.
    assert (Hempty : Api.nonempty_input
                       (pushInput todo config states
                          (Api.apply_update input st (JsDate.toISOString (clock w)) issue))
                     = false).
    { unfold pushInput, Api.nonempty_input, issue_stateId.
      cbn [Api.ui_title Api.ui_priority Api.ui_stateId Api.apply_update
           issue_title issue_priority issue_stateId issue_state fst].
      assert (Hstate :
        match fileStatusToLinearState (fm_status (todo_frontmatter todo)) states config with
        | Some s => if String.eqb (state_id s) (fst st) then None else Some (state_id s)
        | None => None
        end = None).
      { unfold input, pushInput in Hres. cbn [Api.ui_stateId] in Hres.
        destruct (fileStatusToLinearState _ states config) as [s|]; [| reflexivity].
        destruct (String.eqb_spec (state_id s) (issue_stateId issue)) as [Heq | Hneq].
        - cbn [Api.resolve_state] in Hres. injection Hres as <-.
          unfold issue_stateId in Heq. rewrite Heq, String.eqb_refl. reflexivity.
        - cbn [Api.resolve_state] in Hres. unfold Api.state_by_id in Hres.
          destruct (find _ (remote_states (remote w))) as [st0|] eqn:Hst0;
            [| discriminate].
          injection Hres as <-. apply find_some in Hst0 as [_ Hid0].
          apply String.eqb_eq in Hid0. cbn [fst]. rewrite Hid0, String.eqb_refl.
          reflexivity. }
      rewrite Hstate.
      assert (Hprio :
        (if filePriorityToLinear (fm_priority (todo_frontmatter todo)) config
            =? default (issue_priority issue) (Api.ui_priority input)
         then None
         else Some (filePriorityToLinear (fm_priority (todo_frontmatter todo)) config))
        = None).
      { unfold input, pushInput. cbn [Api.ui_priority].
        destruct (Z.eqb_spec
                    (filePriorityToLinear (fm_priority (todo_frontmatter todo)) config)
                    (issue_priority issue)) as [Heq | Hneq]; cbn [default].
        - rewrite <- Heq, Z.eqb_refl. reflexivity.
        - rewrite Z.eqb_refl. reflexivity. }
      rewrite Hprio.
      assert (Htitle :
        (if String.eqb (extractTitle (todo_body todo))
              (default (issue_title issue) (Api.ui_title input))
         then None else Some (extractTitle (todo_body todo))) = None).
      { unfold input, pushInput. cbn [Api.ui_title].
        destruct (String.eqb_spec (extractTitle (todo_body todo)) (issue_title issue))
          as [Heq | Hneq]; cbn [default].
        - rewrite <- Heq, String.eqb_refl. reflexivity.
        - rewrite String.eqb_refl. reflexivity. }
      rewrite Htitle. reflexivity. }
    destruct (Hsettled w0 _ w1 Hfind Hempty Hrun) as (Hremote & w2 & Hagain & Hsame).
    eexists _, w2. split; [rewrite Hremote; exact Hfind |].
    split; [exact Hempty |]. split; assumption.
  - destruct (Hsettled w issue w1 Hissue Hinput Hrun) as (Hremote & w2 & Hagain & Hsame).
    split; [intros _; exact Hremote |].
    exists issue, w2. split; [rewrite Hremote; exact Hissue |].
    split; [exact Hinput |]. split; assumption.
Qed.

(** The conflict world: the file says pending, the issue is in Todo; one
    push moves the issue to Triage, the next push has nothing to send. *)
Lemma second_push_example :
  exists issue1 w2,
    Api.find_issue "ENG-1"
      (remote (snd (pushUpdate (todoOf todoPath conflictFile) defaultConfig teamStates
                      conflictWorld))) = Some issue1 /\
    Api.nonempty_input (pushInput (todoOf todoPath conflictFile) defaultConfig teamStates
                          issue1) = false /\
    pushUpdate (todoOf todoPath conflictFile) defaultConfig teamStates
      (snd (pushUpdate (todoOf todoPath conflictFile) defaultConfig teamStates conflictWorld))
    = (Ok tt, w2) /\
    remote w2
    = remote (snd (pushUpdate (todoOf todoPath conflictFile) defaultConfig teamStates
                     conflictWorld)).
Proof.
  apply (second_push_sends_nothing (todoOf todoPath conflictFile) defaultConfig teamStates
           conflictIssue conflictWorld).
  - reflexivity.
  - vm_compute. reflexivity.
  - vm_compute. reflexivity.
  - vm_compute. reflexivity.
Defined.

(** X11.  A state pull from an issue whose state name maps to no status
    always reports a change, also when it changed nothing: the file keeps
    its status, and when the priority agrees as well it is not renamed and
    only its stamp is new. *)
Theorem unmapped_state_counts_as_changed
    (issue : LinearIssue) (path : string) (config : LinearConfig) (w : World) (f : File) :
  fs w !! path = Some f ->
  linearStateToFileStatus (issue_stateName issue) config = None ->
  exists res w' f',
    pullStateFromIssue issue path config w = (Ok res, w') /\
    changed res = true /\
    fs w' !! default path (newPath res) = Some f' /\
    file_data f' !! "status" = file_data f !! "status" /\
    file_body f' = file_body f /\
    (String_of_field (file_data f !! "priority")
     = linearPriorityToFile (issue_priority issue) config ->
     newPath res = None /\
     forall k, k <> "linear_synced_at" -> file_data f' !! k = file_data f !! k).
Proof.
  intros Hf Hnone.
  destruct (pullState_run issue path config w f Hf) as (w' & _ & _ & Hrun).
  cbv zeta in Hrun. rewrite Hnone in Hrun.
  rewrite (bool_decide_eq_false_2 (None = Some _)) in Hrun by discriminate.
  cbn [andb] in Hrun.
  set (priorityUpdate :=
         if String.eqb (linearPriorityToFile (issue_priority issue) config)
                       (String_of_field (file_data f !! "priority"))
         then None
         else Some (linearPriorityToFile (issue_priority issue) config)) in *.
  destruct (pulled_data None priorityUpdate (JsDate.toISOString (clock w)) (file_data f))
    as (Hst & Hpr & Hother).
  cbn [from_option id] in *.
  rewrite (bool_decide_eq_false_2 (is_Some (None : option string))) in Hrun
    by (intros [x Hx]; discriminate).
  cbn [orb] in Hrun.
  destruct (bool_decide (is_Some priorityUpdate)) eqn:Hprio.
  - destruct Hrun as [Hrun Hfs].
    eexists _, w', _. split; [exact Hrun |]. split; [reflexivity |].
    cbn [newPath default]. rewrite Hfs.
    split; [apply lookup_insert_eq |].
    cbn [file_data stampedFile]. split; [exact Hst |]. split; [reflexivity |].
    intros Hsame. exfalso.
    apply bool_decide_eq_true in Hprio. destruct Hprio as [p Hp].
    unfold priorityUpdate in Hp. rewrite <- Hsame, String.eqb_refl in Hp.
    discriminate.
  - destruct Hrun as [Hrun Hfs].
    eexists _, w', _. split; [exact Hrun |]. split; [reflexivity |].
    cbn [newPath default]. rewrite Hfs.
    split; [apply lookup_insert_eq |].
    cbn [file_data stampedFile]. split; [exact Hst |]. split; [reflexivity |].
    intros _. split; [reflexivity |].
    intros k Hk.
    destruct (decide (k = "status")) as [-> | Hks]; [exact Hst |].
    destruct (decide (k = "priority")) as [-> | Hkp].
    + rewrite Hpr. apply bool_decide_eq_false in Hprio.
      destruct priorityUpdate; [contradiction Hprio; eexists; reflexivity | reflexivity].
    + apply Hother; assumption.
Qed.

(** The backlog world: Backlog maps to no status. *)
Lemma unmapped_state_example :
  exists res w',
    pullStateFromIssue backlogIssue todoPath defaultConfig backlogWorld = (Ok res, w') /\
    changed res = true.
Proof.
  destruct (unmapped_state_counts_as_changed backlogIssue todoPath defaultConfig
              backlogWorld backlogFile) as (res & w' & f' & Hrun & Hch & _).
  - vm_compute. reflexivity.
  - reflexivity.
  - exists res, w'. split; assumption.
Defined.

(** X12.  A state pull is idempotent when the state maps: pulling the same
    issue again, at the path the first pull left the file at, reports no
    change and no new path, and the file keeps status, priority and body. *)
Theorem second_pull_changes_nothing
    (issue : LinearIssue) (path : string) (config : LinearConfig)
    (w w1 : World) (f : File) (res : PullResult) (s : string) :
  fs w !! path = Some f ->
  linearStateToFileStatus (issue_stateName issue) config = Some s ->
  pullStateFromIssue issue path config w = (Ok res, w1) ->
  let dest := default path (newPath res) in
  exists f1 w2 f2,
    fs w1 !! dest = Some f1 /\
    String_of_field (file_data f1 !! "status") = s /\
    String_of_field (file_data f1 !! "priority")
    = linearPriorityToFile (issue_priority issue) config /\
    pullStateFromIssue issue dest config w1
    = (Ok {| changed := false; newPath := None |}, w2) /\
    fs w2 !! dest = Some f2 /\
    file_data f2 !! "status" = file_data f1 !! "status" /\
    file_data f2 !! "priority" = file_data f1 !! "priority" /\
    file_body f2 = file_body f.
Proof.
  intros Hf Hs Hrun dest.
  destruct (pullStateFromIssue_spec issue path config w f Hf)
    as (res' & data' & w1' & Hrun' & Hfs & _ & _ & _ & _ & Hprio & Hstatus & _).
  rewrite Hrun in Hrun'. injection Hrun' as <- <-. fold dest in Hfs.
  assert (Hf1 : fs w1 !! dest = Some (stampedFile f data' w))
    by (rewrite Hfs; apply lookup_insert_eq).
  specialize (Hstatus s Hs).
  destruct (pullState_run issue dest config w1 _ Hf1) as (w2 & _ & _ & Hagain).
  cbv zeta in Hagain. cbn [file_data stampedFile] in Hagain.
  rewrite Hs, Hstatus, Hprio in Hagain.
  rewrite bool_decide_eq_true_2, String.eqb_refl in Hagain by reflexivity.
  cbn [andb] in Hagain. destruct Hagain as [Hagain Hfs2].
  eexists _, w2, _. split; [exact Hf1 |].
  cbn [file_data stampedFile]. split; [exact Hstatus |]. split; [exact Hprio |].
  split; [exact Hagain |].
  split; [rewrite Hfs2; apply lookup_insert_eq |].
  cbn [file_data file_body stampedFile].
  split; [apply stamp_keeps; discriminate |].
  split; [apply stamp_keeps; discriminate | reflexivity].
Qed.

(** The done world: the first pull sets the status complete and moves the
    file, the second finds nothing to do. *)
Lemma second_pull_example :
  exists w2,
    pullStateFromIssue MoreExamples.doneIssue "/w/todos/007-complete-p2-fix-bug.md"
      defaultConfig
      (snd (pullStateFromIssue MoreExamples.doneIssue todoPath defaultConfig
              MoreExamples.doneWorld))
    = (Ok {| changed := false; newPath := None |}, w2).
Proof.
  destruct (second_pull_changes_nothing MoreExamples.doneIssue todoPath defaultConfig
              MoreExamples.doneWorld
              (snd (pullStateFromIssue MoreExamples.doneIssue todoPath defaultConfig
                      MoreExamples.doneWorld))
              (todoFile "pending" "p2" "007" (Some "ENG-1") (Some T0) T0)
              {| changed := true;
                 newPath := Some "/w/todos/007-complete-p2-fix-bug.md" |}
              "complete")
    as (f1 & w2 & f2 & _ & _ & _ & Hagain & _).
  - vm_compute. reflexivity.
  - reflexivity.
  - vm_compute. reflexivity.
  - exists w2. exact Hagain.
Defined.

(** X13.  A state pull keeps a conventionally named file in step with its
    metadata: when the issue's state maps to a status and status or priority
    differ from the file's, the file is written with both and lands at the
    name whose status and priority tokens are the new ones, the issue id
    and the slug being kept; nothing stays at the old path when the name
    changed. *)
Theorem pull_renames_in_step
    (issue : LinearIssue) (config : LinearConfig) (w : World) (f : File)
    (dir issueId status priority slug s : string) :
  Path.clean dir = true ->
  token issueId = true -> token status = true -> token priority = true ->
  Path.lacks "/" slug = true ->
  let path := todoName dir issueId status priority slug in
  let p := linearPriorityToFile (issue_priority issue) config in
  let dest := todoName dir issueId s p slug in
  fs w !! path = Some f ->
  linearStateToFileStatus (issue_stateName issue) config = Some s ->
  (String_of_field (file_data f !! "status") <> s \/
   String_of_field (file_data f !! "priority") <> p) ->
  exists w' f',
    pullStateFromIssue issue path config w
    = (Ok {| changed := true; newPath := Some dest |}, w') /\
    fs w' !! dest = Some f' /\
    String_of_field (file_data f' !! "status") = s /\
    String_of_field (file_data f' !! "priority") = p /\
    file_body f' = file_body f /\
    (dest <> path -> fs w' !! path = None).
Proof.
  intros Hclean Hid Hst Hpr Hslug path p dest Hf Hs Hdiff.
  destruct (pullState_run issue path config w f Hf) as (w' & _ & _ & Hrun).
  cbv zeta in Hrun. rewrite Hs in Hrun. fold p in Hrun.
  assert (Hne : String.eqb s "" = false).
  { apply String.eqb_neq, statuses_nonempty.
    eapply linearStateToFileStatus_member. exact Hs. }
  rewrite Hne in Hrun. cbn [negb andb] in Hrun.
  set (currentStatus := String_of_field (file_data f !! "status")) in *.
  set (currentPriority := String_of_field (file_data f !! "priority")) in *.
  set (statusUpdate := if negb (String.eqb s currentStatus) then Some s else None) in *.
  set (priorityUpdate := if String.eqb p currentPriority then None else Some p) in *.
  assert (Hfinal : default currentStatus statusUpdate = s /\
                   default currentPriority priorityUpdate = p).
  { unfold statusUpdate, priorityUpdate.
    destruct (String.eqb_spec s currentStatus), (String.eqb_spec p currentPriority);
      cbn; auto. }
  destruct Hfinal as [Hfs Hfp]. rewrite Hfs, Hfp in Hrun.
  assert (Hsame : bool_decide (Some s = Some currentStatus) && String.eqb p currentPriority
                  = false).
  { apply andb_false_iff. destruct Hdiff as [Hd | Hd].
    - left. apply bool_decide_eq_false. congruence.
    - right. apply String.eqb_neq. congruence. }
  rewrite Hsame in Hrun.
  assert (Hneeds : bool_decide (is_Some statusUpdate)
                   || bool_decide (is_Some priorityUpdate) = true).
  { apply orb_true_iff. unfold statusUpdate, priorityUpdate.
    destruct Hdiff as [Hd | Hd].
    - left. apply bool_decide_eq_true.
      destruct (String.eqb_spec s currentStatus); [congruence | eexists; reflexivity].
    - right. apply bool_decide_eq_true.
      destruct (String.eqb_spec p currentPriority); [congruence | eexists; reflexivity]. }
  rewrite Hneeds in Hrun.
  assert (Hs_tok : Path.lacks "/" s = true).
  { pose proof (status_token (issue_stateName issue) config) as Ht.
    rewrite Hs in Ht. apply token_lacks in Ht. apply Ht. }
  assert (Hp_tok : Path.lacks "/" p = true).
  { pose proof (priority_token (issue_priority issue) config) as Ht.
    apply token_lacks in Ht. apply Ht. }
  destruct (rename_tokens dir issueId status priority slug s p
              Hclean Hid Hst Hpr Hslug Hs_tok Hp_tok) as (Hren & _).
  fold path dest in Hren. rewrite Hren in Hrun. destruct Hrun as [Hrun Hfs'].
  destruct (pulled_data statusUpdate priorityUpdate (JsDate.toISOString (clock w))
              (file_data f)) as (Hdst & Hdpr & _).
  eexists w', _. split; [exact Hrun |].
  rewrite Hfs'. split; [apply lookup_insert_eq |].
  cbn [file_data file_body stampedFile].
  split; [| split; [| split]].
  - rewrite Hdst. unfold statusUpdate.
    destruct (String.eqb_spec s currentStatus) as [Heq | Hneq]; cbn; [| reflexivity].
    symmetry. exact Heq.
  - rewrite Hdpr. unfold priorityUpdate.
    destruct (String.eqb_spec p currentPriority) as [Heq | Hneq]; cbn; [| reflexivity].
    symmetry. exact Heq.
  - reflexivity.
  - intros Hmoved. rewrite lookup_insert_ne by congruence. apply lookup_delete_eq.
Qed.

(** The done world again: the file moves from pending to complete. *)
Lemma pull_renames_example :
  exists w' f',
    pullStateFromIssue MoreExamples.doneIssue todoPath defaultConfig MoreExamples.doneWorld
    = (Ok {| changed := true;
             newPath := Some "/w/todos/007-complete-p2-fix-bug.md" |}, w') /\
    fs w' !! "/w/todos/007-complete-p2-fix-bug.md" = Some f' /\
    String_of_field (file_data f' !! "status") = "complete" /\
    fs w' !! todoPath = None.
Proof.
  destruct (pull_renames_in_step MoreExamples.doneIssue defaultConfig MoreExamples.doneWorld
              (todoFile "pending" "p2" "007" (Some "ENG-1") (Some T0) T0)
              "/w/todos" "007" "pending" "p2" "fix-bug" "complete")
    as (w' & f' & Hrun & Hf' & Hst & _ & _ & Hgone); try reflexivity.
  - left. vm_compute. discriminate.
  - exists w', f'. split; [exact Hrun |]. split; [exact Hf' |]. split; [exact Hst |].
    apply Hgone. vm_compute. discriminate.
Defined.

End PushPullProperties.

(** ** The status dashboard *)

Section DashboardFacts.

Import Mapping Engine Fs Spec Dashboard.

(** The entry of one record, with the [try] block run. *)
Lemma statusRecord_run (config : LinearConfig) (todo : TodoFile) (w : World) :
  statusRecord config todo w =
  (Ok (let fm := todo_frontmatter todo in
       if Store.set (fm_linear_id fm) then
         match Api.find_issue (linearIdOf todo) (remote w) with
         | None => set_linearStatus "ERROR" (set_inSync false (entryOf todo))
         | Some issue =>
             let fetched := set_linearPriority (issue_priority issue)
                              (set_linearStatus (issue_stateName issue) (entryOf todo)) in
             if negb (bool_decide (linearStateToFileStatus (issue_stateName issue) config
                                   = Some (fm_status fm)))
                || negb (String.eqb (linearPriorityToFile (issue_priority issue) config)
                                    (fm_priority fm))
             then
               match fs w !! todo_path todo with
               | None => set_linearStatus "ERROR" (set_inSync false (set_inSync false fetched))
               | Some f =>
                   let syncedAt := syncedAtOf fm in
                   let linearUpdated := JsDate.parse (issue_updatedAt issue) in
                   set_direction
                     (if JsDate.gt (Some (file_mtime f)) syncedAt
                         && JsDate.le linearUpdated syncedAt
                      then DPush
                      else if JsDate.gt linearUpdated syncedAt
                              && JsDate.le (Some (file_mtime f)) syncedAt
                      then DPull
                      else DConflict)
                     (set_inSync false fetched)
               end
             else fetched
         end
       else set_direction DPush (set_inSync false (entryOf todo))),
   w).
Proof.
  unfold statusRecord. cbv zeta. unfold linearIdOf.
  destruct (Store.set (fm_linear_id (todo_frontmatter todo))); [| reflexivity].
  unfold try_catch, statusLinked. cbv zeta.
  unfold se_bind at 1. unfold liftR at 1. cbn [row_world row_entry].
  unfold Api.getIssueByIdentifier.
  destruct (Api.find_issue _ (remote w)) as [issue|]; [| reflexivity].
  unfold se_bind at 1. unfold assign at 1. unfold modify. cbn [row_world row_entry].
  unfold se_bind at 1. unfold assign at 1. unfold modify. cbn [row_world row_entry].
  destruct (negb _ || negb _); [| reflexivity].
  unfold se_bind at 1. unfold assign at 1. unfold modify. cbn [row_world row_entry].
  unfold se_bind at 1. unfold liftR at 1. cbn [row_world row_entry].
  unfold getFileMtime.
  destruct (fs w !! todo_path todo) as [f|]; [| reflexivity].
  destruct (JsDate.gt (Some (file_mtime f)) _ && _); [reflexivity |].
  destruct (JsDate.gt _ _ && _); reflexivity.
Qed.

Lemma statusEach_run (config : LinearConfig) (todos : list TodoFile) (w : World) :
  statusEach config todos w
  = (Ok (map (fun todo => match fst (statusRecord config todo w) with
                          | Ok e => e
                          | Err _ => entryOf todo
                          end) todos), w).
Proof.
  induction todos as [|todo rest IH]; [reflexivity |].
  cbn [statusEach map]. unfold se_bind at 1. rewrite statusRecord_run.
  unfold se_bind at 1. rewrite IH. reflexivity.
Qed.

End DashboardFacts.

Section DashboardProperties.

Import Mapping Engine Fs Spec Dashboard Examples.

(** X14.  The dashboard only reads and never throws: it returns one entry
    per record of the directory, in order, and leaves the world as it is.  A
    record without a link is reported out of sync with direction push; a
    linked record whose issue cannot be fetched is reported out of sync
    with the remote status ERROR and no direction. *)
Theorem dashboard_only_reads (todosDir : string) (config : LinearConfig) (w : World) :
  exists entries,
    getStatus todosDir config w = (Ok entries, w) /\
    Forall2
      (fun todo e =>
         entry_file e = Path.basename (todo_path todo) /\
         entry_linearId e = fm_linear_id (todo_frontmatter todo) /\
         entry_fileStatus e = fm_status (todo_frontmatter todo) /\
         entry_filePriority e = fm_priority (todo_frontmatter todo) /\
         (Store.set (fm_linear_id (todo_frontmatter todo)) = false ->
          entry_inSync e = false /\ entry_direction e = Some DPush /\
          entry_linearStatus e = None) /\
         (Store.set (fm_linear_id (todo_frontmatter todo)) = true ->
          Api.find_issue (linearIdOf todo) (remote w) = None ->
          entry_inSync e = false /\ entry_direction e = None /\
          entry_linearStatus e = Some "ERROR") /\
         (entry_inSync e = true -> entry_direction e = None))
      (todosOf todosDir w) entries.
Proof.
  eexists. split.
  - unfold getStatus, se_bind. rewrite loadTodoFiles_pure. apply statusEach_run.
  - induction (todosOf todosDir w) as [|todo rest IH]; [constructor |].
    cbn [map]. constructor; [| exact IH].
    rewrite statusRecord_run. cbn [fst]. cbv zeta.
    destruct (Store.set (fm_linear_id (todo_frontmatter todo))) eqn:Hset.
    + destruct (Api.find_issue (linearIdOf todo) (remote w)) as [issue|] eqn:Hfind.
      * destruct (negb _ || negb _).
        -- destruct (fs w !! todo_path todo) as [f|];
             repeat split; try reflexivity; try discriminate;
             intros; discriminate.
        -- repeat split; try reflexivity; try discriminate; intros; discriminate.
      * repeat split; try reflexivity; try discriminate; intros; discriminate.
    + repeat split; try reflexivity; try discriminate; intros; discriminate.
Qed.

(** X15.  For a linked record that is out of step with its issue, with
    valid timestamps on both sides, the dashboard shows push where a sync
    pass would push and pull where it would pull; it shows conflict both
    where the pass would resolve a conflict and where, neither side having
    changed since the stamp, the pass would skip the record.  What the pass
    would do is the classification its dry step reports. *)
Theorem dashboard_direction_matches_sync
    (config : LinearConfig) (todo : TodoFile) (w : World)
    (issue : LinearIssue) (f : File) (u t : Z) :
  Store.set (fm_linear_id (todo_frontmatter todo)) = true ->
  Api.find_issue (linearIdOf todo) (remote w) = Some issue ->
  fs w !! todo_path todo = Some f ->
  JsDate.parse (issue_updatedAt issue) = Some u ->
  syncedAtOf (todo_frontmatter todo) = Some t ->
  (linearStateToFileStatus (issue_stateName issue) config
   <> Some (fm_status (todo_frontmatter todo)) \/
   linearPriorityToFile (issue_priority issue) config
   <> fm_priority (todo_frontmatter todo)) ->
  exists e,
    statusRecord config todo w = (Ok e, w) /\
    (forall states st, st_world st = w ->
       syncRecord config states true todo st
       = (Ok tt, with_result (report config todo (classify todo w)) (seen todo st))) /\
    entry_inSync e = false /\
    entry_direction e = Some (shown (classify todo w)) /\
    (t < file_mtime f -> u <= t -> classify todo w = Push) /\
    (file_mtime f <= t -> t < u -> classify todo w = Pull issue) /\
    (t < file_mtime f -> t < u -> exists winner, classify todo w = Conflict winner issue) /\
    (file_mtime f <= t -> u <= t -> classify todo w = Skip).
Proof.
  intros Hset Hfind Hf Hu Ht Hout.
  eexists. split; [apply statusRecord_run |].
  split; [intros states st <-; apply step_dry |].
  cbv zeta. rewrite Hset, Hfind, Hf, Hu, Ht.
  assert (Hcond : negb (bool_decide (linearStateToFileStatus (issue_stateName issue) config
                                     = Some (fm_status (todo_frontmatter todo))))
                  || negb (String.eqb (linearPriorityToFile (issue_priority issue) config)
                                      (fm_priority (todo_frontmatter todo))) = true).
  { apply orb_true_iff. destruct Hout as [Hs | Hp].
    - left. apply negb_true_iff, bool_decide_eq_false. exact Hs.
    - right. apply negb_true_iff, String.eqb_neq. exact Hp. }
  rewrite Hcond.
  unfold classify. rewrite Hset, Hfind, Hf. cbv zeta. rewrite Hu, Ht.
  unfold JsDate.gt, JsDate.le.
  destruct (Z.ltb_spec t (file_mtime f)), (Z.ltb_spec t u),
           (Z.leb_spec u t), (Z.leb_spec (file_mtime f) t); try lia;
    cbn [andb entry_inSync entry_direction set_direction set_inSync shown];
    (split; [reflexivity |]); (split; [reflexivity |]);
    repeat split; intros; try lia; try reflexivity; eexists; reflexivity.
Qed.

(** The quiet world with the file said to be done: neither side changed
    since the stamp, the dashboard shows a conflict, the pass skips. *)
Lemma dashboard_conflict_that_sync_skips :
  exists e,
    statusRecord defaultConfig
      (todoOf todoPath (todoFile "complete" "p2" "007" (Some "ENG-1") (Some T1) T0))
      (world [(todoPath, todoFile "complete" "p2" "007" (Some "ENG-1") (Some T1) T0)]
             [issue "1" ("s2", "Todo") 2 T0 []])
    = (Ok e,
       world [(todoPath, todoFile "complete" "p2" "007" (Some "ENG-1") (Some T1) T0)]
             [issue "1" ("s2", "Todo") 2 T0 []]) /\
    entry_direction e = Some DConflict /\
    classify (todoOf todoPath (todoFile "complete" "p2" "007" (Some "ENG-1") (Some T1) T0))
      (world [(todoPath, todoFile "complete" "p2" "007" (Some "ENG-1") (Some T1) T0)]
             [issue "1" ("s2", "Todo") 2 T0 []])
    = Skip.
Proof.
  destruct (dashboard_direction_matches_sync defaultConfig
              (todoOf todoPath (todoFile "complete" "p2" "007" (Some "ENG-1") (Some T1) T0))
              (world [(todoPath, todoFile "complete" "p2" "007" (Some "ENG-1") (Some T1) T0)]
                     [issue "1" ("s2", "Todo") 2 T0 []])
              (issue "1" ("s2", "Todo") 2 T0 [])
              (todoFile "complete" "p2" "007" (Some "ENG-1") (Some T1) T0)
              (instant T0) (instant T1))
    as (e & Hrun & _ & _ & Hdir & _ & _ & _ & Hskip);
    try (vm_compute; reflexivity).
  - left. vm_compute. discriminate.
  - exists e. split; [exact Hrun |].
    assert (Hs : classify
                   (todoOf todoPath
                      (todoFile "complete" "p2" "007" (Some "ENG-1") (Some T1) T0))
                   (world [(todoPath,
                            todoFile "complete" "p2" "007" (Some "ENG-1") (Some T1) T0)]
                          [issue "1" ("s2", "Todo") 2 T0 []]) = Skip).
    { apply Hskip; vm_compute; discriminate. }
    split; [rewrite Hdir, Hs; reflexivity | exact Hs].
Defined.

(** X16.  For a linked record of the directory whose issue is found, the
    dashboard reports it in sync exactly when a state pull from that issue
    would report no change. *)
Theorem in_sync_means_nothing_to_pull
    (todosDir : string) (config : LinearConfig) (w : World)
    (todo : TodoFile) (issue : LinearIssue) :
  In todo (todosOf todosDir w) ->
  Store.set (fm_linear_id (todo_frontmatter todo)) = true ->
  Api.find_issue (linearIdOf todo) (remote w) = Some issue ->
  exists e res w',
    statusRecord config todo w = (Ok e, w) /\
    pullStateFromIssue issue (todo_path todo) config w = (Ok res, w') /\
    entry_inSync e = negb (changed res).
Proof.
  intros Hin Hset Hfind.
  apply todosOf_In in Hin as (f & Hf & _ & _ & Htodo & Hfm & _).
  assert (Hst : String_of_field (file_data f !! "status")
                = fm_status (todo_frontmatter todo) /\
                String_of_field (file_data f !! "priority")
                = fm_priority (todo_frontmatter todo)).
  { rewrite Hfm. unfold frontmatter_of, is_todo in *. cbn [fm_status fm_priority].
    apply andb_prop in Htodo as [Htodo _]. apply andb_prop in Htodo as [Hs Hp].
    destruct (file_data f !! "status"); [| discriminate].
    destruct (file_data f !! "priority"); [| discriminate].
    split; reflexivity. }
  destruct Hst as [Hst Hpr].
  destruct (pullState_run issue (todo_path todo) config w f Hf) as (w' & _ & _ & Hrun).
  cbv zeta in Hrun. rewrite Hst, Hpr in Hrun.
  rewrite statusRecord_run. cbv zeta. rewrite Hset, Hfind, Hf.
  destruct (bool_decide (linearStateToFileStatus (issue_stateName issue) config
                         = Some (fm_status (todo_frontmatter todo)))
            && String.eqb (linearPriorityToFile (issue_priority issue) config)
                          (fm_priority (todo_frontmatter todo))) eqn:Hsame.
  - destruct Hrun as [Hrun _].
    apply andb_prop in Hsame as [Ha Hb]. rewrite Ha, Hb. cbn [negb orb].
    eexists _, _, w'. split; [reflexivity |]. split; [exact Hrun | reflexivity].
  - assert (Hor : negb (bool_decide (linearStateToFileStatus (issue_stateName issue) config
                                     = Some (fm_status (todo_frontmatter todo))))
                  || negb (String.eqb (linearPriorityToFile (issue_priority issue) config)
                                      (fm_priority (todo_frontmatter todo))) = true).
    { rewrite <- negb_andb, Hsame. reflexivity. }
    rewrite Hor.
    destruct (bool_decide (is_Some _) || bool_decide (is_Some _));
      destruct Hrun as [Hrun _]; eexists _, _, w';
      (split; [reflexivity |]); (split; [exact Hrun | reflexivity]).
Qed.

(** The quiet world: in sync, and a pull would change nothing. *)
Lemma in_sync_example :
  exists e res w',
    statusRecord defaultConfig
      (todoOf todoPath (todoFile "ready" "p2" "007" (Some "ENG-1") (Some T1) T0)) quietWorld
    = (Ok e, quietWorld) /\
    pullStateFromIssue (issue "1" ("s2", "Todo") 2 T0 []) todoPath defaultConfig quietWorld
    = (Ok res, w') /\
    entry_inSync e = negb (changed res).
Proof.
  apply (in_sync_means_nothing_to_pull "/w/todos" defaultConfig quietWorld
           (todoOf todoPath (todoFile "ready" "p2" "007" (Some "ENG-1") (Some T1) T0))).
  - vm_compute. left. reflexivity.
  - reflexivity.
  - vm_compute. reflexivity.
Defined.

End DashboardProperties.

(** ** Config resolution *)

Section ConfigFacts.

Import Mapping Fs Single Config.

(** What the local file contributes; the world is only read. *)
Lemma resolveConfig_run (env : Env) (teams : list LinearTeam)
    (projectRoot : option string) (w : World) :
  Store.set (LINEAR_API_KEY env) = true ->
  let local :=
    if Store.set projectRoot
    then fs w !! Path.join (default "" projectRoot) localName
    else None in
  let pick key x :=
    match local with
    | Some f => overridden (file_data f) key x
    | None => x
    end in
  let teamId := pick "linear_team_id" (default "" (LINEAR_TEAM_ID env)) in
  let teamKey := pick "linear_team_key" (default "" (LINEAR_TEAM_KEY env)) in
  let projectId :=
    match local with
    | Some f => if truthy (file_data f !! "linear_project_id")
                then String_of <$> file_data f !! "linear_project_id"
                else LINEAR_PROJECT_ID env
    | None => LINEAR_PROJECT_ID env
    end in
  let config teamId teamKey :=
    {| teamId := teamId; teamKey := teamKey; projectId := projectId;
       apiKey := default "" (LINEAR_API_KEY env);
       statusMap := DEFAULT_STATUS_MAP; priorityMap := DEFAULT_PRIORITY_MAP |} in
  resolveConfig env teams projectRoot w =
  if String.eqb teamId "" || String.eqb teamKey "" then
    match teams with
    | [team] => (Ok (config (team_id team) (team_key team)), w)
    | [] => (Err "No teams found in your Linear workspace", w)
    | _ :: _ :: _ =>
        (Err "Multiple teams found — please specify which one to use", w)
    end
  else (Ok (config teamId teamKey), w).
Proof.
  intros Hkey. cbv zeta. unfold resolveConfig. rewrite Hkey. cbn [negb].
  unfold se_bind at 1.
  destruct (Store.set projectRoot).
  - unfold se_bind at 1. unfold pathExists, gets.
    destruct (fs w !! Path.join (default "" projectRoot) localName) as [f|] eqn:Hf.
    + rewrite bool_decide_eq_true_2 by (eexists; reflexivity).
      unfold se_bind at 1. unfold readText. rewrite Hf.
      unfold parseFrontmatter, se_ret. cbn iota beta.
      destruct (String.eqb _ "" || String.eqb _ ""); [| reflexivity].
      destruct teams as [|team [|team' rest]]; reflexivity.
    + rewrite bool_decide_eq_false_2 by (intros [x Hx]; discriminate).
      unfold se_ret.
      destruct (String.eqb _ "" || String.eqb _ ""); [| reflexivity].
      destruct teams as [|team [|team' rest]]; reflexivity.
  - unfold se_ret.
    destruct (String.eqb _ "" || String.eqb _ ""); [| reflexivity].
    destruct teams as [|team [|team' rest]]; reflexivity.
Qed.

End ConfigFacts.

Section ConfigProperties.

Import Mapping Fs Single Config Examples.

(** X17.  Without an API key nothing is resolved: the call fails with
    LINEAR_API_KEY not set, whatever else is configured.  A configuration
    that is resolved carries the key of the environment and always the
    default status and priority maps, for which the mapping round trip
    holds; resolving never writes. *)
Theorem resolved_config_uses_default_maps
    (env : Env) (teams : list LinearTeam) (projectRoot : option string) (w : World) :
  (Store.set (LINEAR_API_KEY env) = false ->
   resolveConfig env teams projectRoot w = (Err "LINEAR_API_KEY not set", w)) /\
  snd (resolveConfig env teams projectRoot w) = w /\
  forall config,
    fst (resolveConfig env teams projectRoot w) = Ok config ->
    LINEAR_API_KEY env = Some (apiKey config) /\ apiKey config <> "" /\
    statusMap config = DEFAULT_STATUS_MAP /\
    priorityMap config = DEFAULT_PRIORITY_MAP /\
    distinct_names (statusMap config) /\
    aligned_priorities (priorityMap config).
Proof.
  destruct (Store.set (LINEAR_API_KEY env)) eqn:Hkey.
  - split; [discriminate |].
    rewrite (resolveConfig_run env teams projectRoot w Hkey). cbv zeta.
    destruct (set_true _ Hkey) as (key & Hk & Hne).
    assert (Hshape : forall c,
              apiKey c = default "" (LINEAR_API_KEY env) ->
              statusMap c = DEFAULT_STATUS_MAP -> priorityMap c = DEFAULT_PRIORITY_MAP ->
              LINEAR_API_KEY env = Some (apiKey c) /\ apiKey c <> "" /\
              statusMap c = DEFAULT_STATUS_MAP /\
              priorityMap c = DEFAULT_PRIORITY_MAP /\
              distinct_names (statusMap c) /\
              aligned_priorities (priorityMap c)).
    { intros c Hc Hs Hp. rewrite Hc, Hs, Hp, Hk. cbn [default].
      repeat split; try assumption; try apply default_names_distinct;
        try reflexivity; cbn; lia. }
    destruct (String.eqb _ "" || String.eqb _ "").
    + destruct teams as [|team [|team' rest]]; (split; [reflexivity |]);
        intros config Hc; try discriminate Hc.
      injection Hc as <-. apply Hshape; reflexivity.
    + split; [reflexivity |]. intros config Hc. injection Hc as <-.
      apply Hshape; reflexivity.
  - split; [| split].
    + intros _. unfold resolveConfig. rewrite Hkey. reflexivity.
    + unfold resolveConfig. rewrite Hkey. reflexivity.
    + unfold resolveConfig. rewrite Hkey. discriminate.
Qed.

(** X18.  Team id and team key, with the API key set.  Each of the two is
    settled on its own: a truthy value of the local file of the project
    root wins, otherwise the environment variable counts, otherwise it is
    empty.  When both are settled non-empty the configuration carries them,
    whatever the workspace holds.  When either of them is still empty,
    wherever the other came from, both are taken from the single team of
    the workspace, a settled one being replaced; the call fails with No
    teams found when the workspace has no team and with Multiple teams
    found when it has two or more, whichever they are.  Nothing is written
    in any case. *)
Theorem team_is_configured_or_detected
    (env : Env) (teams : list LinearTeam) (projectRoot : option string) (w : World) :
  Store.set (LINEAR_API_KEY env) = true ->
  let local :=
    if Store.set projectRoot
    then fs w !! Path.join (default "" projectRoot) localName
    else None in
  let settled key fromEnv :=
    match local with
    | Some f =>
        if truthy (file_data f !! key)
        then default "" (String_of <$> file_data f !! key)
        else default "" fromEnv
    | None => default "" fromEnv
    end in
  let idSettled := settled "linear_team_id" (LINEAR_TEAM_ID env) in
  let keySettled := settled "linear_team_key" (LINEAR_TEAM_KEY env) in
  (idSettled <> "" -> keySettled <> "" ->
   exists config,
     resolveConfig env teams projectRoot w = (Ok config, w) /\
     teamId config = idSettled /\ teamKey config = keySettled) /\
  (idSettled = "" \/ keySettled = "" ->
   (forall team, teams = [team] ->
      exists config,
        resolveConfig env teams projectRoot w = (Ok config, w) /\
        teamId config = team_id team /\ teamKey config = team_key team) /\
   (teams = [] ->
      resolveConfig env teams projectRoot w
      = (Err "No teams found in your Linear workspace", w)) /\
   ((2 <= length teams)%nat ->
      resolveConfig env teams projectRoot w
      = (Err "Multiple teams found — please specify which one to use", w))) /\
  snd (resolveConfig env teams projectRoot w) = w.
Proof.
  intros Hkey local settled idSettled keySettled.
  rewrite (resolveConfig_run env teams projectRoot w Hkey). cbv zeta.
  fold local.
  assert (Hid : match local with
                | Some f => overridden (file_data f) "linear_team_id"
                              (default "" (LINEAR_TEAM_ID env))
                | None => default "" (LINEAR_TEAM_ID env)
                end = idSettled).
  { unfold idSettled, settled, overridden. destruct local; reflexivity. }
  assert (Hk : match local with
               | Some f => overridden (file_data f) "linear_team_key"
                             (default "" (LINEAR_TEAM_KEY env))
               | None => default "" (LINEAR_TEAM_KEY env)
               end = keySettled).
  { unfold keySettled, settled, overridden. destruct local; reflexivity. }
  rewrite Hid, Hk. clear Hid Hk.
  split; [| split].
  - intros Hi Hke. apply String.eqb_neq in Hi. apply String.eqb_neq in Hke.
    rewrite Hi, Hke. cbn [orb].
    eexists. split; [reflexivity |]. split; reflexivity.
  - intros Hempty.
    assert (Hor : String.eqb idSettled "" || String.eqb keySettled "" = true).
    { destruct Hempty as [-> | ->]; [reflexivity | apply orb_true_r]. }
    rewrite Hor. split; [| split].
    + intros team ->. eexists. split; [reflexivity |]. split; reflexivity.
    + intros ->. reflexivity.
    + intros Hlen. destruct teams as [|t1 [|t2 rest]]; cbn in Hlen; try lia.
      reflexivity.
  - destruct (String.eqb idSettled "" || String.eqb keySettled ""); [| reflexivity].
    destruct teams as [|t1 [|t2 rest]]; reflexivity.
Qed.

(** A team id in the environment, no team key, one team in the workspace:
    both come from the workspace. *)
Lemma detected_team_replaces_the_configured_id :
  exists config,
    resolveConfig
      {| LINEAR_API_KEY := Some "key"; LINEAR_TEAM_ID := Some "team-9";
         LINEAR_TEAM_KEY := None; LINEAR_PROJECT_ID := None |}
      [{| team_id := "team-1"; team_name := "Engineering"; team_key := "ENG" |}]
      None quietWorld
    = (Ok config, quietWorld) /\
    teamId config = "team-1" /\ teamKey config = "ENG".
Proof.
  destruct (team_is_configured_or_detected
              {| LINEAR_API_KEY := Some "key"; LINEAR_TEAM_ID := Some "team-9";
                 LINEAR_TEAM_KEY := None; LINEAR_PROJECT_ID := None |}
              [{| team_id := "team-1"; team_name := "Engineering"; team_key := "ENG" |}]
              None quietWorld eq_refl) as (_ & Hdetect & _).
  destruct (Hdetect (or_intror eq_refl)) as (Hone & _).
  exact (Hone _ eq_refl).
Defined.

End ConfigProperties.

(** ** The Cursor writer's paths *)

Section CursorFacts.

(** A plain segment pushed last stays last through normalisation. *)
Lemma normalizeSegments_last (allow : bool) (segs stack : list string) (x : string) :
  Path.plain x = true ->
  exists kept, Path.normalizeSegments allow stack (segs ++ [x]) = (kept ++ [x])%list.
Proof.
  intros Hx. revert stack. induction segs as [|seg rest IH]; intros stack.
  - exists (rev stack). cbn [app Path.normalizeSegments].
    unfold Path.plain in Hx.
    apply andb_prop in Hx as [Hx Hdd]. apply andb_prop in Hx as [He Hd].
    apply negb_true_iff in He, Hd, Hdd. rewrite He, Hd, Hdd. reflexivity.
  - cbn [app Path.normalizeSegments].
    destruct (String.eqb seg "" || String.eqb seg "."); [apply IH |].
    destruct (String.eqb seg "..").
    + destruct stack as [|top below].
      * destruct allow; apply IH.
      * destruct (String.eqb top ".."); apply IH.
    + apply IH.
Qed.

Lemma join_last (l : list string) (x : string) :
  l <> [] -> Js.join "/" (l ++ [x]) = Js.join "/" l +:+ String Path.slash x.
Proof.
  induction l as [|a r IH]; [congruence |]. intros _.
  destruct r as [|b t].
  - reflexivity.
  - change ((a :: b :: t) ++ [x])%list with (a :: ((b :: t) ++ [x]))%list.
    change ((b :: t) ++ [x])%list with (b :: (t ++ [x]))%list.
    rewrite join_cons2.
    change (b :: (t ++ [x]))%list with ((b :: t) ++ [x])%list.
    rewrite IH by discriminate. rewrite join_cons2, !append_assoc. reflexivity.
Qed.

Lemma endsWith_slash_lacks (x : string) :
  x <> "" -> Path.lacks Path.slash x = true -> Js.endsWith x "/" = false.
Proof.
  intros Hx Hlacks. unfold Js.endsWith. change (Js.rev "/") with "/".
  destruct (Js.rev x) as [|c r] eqn:Hrev.
  - exfalso. exact (rev_nonempty x Hx Hrev).
  - assert (Hl : Path.lacks Path.slash (String c r) = true)
      by (rewrite <- Hrev, lacks_rev; exact Hlacks).
    cbn [Path.lacks] in Hl. apply andb_prop in Hl as [Hc _].
    apply negb_true_iff in Hc. cbn [Js.startsWith].
    rewrite Ascii.eqb_sym. unfold Path.slash in Hc. rewrite Hc. reflexivity.
Qed.

(** Joining a plain name without a slash to any path gives a path whose
    last segment is that name. *)
Lemma basename_join (a x : string) :
  Path.plain x = true -> Path.lacks Path.slash x = true ->
  Path.basename (Path.join a x) = x.
Proof.
  intros Hplain Hlacks.
  assert (Hx : x <> "") by (intros ->; discriminate).
  assert (Hnorm : forall p,
            p <> "" ->
            (exists kept, Js.split Path.slash p = (kept ++ [x])%list) ->
            Js.endsWith p "/" = false ->
            Path.basename (Path.normalize p) = x).
  { intros p Hp [segs Hsplit] Htrail.
    destruct p as [|c0 rest]; [congruence |].
    unfold Path.normalize. rewrite Htrail. unfold Path.normalizeString.
    rewrite Hsplit.
    destruct (normalizeSegments_last (negb (Path.is_slash c0)) segs [] x Hplain)
      as [kept Hkept].
    rewrite Hkept.
    assert (Hq : exists d, Js.join "/" (kept ++ [x])
                           = x \/ Js.join "/" (kept ++ [x]) = d +:+ String Path.slash x).
    { destruct kept as [|k ks].
      - exists "". left. reflexivity.
      - eexists. right. apply join_last. discriminate. }
    destruct Hq as [d [Hq | Hq]]; rewrite Hq.
    - rewrite (proj2 (String.eqb_neq x "") Hx).
      destruct (Path.is_slash c0).
      + change ("/" +:+ x) with ("" +:+ String Path.slash x).
        apply last_segment_of_file; assumption.
      + unfold Path.basename, Path.last_segment.
        assert (Hrev : Js.rev x <> "") by (apply rev_nonempty; exact Hx).
        assert (Hdrop : Js.dropWhile Path.is_slash (Js.rev x) = Js.rev x).
        { rewrite <- (append_nil_r (Js.rev x)).
          apply dropWhile_slash_head; [exact Hrev | rewrite lacks_rev; exact Hlacks]. }
        rewrite Hdrop, takeWhile_not_slash by (rewrite lacks_rev; exact Hlacks).
        apply rev_rev.
    - assert (Hne : String.eqb (d +:+ String Path.slash x) "" = false).
      { apply String.eqb_neq. destruct d; discriminate. }
      rewrite Hne.
      destruct (Path.is_slash c0).
      + change ("/" +:+ d +:+ String Path.slash x)
          with (("/" +:+ d) +:+ String Path.slash x).
        apply last_segment_of_file; assumption.
      + apply last_segment_of_file; assumption. }
  unfold Path.join.
  apply String.eqb_neq in Hx as Hxe. rewrite Hxe.
  destruct (String.eqb_spec a "") as [-> | Ha].
  - apply Hnorm; [exact Hx | |].
    + exists []. apply split_lacks. exact Hlacks.
    + apply endsWith_slash_lacks; assumption.
  - apply Hnorm.
    + destruct a; [congruence | discriminate].
    + exists (Js.split Path.slash a).
      change (a +:+ "/" +:+ x) with (a +:+ String Path.slash x).
      rewrite split_app, (split_lacks _ _ Hlacks). reflexivity.
    + change (a +:+ "/" +:+ x) with (a +:+ String Path.slash x).
      apply not_trailing_slash; assumption.
Qed.

End CursorFacts.

Section CursorProperties.

Import Cursor.

(** X19.  The Cursor writer never nests [.cursor] in [.cursor]: whatever
    the output root, the root it writes to has the base name [.cursor]; an
    output root that already has that base name is used as it is; and
    resolving the paths again from the resolved root gives the same paths.
    Each of the four destinations has its own fixed base name. *)
Theorem cursor_root_is_not_nested (outputRoot : string) :
  let paths := resolveCursorPaths outputRoot in
  Path.basename (paths_root paths) = ".cursor" /\
  (Path.basename outputRoot = ".cursor" -> paths_root paths = outputRoot) /\
  resolveCursorPaths (paths_root paths) = paths /\
  Path.basename (rulesDir paths) = "rules" /\
  Path.basename (commandsDir paths) = "commands" /\
  Path.basename (skillsDir paths) = "skills" /\
  Path.basename (mcpPath paths) = "mcp.json".
Proof.
  cbv zeta.
  assert (Hroot : Path.basename (paths_root (resolveCursorPaths outputRoot)) = ".cursor").
  { unfold resolveCursorPaths. cbn [paths_root].
    destruct (String.eqb_spec (Path.basename outputRoot) ".cursor") as [Heq | Hne];
      [exact Heq | apply basename_join; reflexivity]. }
  split; [exact Hroot |]. split.
  - intros Heq. unfold resolveCursorPaths. cbn [paths_root].
    rewrite Heq. reflexivity.
  - split.
    + unfold resolveCursorPaths at 1. rewrite Hroot. reflexivity.
    + unfold resolveCursorPaths. cbn [rulesDir commandsDir skillsDir mcpPath].
      repeat split; apply basename_join; reflexivity.
Qed.

End CursorProperties.

(** ** Single files, plans and cancellation *)

Section SingleFacts.

Import Mapping Engine Fs Spec Single.

Lemma loadSingleFile_run (filePath : string) (w : World) :
  loadSingleFile filePath w =
  (Ok match fs w !! filePath with
      | None => None
      | Some f =>
          if is_todo (file_data f) then
            Some (LoadedTodo {| todo_path := filePath;
                                todo_frontmatter := frontmatter_of (file_data f);
                                todo_body := file_body f |})
          else if is_planned (file_data f) then
            let planFm := plan_of (file_data f)
                            (JsDate.date_part (JsDate.toISOString (clock w))) in
            Some (LoadedPlan (plan_todo filePath planFm (file_body f)) planFm)
          else None
      end, w).
Proof.
  unfold loadSingleFile, se_bind at 1. unfold pathExists, gets.
  destruct (fs w !! filePath) as [f|] eqn:Hf.
  - rewrite bool_decide_eq_true_2 by (eexists; reflexivity). cbn [negb].
    unfold se_bind at 1. unfold readText. rewrite Hf.
    unfold parseFrontmatter. cbn iota beta.
    destruct (is_todo (file_data f)); [reflexivity |].
    destruct (is_planned (file_data f)); reflexivity.
  - rewrite bool_decide_eq_false_2 by (intros [x Hx]; discriminate). reflexivity.
Qed.

Lemma planStatus_member (s : string) :
  In (planStatusToTodoStatus s) ["pending"; "in_progress"; "complete"].
Proof.
  unfold planStatusToTodoStatus. cbv zeta.
  destruct (String.eqb _ "draft"); [simpl; tauto |].
  destruct (String.eqb _ "active"); [simpl; tauto |].
  destruct (String.eqb _ "completed"); simpl; tauto.
Qed.

End SingleFacts.

Section SingleProperties.

Import Mapping Engine Fs Spec Single Examples.

(** X20.  Loading one file agrees with loading the directory: every record
    of the directory is what [loadSingleFile] returns for its path, as a
    todo; a path without a file gives nothing; and loading never writes. *)
Theorem single_load_agrees_with_directory
    (todosDir filePath : string) (w : World) :
  (forall todo, In todo (todosOf todosDir w) ->
     loadSingleFile (todo_path todo) w = (Ok (Some (LoadedTodo todo)), w)) /\
  (fs w !! filePath = None -> loadSingleFile filePath w = (Ok None, w)) /\
  snd (loadSingleFile filePath w) = w.
Proof.
  split; [| split].
  - intros todo Hin. apply todosOf_In in Hin as (f & Hf & _ & _ & Htodo & Hfm & Hbody).
    rewrite loadSingleFile_run, Hf, Htodo. rewrite <- Hfm, <- Hbody.
    destruct todo. reflexivity.
  - intros Hnone. rewrite loadSingleFile_run, Hnone. reflexivity.
  - rewrite loadSingleFile_run. reflexivity.
Qed.

(** X21.  A file that is loaded as a plan lacks one of the three todo
    fields; the record synthesised for it has a status of the closed
    enumeration (pending, in_progress or complete, by the plan's status
    compared without regard to case), the priority p3, the placeholder
    number 000, and for its link the plan's [linear_issue]. *)
Theorem plan_is_pushed_as_a_todo
    (filePath : string) (w w' : World) (file : TodoFile) (planFm : PlanFrontmatter) :
  loadSingleFile filePath w = (Ok (Some (LoadedPlan file planFm)), w') ->
  let fm := todo_frontmatter file in
  w' = w /\
  (exists f, fs w !! filePath = Some f /\ is_todo (file_data f) = false /\
             todo_body file = file_body f /\
             plan_linear_issue planFm = string_opt (file_data f !! "linear_issue")) /\
  todo_path file = filePath /\
  fm_status fm = planStatusToTodoStatus (plan_status planFm) /\
  In (fm_status fm) ["pending"; "in_progress"; "complete"] /\
  In (fm_status fm) statuses /\
  fm_priority fm = "p3" /\ fm_issue_id fm = "000" /\
  fm_linear_id fm = plan_linear_issue planFm /\
  forall config, filePriorityToLinear (fm_priority fm) config = pm_p3 (priorityMap config).
Proof.
  rewrite loadSingleFile_run. intros Hrun fm. injection Hrun as Hload <-.
  destruct (fs w !! filePath) as [f|] eqn:Hf; [| discriminate].
  destruct (is_todo (file_data f)) eqn:Htodo; [discriminate |].
  destruct (is_planned (file_data f)); [| discriminate].
  cbv zeta in Hload. injection Hload as <- <-.
  unfold fm. cbn [todo_frontmatter plan_todo fm_status fm_priority fm_issue_id
                  fm_linear_id todo_path todo_body plan_of plan_linear_issue plan_status].
  pose proof (planStatus_member (default "" (String_of <$> file_data f !! "status")))
    as Hmem.
  split; [reflexivity |].
  split; [exists f; repeat split; try assumption; reflexivity |].
  split; [reflexivity |]. split; [reflexivity |]. split; [exact Hmem |].
  split.
  { unfold statuses. simpl in Hmem. simpl.
    destruct Hmem as [<- | [<- | [<- | []]]]; tauto. }
  repeat split.
Qed.

(** The plan of the example, whose status is Active. *)
Lemma plan_example :
  exists file planFm,
    loadSingleFile MoreExamples.planPath MoreExamples.planWorld
    = (Ok (Some (LoadedPlan file planFm)), MoreExamples.planWorld) /\
    fm_status (todo_frontmatter file) = "in_progress" /\
    fm_priority (todo_frontmatter file) = "p3".
Proof.
  destruct (loadSingleFile MoreExamples.planPath MoreExamples.planWorld)
    as [[[[file|file planFm]|]|e] w'] eqn:Hrun;
    try (vm_compute in Hrun; discriminate).
  destruct (plan_is_pushed_as_a_todo _ _ _ _ _ Hrun)
    as (-> & _ & _ & Hst & _ & _ & Hpr & _).
  exists file, planFm. split; [reflexivity |]. split; [| exact Hpr].
  rewrite Hst.
  assert (Hplan : plan_status planFm = "Active").
  { vm_compute in Hrun. injection Hrun as Hfile Hp. rewrite <- Hp. reflexivity. }
  rewrite Hplan. reflexivity.
Defined.

End SingleProperties.

(** ** The subcommands *)

Section CommandFacts.

Import Mapping Engine Fs Spec Single Commands.

Lemma update_both_at (path : string) (updates : gmap string Value)
    (w w' : World) (r : Res unit) (p : string) :
  updateTodoFrontmatter path updates w = (r, w') ->
  both_at p (fs w) -> both_at p (fs w').
Proof.
  rewrite updateTodoFrontmatter_run. intros Hrun (g & Hg & Hl & Hs).
  destruct (fs w !! path) as [f|] eqn:Hf; injection Hrun as _ <-;
    [| exists g; auto].
  cbn [fs set_fs].
  destruct (decide (p = path)) as [-> | Hne].
  - rewrite Hf in Hg. injection Hg as <-.
    eexists. split; [apply lookup_insert_eq |]. cbn [file_data stampedFile].
    split; [apply merge_linked | apply merge_stamped]; left; assumption.
  - exists g. rewrite lookup_insert_ne by congruence. auto.
Qed.

Lemma update_stamps (path now : string) (w w' : World) :
  updateTodoFrontmatter path {["linear_synced_at" := VStr now]} w = (Ok tt, w') ->
  linked_at path (fs w) -> both_at path (fs w').
Proof.
  rewrite updateTodoFrontmatter_run. intros Hrun Hat.
  destruct (fs w !! path) as [f|] eqn:Hf; [| discriminate].
  injection Hrun as <-. cbn [fs set_fs].
  eexists. split; [apply lookup_insert_eq |]. cbn [file_data stampedFile].
  split.
  - apply merge_linked. left. apply Hat. exact Hf.
  - apply merge_stamped. right. right. rewrite lookup_singleton_eq. eexists. reflexivity.
Qed.

Lemma pushUpdate_both_at (todo : TodoFile) (config : LinearConfig)
    (states : list LinearState) (w w' : World) (r : Res unit) (p : string) :
  pushUpdate todo config states w = (r, w') ->
  both_at p (fs w) -> both_at p (fs w').
Proof.
  intros Hrun Hp.
  destruct (fm_linear_id (todo_frontmatter todo)) as [lid|] eqn:Hlid.
  2:{ unfold pushUpdate in Hrun. rewrite Hlid in Hrun. injection Hrun as _ <-. exact Hp. }
  destruct (String.eqb_spec lid "") as [-> | Hne].
  { unfold pushUpdate in Hrun. rewrite Hlid in Hrun. injection Hrun as _ <-. exact Hp. }
  rewrite (pushUpdate_run todo config states lid w Hlid Hne) in Hrun.
  destruct (Api.find_issue lid (remote w)) as [issue|];
    [| injection Hrun as _ <-; exact Hp].
  cbv zeta in Hrun.
  destruct (Api.nonempty_input (pushInput todo config states issue)).
  - destruct (Api.updateIssue (issue_uuid issue) (pushInput todo config states issue) w)
      as [[i|e] w1] eqn:Hup; apply updateIssue_fs in Hup.
    + eapply update_both_at; [exact Hrun | rewrite Hup; exact Hp].
    + injection Hrun as _ <-. rewrite Hup. exact Hp.
  - eapply update_both_at; [exact Hrun | exact Hp].
Qed.

Lemma pushUpdate_links (todo : TodoFile) (config : LinearConfig)
    (states : list LinearState) (w w' : World) :
  Store.set (fm_linear_id (todo_frontmatter todo)) = true ->
  pushUpdate todo config states w = (Ok tt, w') ->
  linked_at (todo_path todo) (fs w) ->
  both_at (todo_path todo) (fs w').
Proof.
  intros Hset Hrun Hat.
  destruct (set_true _ Hset) as (lid & Hlid & Hne).
  rewrite (pushUpdate_run todo config states lid w Hlid Hne) in Hrun.
  destruct (Api.find_issue lid (remote w)) as [issue|]; [| discriminate].
  cbv zeta in Hrun.
  destruct (Api.nonempty_input (pushInput todo config states issue)).
  - destruct (Api.updateIssue (issue_uuid issue) (pushInput todo config states issue) w)
      as [[i|e] w1] eqn:Hup; [| discriminate].
    apply updateIssue_fs in Hup.
    eapply update_stamps; [exact Hrun | rewrite Hup; exact Hat].
  - eapply update_stamps; [exact Hrun | exact Hat].
Qed.

Lemma pushCreate_both_at (todo : TodoFile) (config : LinearConfig)
    (states : list LinearState) (parent : option string) (skip : bool)
    (w w' : World) (r : Res string) (p : string) :
  pushCreate todo config states parent skip w = (r, w') ->
  both_at p (fs w) -> both_at p (fs w').
Proof.
  unfold pushCreate. cbv zeta. unfold se_bind at 1.
  destruct (Api.createIssue _ w) as [[issue|e] w1] eqn:Hcreate;
    apply createIssue_fs in Hcreate; rewrite <- Hcreate;
    [| intros H; injection H as _ <-; auto].
  unfold se_bind at 1. destruct skip.
  - unfold se_ret, se_bind. intros H. injection H as _ <-. auto.
  - unfold se_bind at 1. unfold now_iso, gets.
    destruct (updateTodoFrontmatter (todo_path todo)
                (<["linear_id" := VStr (issue_identifier issue)]>
                   {["linear_synced_at" := VStr (JsDate.toISOString (clock w1))]}) w1)
      as [[[]|e] w2] eqn:Hup; unfold se_ret;
      intros H; injection H as _ <-; eapply update_both_at; exact Hup.
Qed.

(** The loop of the push command. *)
Lemma pushEach_spec (config : LinearConfig) (states : list LinearState)
    (todos : list TodoFile) (created updated created' updated' : Z) (w w' : World) :
  (forall t, In t todos -> Store.set (fm_linear_id (todo_frontmatter t)) = true ->
     linked_at (todo_path t) (fs w)) ->
  pushEach config states todos created updated w = (Ok (created', updated'), w') ->
  created' + updated' = created + updated + Z.of_nat (length todos) /\
  created' = created
             + Z.of_nat (length (List.filter
                 (fun t => negb (Store.set (fm_linear_id (todo_frontmatter t)))) todos)) /\
  (forall p, both_at p (fs w) -> both_at p (fs w')) /\
  forall t, In t todos -> both_at (todo_path t) (fs w').
Proof.
  revert created updated w. induction todos as [|todo rest IH];
    intros created updated w Hlinked Hrun.
  - injection Hrun as <- <- <-. cbn [length List.filter]. repeat split; auto; try lia.
    intros t [].
  - cbn [pushEach] in Hrun.
    destruct (Store.set (fm_linear_id (todo_frontmatter todo))) eqn:Hset.
    + unfold se_bind at 1 in Hrun.
      destruct (pushUpdate todo config states w) as [[[]|e] w1] eqn:Hpush;
        [| discriminate].
      assert (Hat : linked_at (todo_path todo) (fs w))
        by (apply Hlinked; [left; reflexivity | exact Hset]).
      pose proof (pushUpdate_safe _ _ _ _ _ _ Hpush Hat) as [_ Hkeep].
      destruct (IH created (updated + 1) w1) as (Hsum & Hcount & Hboth & Hall);
        [| exact Hrun |].
      { intros t Ht Hs. apply Hkeep, Hlinked; [right; exact Ht | exact Hs]. }
      cbn [length List.filter]. rewrite Hset. cbn [negb].
      split; [lia |]. split; [exact Hcount |].
      split.
      { intros p Hp. apply Hboth. eapply pushUpdate_both_at; eassumption. }
      intros t [<- | Ht]; [| apply Hall; exact Ht].
      apply Hboth. eapply pushUpdate_links; eassumption.
    + unfold se_bind at 1 in Hrun.
      destruct (pushCreate todo config states None false w) as [[id|e] w1] eqn:Hpush;
        [| discriminate].
      pose proof (pushCreate_safe _ _ _ _ _ _ _ _ Hpush) as [_ Hkeep].
      destruct (IH (created + 1) updated w1) as (Hsum & Hcount & Hboth & Hall);
        [| exact Hrun |].
      { intros t Ht Hs. apply Hkeep, Hlinked; [right; exact Ht | exact Hs]. }
      cbn [length List.filter]. rewrite Hset. cbn [negb length].
      split; [lia |]. split; [lia |].
      split.
      { intros p Hp. apply Hboth. eapply pushCreate_both_at; eassumption. }
      intros t [<- | Ht]; [| apply Hall; exact Ht].
      apply Hboth.
      destruct (pushCreate_links _ _ _ _ _ _ _ Hpush) as (f' & Hf' & Hid & Hst).
      exists f'. split; [exact Hf' |]. split; [eexists; exact Hid | exact Hst].
Qed.

Lemma pullComments_remote (issue : LinearIssue) (path since : string)
    (w w' : World) (r : Res Z) :
  pullCommentsFromIssue issue path since w = (r, w') -> remote w' = remote w.
Proof.
  rewrite pullComments_run.
  destruct (newCommentsSince issue since); [intros H; injection H as _ <-; reflexivity |].
  destruct (fs w !! path); intros H; injection H as _ <-; reflexivity.
Qed.

Lemma pullState_remote (issue : LinearIssue) (path : string) (config : LinearConfig)
    (w w' : World) (r : Res PullResult) :
  pullStateFromIssue issue path config w = (r, w') -> remote w' = remote w.
Proof.
  destruct (fs w !! path) as [f|] eqn:Hf.
  - destruct (pullStateFromIssue_spec issue path config w f Hf)
      as (res & data' & w1 & Hrun & _ & Hremote & _).
    rewrite Hrun. intros H. injection H as _ <-. exact Hremote.
  - unfold pullStateFromIssue, se_bind at 1. unfold readText. rewrite Hf.
    intros H. injection H as _ <-. reflexivity.
Qed.

Lemma fetch_remote {A} (linearId : string) (k : LinearIssue -> W A)
    (w w' : World) (r : Res A) :
  (forall issue w1 r1, k issue w = (r1, w1) -> remote w1 = remote w) ->
  (issue <- Api.getIssueByIdentifier linearId ;; k issue)%se w = (r, w') ->
  remote w' = remote w.
Proof.
  intros Hk. unfold se_bind, Api.getIssueByIdentifier.
  destruct (Api.find_issue linearId (remote w)) as [issue|].
  - apply Hk.
  - intros H. injection H as _ <-. reflexivity.
Qed.

Lemma pullEach_remote (config : LinearConfig) (todos : list TodoFile) (acc : Pulled)
    (w w' : World) (r : Res Pulled) :
  pullEach config todos acc w = (r, w') -> remote w' = remote w.
Proof.
  revert acc w. induction todos as [|todo rest IH]; intros acc w Hrun.
  - injection Hrun as _ <-. reflexivity.
  - cbn [pullEach] in Hrun. cbv zeta in Hrun.
    destruct (Store.set (fm_linear_id (todo_frontmatter todo))); cbn [negb] in Hrun;
      [| eapply IH; exact Hrun].
    unfold se_bind at 1 in Hrun.
    destruct (pullState _ (todo_path todo) config w) as [[res|e] w1] eqn:Hstate.
    2:{ injection Hrun as _ <-. unfold pullState in Hstate.
        eapply fetch_remote; [| exact Hstate].
        intros issue w2 r1. apply pullState_remote. }
    assert (H1 : remote w1 = remote w).
    { unfold pullState in Hstate. eapply fetch_remote; [| exact Hstate].
      intros issue w2 r1. apply pullState_remote. }
    unfold se_bind at 1 in Hrun.
    destruct (Store.set (fm_linear_synced_at (todo_frontmatter todo))).
    + destruct (pullComments _ _ _ w1) as [[n|e] w2] eqn:Hcomments.
      * assert (H2 : remote w2 = remote w1).
        { unfold pullComments in Hcomments. eapply fetch_remote; [| exact Hcomments].
          intros issue w3 r1. apply pullComments_remote. }
        rewrite <- H1, <- H2. eapply IH. exact Hrun.
      * injection Hrun as _ <-. rewrite <- H1.
        unfold pullComments in Hcomments. eapply fetch_remote; [| exact Hcomments].
        intros issue w3 r1. apply pullComments_remote.
    + unfold se_ret in Hrun. rewrite <- H1. eapply IH. exact Hrun.
Qed.

Lemma pullNewIssues_remote (config : LinearConfig) (todosDir : string)
    (ids : gset string) (maxId : option Z) (w : World) :
  remote (snd (pullNewIssues config todosDir ids maxId w)) = remote w.
Proof.
  rewrite pullNewIssues_run. cbv zeta.
  destruct (List.filter _ _) as [|i rest]; [reflexivity |].
  destruct (importEach_fields (i :: rest) config todosDir
              (if default 0 maxId =? 0 then maxIssueIdOf 0 (todosOf todosDir w)
               else default 0 maxId) w)
    as (created & w' & Hrun & Hremote & _).
  rewrite Hrun. exact Hremote.
Qed.

End CommandFacts.

Section CommandProperties.

Import Mapping Engine Fs Spec Single Commands Examples.

(** X22.  When the push command succeeds, every record of the directory is
    linked and stamped on disk; the two counts add up to the number of
    records, the created ones being those that had no link. *)
Theorem push_command_links_every_record
    (todosDir : string) (config : LinearConfig) (w w' : World) (created updated : Z) :
  pushCommand todosDir config w = (Ok (created, updated), w') ->
  created + updated = Z.of_nat (length (todosOf todosDir w)) /\
  created = Z.of_nat (length (List.filter
              (fun t => negb (Store.set (fm_linear_id (todo_frontmatter t))))
              (todosOf todosDir w))) /\
  forall todo, In todo (todosOf todosDir w) -> both_at (todo_path todo) (fs w').
Proof.
  unfold pushCommand, se_bind at 1. unfold Api.listStates, gets.
  unfold se_bind at 1. rewrite loadTodoFiles_pure. intros Hrun.
  destruct (pushEach_spec _ _ _ _ _ _ _ _ _
              (fun t Ht Hs => loaded_linked todosDir w t Ht Hs) Hrun)
    as (Hsum & Hcount & _ & Hall).
  split; [lia |]. split; [lia | exact Hall].
Qed.

(** The fresh world: one record, created as ENG-100. *)
Lemma push_command_example :
  exists w',
    pushCommand "/w/todos" defaultConfig MoreExamples.freshWorld = (Ok (1, 0), w') /\
    both_at MoreExamples.freshPath (fs w').
Proof.
  exists (snd (pushCommand "/w/todos" defaultConfig MoreExamples.freshWorld)).
  assert (Hrun : pushCommand "/w/todos" defaultConfig MoreExamples.freshWorld
                 = (Ok (1, 0),
                    snd (pushCommand "/w/todos" defaultConfig MoreExamples.freshWorld)))
    by (vm_compute; reflexivity).
  split; [exact Hrun |].
  destruct (push_command_links_every_record _ _ _ _ _ _ Hrun) as (_ & _ & Hall).
  apply (Hall (todoOf MoreExamples.freshPath MoreExamples.freshFile)).
  vm_compute. left. reflexivity.
Defined.

(** X23.  The pull command never changes anything remote, whether it
    succeeds or stops at an error. *)
Theorem pull_command_leaves_the_remote
    (todosDir : string) (config : LinearConfig) (w : World) :
  remote (snd (pullCommand todosDir config w)) = remote w.
Proof.
  unfold pullCommand, se_bind at 1. rewrite loadTodoFiles_pure.
  unfold se_bind at 1.
  destruct (pullEach config (todosOf todosDir w) _ w) as [[acc|e] w1] eqn:Heach;
    apply pullEach_remote in Heach; [| exact Heach].
  unfold se_bind at 1.
  pose proof (pullNewIssues_remote config todosDir (existingIds acc) None w1) as Hnew.
  destruct (pullNewIssues config todosDir (existingIds acc) None w1) as [[created|e] w2];
    cbn [snd] in *; unfold se_ret; cbn [snd]; congruence.
Qed.

End CommandProperties.

(** ** Creating and cancelling one issue *)

Section CreateFacts.

Import Mapping Engine Fs Spec Single Commands.

Lemma identifier_nonempty (key number : string) : key +:+ "-" +:+ number <> "".
Proof. destruct key; discriminate. Qed.

(** What a successful [pushCreate] has done. *)
Lemma pushCreate_result (todo : TodoFile) (config : LinearConfig)
    (states : list LinearState) (parent : option string) (skip : bool)
    (w w' : World) (identifier : string) :
  pushCreate todo config states parent skip w = (Ok identifier, w') ->
  exists issue w0,
    remote_issues (remote w0) = remote_issues (remote w) ++ [issue] /\
    fs w0 = fs w /\ clock w0 = clock w /\
    identifier = issue_identifier issue /\ identifier <> "" /\
    if skip then w' = w0
    else updateTodoFrontmatter (todo_path todo)
           (<["linear_id" := VStr identifier]>
              {["linear_synced_at" := VStr (JsDate.toISOString (clock w0))]}) w0
         = (Ok tt, w').
Proof.
  unfold pushCreate. cbv zeta. unfold se_bind at 1.
  destruct (Api.createIssue _ w) as [[issue|e] w0] eqn:Hcreate; [| discriminate].
  intros Hrun. exists issue, w0.
  split; [eapply createIssue_remote; exact Hcreate |].
  split; [eapply createIssue_fs; exact Hcreate |].
  assert (Hid : issue_identifier issue <> "" /\ clock w0 = clock w).
  { unfold Api.createIssue in Hcreate.
    destruct (Api.resolve_state _ _ (remote w)); [| discriminate].
    injection Hcreate as <- <-. cbn [issue_identifier]. split; [| reflexivity].
    apply identifier_nonempty. }
  destruct Hid as [Hne Hclock]. split; [exact Hclock |].
  unfold se_bind at 1 in Hrun. destruct skip.
  - unfold se_ret in Hrun. injection Hrun as <- <-.
    split; [reflexivity |]. split; [exact Hne | reflexivity].
  - unfold se_bind at 1 in Hrun. unfold now_iso, gets in Hrun.
    destruct (updateTodoFrontmatter (todo_path todo)
                (<["linear_id" := VStr (issue_identifier issue)]>
                   {["linear_synced_at" := VStr (JsDate.toISOString (clock w0))]}) w0)
      as [[[]|e] w2] eqn:Hup; [| discriminate].
    unfold se_ret in Hrun. injection Hrun as <- <-.
    split; [reflexivity |]. split; [exact Hne | exact Hup].
Qed.

Lemma updatePlanFrontmatter_run (path identifier now : string) (w : World) :
  updatePlanFrontmatter path
    {| pu_linear_issue := Some identifier; pu_linear_synced_at := Some now |} w =
  match fs w !! path with
  | Some f =>
      (Ok tt,
       set_fs (insert path
                 (stampedFile f
                    (<["linear_synced_at" := VStr now]>
                       (<["linear_synced_at" := VStr now]>
                          (<["linear_issue" := VStr identifier]> ∅) ∪ file_data f)) w)) w)
  | None => (Err (enoent "open" path), w)
  end.
Proof.
  unfold updatePlanFrontmatter, se_bind, readText, parseFrontmatter, now_iso,
    gets, writeText, formatFrontmatter.
  destruct (fs w !! path) as [f|]; reflexivity.
Qed.

(** The keys a link leaves alone. *)
Lemma merge_other (data : gmap string Value) (identifier s now k : string) :
  k <> "linear_id" -> k <> "linear_synced_at" ->
  merge_updates data
    (<["linear_id" := VStr identifier]> {["linear_synced_at" := VStr s]}) now !! k
  = data !! k.
Proof.
  intros H1 H2. unfold merge_updates. cbv zeta.
  rewrite lookup_insert_eq.
  rewrite (bool_decide_eq_true_2 (is_Some (Some (VStr identifier)))) by (eexists; reflexivity).
  cbn [orb]. rewrite lookup_insert_ne by congruence.
  rewrite lookup_union_r; [reflexivity |].
  rewrite lookup_insert_ne by congruence. apply lookup_singleton_ne. congruence.
Qed.

Lemma merge_link (data : gmap string Value) (identifier s now : string) :
  merge_updates data
    (<["linear_id" := VStr identifier]> {["linear_synced_at" := VStr s]}) now
    !! "linear_id"
  = Some (VStr identifier).
Proof.
  unfold merge_updates. cbv zeta.
  rewrite lookup_insert_eq.
  rewrite (bool_decide_eq_true_2 (is_Some (Some (VStr identifier)))) by (eexists; reflexivity).
  cbn [orb]. rewrite lookup_insert_ne by discriminate.
  apply lookup_union_Some_l, lookup_insert_eq.
Qed.

Lemma plan_other (data : gmap string Value) (identifier now k : string) :
  k <> "linear_issue" -> k <> "linear_synced_at" ->
  (<["linear_synced_at" := VStr now]>
     (<["linear_synced_at" := VStr now]> (<["linear_issue" := VStr identifier]> ∅) ∪ data))
    !! k
  = data !! k.
Proof.
  intros H1 H2. rewrite lookup_insert_ne by congruence.
  rewrite lookup_union_r; [reflexivity |].
  rewrite !lookup_insert_ne by congruence. apply lookup_empty.
Qed.

Lemma plan_link (data : gmap string Value) (identifier now : string) :
  (<["linear_synced_at" := VStr now]>
     (<["linear_synced_at" := VStr now]> (<["linear_issue" := VStr identifier]> ∅) ∪ data))
    !! "linear_issue"
  = Some (VStr identifier).
Proof.
  rewrite lookup_insert_ne by discriminate.
  apply lookup_union_Some_l. rewrite lookup_insert_ne by discriminate.
  apply lookup_insert_eq.
Qed.

Lemma string_opt_text (s : string) : s <> "" -> string_opt (Some (VStr s)) = Some s.
Proof.
  intros Hne. unfold string_opt, truthy.
  rewrite (proj2 (String.eqb_neq s "") Hne). reflexivity.
Qed.

Lemma set_text (s : string) : s <> "" -> Store.set (Some s) = true.
Proof.
  intros Hne. unfold Store.set. rewrite (proj2 (String.eqb_neq s "") Hne). reflexivity.
Qed.

(** Looking up the parent reads only. *)
Lemma parent_world (parent : option string) (w w0 : World) (r : Res (option string)) :
  (if Store.set parent
   then (parentIssue <- Api.getIssueByIdentifier (default "" parent) ;;
         se_ret (Some (issue_uuid parentIssue)))%se
   else se_ret None) w = (r, w0) ->
  w0 = w.
Proof.
  destruct (Store.set parent).
  - unfold se_bind, Api.getIssueByIdentifier, se_ret.
    destruct (Api.find_issue _ (remote w)); intros H; injection H as _ <-; reflexivity.
  - unfold se_ret. intros H. injection H as _ <-. reflexivity.
Qed.

End CreateFacts.

Section CreateProperties.

Import Mapping Engine Fs Spec Single Commands Examples.

(** X24.  The create command links a file once.  After a run that created
    an issue, the remote holds exactly one more issue, with the reported
    identifier; the file keeps its body and carries the identifier, under
    [linear_id] for a todo and under [linear_issue] for a plan, whose
    [linear_id] is left as it was; and a second run on the same file
    creates nothing: it reports the file as already linked to that
    identifier and leaves everything unchanged. *)
Theorem create_command_links_once
    (filePath : string) (parent : option string) (config : LinearConfig)
    (w w1 : World) (identifier : string) :
  createCommand filePath parent config w = (Ok (CreatedAs identifier), w1) ->
  createCommand filePath parent config w1 = (Ok (AlreadyLinked identifier), w1) /\
  (exists issue, remote_issues (remote w1) = remote_issues (remote w) ++ [issue] /\
                 issue_identifier issue = identifier) /\
  exists f f1,
    fs w !! filePath = Some f /\ fs w1 !! filePath = Some f1 /\
    file_body f1 = file_body f /\
    if is_todo (file_data f)
    then file_data f1 !! "linear_id" = Some (VStr identifier)
    else file_data f1 !! "linear_issue" = Some (VStr identifier) /\
         file_data f1 !! "linear_id" = file_data f !! "linear_id".
Proof.
  unfold createCommand at 1. unfold se_bind at 1. unfold Api.listStates, gets.
  unfold se_bind at 1. rewrite loadSingleFile_run.
  destruct (fs w !! filePath) as [f|] eqn:Hf; [| discriminate].
  destruct (is_todo (file_data f)) eqn:Htodo.
  - cbn [loaded_file is_plan todo_frontmatter].
    destruct (Store.set (fm_linear_id (frontmatter_of (file_data f)))); [discriminate |].
    unfold se_bind at 1.
    match goal with
    | |- context [(if Store.set parent then ?a else ?b) w] =>
        destruct ((if Store.set parent then a else b) w) as [[pid|e] w0] eqn:Hparent;
          [| discriminate]
    end.
    apply parent_world in Hparent. subst w0.
    unfold se_bind at 1.
    destruct (pushCreate _ config _ pid false w) as [[id|e] w2] eqn:Hpush; [| discriminate].
    unfold se_bind at 1. unfold se_ret. intros H. injection H as <- <-.
    destruct (pushCreate_result _ _ _ _ _ _ _ _ Hpush)
      as (issue & w0 & Hremote & Hfs & Hclock & Hid & Hne & Hup).
    cbn [todo_path] in Hup. rewrite updateTodoFrontmatter_run, Hfs, Hf in Hup.
    injection Hup as <-.
    split.
    { unfold createCommand, se_bind at 1. unfold Api.listStates, gets.
      unfold se_bind at 1. rewrite loadSingleFile_run.
      cbn [fs set_fs]. rewrite lookup_insert_eq.
      cbn [file_data stampedFile file_body].
      unfold is_todo. rewrite !merge_other by discriminate.
      fold (is_todo (file_data f)). rewrite Htodo.
      cbn [loaded_file todo_frontmatter frontmatter_of fm_linear_id].
      rewrite merge_link, (string_opt_text id Hne), (set_text id Hne).
      reflexivity. }
    split; [exists issue; split; [exact Hremote | symmetry; exact Hid] |].
    exists f. eexists. split; [reflexivity |].
    cbn [fs set_fs]. split; [apply lookup_insert_eq |].
    cbn [file_data stampedFile file_body]. split; [reflexivity |].
    rewrite Htodo. apply merge_link.
  - destruct (is_planned (file_data f)) eqn:Hplan; [| discriminate].
    cbv zeta. cbn [loaded_file is_plan].
    destruct (Store.set (fm_linear_id (todo_frontmatter (plan_todo _ _ _))));
      [discriminate |].
    unfold se_bind at 1.
    match goal with
    | |- context [(if Store.set parent then ?a else ?b) w] =>
        destruct ((if Store.set parent then a else b) w) as [[pid|e] w0] eqn:Hparent;
          [| discriminate]
    end.
    apply parent_world in Hparent. subst w0.
    unfold se_bind at 1.
    destruct (pushCreate _ config _ pid true w) as [[id|e] w2] eqn:Hpush; [| discriminate].
    destruct (pushCreate_result _ _ _ _ _ _ _ _ Hpush)
      as (issue & w0 & Hremote & Hfs & Hclock & Hid & Hne & Hup).
    subst w2.
    unfold se_bind at 1. unfold se_bind at 1. unfold now_iso, gets.
    rewrite updatePlanFrontmatter_run, Hfs, Hf.
    unfold se_ret. intros H. injection H as <- <-.
    split.
    { unfold createCommand, se_bind at 1. unfold Api.listStates, gets.
      unfold se_bind at 1. rewrite loadSingleFile_run.
      cbn [fs set_fs]. rewrite lookup_insert_eq.
      cbn [file_data stampedFile file_body].
      unfold is_todo, is_planned. rewrite !plan_other by discriminate.
      fold (is_todo (file_data f)). fold (is_planned (file_data f)).
      rewrite Htodo, Hplan. cbv zeta.
      cbn [loaded_file todo_frontmatter plan_todo fm_linear_id plan_of plan_linear_issue].
      rewrite plan_link, (string_opt_text id Hne), (set_text id Hne).
      reflexivity. }
    split; [exists issue; split; [exact Hremote | symmetry; exact Hid] |].
    exists f. eexists. split; [reflexivity |].
    cbn [fs set_fs]. split; [apply lookup_insert_eq |].
    cbn [file_data stampedFile file_body]. split; [reflexivity |].
    rewrite Htodo. split; [apply plan_link | apply plan_other; discriminate].
Qed.

(** A plan file, created as ENG-100. *)
Lemma create_plan_example :
  exists w1,
    createCommand MoreExamples.planPath None defaultConfig MoreExamples.planWorld
    = (Ok (CreatedAs "ENG-100"), w1) /\
    createCommand MoreExamples.planPath None defaultConfig w1
    = (Ok (AlreadyLinked "ENG-100"), w1).
Proof.
  destruct (createCommand MoreExamples.planPath None defaultConfig MoreExamples.planWorld)
    as [r w1] eqn:Hrun.
  assert (Hr : r = Ok (CreatedAs "ENG-100")).
  { change r with
      (fst (r, w1)). rewrite <- Hrun. vm_compute. reflexivity. }
  subst r. exists w1. split; [reflexivity |].
  exact (proj1 (create_command_links_once _ _ _ _ _ _ Hrun)).
Defined.

End CreateProperties.

(** ** Cancelling an issue *)

Section CancelProperties.

Import Mapping Engine Fs Spec Single Examples.

(** X25.  Cancelling against states none of which is a cancelled one (by
    type [canceled] or by name [cancelled], case ignored) and without a
    comment succeeds for an existing issue and changes nothing, neither
    remote nor local. *)
Theorem cancel_without_cancelled_state_is_silent
    (linearId : string) (states : list LinearState) (comment : option string)
    (issue : LinearIssue) (w : World) :
  Api.find_issue linearId (remote w) = Some issue ->
  (forall s, In s states ->
     state_type s <> "canceled" /\ Js.toLowerCase (state_name s) <> "cancelled") ->
  Store.set comment = false ->
  pushCancel linearId states comment w = (Ok tt, w).
Proof.
  intros Hissue Hnone Hcomment.
  unfold pushCancel, se_bind at 1. unfold Api.getIssueByIdentifier. rewrite Hissue.
  cbv zeta.
  assert (Hfind : find is_cancelled_state states = None).
  { destruct (find is_cancelled_state states) as [s|] eqn:Hs; [| reflexivity].
    apply find_some in Hs as [Hin Hs]. destruct (Hnone s Hin) as [Ht Hn].
    unfold is_cancelled_state in Hs. apply orb_true_iff in Hs as [Hs | Hs];
      apply String.eqb_eq in Hs; contradiction. }
  rewrite Hfind, Hcomment. reflexivity.
Qed.

(** A team whose only closing state is Done. *)
Lemma cancel_without_cancelled_state_example :
  pushCancel "ENG-1" (firstn 4 teamStates) None MoreExamples.doneWorld
  = (Ok tt, MoreExamples.doneWorld).
Proof.
  apply (cancel_without_cancelled_state_is_silent "ENG-1" (firstn 4 teamStates) None
           MoreExamples.doneIssue MoreExamples.doneWorld).
  - reflexivity.
  - intros s Hs. simpl in Hs.
    destruct Hs as [<- | [<- | [<- | [<- | []]]]]; split; vm_compute; discriminate.
  - reflexivity.
Defined.

(** X26.  Cancelling an issue the service knows, with the team's own states
    of which one is a cancelled one, moves the issue to the first such
    state and keeps its title and priority; no file is touched.  Without a
    comment the issue's comments stay as they are; with one, it is appended
    as the last comment. *)
Theorem cancel_moves_to_first_cancelled_state
    (linearId : string) (comment : option string)
    (issue : LinearIssue) (s : LinearState) (w : World) :
  Api.find_issue linearId (remote w) = Some issue ->
  find (fun i => String.eqb (issue_uuid i) (issue_uuid issue))
       (remote_issues (remote w)) = Some issue ->
  find is_cancelled_state (remote_states (remote w)) = Some s ->
  exists w' issue',
    pushCancel linearId (remote_states (remote w)) comment w = (Ok tt, w') /\
    fs w' = fs w /\
    Api.find_issue linearId (remote w') = Some issue' /\
    issue_stateId issue' = state_id s /\
    issue_title issue' = issue_title issue /\
    issue_priority issue' = issue_priority issue /\
    if Store.set comment
    then exists c, issue_comments issue'
                   = Some (default [] (issue_comments issue) ++ [c]) /\
                   comment_body c = default "" comment
    else issue_comments issue' = issue_comments issue.
Proof.
  intros Hissue Huuid Hstate.
  pose proof (find_issue_identifier _ _ _ Hissue) as Hident.
  pose proof (find_some _ _ Hstate) as [Hin _].
  destruct (state_by_id_found s (remote w) Hin) as (st0 & Hst0 & Hsid).
  unfold pushCancel, se_bind at 1. unfold Api.getIssueByIdentifier. rewrite Hissue.
  cbv zeta. rewrite Hstate.
  set (input := {| Api.ui_title := None; Api.ui_priority := None;
                   Api.ui_stateId := Some (state_id s) |}).
  assert (Hres : Api.resolve_state (Api.ui_stateId input) (Some (issue_state issue))
                   (remote w) = Some (state_id st0, state_name st0)).
  { unfold Api.resolve_state. cbn [input Api.ui_stateId]. rewrite Hst0. reflexivity. }
  set (new := Api.apply_update input (state_id st0, state_name st0)
                (JsDate.toISOString (clock w)) issue).
  assert (Hup : Api.updateIssue (issue_uuid issue) input w
                = (Ok new,
                   set_remote (fun r =>
                     {| remote_issues :=
                          map (fun i => if String.eqb (issue_uuid i) (issue_uuid issue)
                                        then new else i) (remote_issues r);
                        remote_states := remote_states r;
                        remote_teamKey := remote_teamKey r;
                        remote_next := remote_next r |}) w)).
  { unfold Api.updateIssue. cbv zeta. rewrite Huuid, Hres. reflexivity. }
  unfold se_bind at 1. unfold se_bind at 1. unfold se_bind at 1.
  rewrite Hup. unfold se_ret at 1.
  assert (Hnew1 : Api.find_issue linearId
                    {| remote_issues :=
                         map (fun i => if String.eqb (issue_uuid i) (issue_uuid issue)
                                       then new else i) (remote_issues (remote w));
                       remote_states := remote_states (remote w);
                       remote_teamKey := remote_teamKey (remote w);
                       remote_next := remote_next (remote w) |} = Some new).
  { unfold Api.find_issue. cbn [remote_issues].
    apply (find_after_replace _ _ _ issue); [exact Hissue | exact Huuid |].
    cbn. rewrite Hident. apply String.eqb_refl. }
  assert (Hnew2 : find (fun i => String.eqb (issue_uuid i) (issue_uuid issue))
                    (map (fun i => if String.eqb (issue_uuid i) (issue_uuid issue)
                                   then new else i) (remote_issues (remote w)))
                  = Some new).
  { apply (find_after_replace _ _ _ issue); [exact Huuid | exact Huuid |].
    cbn. apply String.eqb_refl. }
  destruct (Store.set comment) eqn:Hcomment.
  - unfold createComment. cbv zeta.
    cbn [remote set_remote remote_issues]. rewrite Hnew2.
    unfold se_ret. eexists. eexists. split; [reflexivity |].
    split; [reflexivity |].
    split.
    { unfold Api.find_issue. cbn [remote set_remote remote_issues].
      apply (find_after_replace _ _ _ new); [exact Hnew1 | exact Hnew2 |].
      cbn [issue_identifier new Api.apply_update]. rewrite Hident.
      apply String.eqb_refl. }
    cbn [issue_title issue_priority issue_comments new Api.apply_update input
         Api.ui_title Api.ui_priority]. unfold issue_stateId.
    cbn [issue_state fst default].
    split; [exact Hsid |]. split; [reflexivity |]. split; [reflexivity |].
    eexists. split; reflexivity.
  - unfold se_ret. exists (set_remote (fun r =>
                     {| remote_issues :=
                          map (fun i => if String.eqb (issue_uuid i) (issue_uuid issue)
                                        then new else i) (remote_issues r);
                        remote_states := remote_states r;
                        remote_teamKey := remote_teamKey r;
                        remote_next := remote_next r |}) w), new.
    split; [reflexivity |]. split; [reflexivity |].
    split; [exact Hnew1 |].
    unfold issue_stateId.
    cbn [issue_title issue_priority issue_comments issue_state new Api.apply_update input
         Api.ui_title Api.ui_priority fst]. 
    split; [exact Hsid |]. repeat split; reflexivity.
Qed.

(** The done issue is cancelled with a note. *)
Lemma cancel_done_issue_example :
  exists w' issue',
    pushCancel "ENG-1" (remote_states (remote MoreExamples.doneWorld))
      (Some "superseded") MoreExamples.doneWorld = (Ok tt, w') /\
    Api.find_issue "ENG-1" (remote w') = Some issue' /\
    issue_stateId issue' = "s5".
Proof.
  destruct (cancel_moves_to_first_cancelled_state "ENG-1" (Some "superseded")
              MoreExamples.doneIssue (mkLinearState "s5" "Cancelled" "canceled")
              MoreExamples.doneWorld)
    as (w' & issue' & Hrun & _ & Hfind & Hstate & _).
  - reflexivity.
  - reflexivity.
  - reflexivity.
  - exists w', issue'. split; [exact Hrun |]. split; [exact Hfind | exact Hstate].
Defined.

End CancelProperties.
